(** * P_CRAWLER: enrichment scoring and permutation testing (prowler/stats.py)

    A shallow embedding of [Stats] and [Ortho_Stats] from [prowler/stats.py].

    Numbers.  A Python float that is an argument of [math.log] or [int] is a
    finite binary64 value or NaN; it is modelled by an exact rational (every
    finite binary64 value is one) or [NaN], and the four operations are taken
    exactly, without binary64 rounding.  The value of a logarithm is a real
    number ([ln] of the Standard Library), again with exact sums and
    products.  All control flow of the program (comparisons, [int], domain
    checks of [math.log]) is on the rational side and computes. *)

From Stdlib Require Import String Ascii DecimalString Bool Arith.
From Stdlib Require Import ZArith QArith Qcanon Qround Qreals Reals Lra Lia.
From Stdlib Require Import List Permutation Sorted.
Import ListNotations.

Local Open Scope string_scope.
Local Open Scope list_scope.
Local Open Scope Z_scope.

(** ** Exceptions and results *)

Inductive pyerror : Type :=
| ValueError (msg : string)
| ZeroDivisionError
| KeyError
| IndexError
| AttributeError (name : string)
| UnboundLocalError (name : string)
| TypeError
| LibraryError.

Inductive result (A : Type) : Type :=
| Ok (a : A)
| Raise (e : pyerror).

Arguments Ok {A} a.
Arguments Raise {A} e.

Definition rbind {A B : Type} (m : result A) (f : A -> result B) : result B :=
  match m with
  | Ok a => f a
  | Raise e => Raise e
  end.

Notation "'let!' x ':=' m 'in' k" := (rbind m (fun x => k))
  (at level 10, x name, m at level 100, k at level 200).

(** Left-to-right traversal that stops at the first exception: a [for] loop
    or [Series.apply] whose body may raise. *)
Fixpoint mapM {A B : Type} (f : A -> result B) (l : list A) : result (list B) :=
  match l with
  | [] => Ok []
  | x :: xs =>
      let! y := f x in
      let! ys := mapM f xs in
      Ok (y :: ys)
  end.

Fixpoint foldM {A B : Type} (f : A -> B -> result A) (l : list B) (a : A)
  : result A :=
  match l with
  | [] => Ok a
  | x :: xs => let! a' := f a x in foldM f xs a'
  end.

Definition math_domain_error : pyerror := ValueError "math domain error".
Definition nan_to_int_error : pyerror :=
  ValueError "cannot convert float NaN to integer".

(** ** Floats *)

Inductive pyfloat : Type :=
| Fin (q : Q)
| NaN.

(** The value of a logarithm, or of sums and products of logarithms. *)
Inductive logval : Type :=
| LV (r : R)
| LNaN
| LPosInf
| LNegInf.

Definition of_int (z : Z) : pyfloat := Fin (inject_Z z).

Definition fl_sub (a b : pyfloat) : pyfloat :=
  match a, b with
  | Fin x, Fin y => Fin (x - y)
  | _, _ => NaN
  end.

Definition fl_mul (a b : pyfloat) : pyfloat :=
  match a, b with
  | Fin x, Fin y => Fin (x * y)
  | _, _ => NaN
  end.

(** [a / b] on Python floats. *)
Definition fl_div (a b : Q) : result Q :=
  if Qeq_bool b 0 then Raise ZeroDivisionError else Ok (a / b)%Q.

(** Truncation toward zero. *)
Definition trunc (q : Q) : Z :=
  if Qle_bool 0 q then Qfloor q else Qceiling q.

(** [int(x)] *)
Definition py_int (x : pyfloat) : result Z :=
  match x with
  | Fin q => Ok (trunc q)
  | NaN => Raise nan_to_int_error
  end.

(** [math.log(x)] *)
Definition math_log (x : pyfloat) : result logval :=
  match x with
  | Fin q => if Qle_bool q 0 then Raise math_domain_error
             else Ok (LV (ln (Q2R q)))
  | NaN => Ok LNaN
  end.

Definition lv_add (a b : logval) : logval :=
  match a, b with
  | LV x, LV y => LV (x + y)%R
  | LNaN, _ | _, LNaN => LNaN
  | LPosInf, LNegInf | LNegInf, LPosInf => LNaN
  | LPosInf, _ | _, LPosInf => LPosInf
  | LNegInf, _ | _, LNegInf => LNegInf
  end.

(** [z * v] for a Python [int] [z] and a float [v]. *)
Definition lv_scale (z : Z) (v : logval) : logval :=
  match v with
  | LV x => LV (IZR z * x)%R
  | LNaN => LNaN
  | LPosInf => if z =? 0 then LNaN else if 0 <? z then LPosInf else LNegInf
  | LNegInf => if z =? 0 then LNaN else if 0 <? z then LNegInf else LPosInf
  end.

(** [np.log2(a / b)] on two cells of numeric columns: numpy raises nothing,
    division by zero and logarithms of non-positive numbers give infinities
    and NaN. *)
Definition np_log2_ratio (a b : pyfloat) : logval :=
  match a, b with
  | Fin x, Fin y =>
      if Qeq_bool y 0 then
        (if Qeq_bool x 0 then LNaN
         else if Qle_bool 0 x then LPosInf else LNaN)
      else
        let q := (x / y)%Q in
        if Qeq_bool q 0 then LNegInf
        else if Qle_bool 0 q then LV (ln (Q2R q) / ln 2)%R
        else LNaN
  | _, _ => LNaN
  end.

(** [range(a, b)] *)
Definition range (a b : Z) : list Z :=
  map (fun i => a + Z.of_nat i) (seq 0 (Z.to_nat (b - a))).

(** ** Stats._log_binomial_coeff and Stats._score *)

(** The body of the [for] loop: [w += math.log((n - i + 1.0) / float(i))]. *)
Definition log_binomial_step (n : Q) (w : logval) (i : Z) : result logval :=
  let! x := fl_div (n - inject_Z i + 1) (inject_Z i) in
  let! l := math_log (Fin x) in
  Ok (lv_add w l).

(** Lines 75-76: [if k > n / 2: k = int(n - k)], the number of iterations. *)
Definition loop_count (n : Q) (k : Z) : Z :=
  if negb (Qle_bool (inject_Z k) (n / 2))
  then trunc (n - inject_Z k)
  else k.

Definition _log_binomial_coeff (n0 k0 : Z) : result logval :=
  let n := inject_Z n0 in
  let w := LV 0%R in
  let k := loop_count n k0 in
  foldM (log_binomial_step n) (range 1 (k + 1)) w.

Definition _score (hit_num prot_num background_p : pyfloat) : result logval :=
  let! prot_num := py_int prot_num in
  let! hit_num := py_int hit_num in
  let! c := _log_binomial_coeff prot_num hit_num in
  let! lp := math_log background_p in
  let! lq := math_log (fl_sub (Fin 1) background_p) in
  Ok (lv_add (lv_add c (lv_scale hit_num lp))
             (lv_scale (prot_num - hit_num) lq)).

(** ** Tables

    A cell of a table.  A float cell holds a canonical rational, so that two
    cells are the same value exactly when they are equal. *)

#[warnings="-register-all"]
Inductive cell : Type :=
| VStr (s : string)
| VInt (z : Z)
| VFloat (q : Qc)
| VNaN
| VList (l : list cell).      (* a Python list or array held in a cell *)

Inductive label : Type :=
| LStr (s : string)
| LInt (z : Z).

Coercion LStr : string >-> label.

Definition label_eqb (a b : label) : bool :=
  match a, b with
  | LStr x, LStr y => String.eqb x y
  | LInt x, LInt y => Z.eqb x y
  | _, _ => false
  end.

Fixpoint cell_eqb (a b : cell) {struct a} : bool :=
  match a, b with
  | VStr x, VStr y => String.eqb x y
  | VInt x, VInt y => Z.eqb x y
  | VFloat x, VFloat y => Qeq_bool x y
  | VNaN, VNaN => true
  | VList x, VList y =>
      (fix go (x y : list cell) {struct x} : bool :=
         match x, y with
         | [], [] => true
         | a' :: x', b' :: y' => cell_eqb a' b' && go x' y'
         | _, _ => false
         end) x y
  | _, _ => false
  end.

Fixpoint row_eqb (r1 r2 : list cell) : bool :=
  match r1, r2 with
  | [], [] => true
  | a :: r1', b :: r2' => cell_eqb a b && row_eqb r1' r2'
  | _, _ => false
  end.

Definition is_nan (c : cell) : bool :=
  match c with VNaN => true | _ => false end.

(** The order in which [groupby] sorts its keys.  A key column holds
    integers, floats or strings, all of one kind; the kinds are ranked only
    to make the order total. *)
Definition cell_rank (a : cell) : Z :=
  match a with
  | VNaN => 0
  | VInt _ => 1
  | VFloat _ => 2
  | VStr _ => 3
  | VList _ => 4
  end.

Definition cell_cmp (a b : cell) : comparison :=
  match a, b with
  | VInt x, VInt y => Z.compare x y
  | VFloat x, VFloat y => Qcompare x y
  | VStr x, VStr y => String.compare x y
  | _, _ => Z.compare (cell_rank a) (cell_rank b)
  end.

Record DataFrame : Type := mkDF {
  columns : list label;
  index : list Z;
  data : list (list cell)       (* one list of cells per row *)
}.

(** [len(df)] *)
Definition len (df : DataFrame) : Z := Z.of_nat (length (data df)).

Fixpoint position (l : label) (ls : list label) : option nat :=
  match ls with
  | [] => None
  | x :: xs => if label_eqb l x then Some O
               else option_map S (position l xs)
  end.

(** The cells of column [l], one per row. *)
Definition column_values (df : DataFrame) (l : label) : result (list cell) :=
  match position l (columns df) with
  | Some j => Ok (map (fun r => nth j r VNaN) (data df))
  | None => Raise KeyError
  end.

(** ** Stats.calculate_enrichment *)

(** [df.groupby(by=[col]).size()] followed by [reset_index()]: the distinct
    keys in ascending order, each with its number of rows; rows whose key is
    NaN belong to no group. *)
Fixpoint bump (k : cell) (bins : list (cell * Z)) : list (cell * Z) :=
  match bins with
  | [] => [(k, 1)]
  | (k', c) :: rest =>
      match cell_cmp k k' with
      | Eq => (k', c + 1) :: rest
      | Lt => (k, 1) :: bins
      | Gt => (k', c) :: bump k rest
      end
  end.

Definition groupby_size (keys : list cell) : list (cell * Z) :=
  fold_left (fun bins k => if is_nan k then bins else bump k bins) keys [].

Record EnrichmentBin : Type := mkBin {
  category : cell;
  COUNT : Z;
  P : pyfloat;
  COUNT_EXP : pyfloat;
  SCORE : logval;
  SCORE_EXP : logval;
  FOLD_CHNG : logval
}.

(** [frame[name] = frame.apply(f, axis=1)]: [f] is run on the rows from the
    first to the last and the new column is attached afterwards. *)
Definition assign_apply {A B : Type} (f : A -> result B) (rows : list A)
  : result (list (A * B)) :=
  mapM (fun r => let! v := f r in Ok (r, v)) rows.

(** [selected_bins[P] = series]: the assignment aligns on the row labels,
    which after [reset_index()] are the positions 0, 1, ...; a row without a
    partner in [series] receives NaN. *)
Fixpoint assign_aligned {A : Type} (rows : list A) (series : list Q)
  : list (A * pyfloat) :=
  match rows with
  | [] => []
  | r :: rs =>
      match series with
      | [] => (r, NaN) :: assign_aligned rs []
      | p :: ps => (r, Fin p) :: assign_aligned rs ps
      end
  end.

Definition calculate_enrichment (selected total : DataFrame) (col : label)
  : result (list EnrichmentBin) :=
  if (len selected =? 0) || (len total =? 0) then
    Raise (ValueError "selected and total dataframes must not be empty.")
  else if len total <? len selected then
    Raise (ValueError "selected must not be longer bigger than total.")
  else
    let! sel_keys := column_values selected col in
    let selected_bins := groupby_size sel_keys in
    let! tot_keys := column_values total col in
    let expected_bins := groupby_size tot_keys in
    let! p_series :=
      mapM (fun x => fl_div (inject_Z x) (inject_Z (len total)))
           (map snd expected_bins) in
    let with_p := assign_aligned selected_bins p_series in
    let! with_exp :=
      assign_apply (fun x => Ok (fl_mul (of_int (len selected)) (snd x)))
                   with_p in
    let! with_score :=
      assign_apply
        (fun x => _score (of_int (snd (fst (fst x))))
                         (of_int (len selected))
                         (snd (fst x)))
        with_exp in
    let! with_score_exp :=
      assign_apply
        (fun x => _score (snd (fst x))
                         (of_int (len selected))
                         (snd (fst (fst x))))
        with_score in
    Ok (map (fun x =>
               match x with
               | (((((k, c), p), ce), s), se) =>
                   mkBin k c p ce s se (np_log2_ratio (of_int c) ce)
               end)
            with_score_exp).

(** ** The pandas operations the permutation code uses

    Each operation below returns a new table; the assignments that change an
    object in place ([.columns = ...], [.index = ...],
    [drop_duplicates(inplace=True)]) are given as functions from the old
    value to the new one and are applied to the object in the store further
    down. *)

Record Series : Type := mkSeries {
  sname : option label;
  sindex : list Z;
  svalues : list cell
}.

Definition label_mem (l : label) (ls : list label) : bool :=
  existsb (label_eqb l) ls.

Definition position_or (e : pyerror) (ls : list label) (l : label)
  : result nat :=
  match position l ls with
  | Some j => Ok j
  | None => Raise e
  end.

(** [df[[l1, l2, ...]]]: a copy holding the named columns. *)
Definition df_getitem_list (df : DataFrame) (ls : list label)
  : result DataFrame :=
  let! js := mapM (position_or KeyError (columns df)) ls in
  Ok (mkDF ls (index df)
           (map (fun r => map (fun j => nth j r VNaN) js) (data df))).

(** [df[l]] *)
Definition df_getitem (df : DataFrame) (l : label) : result Series :=
  let! vs := column_values df l in
  Ok (mkSeries (Some l) (index df) vs).

(** [df.l] *)
Definition df_getattr (df : DataFrame) (l : string) : result Series :=
  match position (LStr l) (columns df) with
  | Some j => Ok (mkSeries (Some (LStr l)) (index df)
                           (map (fun r => nth j r VNaN) (data df)))
  | None => Raise (AttributeError l)
  end.

Fixpoint drop_cells (cols ls : list label) (r : list cell) : list cell :=
  match cols, r with
  | c :: cs, v :: vs =>
      if label_mem c ls then drop_cells cs ls vs
      else v :: drop_cells cs ls vs
  | _, _ => []
  end.

(** [df.drop(ls, axis=1)] *)
Definition df_drop (df : DataFrame) (ls : list label) : result DataFrame :=
  if forallb (fun l => label_mem l (columns df)) ls then
    Ok (mkDF (filter (fun c => negb (label_mem c ls)) (columns df))
             (index df)
             (map (drop_cells (columns df) ls) (data df)))
  else Raise KeyError.

Definition length_mismatch : pyerror := ValueError "Length mismatch".

(** [df.columns = ls] *)
Definition set_columns (ls : list label) (df : DataFrame) : result DataFrame :=
  if (length ls =? length (columns df))%nat
  then Ok (mkDF ls (index df) (data df))
  else Raise length_mismatch.

(** [df.index = ix] *)
Definition set_index (ix : list Z) (df : DataFrame) : result DataFrame :=
  if (length ix =? length (data df))%nat
  then Ok (mkDF (columns df) ix (data df))
  else Raise length_mismatch.

(** [s.index = ix] *)
Definition set_sindex (ix : list Z) (s : Series) : result Series :=
  if (length ix =? length (svalues s))%nat
  then Ok (mkSeries (sname s) ix (svalues s))
  else Raise length_mismatch.

Definition range_labels (n : nat) : list label :=
  map LInt (range 0 (Z.of_nat n)).

(** The row [r] of a table with columns [cols], laid out on the columns
    [target]; a column the table does not have is filled with NaN. *)
Definition relayout (cols target : list label) (r : list cell) : list cell :=
  map (fun c => match position c cols with
                | Some j => nth j r VNaN
                | None => VNaN
                end) target.

(** [pd.concat([a, b], ignore_index=True)] *)
Definition concat_rows (a b : DataFrame) : DataFrame :=
  let cols := columns a ++
              filter (fun c => negb (label_mem c (columns a))) (columns b) in
  let rows := map (relayout (columns a) cols) (data a) ++
              map (relayout (columns b) cols) (data b) in
  mkDF cols (range 0 (Z.of_nat (length rows))) rows.

(** [df.drop_duplicates()]: a row equal to an earlier one is removed, the
    others keep their labels. *)
Fixpoint dedup (seen : list (list cell)) (rows : list (Z * list cell))
  : list (Z * list cell) :=
  match rows with
  | [] => []
  | (i, r) :: rest =>
      if existsb (row_eqb r) seen then dedup seen rest
      else (i, r) :: dedup (r :: seen) rest
  end.

Definition drop_duplicates (df : DataFrame) : result DataFrame :=
  let kept := dedup [] (combine (index df) (data df)) in
  Ok (mkDF (columns df) (map fst kept) (map snd kept)).

(** [numpy.take]: the elements at the positions [idx], in that order. *)
Definition take {A : Type} (idx : list nat) (xs : list A) : result (list A) :=
  mapM (fun i => match nth_error xs i with
                 | Some x => Ok x
                 | None => Raise IndexError
                 end) idx.

(** [df.sample(len(df))] and [s.sample(len(s))], the random generator
    having drawn the positions [idx]. *)
Definition df_sample (idx : list nat) (df : DataFrame) : result DataFrame :=
  let! ix := take idx (index df) in
  let! rows := take idx (data df) in
  Ok (mkDF (columns df) ix rows).

Definition s_sample (idx : list nat) (s : Series) : result Series :=
  let! ix := take idx (sindex s) in
  let! vs := take idx (svalues s) in
  Ok (mkSeries (sname s) ix vs).

(** A series as a one-column table; a series without a name is given the
    number [k]. *)
Definition to_frame (k : Z) (s : Series) : DataFrame :=
  mkDF [match sname s with Some l => l | None => LInt k end]
       (sindex s)
       (map (fun v => [v]) (svalues s)).

Fixpoint zip_rows (a b : list (list cell)) : list (list cell) :=
  match a, b with
  | x :: a', y :: b' => (x ++ y) :: zip_rows a' b'
  | _, _ => []
  end.

Definition index_eqb (a b : list Z) : bool :=
  if list_eq_dec Z.eq_dec a b then true else false.

(** [pd.concat([a, b], axis=1)] for two tables with the same row labels in
    the same order, which is what every call of the program passes (each
    call is preceded by the assignment of one index to both tables).  The
    alignment pandas performs on tables with different labels is not
    modelled. *)
Definition hcat (a b : DataFrame) : result DataFrame :=
  if index_eqb (index a) (index b) then
    Ok (mkDF (columns a ++ columns b) (index a) (zip_rows (data a) (data b)))
  else Raise LibraryError.

Definition string_of_Z (z : Z) : string :=
  DecimalString.NilZero.string_of_int (Z.to_int z).

Definition add_suffix (suf : string) (l : label) : label :=
  match l with
  | LStr s => LStr (s ++ suf)
  | LInt z => LStr (string_of_Z z ++ suf)
  end.

Definition suffix_overlap (other : list label) (suf : string) (l : label)
  : label :=
  if label_mem l other then add_suffix suf l else l.

(** [pd.merge(left, right, left_on=.., right_on=.., how="left",
    suffixes=..)]: every row of [left], in order, is extended with each row of
    [right] that has the same key, or with NaN when there is none; a label
    the two tables share receives the suffixes.  A label made by a suffix may
    repeat one that [left] already has, as the pandas versions the program
    was written for allow; [position] then finds the first of them. *)
Definition join_rows (jl jr : nat) (ncols : nat) (R : list (list cell))
  (l : list cell) : list (list cell) :=
  match filter (fun r => cell_eqb (nth jl l VNaN) (nth jr r VNaN)) R with
  | [] => [l ++ repeat VNaN ncols]
  | ms => map (fun r => l ++ r) ms
  end.

Definition merge_left (left right : DataFrame) (left_on right_on : label)
  (suffixes : string * string) : result DataFrame :=
  let! jl := position_or KeyError (columns left) left_on in
  let! jr := position_or KeyError (columns right) right_on in
  let rows :=
    flat_map (join_rows jl jr (length (columns right)) (data right))
             (data left) in
  Ok (mkDF (map (suffix_overlap (columns right) (fst suffixes)) (columns left)
            ++ map (suffix_overlap (columns left) (snd suffixes))
                   (columns right))
           (range 0 (Z.of_nat (length rows)))
           rows).

(** [pd.DataFrame(rows, index=ix, columns=cols)] *)
Definition DataFrame_of_rows (rows : list (list cell)) (ix : list Z)
  (cols : list label) : result DataFrame :=
  if (length ix =? length rows)%nat
     && forallb (fun r => (length r =? length cols)%nat) rows
  then Ok (mkDF cols ix rows)
  else Raise (ValueError "Shape of passed values").

(** [getattr(ii, name)] for a tuple [ii] of [df.itertuples()]. *)
Definition tuple_getattr (cols : list label) (ii : list cell) (name : string)
  : result cell :=
  let! j := position_or (AttributeError name) cols (LStr name) in
  Ok (nth j ii VNaN).

(** [df[name] = values]: the column is replaced when the table has it and
    appended otherwise. *)
Fixpoint set_nth {A : Type} (j : nat) (v : A) (l : list A) : list A :=
  match j, l with
  | O, _ :: xs => v :: xs
  | S j', x :: xs => x :: set_nth j' v xs
  | _, [] => []
  end.

Fixpoint zip_with {A B C : Type} (f : A -> B -> C) (a : list A) (b : list B)
  : list C :=
  match a, b with
  | x :: a', y :: b' => f x y :: zip_with f a' b'
  | _, _ => []
  end.

Definition assign_column (df : DataFrame) (name : label) (values : list cell)
  : result DataFrame :=
  if (length values =? length (data df))%nat then
    match position name (columns df) with
    | Some j =>
        Ok (mkDF (columns df) (index df)
                 (zip_with (fun r v => set_nth j v r) (data df) values))
    | None =>
        Ok (mkDF (columns df ++ [name]) (index df)
                 (zip_with (fun r v => r ++ [v]) (data df) values))
    end
  else Raise length_mismatch.

(** ** Classification of the scored pairs *)

Definition num_of_cell (c : cell) : option Q :=
  match c with
  | VInt z => Some (inject_Z z)
  | VFloat q => Some (this q)
  | _ => None
  end.

(** [df[PSS] >= in_prof_sim_lev]; a comparison with NaN is false. *)
Definition sim_prof_bool (in_prof_sim_lev : Q) (pss : cell) : bool :=
  match num_of_cell pss with
  | Some q => Qle_bool in_prof_sim_lev q
  | None => false
  end.

(** [(df[PSS] < in_prof_sim_lev) & (df[PSS] > 0)] *)
Definition unsim_prof_bool (in_prof_sim_lev : Q) (pss : cell) : bool :=
  match num_of_cell pss with
  | Some q => negb (Qle_bool in_prof_sim_lev q) && negb (Qle_bool q 0)
  | None => false
  end.

(** [df[PSS] == 0] *)
Definition mir_prof_bool (pss : cell) : bool :=
  match num_of_cell pss with
  | Some q => Qeq_bool q 0
  | None => false
  end.

(** [len(df[mask])] *)
Definition count_mask (mask : cell -> bool) (pss : list cell) : Z :=
  Z.of_nat (length (filter mask pss)).

Record Counts : Type := mkCounts {
  sim_prof_perm_num : Z;
  unsim_prof_perm_num : Z;
  mir_prof_perm_num : Z
}.

Definition classify (in_prof_sim_lev : Q) (pss : list cell) : Counts :=
  mkCounts (count_mask (sim_prof_bool in_prof_sim_lev) pss)
           (count_mask (unsim_prof_bool in_prof_sim_lev) pss)
           (count_mask mir_prof_bool pss).

(** ** The store

    Tables, series and lists are objects.  [outer] holds the objects that
    exist when an entry point is called (among them the caller's interaction
    table and profile catalogue), [fresh] the ones allocated since.  An
    assignment to an attribute of an object replaces the object at its
    location, wherever that is. *)

Inductive obj : Type :=
| ODataFrame (df : DataFrame)
| OSeries (s : Series)
| OList (l : list (list cell)).

Inductive loc : Type :=
| Outer (n : nat)
| Fresh (n : nat).

(** A value of a dictionary returned by a trial, and the table
    [pd.DataFrame] makes of such dictionaries. *)
Inductive pyval : Type :=
| PInt (z : Z)
| PRef (l : loc)
| PNone.

Definition trial_dict : Type := list (string * pyval).

Record ResultsFrame : Type := mkResults {
  rcolumns : list string;
  rrows : list (list pyval)
}.

Inductive npfloat : Type :=
| NpFin (q : Q)
| NpNaN
| NpInf (negative : bool).

(** The attributes of an [Ortho_Stats] instance.  The last four are not set
    by [__init__]; they appear when an entry point assigns them. *)
Record Ortho_Stats : Type := mkOrtho {
  query_species : list string;
  inter_df : loc;
  gene_profiles : loc;
  perm_results : option ResultsFrame;
  prof_arr_perm_results : option ResultsFrame;
  prof_arr_perm_res_avg : option (list (string * npfloat));
  prof_KO_perm_results : option ResultsFrame;
  prof_KO_perm_res_avg : option (list (string * npfloat))
}.

Record store : Type := mkStore {
  outer : list obj;
  fresh : list obj;
  instance : Ortho_Stats        (* the object the method is called on *)
}.

Definition M (A : Type) : Type := store -> result A * store.

Definition ret {A : Type} (a : A) : M A := fun s => (Ok a, s).

Definition raise {A : Type} (e : pyerror) : M A := fun s => (Raise e, s).

Definition bind {A B : Type} (m : M A) (f : A -> M B) : M B :=
  fun s =>
    match m s with
    | (Ok a, s') => f a s'
    | (Raise e, s') => (Raise e, s')
    end.

Definition lift {A : Type} (r : result A) : M A := fun s => (r, s).

Declare Scope py_scope.
Delimit Scope py_scope with py.
Notation "x <- m ;; k" := (bind m (fun x => k))
  (at level 61, m at next level, right associativity) : py_scope.
Notation "m ;; k" := (bind m (fun _ => k))
  (at level 61, right associativity) : py_scope.

Local Open Scope py_scope.

Definition lookup (l : loc) (s : store) : option obj :=
  match l with
  | Outer n => nth_error (outer s) n
  | Fresh n => nth_error (fresh s) n
  end.

Definition alloc (o : obj) : M loc :=
  fun s => (Ok (Fresh (length (fresh s))),
            mkStore (outer s) (fresh s ++ [o]) (instance s)).

Definition read (l : loc) : M obj :=
  fun s =>
    match lookup l s with
    | Some o => (Ok o, s)
    | None => (Raise LibraryError, s)
    end.

Definition write (l : loc) (o : obj) : M unit :=
  fun s =>
    match l with
    | Outer n =>
        (Ok tt, mkStore (set_nth n o (outer s)) (fresh s) (instance s))
    | Fresh n =>
        (Ok tt, mkStore (outer s) (set_nth n o (fresh s)) (instance s))
    end.

(** [self] *)
Definition get_self : M Ortho_Stats := fun s => (Ok (instance s), s).

(** [self.name = v], given as the change of the attributes. *)
Definition set_self (f : Ortho_Stats -> Ortho_Stats) : M unit :=
  fun s => (Ok tt, mkStore (outer s) (fresh s) (f (instance s))).

Definition read_df (l : loc) : M DataFrame :=
  o <- read l ;;
  match o with
  | ODataFrame df => ret df
  | _ => raise TypeError
  end.

Definition read_series (l : loc) : M Series :=
  o <- read l ;;
  match o with
  | OSeries sr => ret sr
  | _ => raise TypeError
  end.

Definition read_list (l : loc) : M (list (list cell)) :=
  o <- read l ;;
  match o with
  | OList x => ret x
  | _ => raise TypeError
  end.

Definition new_df (r : result DataFrame) : M loc :=
  df <- lift r ;; alloc (ODataFrame df).

Definition new_series (r : result Series) : M loc :=
  sr <- lift r ;; alloc (OSeries sr).

(** An assignment that changes the table at [l] in place. *)
Definition update_df (l : loc) (f : DataFrame -> result DataFrame) : M unit :=
  df <- read_df l ;;
  df' <- lift (f df) ;;
  write l (ODataFrame df').

Definition update_series (l : loc) (f : Series -> result Series) : M unit :=
  sr <- read_series l ;;
  sr' <- lift (f sr) ;;
  write l (OSeries sr').

Fixpoint mapM_M {A B : Type} (f : A -> M B) (l : list A) : M (list B) :=
  match l with
  | [] => ret []
  | x :: xs =>
      y <- f x ;;
      ys <- mapM_M f xs ;;
      ret (y :: ys)
  end.

(** ** Statements on objects of the store *)

(** [x = df[[l1, l2, ...]]] *)
Definition getitem_list (df : loc) (ls : list label) : M loc :=
  d <- read_df df ;; new_df (df_getitem_list d ls).

(** [x = df[l]].  The series shares its values with the table; the program
    never assigns to the values of a series, and an assignment to the index
    of a series does not reach the table, so the series is an object of its
    own here. *)
Definition getitem (df : loc) (l : label) : M loc :=
  d <- read_df df ;; new_series (df_getitem d l).

(** [x = df.name] *)
Definition getattr_column (df : loc) (name : string) : M loc :=
  d <- read_df df ;; new_series (df_getattr d name).

(** [x = df.drop(ls, axis=1)] *)
Definition drop (df : loc) (ls : list label) : M loc :=
  d <- read_df df ;; new_df (df_drop d ls).

(** [df.columns = range(len(df.columns))] *)
Definition set_columns_range (df : loc) : M unit :=
  update_df df (fun d => set_columns (range_labels (length (columns d))) d).

(** [df.columns = ls] *)
Definition set_columns_to (df : loc) (ls : list label) : M unit :=
  update_df df (set_columns ls).

(** [df.index = range(len(df))] *)
Definition set_index_range (df : loc) : M unit :=
  update_df df (fun d => set_index (range 0 (len d)) d).

(** [s.index = range(len(s))] *)
Definition set_sindex_range (sr : loc) : M unit :=
  update_series sr
    (fun x => set_sindex (range 0 (Z.of_nat (length (svalues x)))) x).

(** [s.index = df.index] *)
Definition set_sindex_of (sr df : loc) : M unit :=
  d <- read_df df ;;
  update_series sr (set_sindex (index d)).

(** [x = pd.concat([a, b], ignore_index=True)] *)
Definition concat_ignore_index (a b : loc) : M loc :=
  da <- read_df a ;;
  db <- read_df b ;;
  alloc (ODataFrame (concat_rows da db)).

(** [df.drop_duplicates(inplace=True)] *)
Definition drop_duplicates_inplace (df : loc) : M unit :=
  update_df df drop_duplicates.

(** [x = df.sample(len(df))]; [draw n] is what the random generator yields
    for a population of [n] rows. *)
Definition sample (df : loc) (draw : nat -> list nat) : M loc :=
  d <- read_df df ;;
  new_df (df_sample (draw (length (data d))) d).

(** [x = s.sample(len(s))] *)
Definition sample_series (sr : loc) (draw : nat -> list nat) : M loc :=
  x <- read_series sr ;;
  new_series (s_sample (draw (length (svalues x))) x).

(** [x = pd.concat([a, b], axis=1)] for two tables *)
Definition concat_axis1 (a b : loc) : M loc :=
  da <- read_df a ;;
  db <- read_df b ;;
  new_df (hcat da db).

(** [x = pd.concat([a, b], axis=1)] for two series *)
Definition concat_series_axis1 (a b : loc) : M loc :=
  sa <- read_series a ;;
  sb <- read_series b ;;
  new_df (hcat (to_frame 0 sa) (to_frame 1 sb)).

(** [x = pd.concat([df, a, b], axis=1)] for a table and two series *)
Definition concat_df_series2_axis1 (df a b : loc) : M loc :=
  d <- read_df df ;;
  sa <- read_series a ;;
  sb <- read_series b ;;
  new_df (let! ab := hcat (to_frame 0 sa) (to_frame 1 sb) in hcat d ab).

(** [x = pd.concat([a, b, c], axis=1)] for three tables *)
Definition concat3_axis1 (a b c : loc) : M loc :=
  da <- read_df a ;;
  db <- read_df b ;;
  dc <- read_df c ;;
  new_df (let! bc := hcat db dc in hcat da bc).

(** [x = pd.merge(left, right, left_on=.., right_on=.., how="left",
    suffixes=..)] *)
Definition merge (left right : loc) (left_on right_on : label)
  (suffixes : string * string) : M loc :=
  dl <- read_df left ;;
  dr <- read_df right ;;
  new_df (merge_left dl dr left_on right_on suffixes).

(** The three counts every trial ends with (lines 202-210, 465-473, 525-533,
    603-611 and 680-688 are the same statements). *)
Definition count_profiles (df : loc) (pss : label) (in_prof_sim_lev : Q)
  : M Counts :=
  d <- read_df df ;;
  scores <- lift (column_values d pss) ;;
  ret (classify in_prof_sim_lev scores).

(** ** Results of the trials *)

Fixpoint dict_get (k : string) (d : trial_dict) : option pyval :=
  match d with
  | [] => None
  | (k', v) :: rest => if String.eqb k k' then Some v else dict_get k rest
  end.

Fixpoint add_keys (ks : list string) (acc : list string) : list string :=
  match ks with
  | [] => acc
  | k :: rest =>
      add_keys rest (if existsb (String.eqb k) acc then acc else acc ++ [k])
  end.

(** [pd.DataFrame(list_of_dicts)]: one column per key that occurs in a
    dictionary; no dictionary, no column. *)
Definition DataFrame_of_dicts (ds : list trial_dict) : ResultsFrame :=
  let cols := fold_left (fun acc d => add_keys (map fst d) acc) ds [] in
  mkResults cols
    (map (fun d => map (fun c => match dict_get c d with
                                 | Some v => v
                                 | None => PNone
                                 end) cols) ds).

Fixpoint str_position (k : string) (ks : list string) : option nat :=
  match ks with
  | [] => None
  | x :: xs => if String.eqb k x then Some O
               else option_map S (str_position k xs)
  end.

(** [results.name] *)
Definition results_getattr (rf : ResultsFrame) (name : string)
  : result (list pyval) :=
  match str_position name (rcolumns rf) with
  | Some j => Ok (map (fun r => nth j r PNone) (rrows rf))
  | None => Raise (AttributeError name)
  end.

(** [sum(column)] *)
Definition py_sum (vs : list pyval) : result Z :=
  foldM (fun acc v => match v with
                      | PInt z => Ok (acc + z)
                      | _ => Raise TypeError
                      end) vs 0.

(** [len(results)] *)
Definition rlen (rf : ResultsFrame) : Z := Z.of_nat (length (rrows rf)).

(** [float(sum(results.name)) / float(len(results))] *)
Definition float_mean (rf : ResultsFrame) (name : string) : result Q :=
  let! col := results_getattr rf name in
  let! total := py_sum col in
  fl_div (inject_Z total) (inject_Z (rlen rf)).

(** [sum(results.name) / len(results)]: the sum of a column is a numpy
    integer, and numpy divides without raising; the quotient is taken as the
    true quotient. *)
Definition np_mean (rf : ResultsFrame) (name : string) : result npfloat :=
  let! col := results_getattr rf name in
  let! total := py_sum col in
  Ok (if rlen rf =? 0
      then (if total =? 0 then NpNaN else NpInf (total <? 0))
      else NpFin (inject_Z total / inject_Z (rlen rf))).

(** ** The permutation entry points *)

(** The column names [Stats] inherits from [databases.Columns], a module
    that is not among the sources; [Ortho_Stats] writes the same names as
    literals. *)
Record ColumnNames : Type := mkNames {
  ORF_Q : string;
  ORF_A : string;
  PROF_Q : string;
  PROF_A : string;
  PSS : string;
  QUERY_SUF : string;
  ARRAY_SUF : string
}.

Definition literal_names : ColumnNames :=
  mkNames "ORF_Q" "ORF_A" "PROF_Q" "PROF_A" "PSS" "_Q" "_A".

(** [np.array(list(x))] *)
Definition np_array_list (x : cell) : result cell :=
  match x with
  | VStr s0 => Ok (VList (map (fun a => VStr (String a EmptyString))
                              (list_ascii_of_string s0)))
  | VList l => Ok (VList l)
  | _ => Raise TypeError
  end.

(** [np.append(name, profile)] *)
Definition np_append (name profile : cell) : list cell :=
  match profile with
  | VList l => name :: l
  | v => [name; v]
  end.

(** [i[0]] and [i[1:]] for an entry of the catalogue *)
Definition entry_name (i : list cell) : result cell :=
  match i with
  | [] => Raise IndexError
  | x :: _ => Ok x
  end.

Definition entry_profile (i : list cell) : list cell := tl i.

(** The random generator: [rng in_iter call n] are the positions drawn by the
    [call]-th [sample] of trial [in_iter] from a population of [n]. *)
Definition generator : Type := Z -> nat -> nat -> list nat.

Section Permutations.

(** Functions of the module [utils], which is not among the sources.  They
    are taken as given, and as functions of their arguments that change
    nothing. *)
Variable simple_profiles_scorer : cell -> cell -> result cell.
Variable df_qa_names_2_prof_score :
  list cell -> list (list cell) -> result cell.
Variable gene_profile_finder_by_name :
  cell -> list (list cell) -> bool -> result cell.

(** Modelled from the spec: [utils.df_based_profiles_scorer], which is not
    among the sources.  The spec (4.2, scoreTable) has it score the two
    profiles of every row and append the scores as a column; the rows and
    their order stay. *)
Definition df_based_profiles_scorer (df : DataFrame)
  (prof_1_col_name prof_2_col_name score_col_name : string)
  : result DataFrame :=
  let! p1 := column_values df (LStr prof_1_col_name) in
  let! p2 := column_values df (LStr prof_2_col_name) in
  let! scores :=
    mapM (fun x => simple_profiles_scorer (fst x) (snd x)) (combine p1 p2) in
  assign_column df (LStr score_col_name) scores.

(** Lines 166-201 of [Stats.permute_profiles] and 644-679 of
    [Ortho_Stats.KO_profs_perm], which are the same statements up to the
    spelling of the column names: the reshuffled and rescored table. *)
Definition shuffle_by_ORF (N : ColumnNames) (dataframe : loc)
  (draw : nat -> list nat) : M loc :=
  q_ORF_prof_df <- getitem_list dataframe [LStr (ORF_Q N); LStr (PROF_Q N)] ;;
  a_ORF_prof_df <- getitem_list dataframe [LStr (ORF_A N); LStr (PROF_A N)] ;;
  drop_prof_temp_df <-
    drop dataframe [LStr (PROF_Q N); LStr (PROF_A N); LStr (PSS N)] ;;
  set_columns_range q_ORF_prof_df ;;
  set_columns_range a_ORF_prof_df ;;
  stack_ORF_prof_df <- concat_ignore_index q_ORF_prof_df a_ORF_prof_df ;;
  drop_duplicates_inplace stack_ORF_prof_df ;;
  set_columns_to stack_ORF_prof_df [LStr "ORF"; LStr "PROF"] ;;
  set_index_range stack_ORF_prof_df ;;
  stack_PROF <- getattr_column stack_ORF_prof_df "PROF" ;;
  stack_prof_perm_df <- sample_series stack_PROF draw ;;
  set_sindex_range stack_prof_perm_df ;;
  stack_ORF <- getattr_column stack_ORF_prof_df "ORF" ;;
  ORF_prof_perm_df <- concat_series_axis1 stack_ORF stack_prof_perm_df ;;
  q_merged_df <-
    merge drop_prof_temp_df ORF_prof_perm_df (LStr (ORF_Q N)) (LStr "ORF")
          ("_x", "_y") ;;
  qa_merged_df <-
    merge q_merged_df ORF_prof_perm_df (LStr (ORF_A N)) (LStr "ORF")
          (QUERY_SUF N, ARRAY_SUF N) ;;
  d <- read_df qa_merged_df ;;
  new_df (df_based_profiles_scorer d (PROF_Q N) (PROF_A N) (PSS N)).

(** The function [f] of [Stats.permute_profiles].  Line 211 deletes the
    name [qa_merged_score_df]; line 218 then reads it and line 220 deletes
    it again, so both branches raise. *)
Definition permute_profiles_f (N : ColumnNames) (dataframe : loc)
  (in_prof_sim_lev : Q) (store_dataframe : bool) (rng : generator)
  (in_iter : Z) : M trial_dict :=
  qa_merged_score_df <- shuffle_by_ORF N dataframe (rng in_iter O) ;;
  counts <- count_profiles qa_merged_score_df (LStr (PSS N))
                           in_prof_sim_lev ;;
  if store_dataframe
  then raise (UnboundLocalError "qa_merged_score_df")
  else raise (UnboundLocalError "qa_merged_score_df").

(** [ptmp.ProcessingPool().map(f, range(e_value))]: the trials one after
    the other, in one store; the first exception ends the call. *)
Definition pool_map {A : Type} (f : Z -> M A) (e_value : Z) : M (list A) :=
  mapM_M f (range 0 e_value).

Definition permute_profiles (N : ColumnNames) (dataframe : loc)
  (in_prof_sim_lev : Q) (e_value : Z) (store_dataframe : bool)
  (rng : generator) : M (list (string * Q)) :=
  permuted_df_results_temp <-
    pool_map (permute_profiles_f N dataframe in_prof_sim_lev
                                 store_dataframe rng) e_value ;;
  let prof_KO_perm_results := DataFrame_of_dicts permuted_df_results_temp in
  m <- lift (float_mean prof_KO_perm_results "mirror") ;;
  s0 <- lift (float_mean prof_KO_perm_results "similar") ;;
  d <- lift (float_mean prof_KO_perm_results "dissimilar") ;;
  ret [("mirror", m); ("similar", s0); ("dissimilar", d)].

Definition counts_dict (c : Counts) (in_iter : Z) : trial_dict :=
  [("similar", PInt (sim_prof_perm_num c));
   ("unsimilar", PInt (unsim_prof_perm_num c));
   ("mirror", PInt (mir_prof_perm_num c));
   ("iteration", PInt (in_iter + 1))].

(** The function [f] of [Ortho_Stats.KO_profs_perm]. *)
Definition KO_profs_perm_f (in_prof_sim_lev : Q) (rng : generator)
  (in_iter : Z) : M trial_dict :=
  self <- get_self ;;
  qa_merged_score_df <-
    shuffle_by_ORF literal_names (inter_df self) (rng in_iter O) ;;
  counts <- count_profiles qa_merged_score_df (LStr "PSS")
                           in_prof_sim_lev ;;
  ret (counts_dict counts in_iter
       ++ [("dataframe", PRef qa_merged_score_df)]).

Definition averages (rf : ResultsFrame)
  : result (list (string * npfloat)) :=
  let! m := np_mean rf "mirror" in
  let! s0 := np_mean rf "similar" in
  let! u := np_mean rf "unsimilar" in
  Ok [("mirror_profiles", m); ("similar_profiles", s0); ("unsimilar", u)].

Definition KO_profs_perm (e_value : Z) (in_prof_sim_lev : Q)
  (rng : generator) : M unit :=
  permuted_df_results_temp <-
    pool_map (KO_profs_perm_f in_prof_sim_lev rng) e_value ;;
  set_self (fun self =>
    mkOrtho (query_species self) (inter_df self) (gene_profiles self)
            (perm_results self) (prof_arr_perm_results self)
            (prof_arr_perm_res_avg self)
            (Some (DataFrame_of_dicts permuted_df_results_temp))
            (prof_KO_perm_res_avg self)) ;;
  avg <- lift (averages (DataFrame_of_dicts permuted_df_results_temp)) ;;
  set_self (fun self =>
    mkOrtho (query_species self) (inter_df self) (gene_profiles self)
            (perm_results self) (prof_arr_perm_results self)
            (prof_arr_perm_res_avg self) (prof_KO_perm_results self)
            (Some avg)).

(** The function [f] of [Ortho_Stats.names_perm]. *)
Definition names_perm_f (in_prof_sim_lev : Q) (rng : generator)
  (in_iter : Z) : M trial_dict :=
  self <- get_self ;;
  q_temp_df <- getitem_list (inter_df self) [LStr "GENE_Q"; LStr "PROF_Q"] ;;
  a_temp_df <- getitem_list (inter_df self) [LStr "GENE_A"; LStr "PROF_A"] ;;
  q_temp_perm_df <- sample q_temp_df (rng in_iter O) ;;
  a_temp_perm_df <- sample a_temp_df (rng in_iter 1%nat) ;;
  set_index_range q_temp_perm_df ;;
  set_index_range a_temp_perm_df ;;
  qa_temp_perm_df <- concat_axis1 q_temp_perm_df a_temp_perm_df ;;
  qa <- read_df qa_temp_perm_df ;;
  catalogue <- read_list (gene_profiles self) ;;
  temp_score_list <-
    lift (mapM (fun ii =>
                  let! gq := tuple_getattr (columns qa) ii "GENE_Q" in
                  let! ga := tuple_getattr (columns qa) ii "GENE_A" in
                  df_qa_names_2_prof_score [gq; ga] catalogue)
               (data qa)) ;;
  temp_score_df <-
    new_df (DataFrame_of_rows (map (fun v => [v]) temp_score_list)
                              (index qa) [LStr "PSS"]) ;;
  qa_temp_perm_score_df <- concat_axis1 qa_temp_perm_df temp_score_df ;;
  counts <- count_profiles qa_temp_perm_score_df (LStr "PSS")
                           in_prof_sim_lev ;;
  ret (counts_dict counts in_iter).

Definition names_perm (e_value : Z) (in_prof_sim_lev : Q) (rng : generator)
  : M unit :=
  perm_results_temp_dict <-
    pool_map (names_perm_f in_prof_sim_lev rng) e_value ;;
  set_self (fun self =>
    mkOrtho (query_species self) (inter_df self) (gene_profiles self)
            (Some (DataFrame_of_dicts perm_results_temp_dict))
            (prof_arr_perm_results self) (prof_arr_perm_res_avg self)
            (prof_KO_perm_results self) (prof_KO_perm_res_avg self)).

(** [["{0}_Q".format(i) for i in self.query_species]] *)
Definition sign_per_col_profs_cols (suffix : string) (species : list string)
  : list label :=
  map (fun i => LStr (i ++ suffix)) species.

Definition profile_columns (self : Ortho_Stats) : list label :=
  [LStr "PROF_Q"; LStr "PROF_A"; LStr "PSS"]
  ++ sign_per_col_profs_cols "_Q" (query_species self)
  ++ sign_per_col_profs_cols "_A" (query_species self).

(** The function [f] of [Ortho_Stats.prof_cols_perm]. *)
Definition prof_cols_perm_f (in_prof_sim_lev : Q) (rng : generator)
  (in_iter : Z) : M trial_dict :=
  self <- get_self ;;
  q_prof_temp_df <- getitem (inter_df self) (LStr "PROF_Q") ;;
  a_prof_temp_df <- getitem (inter_df self) (LStr "PROF_A") ;;
  drop_prof_temp_df <- drop (inter_df self) (profile_columns self) ;;
  q_prof_perm_temp_df <- sample_series q_prof_temp_df (rng in_iter O) ;;
  a_prof_perm_temp_df <- sample_series a_prof_temp_df (rng in_iter 1%nat) ;;
  set_sindex_of q_prof_perm_temp_df drop_prof_temp_df ;;
  set_sindex_of a_prof_perm_temp_df drop_prof_temp_df ;;
  permuted_df <-
    concat_df_series2_axis1 drop_prof_temp_df q_prof_perm_temp_df
                            a_prof_perm_temp_df ;;
  pd0 <- read_df permuted_df ;;
  temp_score_list <-
    lift (mapM (fun ii =>
                  let! pq := tuple_getattr (columns pd0) ii "PROF_Q" in
                  let! aq := np_array_list pq in
                  let! pa := tuple_getattr (columns pd0) ii "PROF_A" in
                  let! aa := np_array_list pa in
                  let! v := simple_profiles_scorer aq aa in
                  Ok [v])
               (data pd0)) ;;
  temp_score_df <-
    new_df (DataFrame_of_rows temp_score_list (index pd0) [LStr "PSS"]) ;;
  permuted_profs_df <- concat_axis1 permuted_df temp_score_df ;;
  counts <- count_profiles permuted_profs_df (LStr "PSS") in_prof_sim_lev ;;
  ret (counts_dict counts in_iter).

Definition prof_cols_perm (e_value : Z) (in_prof_sim_lev : Q)
  (rng : generator) : M unit :=
  perm_results_temp_dict <-
    pool_map (prof_cols_perm_f in_prof_sim_lev rng) e_value ;;
  set_self (fun self =>
    mkOrtho (query_species self) (inter_df self) (gene_profiles self)
            (Some (DataFrame_of_dicts perm_results_temp_dict))
            (prof_arr_perm_results self) (prof_arr_perm_res_avg self)
            (prof_KO_perm_results self) (prof_KO_perm_res_avg self)).

(** Lines 567-580 of [Ortho_Stats.prof_arr_perm]: the catalogue with its
    names permuted, [gene_profs_perm_arr_list]. *)
Definition permuted_catalogue (draw : nat -> list nat)
  : M (list (list cell)) :=
  self <- get_self ;;
  catalogue <- read_list (gene_profiles self) ;;
  gene_profs_names <- lift (mapM entry_name catalogue) ;;
  let gene_profs_profs := map entry_profile catalogue in
  gene_profs_names_ser <-
    alloc (OSeries (mkSeries None
                      (range 0 (Z.of_nat (length gene_profs_names)))
                      gene_profs_names)) ;;
  gene_profs_profs_ser <-
    alloc (OSeries (mkSeries None
                      (range 0 (Z.of_nat (length gene_profs_profs)))
                      (map VList gene_profs_profs))) ;;
  gene_profs_names_ser_perm <- sample_series gene_profs_names_ser draw ;;
  set_sindex_range gene_profs_names_ser_perm ;;
  gene_profs_perm_df <-
    concat_series_axis1 gene_profs_names_ser_perm gene_profs_profs_ser ;;
  set_columns_to gene_profs_perm_df [LStr "perm_names"; LStr "profiles"] ;;
  d <- read_df gene_profs_perm_df ;;
  lift (mapM (fun i =>
                let! name_arr := tuple_getattr (columns d) i "perm_names" in
                let! profiles := tuple_getattr (columns d) i "profiles" in
                Ok (np_append name_arr profiles))
             (data d)).

(** The function [f] of [Ortho_Stats.prof_arr_perm]. *)
Definition prof_arr_perm_f (drop_prof_temp_df : loc) (in_prof_sim_lev : Q)
  (rng : generator) (in_iter : Z) : M trial_dict :=
  gene_profs_perm_arr_list <- permuted_catalogue (rng in_iter O) ;;
  dropped <- read_df drop_prof_temp_df ;;
  qa_attrib_temp_list <-
    lift (mapM (fun i =>
                  let! gq := tuple_getattr (columns dropped) i "GENE_Q" in
                  let! ga := tuple_getattr (columns dropped) i "GENE_A" in
                  Ok (gq, ga))
               (data dropped)) ;;
  scored <-
    lift (mapM (fun i =>
                  let! v := df_qa_names_2_prof_score [fst i; snd i]
                              gene_profs_perm_arr_list in
                  let! pq := gene_profile_finder_by_name
                               (fst i) gene_profs_perm_arr_list true in
                  let! pa := gene_profile_finder_by_name
                               (snd i) gene_profs_perm_arr_list true in
                  Ok (v, [pq; pa]))
               qa_attrib_temp_list) ;;
  prof_score_temp_df <-
    new_df (DataFrame_of_rows (map (fun x => [fst x]) scored)
                              (index dropped) [LStr "PSS"]) ;;
  profs_pairs_temp_df <-
    new_df (DataFrame_of_rows (map snd scored) (index dropped)
                              [LStr "PROF_Q"; LStr "PROF_A"]) ;;
  permuted_df <-
    concat3_axis1 drop_prof_temp_df profs_pairs_temp_df
                  prof_score_temp_df ;;
  counts <- count_profiles permuted_df (LStr "PSS") in_prof_sim_lev ;;
  ret (counts_dict counts in_iter ++ [("dataframe", PRef permuted_df)]).

Definition prof_arr_perm (e_value : Z) (in_prof_sim_lev : Q)
  (rng : generator) : M unit :=
  self <- get_self ;;
  drop_prof_temp_df <- drop (inter_df self) (profile_columns self) ;;
  permuted_df_results_temp <-
    pool_map (prof_arr_perm_f drop_prof_temp_df in_prof_sim_lev rng)
             e_value ;;
  set_self (fun self =>
    mkOrtho (query_species self) (inter_df self) (gene_profiles self)
            (perm_results self)
            (Some (DataFrame_of_dicts permuted_df_results_temp))
            (prof_arr_perm_res_avg self)
            (prof_KO_perm_results self) (prof_KO_perm_res_avg self)) ;;
  avg <- lift (averages (DataFrame_of_dicts permuted_df_results_temp)) ;;
  set_self (fun self =>
    mkOrtho (query_species self) (inter_df self) (gene_profiles self)
            (perm_results self) (prof_arr_perm_results self)
            (Some avg)
            (prof_KO_perm_results self) (prof_KO_perm_res_avg self)).

End Permutations.

(** * Vocabulary of the properties, and examples *)

(** ** Enrichment *)

(** What a row of the result of [calculate_enrichment] is made of: [x] is
    the group of the selected table with the probability assigned to it, [n]
    the length of the selected table. *)
Definition bin_of (n : Z) (x : (cell * Z) * pyfloat) (r : EnrichmentBin)
  : Prop :=
  category r = fst (fst x) /\
  COUNT r = snd (fst x) /\
  P r = snd x /\
  COUNT_EXP r = fl_mul (of_int n) (snd x) /\
  _score (of_int (snd (fst x))) (of_int n) (snd x) = Ok (SCORE r) /\
  _score (COUNT_EXP r) (of_int n) (snd x) = Ok (SCORE_EXP r) /\
  FOLD_CHNG r = np_log2_ratio (of_int (snd (fst x))) (COUNT_EXP r).

(** Three tables with one column: categories A, A, B; the row of category B
    alone; one row of category A. *)
Definition table_AAB : DataFrame :=
  mkDF [LStr "PSS"] [0; 1; 2] [[VStr "A"]; [VStr "A"]; [VStr "B"]].

Definition table_B : DataFrame := mkDF [LStr "PSS"] [2] [[VStr "B"]].


(** The background probability as the spec words it:
    count_in_total(category) / len(total). *)
Definition spec_count_in (k : cell) (keys : list cell) : Z :=
  Z.of_nat (length (filter (cell_eqb k) keys)).

Definition spec_background_probability (k : cell) (total_keys : list cell)
  : Q :=
  (inject_Z (spec_count_in k total_keys)
   / inject_Z (Z.of_nat (length total_keys)))%Q.

(** ** Classification *)

(** A score that is a number and not negative. *)
Definition nonneg_score (c : cell) : Prop :=
  exists q, num_of_cell c = Some q /\ (0 <= q)%Q.

(** Exactly one of three conditions holds. *)
Definition exactly_one (a b c : bool) : Prop :=
  (a = true /\ b = false /\ c = false) \/
  (a = false /\ b = true /\ c = false) \/
  (a = false /\ b = false /\ c = true).

(** ** The frame of the entry points *)

(** Between the stores [s] and [s'] no object that existed at the start
    ([outer], and the first [n] objects of [fresh]) has changed, and [self]
    still refers to the same interaction table and profile catalogue. *)
Definition unchanged (n : nat) (s s' : store) : Prop :=
  outer s' = outer s /\
  firstn n (fresh s') = firstn n (fresh s) /\
  (n <= length (fresh s'))%nat /\
  inter_df (instance s') = inter_df (instance s) /\
  gene_profiles (instance s') = gene_profiles (instance s) /\
  query_species (instance s') = query_species (instance s).

(** [m] keeps the objects that existed at the start, and what it returns
    satisfies [Q]. *)
Definition keeps {A : Type} (n : nat) (m : M A) (Q : A -> Prop) : Prop :=
  forall s, (n <= length (fresh s))%nat ->
    unchanged n s (snd (m s)) /\
    forall a, fst (m s) = Ok a -> Q a.

(** A location allocated after the start. *)
Definition fresh_since (n : nat) (l : loc) : Prop :=
  match l with
  | Fresh i => (n <= i)%nat
  | Outer _ => False
  end.

(** No condition on what is returned. *)
Definition any {A : Type} (a : A) : Prop := True.

(** Every object of [s] is still there, with the same value, in [s'], and
    [self] refers to the same table and catalogue. *)
Definition caller_data_unchanged (s s' : store) : Prop :=
  (forall l o, lookup l s = Some o -> lookup l s' = Some o) /\
  inter_df (instance s') = inter_df (instance s) /\
  gene_profiles (instance s') = gene_profiles (instance s).

(** ** Tables and draws *)

(** The element at position [i], if there is one. *)
Definition pick {A : Type} (xs : list A) (i : nat) : list A :=
  match nth_error xs i with
  | Some x => [x]
  | None => []
  end.

(** The cells at position [j] of the rows. *)
Definition col (j : nat) (rows : list (list cell)) : list cell :=
  map (fun r => nth j r VNaN) rows.

(** A row of the joined table: a row of the left table and its partner. *)
Definition extends (l r : list cell) : Prop := exists m, r = l ++ m.

(** The (query, array) pairs of entity identifiers of a table, row by row. *)
Definition id_pairs (N : ColumnNames) (d : DataFrame)
  : result (list (cell * cell)) :=
  let! q := column_values d (LStr (ORF_Q N)) in
  let! a := column_values d (LStr (ORF_A N)) in
  Ok (combine q a).

(** The (entity, profile) pairs of a table, of both roles. *)
Definition role_pairs (N : ColumnNames) (d : DataFrame)
  : result (list (cell * cell)) :=
  let! q := column_values d (LStr (ORF_Q N)) in
  let! pq := column_values d (LStr (PROF_Q N)) in
  let! a := column_values d (LStr (ORF_A N)) in
  let! pa := column_values d (LStr (PROF_A N)) in
  Ok (combine q pq ++ combine a pa).

(** Each entity identifier comes with one profile. *)
Definition one_profile_per_entity (roles : list (cell * cell)) : Prop :=
  forall p1 p2, In p1 roles -> In p2 roles -> fst p1 = fst p2 ->
                snd p1 = snd p2.

(** Every row has one cell per column, and one label. *)
Definition well_formed (d : DataFrame) : Prop :=
  length (index d) = length (data d) /\
  Forall (fun r => length r = length (columns d)) (data d).

(** What the code needs of the column names: the merged profile columns are
    the ones the scorer is asked for, and the identifier columns are not
    among the dropped ones. *)
Definition names_consistent (N : ColumnNames) : Prop :=
  PROF_Q N = ("PROF" ++ QUERY_SUF N)%string /\
  PROF_A N = ("PROF" ++ ARRAY_SUF N)%string /\
  ~ In (ORF_Q N) [PROF_Q N; PROF_A N; PSS N] /\
  ~ In (ORF_A N) [PROF_Q N; PROF_A N; PSS N].

(** ** An example store: an interaction table of three rows over the
    entities a, b, c and a catalogue of three profiles *)

Definition example_inter_df : DataFrame :=
  mkDF [LStr "ORF_Q"; LStr "ORF_A"; LStr "GENE_Q"; LStr "GENE_A";
        LStr "PROF_Q"; LStr "PROF_A"; LStr "PSS"; LStr "DMF"]
       [0; 1; 2]
       [[VStr "a"; VStr "b"; VStr "ga"; VStr "gb"; VStr "++"; VStr "+-";
         VInt 1; VInt 5];
        [VStr "b"; VStr "c"; VStr "gb"; VStr "gc"; VStr "+-"; VStr "--";
         VInt 1; VInt 6];
        [VStr "a"; VStr "c"; VStr "ga"; VStr "gc"; VStr "++"; VStr "--";
         VInt 0; VInt 7]].

Definition example_gene_profiles : list (list cell) :=
  [[VStr "ga"; VStr "+"; VStr "+"];
   [VStr "gb"; VStr "+"; VStr "-"];
   [VStr "gc"; VStr "-"; VStr "-"]].

Definition example_self : Ortho_Stats :=
  mkOrtho [] (Outer 0) (Outer 1) None None None None None.

Definition example_store : store :=
  mkStore [ODataFrame example_inter_df; OList example_gene_profiles] []
          example_self.

(** A scorer for the examples: 1 for equal profiles, 0 otherwise. *)
Definition example_scorer (a b : cell) : result cell :=
  Ok (if cell_eqb a b then VInt 1 else VInt 0).

Definition example_names_scorer (names : list cell)
  (catalogue : list (list cell)) : result cell := Ok (VInt 1).

Definition example_finder (name : cell) (catalogue : list (list cell))
  (conc : bool) : result cell := Ok (VStr "+").

(** A generator that draws the positions in reverse order. *)
Definition example_rng : generator := fun _ _ n => rev (seq 0 n).

Definition example_pairs : list (cell * cell) :=
  [(VStr "a", VStr "b"); (VStr "b", VStr "c"); (VStr "a", VStr "c")].

Definition example_roles : list (cell * cell) :=
  [(VStr "a", VStr "++"); (VStr "b", VStr "+-"); (VStr "a", VStr "++");
   (VStr "b", VStr "+-"); (VStr "c", VStr "--"); (VStr "c", VStr "--")].

(** ** Ortho_Stats.df_selector and Ortho_Stats.df_num_prop

    The two methods read and assign [inter_df], [filters_used],
    [filters_name] and [num_prop_res], and read [query_species].  Neither
    changes a table in place: [self.inter_df = self.inter_df[mask]] makes
    [inter_df] refer to a new table, so the table is held here by value. *)

(** A number passed as an optional argument: [None], a float or an int. *)
Inductive pynum : Type :=
| NNone
| NFloat (q : Q)
| NInt (z : Z).

Definition num_value (x : pynum) : option Q :=
  match x with
  | NNone => None
  | NFloat q => Some q
  | NInt z => Some (inject_Z z)
  end.

(** [x == s] for an argument [x] that is [None] or a string *)
Definition str_is (x : option string) (s : string) : bool :=
  match x with
  | Some y => String.eqb y s
  | None => false
  end.

(** [isinstance(x, float)] *)
Definition is_float (x : pynum) : bool :=
  match x with
  | NFloat _ => true
  | _ => false
  end.

(** [filters_used] and [filters_name] are strings after [__init__] and
    lists once a method has replaced them. *)
Inductive filters : Type :=
| FStr (s : string)
| FList (l : list string).

(** [self.num_prop_res], a series with these keys; the keys of the three
    classes are there when a threshold was given. *)
Record Num_prop : Type := mkNum_prop {
  total : Z;
  DMF_positive : Z;
  DMF_negative : Z;
  similar_profiles : option Z;
  unsimilar_profiles : option Z;
  mirror_profiles : option Z;
  histogram_bins : list (cell * Z)
}.

Record Selection : Type := mkSelection {
  self_query_species : list string;
  self_inter_df : DataFrame;
  filters_used : filters;
  filters_name : filters;
  num_prop_res : option Num_prop
}.

(** [Ortho_Stats.__init__], lines 241-249, for these attributes. *)
Definition init_selection (query_specices : list string)
  (inter_df0 : DataFrame) : Selection :=
  mkSelection query_specices inter_df0 (FStr "No filters")
              (FStr "no_filters") None.

(** [a > b] and [a < b] on the cells of two numeric columns, and on a cell
    and a number; a comparison with NaN is false. *)
Definition cell_gt (a b : cell) : bool :=
  match num_of_cell a, num_of_cell b with
  | Some x, Some y => negb (Qle_bool x y)
  | _, _ => false
  end.

Definition cell_lt_b (a b : cell) : bool := cell_gt b a.

(** [column < x] and [column > x] for an argument [x]; against [None] no
    cell compares (the mask is then not used). *)
Definition lt_num (x : pynum) (c : cell) : bool :=
  match num_of_cell c, num_value x with
  | Some v, Some q => negb (Qle_bool q v)
  | _, _ => false
  end.

Definition gt_num (x : pynum) (c : cell) : bool :=
  match num_of_cell c, num_value x with
  | Some v, Some q => negb (Qle_bool v q)
  | _, _ => false
  end.

Definition ge_num (x : pynum) (c : cell) : bool :=
  match num_of_cell c, num_value x with
  | Some v, Some q => Qle_bool q v
  | _, _ => false
  end.

(** ["+" * n] *)
Fixpoint string_times (s : string) (n : nat) : string :=
  match n with
  | O => EmptyString
  | S n' => (s ++ string_times s n')%string
  end.

(** [column != s] and [column == s] for a string [s] *)
Definition ne_str (s : string) (c : cell) : bool := negb (cell_eqb c (VStr s)).

Definition eq_str (s : string) (c : cell) : bool := cell_eqb c (VStr s).

(** [a & b] on two masks of one table *)
Definition mask_and (a b : list bool) : list bool := zip_with andb a b.

(** [df[mask]] for a boolean series [mask] with the row labels [mix].  When
    the labels of the mask are those of the table, the rows are chosen by
    position.  Otherwise pandas lays the mask out on the labels of the
    table; this is modelled for a mask with distinct labels that has every
    label of the table, and is a failure of the library otherwise. *)
Fixpoint label_flag (l : Z) (mix : list Z) (mask : list bool) : option bool :=
  match mix, mask with
  | l' :: mix', b :: mask' =>
      if l =? l' then Some b else label_flag l mix' mask'
  | _, _ => None
  end.

Fixpoint distinct (ls : list Z) : bool :=
  match ls with
  | [] => true
  | l :: ls' => negb (existsb (Z.eqb l) ls') && distinct ls'
  end.

Definition choose_rows (flags : list bool) (df : DataFrame) : DataFrame :=
  let kept := filter fst (combine flags (combine (index df) (data df))) in
  mkDF (columns df) (map (fun x => fst (snd x)) kept)
       (map (fun x => snd (snd x)) kept).

Definition bool_getitem (mix : list Z) (mask : list bool) (df : DataFrame)
  : result DataFrame :=
  if index_eqb mix (index df) then
    if (length mask =? length (data df))%nat then Ok (choose_rows mask df)
    else Raise LibraryError
  else if distinct mix then
    let! flags := mapM (fun l => match label_flag l mix mask with
                                 | Some b => Ok b
                                 | None => Raise LibraryError
                                 end) (index df) in
    Ok (choose_rows flags df)
  else Raise LibraryError.

(** [lst.append(x)] on an attribute that holds a list *)
Definition filters_append (x : string) (f : filters) : result filters :=
  match f with
  | FList l => Ok (FList (l ++ [x]))
  | FStr _ => Raise (AttributeError "append")
  end.

(** Statements on the attributes: the state is the instance, and a statement
    that raises leaves the assignments made before it. *)
Definition Sel (A : Type) : Type := Selection -> result A * Selection.

Definition sel_ret {A : Type} (a : A) : Sel A := fun self => (Ok a, self).

Definition sel_raise {A : Type} (e : pyerror) : Sel A :=
  fun self => (Raise e, self).

Definition sel_bind {A B : Type} (m : Sel A) (f : A -> Sel B) : Sel B :=
  fun self =>
    match m self with
    | (Ok a, self') => f a self'
    | (Raise e, self') => (Raise e, self')
    end.

Definition sel_lift {A : Type} (r : result A) : Sel A :=
  fun self => (r, self).

Notation "x <~ m ;; k" := (sel_bind m (fun x => k))
  (at level 61, m at next level, right associativity) : py_scope.
Notation "m ;;~ k" := (sel_bind m (fun _ => k))
  (at level 61, right associativity) : py_scope.

(** [self.inter_df[name]], the cells of a column *)
Definition sel_column (name : string) : Sel (list cell) :=
  fun self => (column_values (self_inter_df self) (LStr name), self).

(** [self.inter_df = self.inter_df[mask]], the mask having been computed on
    the table with the row labels [mix] *)
Definition sel_filter (mix : list Z) (mask : list bool) : Sel unit :=
  fun self =>
    match bool_getitem mix mask (self_inter_df self) with
    | Ok d =>
        (Ok tt, mkSelection (self_query_species self) d (filters_used self)
                            (filters_name self) (num_prop_res self))
    | Raise e => (Raise e, self)
    end.

(** [self.filters_used = v] and [self.filters_name = v] *)
Definition set_filters_used (v : filters) : Sel unit :=
  fun self =>
    (Ok tt, mkSelection (self_query_species self) (self_inter_df self) v
                        (filters_name self) (num_prop_res self)).

Definition set_filters_name (v : filters) : Sel unit :=
  fun self =>
    (Ok tt, mkSelection (self_query_species self) (self_inter_df self)
                        (filters_used self) v (num_prop_res self)).

(** [self.filters_used.append(used); self.filters_name.append(name)] *)
Definition note_filter (used name : string) : Sel unit :=
  fun self =>
    match filters_append used (filters_used self) with
    | Raise e => (Raise e, self)
    | Ok fu =>
        let self1 := mkSelection (self_query_species self)
                       (self_inter_df self) fu (filters_name self)
                       (num_prop_res self) in
        match filters_append name (filters_name self1) with
        | Raise e => (Raise e, self1)
        | Ok fn =>
            (Ok tt, mkSelection (self_query_species self1)
                      (self_inter_df self1) (filters_used self1) fn
                      (num_prop_res self1))
        end
    end.

Section Selector.

(** ["{0}".format(x)] for a number [x]: the text Python prints for it, which
    is not modelled. *)
Variable format_number : pynum -> string.

(** [pd.value_counts(column)], which is not modelled. *)
Variable value_counts : list cell -> list (cell * Z).

(** The masks [positive_DMF_bool], [negative_DMF_bool] of both methods. *)
Definition positive_DMF_bool : Sel (list bool) :=
  dmf <~ sel_column "DMF" ;;
  smf_q <~ sel_column "SMF_Q" ;;
  dmf' <~ sel_column "DMF" ;;
  smf_a <~ sel_column "SMF_A" ;;
  sel_ret (mask_and (zip_with cell_gt dmf smf_q) (zip_with cell_gt dmf' smf_a)).

Definition negative_DMF_bool : Sel (list bool) :=
  dmf <~ sel_column "DMF" ;;
  smf_q <~ sel_column "SMF_Q" ;;
  dmf' <~ sel_column "DMF" ;;
  smf_a <~ sel_column "SMF_A" ;;
  sel_ret (mask_and (zip_with cell_lt_b dmf smf_q)
                    (zip_with cell_lt_b dmf' smf_a)).

Definition df_selector (DMF : option string) (SMF_below_one : bool)
  (inter_score_min inter_score_max : pynum)
  (no_flat_plus no_flat_minus : bool) (process profiles : option string)
  (prof_sim_lev : pynum) : Sel unit :=
  match profiles, prof_sim_lev with
  | None, (NFloat _ | NInt _) => sel_raise (ValueError "No value for profiles")
  | Some _, NNone => sel_raise (ValueError "No value for prof_sim_lev")
  | _, _ =>
    set_filters_used (FList []) ;;~
    set_filters_name (FList []) ;;~
    (* the row labels of the table the masks are computed on, and
       [self.query_species] *)
    mix <~ (fun self => (Ok (index (self_inter_df self)), self)) ;;
    species <~ (fun self => (Ok (self_query_species self), self)) ;;
    positive_DMF <~ positive_DMF_bool ;;
    negative_DMF <~ negative_DMF_bool ;;
    smf_q <~ sel_column "SMF_Q" ;;
    smf_a <~ sel_column "SMF_A" ;;
    let SMF_below_one_bool :=
      mask_and (map (lt_num (NFloat 1)) smf_q)
               (map (lt_num (NFloat 1)) smf_a) in
    gis <~ sel_column "GIS" ;;
    let inter_score_max_bool := map (lt_num inter_score_max) gis in
    gis' <~ sel_column "GIS" ;;
    let inter_score_min_bool := map (gt_num inter_score_min) gis' in
    prof_q <~ sel_column "PROF_Q" ;;
    let no_flat_plu_q_bool :=
      map (ne_str (string_times "+" (length species))) prof_q in
    prof_q' <~ sel_column "PROF_Q" ;;
    let no_flat_min_q_bool :=
      map (ne_str (string_times "-" (length species))) prof_q' in
    prof_a <~ sel_column "PROF_A" ;;
    let no_flat_plu_a_bool :=
      map (ne_str (string_times "+" (length species))) prof_a in
    prof_a' <~ sel_column "PROF_A" ;;
    let no_flat_min_a_bool :=
      map (ne_str (string_times "-" (length species))) prof_a' in
    bss <~ sel_column "BSS" ;;
    let iden_proc_bool := map (eq_str "identical") bss in
    bss' <~ sel_column "BSS" ;;
    let diff_proc_bool := map (eq_str "different") bss' in
    prof_masks <~
      match profiles with
      | Some _ =>
          pss <~ sel_column "PSS" ;;
          pss' <~ sel_column "PSS" ;;
          sel_ret (map (ge_num prof_sim_lev) pss,
                   map (lt_num prof_sim_lev) pss')
      | None => sel_ret ([], [])
      end ;;
    let sim_prof_bool_sel := fst prof_masks in
    let unsim_prof_bool_sel := snd prof_masks in
    (if str_is DMF "positive" then
       sel_filter mix positive_DMF ;;~ note_filter "DMF positive" "DMF_p"
     else if str_is DMF "negative" then
       sel_filter mix negative_DMF ;;~ note_filter "DMF negative" "DMF_n"
     else sel_ret tt) ;;~
    (if SMF_below_one then
       sel_filter mix SMF_below_one_bool ;;~
       note_filter "SMF < 1.0" "SMF_blw_1"
     else sel_ret tt) ;;~
    (if is_float inter_score_max then
       sel_filter mix inter_score_max_bool ;;~
       note_filter
         ("Genetic interaction score < " ++ format_number inter_score_max)
         ("gis_" ++ format_number inter_score_max)
     else sel_ret tt) ;;~
    (if is_float inter_score_min then
       sel_filter mix inter_score_min_bool ;;~
       note_filter
         ("Genetic interaction score > " ++ format_number inter_score_min)
         ("gis_" ++ format_number inter_score_min)
     else sel_ret tt) ;;~
    (if no_flat_plus then
       sel_filter mix no_flat_plu_q_bool ;;~
       sel_filter mix no_flat_plu_a_bool ;;~
       note_filter "No plus-only (eg ++++++) profiles" "no_plus_flat"
     else sel_ret tt) ;;~
    (if no_flat_minus then
       sel_filter mix no_flat_min_q_bool ;;~
       sel_filter mix no_flat_min_a_bool ;;~
       note_filter "No minus-only (eg ------) profiles" "no_min_flat"
     else sel_ret tt) ;;~
    (if str_is process "identical" then
       sel_filter mix iden_proc_bool ;;~
       note_filter "Identical bioprocesses" "iden_proc"
     else if str_is process "different" then
       sel_filter mix diff_proc_bool ;;~
       note_filter "Different bioprocesses" "diff_proc"
     else sel_ret tt) ;;~
    (if str_is profiles "similar" then
       sel_filter mix sim_prof_bool_sel ;;~
       note_filter "Similar profiles" "sim_prof"
     else if str_is profiles "unsimilar" then
       sel_filter mix unsim_prof_bool_sel ;;~
       note_filter "Dissimilar profiles" "dis_prof"
     else sel_ret tt)
  end.

(** [len(self.inter_df[mask])] for a mask of the table itself *)
Definition count_true (mask : list bool) : Z :=
  Z.of_nat (length (filter (fun b => b) mask)).

Definition df_num_prop (in_prof_sim_lev : pynum) : Sel unit :=
  fu <~ (fun self => (Ok (filters_used self), self)) ;;
  match fu with
  | FStr _ => set_filters_used (FList [])
  | FList _ => sel_ret tt
  end ;;~
  fn <~ (fun self => (Ok (filters_name self), self)) ;;
  match fn with
  | FStr _ => set_filters_name (FList [])
  | FList _ => sel_ret tt
  end ;;~
  positive_DMF <~ positive_DMF_bool ;;
  negative_DMF <~ negative_DMF_bool ;;
  pss <~ sel_column "PSS" ;;
  let sim := map (ge_num in_prof_sim_lev) pss in
  pss1 <~ sel_column "PSS" ;;
  pss2 <~ sel_column "PSS" ;;
  let unsim := mask_and (map (lt_num in_prof_sim_lev) pss1)
                        (map (gt_num (NInt 0)) pss2) in
  pss3 <~ sel_column "PSS" ;;
  let mir := map (fun c => match num_of_cell c with
                           | Some q => Qeq_bool q 0
                           | None => false
                           end) pss3 in
  n <~ (fun self => (Ok (len (self_inter_df self)), self)) ;;
  pss4 <~ sel_column "PSS" ;;
  match in_prof_sim_lev with
  | NNone =>
      fun self =>
        (Ok tt,
         mkSelection (self_query_species self) (self_inter_df self)
           (filters_used self) (filters_name self)
           (Some (mkNum_prop n (count_true positive_DMF)
                    (count_true negative_DMF) None None None
                    (value_counts pss4))))
  | _ =>
      (fun self =>
         (Ok tt,
          mkSelection (self_query_species self) (self_inter_df self)
            (filters_used self) (filters_name self)
            (Some (mkNum_prop n (count_true positive_DMF)
                     (count_true negative_DMF) (Some (count_true sim))
                     (Some (count_true unsim)) (Some (count_true mir))
                     (value_counts pss4))))) ;;~
      note_filter
        ("Profiles similarity threshold: " ++ format_number in_prof_sim_lev)
        ("prof_sim_th_" ++ format_number in_prof_sim_lev)
  end.

End Selector.

(** * prwlr/apis.py

    [KEGG_API] downloads tables of the KEGG database into files and reads
    them back with [pd.read_csv].  The requests and the files are outside
    this development; modelled is what the methods do with the tables once
    they are read, and with the attributes of the instance. *)

(** ** KEGG_API.get_org_db_X_ref, lines 169-179 *)

(** The number of rows of [rows] that hold [c] in the column at [j]. *)
Definition occurrences (j : nat) (c : cell) (rows : list (list cell)) : nat :=
  length (filter (fun r => cell_eqb c (nth j r VNaN)) rows).

(** [df.drop_duplicates(subset=[col], keep=False, inplace=True)]: every row
    whose value in [col] occurs in another row is removed; the others keep
    their labels and their order. *)
Definition drop_duplicates_keep_false (col : label) (df : DataFrame)
  : result DataFrame :=
  let! j := position_or KeyError (columns df) col in
  let kept :=
    filter (fun x => (occurrences j (nth j (snd x) VNaN) (data df) =? 1)%nat)
           (combine (index df) (data df)) in
  Ok (mkDF (columns df) (map fst kept) (map snd kept)).

(** The end of [get_org_db_X_ref]: [org_db_X_ref_df] as it is left, from the
    table [df] read from the file (and stripped of its prefixes). *)
Definition get_org_db_X_ref_duplicates (drop_duplicates : bool)
  (df : DataFrame) : result DataFrame :=
  if drop_duplicates then
    let! d1 := drop_duplicates_keep_false (LStr "ORF_ID") df in
    drop_duplicates_keep_false (LStr "KEGG_ID") d1
  else Ok df.

(** ** KEGG_API.org_name_2_kegg_id *)

(** The attributes of a [KEGG_API] instance the method uses;
    [organisms_ids_df] is [None] until [get_organisms_ids] has run. *)
Record KEGG_API : Type := mkKEGG_API {
  organisms_ids_df : option DataFrame;
  query_ids_found : list string;
  query_ids_not_found : list string
}.

(** [lst.append(x)] on the two lists of queries *)
Definition found_append (x : string) (self : KEGG_API) : KEGG_API :=
  mkKEGG_API (organisms_ids_df self) (query_ids_found self ++ [x])
             (query_ids_not_found self).

Definition not_found_append (x : string) (self : KEGG_API) : KEGG_API :=
  mkKEGG_API (organisms_ids_df self) (query_ids_found self)
             (query_ids_not_found self ++ [x]).

(** [series.iloc[0]] *)
Definition iloc_0 (vs : list cell) : result cell :=
  match vs with
  | v :: _ => Ok v
  | [] => Raise IndexError
  end.

Section KEGG.

(** [re.compile(pattern)] and the search of the compiled pattern in a text:
    the regular expressions of Python are not modelled.  A pattern that is
    not well formed is an error of the library. *)
Variable re_compile : string -> result (string -> bool).

(** [series.str.contains(pattern)] on a column of strings; a cell that is
    not a string is outside the model (the method is run on a table from
    which [get_organisms_ids] has dropped the rows with missing cells). *)
Definition str_contains (pattern : string) (vs : list cell)
  : result (list bool) :=
  let! search := re_compile pattern in
  mapM (fun c => match c with
                 | VStr s => Ok (search s)
                 | _ => Raise LibraryError
                 end) vs.

Definition org_name_2_kegg_id (organism : string) (assume_1st : bool)
  (self : KEGG_API) : result (option cell) * KEGG_API :=
  match organisms_ids_df self with
  | None => (Raise TypeError, self)
  | Some df =>
      match (let! descriptions := column_values df (LStr "DESCRIPTION") in
             str_contains organism descriptions) with
      | Raise e => (Raise e, self)
      | Ok org_bool =>
          let organism_ser := choose_rows org_bool df in
          if len organism_ser =? 0 then
            (Ok None, not_found_append organism self)
          else if 1 <? len organism_ser then
            (* the message that is printed shows two columns *)
            match df_getitem_list organism_ser
                    [LStr "DESCRIPTION"; LStr "KEGG_ORG_ID"] with
            | Raise e => (Raise e, self)
            | Ok _ =>
                if assume_1st then
                  let self1 := found_append organism self in
                  ((let! ids :=
                      column_values organism_ser (LStr "KEGG_ORG_ID") in
                    let! v := iloc_0 ids in Ok (Some v)), self1)
                else (Ok None, self)
            end
          else
            let self1 := found_append organism self in
            ((let! ids := column_values organism_ser (LStr "KEGG_ORG_ID") in
              let! v := iloc_0 ids in Ok (Some v)), self1)
      end
  end.

End KEGG.

(** ** KEGG_API.get_KOs_db_X_ref, lines 251-254 *)

(** [df.groupby(by=[key])[col].apply(list)]: the distinct keys in ascending
    order, each with the values its rows have in [col], in the order of the
    rows; rows whose key is NaN belong to no group. *)
Fixpoint gather (k v : cell) (groups : list (cell * list cell))
  : list (cell * list cell) :=
  match groups with
  | [] => [(k, [v])]
  | (k', vs) :: rest =>
      match cell_cmp k k' with
      | Eq => (k', vs ++ [v]) :: rest
      | Lt => (k, [v]) :: groups
      | Gt => (k', vs) :: gather k v rest
      end
  end.

Definition groupby_apply_list (rows : list (cell * cell))
  : list (cell * list cell) :=
  fold_left (fun groups kv =>
               if is_nan (fst kv) then groups
               else gather (fst kv) (snd kv) groups)
            rows [].

(** The end of [get_KOs_db_X_ref]: [KOs_db_X_ref_df] as it is left, from the
    table [df] read from the file (and stripped of its prefixes);
    [to_frame().reset_index()] makes the keys a column again and numbers
    the rows. *)
Definition get_KOs_db_X_ref_squeeze (squeeze : bool) (df : DataFrame)
  : result DataFrame :=
  if squeeze then
    let! ks := column_values df (LStr "KEGG_ID") in
    let! vs := column_values df (LStr "ORG_GENE_ID") in
    let groups := groupby_apply_list (combine ks vs) in
    Ok (mkDF [LStr "KEGG_ID"; LStr "ORG_GENE_ID"]
             (range 0 (Z.of_nat (length groups)))
             (map (fun g => [fst g; VList (snd g)]) groups))
  else Ok df.

(** ** Vocabulary of the further properties *)

Definition key_kind (r : Z) (keys : list cell) : Prop :=
  (r = 1 \/ r = 2 \/ r = 3) /\
  Forall (fun c => is_nan c = true \/ cell_rank c = r) keys.

Definition uniform_keys (keys : list cell) : Prop :=
  exists r, key_kind r keys.

Definition cell_lt (a b : cell) : Prop := cell_cmp a b = Lt.

Definition bin_count (k : cell) (bins : list (cell * Z)) : Z :=
  match find (fun b => cell_eqb k (fst b)) bins with
  | Some b => snd b
  | None => 0
  end.

Definition total_count (rows : list EnrichmentBin) : Z :=
  fold_right Z.add 0 (map COUNT rows).

Definition keyed (keys : list cell) : list cell :=
  filter (fun k => negb (is_nan k)) keys.

Definition table_AB : DataFrame :=
  mkDF [LStr "PSS"] [0; 2] [[VStr "A"]; [VStr "B"]].

Definition table_ABC : DataFrame :=
  mkDF [LStr "PSS"] [0; 1; 2] [[VStr "A"]; [VStr "B"]; [VStr "C"]].

Definition table_AABB : DataFrame :=
  mkDF [LStr "PSS"] [0; 1; 2; 3]
       [[VStr "A"]; [VStr "A"]; [VStr "B"]; [VStr "B"]].



Definition is_nonneg_score (c : cell) : bool :=
  match num_of_cell c with
  | Some q => Qle_bool 0 q
  | None => false
  end.

Definition number_or_nan (c : cell) : Prop :=
  match c with
  | VInt _ | VFloat _ | VNaN => True
  | _ => False
  end.

Definition trial_of (x : Counts * Z * loc) : trial_dict :=
  counts_dict (fst (fst x)) (snd (fst x)) ++ [("dataframe", PRef (snd x))].

Definition sum_of (f : Counts -> Z) (xs : list (Counts * Z * loc)) : Z :=
  fold_right Z.add 0 (map (fun x => f (fst (fst x))) xs).

Definition mean_of (f : Counts -> Z) (xs : list (Counts * Z * loc))
  : npfloat :=
  NpFin (inject_Z (sum_of f xs) / inject_Z (Z.of_nat (length xs))).

(** What a trial of [KO_profs_perm] on the table [d] has stored in [s]: the
    reshuffled table, with the identifier pairs and the number of rows of
    [d], and the counts of its scores. *)
Definition trial_stored (in_prof_sim_lev : Q) (d : DataFrame)
  (pairs : list (cell * cell)) (s : store) (x : Counts * Z * loc) : Prop :=
  exists d' scores,
    lookup (snd x) s = Some (ODataFrame d') /\
    id_pairs literal_names d' = Ok pairs /\
    length (data d') = length (data d) /\
    column_values d' (LStr "PSS") = Ok scores /\
    fst (fst x) = classify in_prof_sim_lev scores.

(** The rows of [d] that satisfy [p], with their labels. *)
Definition filter_rows (p : list cell -> bool) (d : DataFrame) : DataFrame :=
  let kept := filter (fun x => p (snd x)) (combine (index d) (data d)) in
  mkDF (columns d) (map fst kept) (map snd kept).

(** The cell of the row [r] of [d] in the column [name]. *)
Definition cell_of (d : DataFrame) (name : string) (r : list cell) : cell :=
  match position (LStr name) (columns d) with
  | Some j => nth j r VNaN
  | None => VNaN
  end.

(** The rows [df_selector] is documented to keep, for a row [r] of [d]. *)
Definition selected (d : DataFrame) (species : list string)
  (DMF : option string) (SMF_below_one : bool)
  (inter_score_min inter_score_max : pynum)
  (no_flat_plus no_flat_minus : bool) (process profiles : option string)
  (prof_sim_lev : pynum) (r : list cell) : bool :=
  let c := fun name => cell_of d name r in
  (if str_is DMF "positive"
   then cell_gt (c "DMF") (c "SMF_Q") && cell_gt (c "DMF") (c "SMF_A")
   else if str_is DMF "negative"
   then cell_lt_b (c "DMF") (c "SMF_Q") && cell_lt_b (c "DMF") (c "SMF_A")
   else true)
  && (if SMF_below_one
      then lt_num (NFloat 1) (c "SMF_Q") && lt_num (NFloat 1) (c "SMF_A")
      else true)
  && (if is_float inter_score_max
      then lt_num inter_score_max (c "GIS") else true)
  && (if is_float inter_score_min
      then gt_num inter_score_min (c "GIS") else true)
  && (if no_flat_plus
      then ne_str (string_times "+" (length species)) (c "PROF_Q")
           && ne_str (string_times "+" (length species)) (c "PROF_A")
      else true)
  && (if no_flat_minus
      then ne_str (string_times "-" (length species)) (c "PROF_Q")
           && ne_str (string_times "-" (length species)) (c "PROF_A")
      else true)
  && (if str_is process "identical" then eq_str "identical" (c "BSS")
      else if str_is process "different" then eq_str "different" (c "BSS")
      else true)
  && (if str_is profiles "similar" then ge_num prof_sim_lev (c "PSS")
      else if str_is profiles "unsimilar" then lt_num prof_sim_lev (c "PSS")
      else true).

(** The entries [df_selector] leaves in [filters_name]. *)
Definition selected_names (format_number : pynum -> string)
  (DMF : option string) (SMF_below_one : bool)
  (inter_score_min inter_score_max : pynum)
  (no_flat_plus no_flat_minus : bool) (process profiles : option string)
  : list string :=
  (if str_is DMF "positive" then ["DMF_p"]
   else if str_is DMF "negative" then ["DMF_n"] else [])
  ++ (if SMF_below_one then ["SMF_blw_1"] else [])
  ++ (if is_float inter_score_max
      then [("gis_" ++ format_number inter_score_max)%string] else [])
  ++ (if is_float inter_score_min
      then [("gis_" ++ format_number inter_score_min)%string] else [])
  ++ (if no_flat_plus then ["no_plus_flat"] else [])
  ++ (if no_flat_minus then ["no_min_flat"] else [])
  ++ (if str_is process "identical" then ["iden_proc"]
      else if str_is process "different" then ["diff_proc"] else [])
  ++ (if str_is profiles "similar" then ["sim_prof"]
      else if str_is profiles "unsimilar" then ["dis_prof"] else []).

(** The entries [df_selector] leaves in [filters_used]. *)
Definition selected_used (format_number : pynum -> string)
  (DMF : option string) (SMF_below_one : bool)
  (inter_score_min inter_score_max : pynum)
  (no_flat_plus no_flat_minus : bool) (process profiles : option string)
  : list string :=
  (if str_is DMF "positive" then ["DMF positive"]
   else if str_is DMF "negative" then ["DMF negative"] else [])
  ++ (if SMF_below_one then ["SMF < 1.0"] else [])
  ++ (if is_float inter_score_max
      then [("Genetic interaction score < "
             ++ format_number inter_score_max)%string] else [])
  ++ (if is_float inter_score_min
      then [("Genetic interaction score > "
             ++ format_number inter_score_min)%string] else [])
  ++ (if no_flat_plus then ["No plus-only (eg ++++++) profiles"] else [])
  ++ (if no_flat_minus then ["No minus-only (eg ------) profiles"] else [])
  ++ (if str_is process "identical" then ["Identical bioprocesses"]
      else if str_is process "different" then ["Different bioprocesses"]
      else [])
  ++ (if str_is profiles "similar" then ["Similar profiles"]
      else if str_is profiles "unsimilar" then ["Dissimilar profiles"]
      else []).

(** The columns every call of [df_selector] reads. *)
Definition selector_columns : list string :=
  ["DMF"; "SMF_Q"; "SMF_A"; "GIS"; "PROF_Q"; "PROF_A"; "BSS"].

(** The guard of [df_selector] lets the arguments pass. *)
Definition guard_passes (profiles : option string) (prof_sim_lev : pynum)
  : bool :=
  match profiles, prof_sim_lev with
  | None, NNone => true
  | Some _, (NFloat _ | NInt _) => true
  | _, _ => false
  end.

(** The instance when the rows of [d] that satisfy [q] are left and the
    filters [u], [n] have been noted. *)
Definition selection_of (d : DataFrame) (sp : list string)
  (npr : option Num_prop) (q : list cell -> bool) (u n : list string)
  : Selection :=
  mkSelection sp (filter_rows q d) (FList u) (FList n) npr.

(** The cells of the column [name] of [d] are numbers or missing. *)
Definition numbers_in (d : DataFrame) (name : string) : Prop :=
  forall r, In r (data d) -> number_or_nan (cell_of d name r).

(** What [df_selector] is run on: a table with one label per row, all
    distinct, that has the columns the method reads, with numbers in the
    columns it compares with numbers. *)
Definition selectable (d : DataFrame) (profiles : option string) : Prop :=
  length (index d) = length (data d) /\
  NoDup (index d) /\
  Forall (fun c => In (LStr c) (columns d)) selector_columns /\
  Forall (numbers_in d) ["DMF"; "SMF_Q"; "SMF_A"; "GIS"] /\
  (profiles <> None ->
   In (LStr "PSS") (columns d) /\ numbers_in d "PSS").

(** The instance after the two assignments that open [df_selector]. *)
Definition filters_reset (self : Selection) : Selection :=
  mkSelection (self_query_species self) (self_inter_df self) (FList [])
              (FList []) (num_prop_res self).

(** The list an attribute of filters holds once [df_num_prop] has looked at
    it. *)
Definition filters_list (f : filters) : list string :=
  match f with
  | FStr _ => []
  | FList l => l
  end.

Definition example_selection_df : DataFrame :=
  mkDF [LStr "DMF"; LStr "SMF_Q"; LStr "SMF_A"; LStr "GIS"; LStr "PROF_Q";
        LStr "PROF_A"; LStr "BSS"; LStr "PSS"]
       [0; 1; 2]
       [[VInt 3; VInt 1; VInt 2; VInt 1; VStr "++"; VStr "+-";
         VStr "identical"; VInt 2];
        [VInt 0; VInt 1; VInt 2; VInt (-1); VStr "+-"; VStr "--";
         VStr "different"; VInt 0];
        [VInt 1; VInt 0; VInt 0; VInt 0; VStr "-+"; VStr "-+";
         VStr "identical"; VInt 1]].

Definition example_selection : Selection :=
  init_selection ["a"; "b"] example_selection_df.

Definition example_format (x : pynum) : string :=
  match x with
  | NNone => "None"
  | NFloat q => "float"
  | NInt z => string_of_Z z
  end.

Definition example_value_counts (l : list cell) : list (cell * Z) :=
  groupby_size l.

(** The table [get_org_db_X_ref] reads from its file: the two columns
    [ORF_ID] and [KEGG_ID], a label and two cells per row. *)
Definition X_ref_table (d : DataFrame) : Prop :=
  columns d = [LStr "ORF_ID"; LStr "KEGG_ID"] /\
  length (index d) = length (data d) /\
  Forall (fun r => length r = 2%nat) (data d).

Definition example_X_ref : DataFrame :=
  mkDF [LStr "ORF_ID"; LStr "KEGG_ID"] [0; 1; 2; 3]
       [[VStr "a"; VStr "K1"]; [VStr "a"; VStr "K2"]; [VStr "b"; VStr "K1"];
        [VStr "c"; VStr "K3"]].

(** The pattern, compiled to [search], is found in the cell [c]. *)
Definition is_hit (search : string -> bool) (c : cell) : bool :=
  match c with
  | VStr s => search s
  | _ => false
  end.

Definition example_organisms : DataFrame :=
  mkDF [LStr "GENOME_ID"; LStr "DESCRIPTION"; LStr "KEGG_ORG_ID";
        LStr "NAME"; LStr "TAXON_ID"]
       [0; 1; 2]
       [[VStr "T00005"; VStr "Saccharomyces cerevisiae"; VStr "sce";
         VStr "SACCE"; VInt 559292];
        [VStr "T01116"; VStr "Saccharomyces eubayanus"; VStr "seub";
         VStr "SACEU"; VInt 1080349];
        [VStr "T00007"; VStr "Escherichia coli"; VStr "eco"; VStr "ECOLI";
         VInt 511145]].

Definition example_KEGG : KEGG_API := mkKEGG_API (Some example_organisms) [] [].

(** A search for the examples: the pattern is a prefix of the text. *)
Definition example_compile (pattern : string) : result (string -> bool) :=
  Ok (String.prefix pattern).

(** What a trial of [names_perm] counts on the table [d]: the scores of the
    pairs of a query and an array gene, the names of either column having
    been permuted on their own. *)
Definition names_trial
  (df_qa_names_2_prof_score : list cell -> list (list cell) -> result cell)
  (in_prof_sim_lev : Q) (d : DataFrame) (catalogue : list (list cell))
  (c : Counts) : Prop :=
  exists gq ga qs ays scores,
    column_values d (LStr "GENE_Q") = Ok gq /\
    column_values d (LStr "GENE_A") = Ok ga /\
    Permutation qs gq /\
    Permutation ays ga /\
    mapM (fun x => df_qa_names_2_prof_score [fst x; snd x] catalogue)
         (combine qs ays) = Ok scores /\
    c = classify in_prof_sim_lev scores.

(** The dictionaries of the trials [iters] that counted [cs]. *)
Definition numbered_counts (cs : list Counts) (iters : list Z)
  : list trial_dict :=
  map (fun x => counts_dict (fst x) (snd x)) (combine cs iters).

(** The score of a pair of profiles in a trial of [prof_cols_perm]. *)
Definition profiles_score
  (simple_profiles_scorer : cell -> cell -> result cell)
  (x : cell * cell) : result cell :=
  let! aq := np_array_list (fst x) in
  let! aa := np_array_list (snd x) in
  simple_profiles_scorer aq aa.

(** What a trial of [prof_cols_perm] counts on the table [d]: the scores of
    the pairs of a query and an array profile, the profiles of either column
    having been permuted on their own. *)
Definition prof_cols_trial
  (simple_profiles_scorer : cell -> cell -> result cell)
  (in_prof_sim_lev : Q) (d : DataFrame) (c : Counts) : Prop :=
  exists pq pa qs ays scores,
    column_values d (LStr "PROF_Q") = Ok pq /\
    column_values d (LStr "PROF_A") = Ok pa /\
    Permutation qs pq /\
    Permutation ays pa /\
    mapM (profiles_score simple_profiles_scorer) (combine qs ays)
    = Ok scores /\
    c = classify in_prof_sim_lev scores.

(** What a trial of [prof_arr_perm] on the table [d] has stored in [s]:
    the table without the columns [ls], every row extended with the two
    profiles found in the permuted catalogue and with the score of its
    pair of genes on that catalogue; the permuted catalogue has the
    profiles of [catalogue] in their order and a permutation of its
    names. *)
Definition arr_trial_stored
  (df_qa_names_2_prof_score : list cell -> list (list cell) -> result cell)
  (in_prof_sim_lev : Q) (d : DataFrame) (ls : list label)
  (catalogue : list (list cell)) (genes : list (cell * cell)) (s : store)
  (x : Counts * Z * loc) : Prop :=
  exists d' permuted scores,
    lookup (snd x) s = Some (ODataFrame d') /\
    index d' = index d /\
    columns d' = filter (fun c => negb (label_mem c ls)) (columns d)
                 ++ [LStr "PROF_Q"; LStr "PROF_A"; LStr "PSS"] /\
    Forall2 extends (map (drop_cells (columns d) ls) (data d)) (data d') /\
    map entry_profile permuted = map entry_profile catalogue /\
    Permutation (map (hd VNaN) permuted) (map (hd VNaN) catalogue) /\
    column_values d' (LStr "PSS") = Ok scores /\
    mapM (fun g => df_qa_names_2_prof_score [fst g; snd g] permuted) genes
    = Ok scores /\
    fst (fst x) = classify in_prof_sim_lev scores.

(** The values listed for the key [k]. *)
Definition group_values (k : cell) (groups : list (cell * list cell))
  : list cell :=
  match find (fun g => cell_eqb k (fst g)) groups with
  | Some g => snd g
  | None => []
  end.

(** The values of the rows with the key [k], in the order of the rows. *)
Definition values_of (k : cell) (rows : list (cell * cell)) : list cell :=
  map snd (filter (fun kv => cell_eqb k (fst kv)) rows).

Definition example_KOs : DataFrame :=
  mkDF [LStr "KEGG_ID"; LStr "ORG_GENE_ID"] [0; 1; 2; 3]
       [[VStr "K2"; VStr "sce"]; [VStr "K1"; VStr "eco"];
        [VStr "K2"; VStr "hsa"]; [VStr "K1"; VStr "sce"]].

(** An interaction table without the columns of the species "hsa". *)
Definition example_species_self : Ortho_Stats :=
  mkOrtho ["hsa"] (Outer 0) (Outer 1) None None None None None.

Definition example_species_store : store :=
  mkStore [ODataFrame example_inter_df; OList example_gene_profiles] []
          example_species_self.

(** * Properties *)

Local Open Scope py_scope.

(** ** Arithmetic of [_log_binomial_coeff] and [_score] *)

Lemma trunc_inject_Z (z : Z) : trunc (inject_Z z) = z.
Proof.
  unfold trunc. destruct (Qle_bool 0 (inject_Z z)).
  - apply Qfloor_Z.
  - apply Qceiling_Z.
Qed.

Lemma trunc_comp (x y : Q) : (x == y)%Q -> trunc x = trunc y.
Proof.
  intros H. unfold trunc.
  assert (E : Qle_bool 0 x = Qle_bool 0 y).
  { destruct (Qle_bool 0 x) eqn:A, (Qle_bool 0 y) eqn:B; auto.
    - apply Qle_bool_iff in A. rewrite H in A. apply Qle_bool_iff in A.
      congruence.
    - apply Qle_bool_iff in B. rewrite <- H in B. apply Qle_bool_iff in B.
      congruence. }
  rewrite E. destruct (Qle_bool 0 y).
  - now rewrite H.
  - unfold Qceiling. now rewrite H.
Qed.

Lemma half_le (k n : Z) :
  Qle_bool (inject_Z k) (inject_Z n / 2) = true <-> 2 * k <= n.
Proof.
  rewrite Qle_bool_iff. unfold Qle, Qdiv, Qmult, Qinv, inject_Z.
  cbn -[Z.mul]. lia.
Qed.

Lemma in_range (a b i : Z) : In i (range a b) <-> a <= i < b.
Proof.
  unfold range. rewrite in_map_iff. split.
  - intros [j [E H]]. apply in_seq in H. lia.
  - intros H. exists (Z.to_nat (i - a)). split; [lia|]. apply in_seq. lia.
Qed.

Lemma math_log_pos (q : Q) :
  (0 < q)%Q -> math_log (Fin q) = Ok (LV (ln (Q2R q))).
Proof.
  intros H. unfold math_log.
  destruct (Qle_bool q 0) eqn:E; [|reflexivity].
  apply Qle_bool_iff in E. exfalso. apply (Qlt_not_le _ _ H E).
Qed.

Lemma math_log_nonpos (q : Q) :
  (q <= 0)%Q -> math_log (Fin q) = Raise math_domain_error.
Proof.
  intros H. unfold math_log. apply Qle_bool_iff in H. now rewrite H.
Qed.

Lemma log_binomial_step_ok (n i : Z) (w : R) :
  1 <= i <= n ->
  exists w', log_binomial_step (inject_Z n) (LV w) i = Ok (LV w').
Proof.
  intros H. unfold log_binomial_step, fl_div.
  destruct (Qeq_bool (inject_Z i) 0) eqn:E.
  - apply Qeq_bool_iff in E. unfold Qeq, inject_Z in E. cbn -[Z.mul] in E. lia.
  - cbn [rbind]. rewrite math_log_pos.
    + cbn. eexists. reflexivity.
    + unfold Qlt, Qdiv, Qmult, Qinv, Qplus, Qminus, Qopp, Qplus, inject_Z.
      destruct i as [|i|i]; try lia. cbn -[Z.mul Z.add]. lia.
Qed.

Lemma log_binomial_loop_ok (n : Z) (l : list Z) :
  (forall i, In i l -> 1 <= i <= n) ->
  forall w,
  exists w', foldM (log_binomial_step (inject_Z n)) l (LV w) = Ok (LV w').
Proof.
  induction l as [|i l IH]; intros H w.
  - exists w. reflexivity.
  - destruct (log_binomial_step_ok n i w) as [w1 E1].
    { apply H. now left. }
    cbn [foldM]. rewrite E1. cbn [rbind]. apply IH.
    intros j Hj. apply H. now right.
Qed.

Lemma trunc_sub (n k : Z) : trunc (inject_Z n - inject_Z k) = n - k.
Proof.
  rewrite <- (trunc_inject_Z (n - k)). apply trunc_comp.
  unfold Qeq, Qminus, Qplus, Qopp, inject_Z. cbn -[Z.mul Z.add]. lia.
Qed.

Lemma loop_count_spec (n k : Z) :
  loop_count (inject_Z n) k = if 2 * k <=? n then k else n - k.
Proof.
  unfold loop_count.
  destruct (Qle_bool (inject_Z k) (inject_Z n / 2)) eqn:E; cbn [negb].
  - apply half_le in E. destruct (Z.leb_spec (2 * k) n); [reflexivity|lia].
  - rewrite trunc_sub. destruct (Z.leb_spec (2 * k) n); [|reflexivity].
    apply half_le in H. congruence.
Qed.

Lemma log_binomial_coeff_unfold (n k : Z) :
  _log_binomial_coeff n k =
  foldM (log_binomial_step (inject_Z n))
        (range 1 (loop_count (inject_Z n) k + 1)) (LV 0).
Proof. reflexivity. Qed.

Lemma log_binomial_coeff_total (n k : Z) :
  exists w, _log_binomial_coeff n k = Ok (LV w).
Proof.
  rewrite log_binomial_coeff_unfold. apply log_binomial_loop_ok.
  intros i Hi. apply in_range in Hi. rewrite loop_count_spec in Hi.
  destruct (Z.leb_spec (2 * k) n); lia.
Qed.



Lemma py_int_Fin (q : Q) : py_int (Fin q) = Ok (trunc q).
Proof. reflexivity. Qed.

Lemma score_unfold (h t : Z) (p : pyfloat) (c : logval) :
  _log_binomial_coeff t h = Ok c ->
  _score (of_int h) (of_int t) p =
  (let! lp := math_log p in
   let! lq := math_log (fl_sub (Fin 1) p) in
   Ok (lv_add (lv_add c (lv_scale h lp)) (lv_scale (t - h) lq))).
Proof.
  intros E. unfold _score, of_int. rewrite !py_int_Fin. cbn [rbind].
  rewrite !trunc_inject_Z. rewrite E. reflexivity.
Qed.

(** [_score] looks at its first two arguments through [int] only. *)
Lemma score_int (hits trials : Q) (p : pyfloat) :
  _score (Fin hits) (Fin trials) p =
  _score (of_int (trunc hits)) (of_int (trunc trials)) p.
Proof.
  unfold _score, of_int. rewrite !py_int_Fin. cbn [rbind].
  now rewrite !trunc_inject_Z.
Qed.

Lemma score_raises (hits trials p : Q) :
  Qle_bool p 0 || Qle_bool 1 p = true ->
  _score (Fin hits) (Fin trials) (Fin p) = Raise math_domain_error.
Proof.
  intros H. rewrite score_int.
  destruct (log_binomial_coeff_total (trunc trials) (trunc hits)) as [w Ew].
  rewrite (score_unfold _ _ _ _ Ew).
  destruct (Qle_bool p 0) eqn:E0; cbn [orb] in H.
  - apply Qle_bool_iff in E0. now rewrite (math_log_nonpos _ E0).
  - assert (P0 : (0 < p)%Q).
    { apply Qnot_le_lt. intros H'. apply Qle_bool_iff in H'. congruence. }
    rewrite (math_log_pos _ P0). cbn [rbind fl_sub].
    rewrite math_log_nonpos; [reflexivity|].
    apply Qle_bool_iff in H. unfold Qminus.
    rewrite <- (Qplus_opp_r p). apply Qplus_le_l. exact H.
Qed.

Lemma score_returns (hits trials p : Q) :
  Qle_bool p 0 || Qle_bool 1 p = false ->
  exists v, _score (Fin hits) (Fin trials) (Fin p) = Ok (LV v).
Proof.
  intros H. apply orb_false_iff in H. destruct H as [E0 E1].
  rewrite score_int.
  destruct (log_binomial_coeff_total (trunc trials) (trunc hits)) as [w Ew].
  rewrite (score_unfold _ _ _ _ Ew).
  assert (P0 : (0 < p)%Q).
  { apply Qnot_le_lt. intros H. apply Qle_bool_iff in H. congruence. }
  assert (P1 : (p < 1)%Q).
  { apply Qnot_le_lt. intros H. apply Qle_bool_iff in H. congruence. }
  rewrite (math_log_pos _ P0). cbn [rbind fl_sub].
  rewrite math_log_pos.
  - cbn. eexists. reflexivity.
  - unfold Qminus. rewrite <- (Qplus_opp_r p). apply Qplus_lt_l. exact P1.
Qed.



(** ** [calculate_enrichment] *)

Lemma mapM_Forall2 {A B : Type} (f : A -> result B) (l : list A)
  (out : list B) :
  mapM f l = Ok out <-> Forall2 (fun x y => f x = Ok y) l out.
Proof.
  revert out. induction l as [|x l IH]; intros out; cbn [mapM].
  - split.
    + intros H. injection H as <-. constructor.
    + intros H. inversion H. reflexivity.
  - split.
    + destruct (f x) as [y|e] eqn:E; cbn [rbind]; [|discriminate].
      destruct (mapM f l) as [ys|e] eqn:E'; cbn [rbind]; [|discriminate].
      intros H. injection H as <-. constructor; [exact E|]. now apply IH.
    + intros H. inversion H as [|x' y l' ys Hxy Hrest]; subst.
      rewrite Hxy. cbn [rbind]. apply IH in Hrest. rewrite Hrest. reflexivity.
Qed.

Lemma assign_apply_Forall2 {A B : Type} (f : A -> result B) (rows : list A)
  (out : list (A * B)) :
  assign_apply f rows = Ok out <->
  Forall2 (fun r o => fst o = r /\ f r = Ok (snd o)) rows out.
Proof.
  unfold assign_apply. rewrite mapM_Forall2. split; intros H.
  - induction H as [|r o rows out H1 H2 IH]; constructor; auto.
    destruct (f r) as [v|e]; cbn [rbind] in H1; [|discriminate].
    injection H1 as <-. auto.
  - induction H as [|r o rows out [H1 H1'] H2 IH]; constructor; auto.
    rewrite H1'. cbn [rbind]. destruct o; cbn in *. now subst.
Qed.

Lemma Forall2_exists {A B : Type} (R : A -> B -> Prop) (l : list A) :
  (forall x, In x l -> exists y, R x y) -> exists out, Forall2 R l out.
Proof.
  induction l as [|x l IH]; intros H.
  - exists []. constructor.
  - destruct (H x (or_introl eq_refl)) as [y Hy].
    destruct IH as [ys Hys]. { intros; apply H; now right. }
    exists (y :: ys). now constructor.
Qed.

Lemma Forall2_map_r {A B C : Type} (R : A -> C -> Prop) (g : B -> C)
  (l : list A) (m : list B) :
  Forall2 (fun a b => R a (g b)) l m -> Forall2 R l (map g m).
Proof. induction 1; cbn; constructor; auto. Qed.

Lemma Forall2_compose {A B C : Type} (R : A -> B -> Prop)
  (S : B -> C -> Prop) (l : list A) (m : list B) (o : list C) :
  Forall2 R l m -> Forall2 S m o ->
  Forall2 (fun a c => exists b, R a b /\ S b c) l o.
Proof.
  intros H1. revert o. induction H1; intros o H2; inversion H2; subst;
    constructor; eauto.
Qed.

Lemma Forall2_impl {A B : Type} (R S : A -> B -> Prop) (l : list A)
  (m : list B) :
  (forall a b, R a b -> S a b) -> Forall2 R l m -> Forall2 S l m.
Proof. intros H; induction 1; constructor; auto. Qed.

Lemma calculate_enrichment_rows (selected total : DataFrame) (col : label)
  (sel_keys tot_keys : list cell) (p_series : list Q)
  (rows : list EnrichmentBin) :
  0 < len selected <= len total ->
  column_values selected col = Ok sel_keys ->
  column_values total col = Ok tot_keys ->
  mapM (fun x => fl_div (inject_Z x) (inject_Z (len total)))
       (map snd (groupby_size tot_keys)) = Ok p_series ->
  (calculate_enrichment selected total col = Ok rows <->
   Forall2 (bin_of (len selected))
           (assign_aligned (groupby_size sel_keys) p_series) rows).
Proof.
  intros Hlen Hs Ht Hp. unfold calculate_enrichment.
  replace (len selected =? 0) with false by (symmetry; apply Z.eqb_neq; lia).
  replace (len total =? 0) with false by (symmetry; apply Z.eqb_neq; lia).
  replace (len total <? len selected) with false
    by (symmetry; apply Z.ltb_ge; lia).
  cbn [orb]. rewrite Hs, Ht. cbn [rbind]. rewrite Hp. cbn [rbind].
  set (wp := assign_aligned (groupby_size sel_keys) p_series).
  split.
  - destruct (assign_apply _ wp) as [we|] eqn:E1; cbn [rbind]; [|discriminate].
    destruct (assign_apply _ we) as [ws|] eqn:E2; cbn [rbind]; [|discriminate].
    destruct (assign_apply _ ws) as [wse|] eqn:E3; cbn [rbind]; [|discriminate].
    intros H. injection H as <-.
    apply assign_apply_Forall2 in E1, E2, E3.
    apply Forall2_map_r.
    pose proof (Forall2_compose _ _ _ _ _
                  (Forall2_compose _ _ _ _ _ E1 E2) E3) as E.
    revert E. apply Forall2_impl.
    intros [[k c] p] [[[[[k' c'] p'] ce] s0] se] [b [[a [Ha Hb]] Hc]].
    cbn in *. destruct Hc as [<- Hse]. destruct Hb as [<- Hs0].
    destruct Ha as [Hx Hce]. cbn in *. injection Hx as -> -> ->.
    injection Hce as <-. unfold bin_of. cbn. repeat split; auto.
  - intros H.
    assert (E1 : exists we, assign_apply
               (fun x => Ok (fl_mul (of_int (len selected)) (snd x))) wp = Ok we
               /\ we = map (fun x => (x, fl_mul (of_int (len selected))
                                                 (snd x))) wp).
    { eexists. split; [|reflexivity]. apply assign_apply_Forall2.
      clear. induction wp; cbn; constructor; auto. }
    destruct E1 as [we [E1 Hwe]]. rewrite E1. cbn [rbind].
    assert (E2 : assign_apply
               (fun x => _score (of_int (snd (fst (fst x))))
                                (of_int (len selected)) (snd (fst x))) we
             = Ok (map (fun xr =>
                          ((fst xr,
                            fl_mul (of_int (len selected)) (snd (fst xr))),
                           SCORE (snd xr)))
                       (combine wp rows))).
    { apply assign_apply_Forall2. subst we. clear E1.
      induction H as [|x r wp' rows' Hxr Hrest IH];
        cbn [map combine]; constructor; auto.
      cbn [fst snd]. split; [reflexivity|]. apply Hxr. }
    rewrite E2. cbn [rbind].
    assert (E3 : assign_apply
               (fun x => _score (snd (fst x)) (of_int (len selected))
                                (snd (fst (fst x))))
               (map (fun xr =>
                       ((fst xr,
                         fl_mul (of_int (len selected)) (snd (fst xr))),
                        SCORE (snd xr)))
                    (combine wp rows))
             = Ok (map (fun xr =>
                          (((fst xr,
                             fl_mul (of_int (len selected)) (snd (fst xr))),
                            SCORE (snd xr)),
                           SCORE_EXP (snd xr)))
                       (combine wp rows))).
    { apply assign_apply_Forall2. clear E1 E2 Hwe.
      induction H as [|x r wp' rows' Hxr Hrest IH];
        cbn [map combine]; constructor; auto.
      cbn [fst snd]. split; [reflexivity|].
      destruct Hxr as (_ & _ & _ & Hce & _ & Hse & _). now rewrite <- Hce. }
    rewrite E3. cbn [rbind]. f_equal. clear E1 E2 E3 Hwe.
    induction H as [|x r wp' rows' Hxr Hrest IH];
      cbn [map combine]; [reflexivity|].
    f_equal; [|exact IH].
    destruct x as [[k c] p]. destruct r. unfold bin_of in Hxr.
    cbn [fst snd category COUNT P COUNT_EXP SCORE SCORE_EXP FOLD_CHNG] in *.
    destruct Hxr as (-> & -> & -> & -> & _ & _ & ->). reflexivity.
Qed.

Lemma calculate_enrichment_Ok (selected total : DataFrame) (col : label)
  (rows : list EnrichmentBin) :
  calculate_enrichment selected total col = Ok rows ->
  exists sel_keys tot_keys p_series,
    0 < len selected <= len total /\
    column_values selected col = Ok sel_keys /\
    column_values total col = Ok tot_keys /\
    mapM (fun x => fl_div (inject_Z x) (inject_Z (len total)))
         (map snd (groupby_size tot_keys)) = Ok p_series /\
    Forall2 (bin_of (len selected))
            (assign_aligned (groupby_size sel_keys) p_series) rows.
Proof.
  intros H. pose proof H as H0. unfold calculate_enrichment in H.
  destruct (len selected =? 0) eqn:E1; [discriminate|].
  destruct (len total =? 0) eqn:E2; [discriminate|]. cbn [orb] in H.
  destruct (len total <? len selected) eqn:E3; [discriminate|].
  destruct (column_values selected col) as [sk|] eqn:Hs; [|discriminate].
  destruct (column_values total col) as [tk|] eqn:Ht; [|discriminate].
  cbn [rbind] in H.
  destruct (mapM _ (map snd (groupby_size tk))) as [ps|] eqn:Hp;
    [|discriminate].
  assert (Hlen : 0 < len selected <= len total).
  { apply Z.eqb_neq in E1. apply Z.ltb_ge in E3. unfold len in *. lia. }
  exists sk, tk, ps. repeat split; try tauto; try lia.
  now apply (calculate_enrichment_rows selected total col sk tk ps rows).
Qed.

Lemma Forall2_In_r {A B : Type} (R : A -> B -> Prop) (l : list A)
  (m : list B) (y : B) :
  Forall2 R l m -> In y m -> exists x, In x l /\ R x y.
Proof.
  induction 1 as [|a b l m Hab H IH]; intros Hy; [contradiction|].
  destruct Hy as [<-|Hy].
  - exists a. split; [now left|assumption].
  - destruct (IH Hy) as [x [Hx Hr]]. exists x. split; [now right|assumption].
Qed.

(** C10.  [_score] depends on its first two arguments through [int] only,
    and the expected score of a row of [calculate_enrichment] is the score
    of the truncated expected count [int(COUNT_EXP)]. *)
Theorem score_of_truncated_counts :
  (forall (hits trials : Q) (p : pyfloat),
      py_int (Fin hits) = Ok (trunc hits) /\
      py_int (Fin trials) = Ok (trunc trials) /\
      _score (Fin hits) (Fin trials) p =
      _score (of_int (trunc hits)) (of_int (trunc trials)) p) /\
  (forall (selected total : DataFrame) (col : label)
          (rows : list EnrichmentBin) (r : EnrichmentBin),
      calculate_enrichment selected total col = Ok rows ->
      In r rows ->
      exists c : Z,
        py_int (COUNT_EXP r) = Ok c /\
        _score (of_int c) (of_int (len selected)) (P r) = Ok (SCORE_EXP r)).
Proof.
  split.
  - intros hits trials p. repeat split. apply score_int.
  - intros selected total col rows r H Hr.
    destruct (calculate_enrichment_Ok _ _ _ _ H)
      as (sk & tk & ps & _ & _ & _ & _ & F).
    destruct (Forall2_In_r _ _ _ _ F Hr) as [x [_ B]].
    destruct B as (_ & _ & HP & _ & _ & Hse & _).
    rewrite <- HP in Hse.
    destruct (COUNT_EXP r) as [q|] eqn:E.
    + exists (trunc q). split; [reflexivity|].
      unfold of_int in Hse. rewrite score_int in Hse.
      rewrite trunc_inject_Z in Hse. exact Hse.
    + discriminate.
Qed.

Lemma bump_pos (k : cell) (bins : list (cell * Z)) :
  Forall (fun b => 1 <= snd b) bins ->
  Forall (fun b => 1 <= snd b) (bump k bins).
Proof.
  induction 1 as [|[k' c] bins Hc H IH]; cbn [bump].
  - constructor; [cbn; lia|constructor].
  - destruct (cell_cmp k k').
    + constructor; [cbn in *; lia|assumption].
    + constructor; [cbn; lia|]. constructor; assumption.
    + constructor; assumption.
Qed.

Lemma groupby_size_pos (keys : list cell) :
  Forall (fun b => 1 <= snd b) (groupby_size keys).
Proof.
  unfold groupby_size.
  assert (G : forall bins, Forall (fun b => 1 <= snd b) bins ->
              Forall (fun b => 1 <= snd b)
                (fold_left
                   (fun bins k => if is_nan k then bins else bump k bins)
                           keys bins)).
  { induction keys as [|k keys IH]; intros bins H; cbn [fold_left]; auto.
    apply IH. destruct (is_nan k); auto using bump_pos. }
  apply G. constructor.
Qed.

Lemma p_series_ok (n : Z) (counts : list Z) :
  n <> 0 ->
  mapM (fun x => fl_div (inject_Z x) (inject_Z n)) counts =
  Ok (map (fun x => inject_Z x / inject_Z n)%Q counts).
Proof.
  intros Hn. induction counts as [|c counts IH]; cbn [mapM map]; auto.
  rewrite IH. unfold fl_div.
  destruct (Qeq_bool (inject_Z n) 0) eqn:E; [|reflexivity].
  apply Qeq_bool_iff in E. unfold Qeq, inject_Z in E. cbn -[Z.mul] in E. lia.
Qed.


Lemma inject_Z_nonzero (n : Z) : n <> 0 -> ~ (inject_Z n == 0)%Q.
Proof. unfold Qeq, inject_Z. cbn -[Z.mul]. lia. Qed.


Lemma ratio_bounds (c n : Z) :
  1 <= c < n ->
  Qle_bool (inject_Z c / inject_Z n) 0 || Qle_bool 1 (inject_Z c / inject_Z n)
  = false.
Proof.
  intros H. apply orb_false_iff. split.
  - destruct (Qle_bool _ 0) eqn:E; [|reflexivity]. apply Qle_bool_iff in E.
    unfold Qle, Qdiv, Qmult, Qinv, inject_Z in E.
    destruct n as [|n|n]; try lia. cbn -[Z.mul] in E. lia.
  - destruct (Qle_bool 1 _) eqn:E; [|reflexivity]. apply Qle_bool_iff in E.
    unfold Qle, Qdiv, Qmult, Qinv, inject_Z in E.
    destruct n as [|n|n]; try lia. cbn -[Z.mul] in E. lia.
Qed.







(** C1 fails on the code: for the selected table [B] and the total table
    [A, A, B] the only row of the result is the one of category [B], and its
    [P] is 2/3, the share of [A] in the total (the first group of the total),
    where the share of [B] is 1/3; [COUNT_EXP] follows [P]. *)
Theorem enrichment_probability_misaligned :
  0 < len table_B <= len table_AAB /\
  exists r,
    calculate_enrichment table_B table_AAB (LStr "PSS") = Ok [r] /\
    category r = VStr "B" /\
    P r = Fin (2 # 3) /\
    COUNT_EXP r = Fin (2 # 3) /\
    (spec_background_probability (VStr "B") [VStr "A"; VStr "A"; VStr "B"]
     == 1 # 3)%Q /\
    ~ (2 # 3 == 1 # 3)%Q.
Proof.
  split; [split; [reflexivity|discriminate]|].
  eexists. split; [reflexivity|].
  repeat split; try reflexivity. discriminate.
Qed.

Lemma score_of_truncated_counts_witness :
  exists rows r,
    calculate_enrichment table_B table_AAB (LStr "PSS") = Ok rows /\
    In r rows /\
    exists c : Z,
      py_int (COUNT_EXP r) = Ok c /\
      _score (of_int c) (of_int (len table_B)) (P r) = Ok (SCORE_EXP r).
Proof.
  eexists. eexists. split; [reflexivity|]. split; [left; reflexivity|].
  apply (proj2 score_of_truncated_counts table_B table_AAB (LStr "PSS")
           _ _ eq_refl (or_introl eq_refl)).
Defined.

(** ** Classification *)

Lemma classes_of_nonneg_score (t : Q) (c : cell) :
  (0 < t)%Q -> nonneg_score c ->
  exactly_one (sim_prof_bool t c) (unsim_prof_bool t c) (mir_prof_bool c).
Proof.
  intros Ht [q [Hq H0]].
  unfold exactly_one, sim_prof_bool, unsim_prof_bool, mir_prof_bool.
  rewrite Hq.
  destruct (Qle_bool t q) eqn:E1, (Qle_bool q 0) eqn:E2,
           (Qeq_bool q 0) eqn:E3; cbn [negb andb]; try solve [auto 10];
    exfalso.
  - apply Qle_bool_iff in E1. apply Qeq_bool_iff in E3. rewrite E3 in E1.
    exact (Qlt_not_le _ _ Ht E1).
  - apply Qle_bool_iff in E1. apply Qeq_bool_iff in E3. rewrite E3 in E1.
    exact (Qlt_not_le _ _ Ht E1).
  - apply Qle_bool_iff in E2. apply Qeq_bool_neq in E3. apply E3.
    now apply Qle_antisym.
  - apply Qeq_bool_iff in E3.
    assert (H : Qle_bool q 0 = true).
    { apply Qle_bool_iff. rewrite E3. apply Qle_refl. }
    congruence.
Qed.

Lemma count_mask_cons (mask : cell -> bool) (c : cell) (l : list cell) :
  count_mask mask (c :: l) = (if mask c then 1 else 0) + count_mask mask l.
Proof.
  unfold count_mask. cbn [filter]. destruct (mask c); cbn [length]; lia.
Qed.

(** C3, as amended.  For a threshold above 0 and scores that are numbers
    and not negative, every row is in exactly one of the classes similar
    ([score >= t]), dissimilar ([0 < score < t]) and mirror ([score == 0]),
    and the three counts add up to the number of rows. *)
Theorem classification_partition (t : Q) (pss : list cell) :
  (0 < t)%Q ->
  Forall nonneg_score pss ->
  (forall c, In c pss ->
     exactly_one (sim_prof_bool t c) (unsim_prof_bool t c) (mir_prof_bool c))
  /\ sim_prof_perm_num (classify t pss) + unsim_prof_perm_num (classify t pss)
     + mir_prof_perm_num (classify t pss) = Z.of_nat (length pss).
Proof.
  intros Ht H. split.
  - intros c Hc. rewrite Forall_forall in H.
    apply classes_of_nonneg_score; auto.
  - unfold classify.
    cbn [sim_prof_perm_num unsim_prof_perm_num mir_prof_perm_num].
    induction H as [|c l Hc Hl IH]; [reflexivity|].
    rewrite !count_mask_cons.
    destruct (classes_of_nonneg_score t c Ht Hc)
      as [(-> & -> & ->)|[(-> & -> & ->)|(-> & -> & ->)]];
      cbn [length]; lia.
Qed.

Lemma classification_partition_witness :
  (0 < 2)%Q /\ Forall nonneg_score [VInt 3; VInt 1; VInt 0; VInt 2] /\
  sim_prof_perm_num (classify 2 [VInt 3; VInt 1; VInt 0; VInt 2])
  + unsim_prof_perm_num (classify 2 [VInt 3; VInt 1; VInt 0; VInt 2])
  + mir_prof_perm_num (classify 2 [VInt 3; VInt 1; VInt 0; VInt 2]) = 4.
Proof.
  assert (H : Forall nonneg_score [VInt 3; VInt 1; VInt 0; VInt 2]).
  { repeat constructor; eexists; (split; [reflexivity|discriminate]). }
  split; [reflexivity|]. split; [exact H|].
  apply (classification_partition 2 [VInt 3; VInt 1; VInt 0; VInt 2]).
  - reflexivity.
  - exact H.
Defined.

(** C3 fails as stated: with threshold 0 a row of score 0 is similar and
    mirror at once, and the three counts of a one-row table add up to 2. *)
Lemma classification_overlap_at_threshold_zero :
  nonneg_score (VInt 0) /\
  sim_prof_bool 0 (VInt 0) = true /\
  mir_prof_bool (VInt 0) = true /\
  sim_prof_perm_num (classify 0 [VInt 0])
  + unsim_prof_perm_num (classify 0 [VInt 0])
  + mir_prof_perm_num (classify 0 [VInt 0]) = 2 /\
  Z.of_nat (length [VInt 0]) = 1.
Proof.
  split; [|repeat split].
  eexists. split; [reflexivity|discriminate].
Qed.

(** ** The frame of the entry points *)

Lemma unchanged_refl (n : nat) (s : store) :
  (n <= length (fresh s))%nat -> unchanged n s s.
Proof. unfold unchanged. auto 10. Qed.

Lemma unchanged_trans (n : nat) (s1 s2 s3 : store) :
  unchanged n s1 s2 -> unchanged n s2 s3 -> unchanged n s1 s3.
Proof.
  unfold unchanged. intros (A1 & B1 & C1 & D1 & E1 & F1)
                           (A2 & B2 & C2 & D2 & E2 & F2).
  repeat split; congruence.
Qed.

Lemma keeps_ret {A : Type} (n : nat) (a : A) (Q : A -> Prop) :
  Q a -> keeps n (ret a) Q.
Proof.
  intros H s Hs. split; [now apply unchanged_refl|].
  cbn. intros a' E. now injection E as <-.
Qed.

Lemma keeps_raise {A : Type} (n : nat) (e : pyerror) (Q : A -> Prop) :
  keeps n (raise e) Q.
Proof.
  intros s Hs. split; [now apply unchanged_refl|]. cbn. discriminate.
Qed.

Lemma keeps_lift {A : Type} (n : nat) (r : result A) :
  keeps n (lift r) any.
Proof.
  intros s Hs. split; [now apply unchanged_refl|]. unfold any. auto.
Qed.

Lemma keeps_bind {A B : Type} (n : nat) (m : M A) (f : A -> M B)
  (Q : A -> Prop) (R : B -> Prop) :
  keeps n m Q -> (forall a, Q a -> keeps n (f a) R) -> keeps n (bind m f) R.
Proof.
  intros Hm Hf s Hs. unfold bind.
  destruct (Hm s Hs) as [U HQ].
  destruct (m s) as [[a|e] s1] eqn:E; cbn [fst snd] in *.
  - assert (Hs1 : (n <= length (fresh s1))%nat) by apply U.
    destruct (Hf a (HQ a eq_refl) s1 Hs1) as [U' HR].
    split; [now apply unchanged_trans with s1|exact HR].
  - split; [exact U|discriminate].
Qed.

Lemma keeps_weaken {A : Type} (n : nat) (m : M A) (Q R : A -> Prop) :
  keeps n m Q -> (forall a, Q a -> R a) -> keeps n m R.
Proof.
  intros H HQR s Hs. destruct (H s Hs) as [U HQ]. split; auto.
Qed.

Lemma firstn_app_le {A : Type} (n : nat) (l l' : list A) :
  (n <= length l)%nat -> firstn n (l ++ l') = firstn n l.
Proof.
  intros H. rewrite firstn_app.
  replace (n - length l)%nat with O by lia. cbn. apply app_nil_r.
Qed.

Lemma length_set_nth {A : Type} (i : nat) (v : A) (l : list A) :
  length (set_nth i v l) = length l.
Proof.
  revert i. induction l as [|x l IH]; intros [|i]; cbn; auto.
Qed.

Lemma firstn_set_nth {A : Type} (n i : nat) (v : A) (l : list A) :
  (n <= i)%nat -> firstn n (set_nth i v l) = firstn n l.
Proof.
  revert n i. induction l as [|x l IH]; intros [|n] [|i] H; cbn; auto;
    try lia.
  f_equal. apply IH. lia.
Qed.

Lemma keeps_alloc (n : nat) (o : obj) : keeps n (alloc o) (fresh_since n).
Proof.
  intros s Hs. unfold alloc, unchanged. cbn [fst snd outer fresh instance].
  repeat split; auto.
  - now apply firstn_app_le.
  - rewrite length_app. lia.
  - intros a E. injection E as <-. exact Hs.
Qed.

Lemma keeps_read (n : nat) (l : loc) : keeps n (read l) any.
Proof.
  intros s Hs. unfold read. destruct (lookup l s); cbn [fst snd];
    (split; [now apply unchanged_refl|unfold any; auto]).
Qed.

Lemma keeps_write (n : nat) (l : loc) (o : obj) :
  fresh_since n l -> keeps n (write l o) any.
Proof.
  intros Hl s Hs. destruct l as [i|i]; [contradiction|].
  cbn in Hl. unfold write, unchanged. cbn [fst snd outer fresh instance].
  repeat split; auto.
  - now apply firstn_set_nth.
  - now rewrite length_set_nth.
Qed.

Lemma keeps_get_self (n : nat) : keeps n get_self any.
Proof.
  intros s Hs. split; [now apply unchanged_refl|unfold any; auto].
Qed.

Lemma keeps_set_self (n : nat) (f : Ortho_Stats -> Ortho_Stats) :
  (forall o, inter_df (f o) = inter_df o /\
             gene_profiles (f o) = gene_profiles o /\
             query_species (f o) = query_species o) ->
  keeps n (set_self f) any.
Proof.
  intros H s Hs. unfold set_self, unchanged.
  cbn [fst snd outer fresh instance].
  destruct (H (instance s)) as (A & B & C). repeat split; auto.
Qed.

Lemma keeps_mapM_M {A B : Type} (n : nat) (f : A -> M B) (Q : B -> Prop)
  (l : list A) :
  (forall x, keeps n (f x) Q) -> keeps n (mapM_M f l) any.
Proof.
  intros H. induction l as [|x l IH]; cbn [mapM_M].
  - now apply keeps_ret.
  - eapply keeps_bind; [apply H|]. intros y _.
    eapply keeps_bind; [apply IH|]. intros ys _. now apply keeps_ret.
Qed.

Create HintDb frame.

#[local] Hint Resolve keeps_raise keeps_lift keeps_alloc keeps_read
  keeps_get_self : frame.

Ltac keep_any :=
  match goal with
  | |- keeps _ (ret _) any => apply keeps_ret; exact I
  | |- keeps _ (ret _) _ => apply keeps_ret; assumption
  end.

(** One statement of a sequence: the specification of the statement is
    looked up among the hints. *)
Ltac keep :=
  repeat first
    [ keep_any
    | solve [eauto with frame]
    | eapply keeps_bind; [solve [eauto with frame]|]; intros ? ?
    | match goal with
      | |- keeps _ (match ?x with _ => _ end) _ => destruct x
      | |- keeps _ (if ?x then _ else _) _ => destruct x
      end ].

Lemma keeps_read_df (n : nat) (l : loc) : keeps n (read_df l) any.
Proof.
  unfold read_df. eapply keeps_bind; [apply keeps_read|].
  intros o _. destruct o; auto using keeps_ret, keeps_raise.
  apply keeps_ret. exact I. 
Qed.

Lemma keeps_read_series (n : nat) (l : loc) : keeps n (read_series l) any.
Proof. unfold read_series. keep. Qed.

Lemma keeps_read_list (n : nat) (l : loc) : keeps n (read_list l) any.
Proof. unfold read_list. keep. Qed.

Lemma keeps_new_df (n : nat) (r : result DataFrame) :
  keeps n (new_df r) (fresh_since n).
Proof. unfold new_df. keep. Qed.

Lemma keeps_new_series (n : nat) (r : result Series) :
  keeps n (new_series r) (fresh_since n).
Proof. unfold new_series. keep. Qed.

#[local] Hint Resolve keeps_read_df keeps_read_series keeps_read_list
  keeps_new_df keeps_new_series keeps_write : frame.

Lemma keeps_update_df (n : nat) (l : loc) (f : DataFrame -> result DataFrame) :
  fresh_since n l -> keeps n (update_df l f) any.
Proof. intros H. unfold update_df. keep. Qed.

Lemma keeps_update_series (n : nat) (l : loc) (f : Series -> result Series) :
  fresh_since n l -> keeps n (update_series l f) any.
Proof. intros H. unfold update_series. keep. Qed.

#[local] Hint Resolve keeps_update_df keeps_update_series : frame.

Lemma keeps_getitem_list (n : nat) (df : loc) (ls : list label) :
  keeps n (getitem_list df ls) (fresh_since n).
Proof. unfold getitem_list. keep. Qed.

Lemma keeps_getitem (n : nat) (df : loc) (l : label) :
  keeps n (getitem df l) (fresh_since n).
Proof. unfold getitem. keep. Qed.

Lemma keeps_getattr_column (n : nat) (df : loc) (name : string) :
  keeps n (getattr_column df name) (fresh_since n).
Proof. unfold getattr_column. keep. Qed.

Lemma keeps_drop (n : nat) (df : loc) (ls : list label) :
  keeps n (drop df ls) (fresh_since n).
Proof. unfold drop. keep. Qed.

Lemma keeps_set_columns_range (n : nat) (df : loc) :
  fresh_since n df -> keeps n (set_columns_range df) any.
Proof. intros H. unfold set_columns_range. keep. Qed.

Lemma keeps_set_columns_to (n : nat) (df : loc) (ls : list label) :
  fresh_since n df -> keeps n (set_columns_to df ls) any.
Proof. intros H. unfold set_columns_to. keep. Qed.

Lemma keeps_set_index_range (n : nat) (df : loc) :
  fresh_since n df -> keeps n (set_index_range df) any.
Proof. intros H. unfold set_index_range. keep. Qed.

Lemma keeps_set_sindex_range (n : nat) (sr : loc) :
  fresh_since n sr -> keeps n (set_sindex_range sr) any.
Proof. intros H. unfold set_sindex_range. keep. Qed.

Lemma keeps_set_sindex_of (n : nat) (sr df : loc) :
  fresh_since n sr -> keeps n (set_sindex_of sr df) any.
Proof. intros H. unfold set_sindex_of. keep. Qed.

Lemma keeps_concat_ignore_index (n : nat) (a b : loc) :
  keeps n (concat_ignore_index a b) (fresh_since n).
Proof. unfold concat_ignore_index. keep. Qed.

Lemma keeps_drop_duplicates_inplace (n : nat) (df : loc) :
  fresh_since n df -> keeps n (drop_duplicates_inplace df) any.
Proof. intros H. unfold drop_duplicates_inplace. keep. Qed.

Lemma keeps_sample (n : nat) (df : loc) (draw : nat -> list nat) :
  keeps n (sample df draw) (fresh_since n).
Proof. unfold sample. keep. Qed.

Lemma keeps_sample_series (n : nat) (sr : loc) (draw : nat -> list nat) :
  keeps n (sample_series sr draw) (fresh_since n).
Proof. unfold sample_series. keep. Qed.

Lemma keeps_concat_axis1 (n : nat) (a b : loc) :
  keeps n (concat_axis1 a b) (fresh_since n).
Proof. unfold concat_axis1. keep. Qed.

Lemma keeps_concat_series_axis1 (n : nat) (a b : loc) :
  keeps n (concat_series_axis1 a b) (fresh_since n).
Proof. unfold concat_series_axis1. keep. Qed.

Lemma keeps_concat_df_series2_axis1 (n : nat) (df a b : loc) :
  keeps n (concat_df_series2_axis1 df a b) (fresh_since n).
Proof. unfold concat_df_series2_axis1. keep. Qed.

Lemma keeps_concat3_axis1 (n : nat) (a b c : loc) :
  keeps n (concat3_axis1 a b c) (fresh_since n).
Proof. unfold concat3_axis1. keep. Qed.

Lemma keeps_merge (n : nat) (left right : loc) (left_on right_on : label)
  (suffixes : string * string) :
  keeps n (merge left right left_on right_on suffixes) (fresh_since n).
Proof. unfold merge. keep. Qed.

Lemma keeps_count_profiles (n : nat) (df : loc) (pss : label) (t : Q) :
  keeps n (count_profiles df pss t) any.
Proof. unfold count_profiles. keep. Qed.

#[local] Hint Resolve keeps_getitem_list keeps_getitem keeps_getattr_column
  keeps_drop keeps_set_columns_range keeps_set_columns_to
  keeps_set_index_range keeps_set_sindex_range keeps_set_sindex_of
  keeps_concat_ignore_index keeps_drop_duplicates_inplace keeps_sample
  keeps_sample_series keeps_concat_axis1 keeps_concat_series_axis1
  keeps_concat_df_series2_axis1 keeps_concat3_axis1 keeps_merge
  keeps_count_profiles : frame.

Section Frame.

Variable simple_profiles_scorer : cell -> cell -> result cell.
Variable df_qa_names_2_prof_score :
  list cell -> list (list cell) -> result cell.
Variable gene_profile_finder_by_name :
  cell -> list (list cell) -> bool -> result cell.

Lemma keeps_shuffle_by_ORF (n : nat) (N : ColumnNames) (dataframe : loc)
  (draw : nat -> list nat) :
  keeps n (shuffle_by_ORF simple_profiles_scorer N dataframe draw)
        (fresh_since n).
Proof. unfold shuffle_by_ORF. keep. Qed.

Lemma keeps_permute_profiles_f (n : nat) (N : ColumnNames) (dataframe : loc)
  (t : Q) (store_dataframe : bool) (rng : generator) (in_iter : Z) :
  keeps n (permute_profiles_f simple_profiles_scorer N dataframe t
                              store_dataframe rng in_iter) any.
Proof.
  unfold permute_profiles_f.
  eapply keeps_bind; [apply keeps_shuffle_by_ORF|]. intros l Hl. keep.
Qed.

Lemma keeps_KO_profs_perm_f (n : nat) (t : Q) (rng : generator)
  (in_iter : Z) :
  keeps n (KO_profs_perm_f simple_profiles_scorer t rng in_iter) any.
Proof.
  unfold KO_profs_perm_f.
  eapply keeps_bind; [apply keeps_get_self|]. intros self _.
  eapply keeps_bind; [apply keeps_shuffle_by_ORF|]. intros l Hl. keep.
Qed.

Lemma keeps_names_perm_f (n : nat) (t : Q) (rng : generator) (in_iter : Z) :
  keeps n (names_perm_f df_qa_names_2_prof_score t rng in_iter) any.
Proof. unfold names_perm_f. keep. Qed.

Lemma keeps_prof_cols_perm_f (n : nat) (t : Q) (rng : generator)
  (in_iter : Z) :
  keeps n (prof_cols_perm_f simple_profiles_scorer t rng in_iter) any.
Proof. unfold prof_cols_perm_f. keep. Qed.

Lemma keeps_permuted_catalogue (n : nat) (draw : nat -> list nat) :
  keeps n (permuted_catalogue draw) any.
Proof. unfold permuted_catalogue. keep. Qed.

Lemma keeps_prof_arr_perm_f (n : nat) (dropped : loc) (t : Q)
  (rng : generator) (in_iter : Z) :
  keeps n (prof_arr_perm_f df_qa_names_2_prof_score
                           gene_profile_finder_by_name dropped t rng
                           in_iter) any.
Proof.
  unfold prof_arr_perm_f.
  eapply keeps_bind; [apply keeps_permuted_catalogue|]. intros c _. keep.
Qed.

End Frame.

Lemma nth_error_firstn_lt {A : Type} (n i : nat) (l : list A) :
  (i < n)%nat -> nth_error (firstn n l) i = nth_error l i.
Proof.
  revert n l. induction i as [|i IH]; intros [|n] [|x l] H; cbn; auto; try lia.
  apply IH. lia.
Qed.

Lemma unchanged_caller_data (s s' : store) :
  unchanged (length (fresh s)) s s' -> caller_data_unchanged s s'.
Proof.
  intros (A & B & C & D & E & _). split; [|split; assumption].
  intros [i|i] o H; cbn [lookup] in *.
  - now rewrite A.
  - assert (Hi : (i < length (fresh s))%nat).
    { apply nth_error_Some. congruence. }
    rewrite <- (nth_error_firstn_lt (length (fresh s))) by exact Hi.
    rewrite B. rewrite firstn_all. exact H.
Qed.

Section Entry_points.

Variable simple_profiles_scorer : cell -> cell -> result cell.
Variable df_qa_names_2_prof_score :
  list cell -> list (list cell) -> result cell.
Variable gene_profile_finder_by_name :
  cell -> list (list cell) -> bool -> result cell.

Lemma keeps_pool_map {A : Type} (n : nat) (f : Z -> M A) (e_value : Z) :
  (forall i, keeps n (f i) any) -> keeps n (pool_map f e_value) any.
Proof. intros H. unfold pool_map. now apply keeps_mapM_M with (Q := any). Qed.

Lemma keeps_permute_profiles (n : nat) (N : ColumnNames) (dataframe : loc)
  (t : Q) (e_value : Z) (store_dataframe : bool) (rng : generator) :
  keeps n (permute_profiles simple_profiles_scorer N dataframe t e_value
                            store_dataframe rng) any.
Proof.
  unfold permute_profiles.
  eapply keeps_bind.
  { apply keeps_pool_map. intros i. apply keeps_permute_profiles_f. }
  intros r _. keep.
Qed.

Lemma keeps_names_perm (n : nat) (e_value : Z) (t : Q) (rng : generator) :
  keeps n (names_perm df_qa_names_2_prof_score e_value t rng) any.
Proof.
  unfold names_perm.
  eapply keeps_bind.
  { apply keeps_pool_map. intros i. apply keeps_names_perm_f. }
  intros r _. apply keeps_set_self. intros o. repeat split.
Qed.

Lemma keeps_prof_cols_perm (n : nat) (e_value : Z) (t : Q)
  (rng : generator) :
  keeps n (prof_cols_perm simple_profiles_scorer e_value t rng) any.
Proof.
  unfold prof_cols_perm.
  eapply keeps_bind.
  { apply keeps_pool_map. intros i. apply keeps_prof_cols_perm_f. }
  intros r _. apply keeps_set_self. intros o. repeat split.
Qed.

Lemma keeps_prof_arr_perm (n : nat) (e_value : Z) (t : Q)
  (rng : generator) :
  keeps n (prof_arr_perm df_qa_names_2_prof_score
                         gene_profile_finder_by_name e_value t rng) any.
Proof.
  unfold prof_arr_perm.
  eapply keeps_bind; [apply keeps_get_self|]. intros self _.
  eapply keeps_bind; [apply keeps_drop|]. intros d Hd.
  eapply keeps_bind.
  { apply keeps_pool_map. intros i. apply keeps_prof_arr_perm_f. }
  intros r _.
  eapply keeps_bind.
  { apply keeps_set_self. intros o. repeat split. }
  intros _ _.
  eapply keeps_bind; [apply keeps_lift|]. intros avg _.
  apply keeps_set_self. intros o. repeat split.
Qed.

Lemma keeps_KO_profs_perm (n : nat) (e_value : Z) (t : Q)
  (rng : generator) :
  keeps n (KO_profs_perm simple_profiles_scorer e_value t rng) any.
Proof.
  unfold KO_profs_perm.
  eapply keeps_bind.
  { apply keeps_pool_map. intros i. apply keeps_KO_profs_perm_f. }
  intros r _.
  eapply keeps_bind.
  { apply keeps_set_self. intros o. repeat split. }
  intros _ _.
  eapply keeps_bind; [apply keeps_lift|]. intros avg _.
  apply keeps_set_self. intros o. repeat split.
Qed.

(** C9.  Whether they return or raise, the five permutation entry points
    leave every object that exists when they are called as it was, in
    particular the interaction table and the profile catalogue, and [self]
    still refers to these; the tables they make are new objects. *)
Theorem permutations_leave_caller_data_unchanged
  (N : ColumnNames) (dataframe : loc) (store_dataframe : bool)
  (e_value : Z) (in_prof_sim_lev : Q) (rng : generator) (s : store) :
  caller_data_unchanged s
    (snd (permute_profiles simple_profiles_scorer N dataframe
            in_prof_sim_lev e_value store_dataframe rng s)) /\
  caller_data_unchanged s
    (snd (names_perm df_qa_names_2_prof_score e_value in_prof_sim_lev
            rng s)) /\
  caller_data_unchanged s
    (snd (prof_cols_perm simple_profiles_scorer e_value in_prof_sim_lev
            rng s)) /\
  caller_data_unchanged s
    (snd (prof_arr_perm df_qa_names_2_prof_score
            gene_profile_finder_by_name e_value in_prof_sim_lev rng s)) /\
  caller_data_unchanged s
    (snd (KO_profs_perm simple_profiles_scorer e_value in_prof_sim_lev
            rng s)).
Proof.
  split; [|split; [|split; [|split]]]; apply unchanged_caller_data.
  - apply keeps_permute_profiles. apply le_n.
  - apply keeps_names_perm. apply le_n.
  - apply keeps_prof_cols_perm. apply le_n.
  - apply keeps_prof_arr_perm. apply le_n.
  - apply keeps_KO_profs_perm. apply le_n.
Qed.

End Entry_points.

(** ** Running statements on a store whose new objects are known

    The store is [mkStore out (f0 ++ L) inst]: [f0] are the objects allocated
    before, [L] the ones allocated since. *)

Lemma run_bind {A B : Type} (m : M A) (f : A -> M B) (s s' : store) (a : A) :
  m s = (Ok a, s') -> bind m f s = f a s'.
Proof. intros H. unfold bind. now rewrite H. Qed.

Lemma lookup_fresh (out f0 L : list obj) (inst : Ortho_Stats) (i : nat) :
  lookup (Fresh (length f0 + i)) (mkStore out (f0 ++ L) inst) = nth_error L i.
Proof.
  cbn [lookup fresh]. rewrite nth_error_app2 by lia. f_equal. lia.
Qed.

Lemma run_alloc (out f0 L : list obj) (inst : Ortho_Stats) (o : obj) :
  alloc o (mkStore out (f0 ++ L) inst) =
  (Ok (Fresh (length f0 + length L)), mkStore out (f0 ++ (L ++ [o])) inst).
Proof.
  unfold alloc. cbn [fresh outer instance].
  now rewrite length_app, app_assoc.
Qed.

Lemma set_nth_app {A : Type} (f0 L : list A) (i : nat) (v : A) :
  set_nth (length f0 + i) v (f0 ++ L) = f0 ++ set_nth i v L.
Proof. induction f0 as [|x f0 IH]; cbn; [reflexivity|now rewrite IH]. Qed.

Lemma run_write (out f0 L : list obj) (inst : Ortho_Stats) (i : nat)
  (o : obj) :
  write (Fresh (length f0 + i)) o (mkStore out (f0 ++ L) inst) =
  (Ok tt, mkStore out (f0 ++ set_nth i o L) inst).
Proof. unfold write. cbn [fresh outer instance]. now rewrite set_nth_app. Qed.

Lemma run_read (l : loc) (s : store) (o : obj) :
  lookup l s = Some o -> read l s = (Ok o, s).
Proof. intros H. unfold read. now rewrite H. Qed.

Lemma run_read_df (l : loc) (s : store) (d : DataFrame) :
  lookup l s = Some (ODataFrame d) -> read_df l s = (Ok d, s).
Proof.
  intros H. unfold read_df. now rewrite (run_bind _ _ _ _ _ (run_read _ _ _ H)).
Qed.

Lemma run_read_series (l : loc) (s : store) (x : Series) :
  lookup l s = Some (OSeries x) -> read_series l s = (Ok x, s).
Proof.
  intros H. unfold read_series.
  now rewrite (run_bind _ _ _ _ _ (run_read _ _ _ H)).
Qed.

Lemma run_read_list (l : loc) (s : store) (x : list (list cell)) :
  lookup l s = Some (OList x) -> read_list l s = (Ok x, s).
Proof.
  intros H. unfold read_list.
  now rewrite (run_bind _ _ _ _ _ (run_read _ _ _ H)).
Qed.

Lemma run_new_df (out f0 L : list obj) (inst : Ortho_Stats)
  (r : result DataFrame) (d : DataFrame) :
  r = Ok d ->
  new_df r (mkStore out (f0 ++ L) inst) =
  (Ok (Fresh (length f0 + length L)),
   mkStore out (f0 ++ (L ++ [ODataFrame d])) inst).
Proof. intros ->. unfold new_df, bind, lift. apply run_alloc. Qed.

Lemma run_new_series (out f0 L : list obj) (inst : Ortho_Stats)
  (r : result Series) (x : Series) :
  r = Ok x ->
  new_series r (mkStore out (f0 ++ L) inst) =
  (Ok (Fresh (length f0 + length L)),
   mkStore out (f0 ++ (L ++ [OSeries x])) inst).
Proof. intros ->. unfold new_series, bind, lift. apply run_alloc. Qed.

Lemma run_update_df (out f0 L : list obj) (inst : Ortho_Stats) (i : nat)
  (f : DataFrame -> result DataFrame) (d d' : DataFrame) :
  nth_error L i = Some (ODataFrame d) ->
  f d = Ok d' ->
  update_df (Fresh (length f0 + i)) f (mkStore out (f0 ++ L) inst) =
  (Ok tt, mkStore out (f0 ++ set_nth i (ODataFrame d') L) inst).
Proof.
  intros H1 H2. unfold update_df.
  erewrite run_bind
    by (apply run_read_df; rewrite lookup_fresh; exact H1).
  unfold bind at 1, lift. rewrite H2. apply run_write.
Qed.

Lemma run_update_series (out f0 L : list obj) (inst : Ortho_Stats) (i : nat)
  (f : Series -> result Series) (x x' : Series) :
  nth_error L i = Some (OSeries x) ->
  f x = Ok x' ->
  update_series (Fresh (length f0 + i)) f (mkStore out (f0 ++ L) inst) =
  (Ok tt, mkStore out (f0 ++ set_nth i (OSeries x') L) inst).
Proof.
  intros H1 H2. unfold update_series.
  erewrite run_bind
    by (apply run_read_series; rewrite lookup_fresh; exact H1).
  unfold bind at 1, lift. rewrite H2. apply run_write.
Qed.

Lemma run_lift {A : Type} (r : result A) (a : A) (s : store) :
  r = Ok a -> lift r s = (Ok a, s).
Proof. now intros ->. Qed.

(** ** Drawing without replacement *)

Lemma flat_map_pick_seq {A : Type} (xs : list A) :
  flat_map (pick xs) (seq 0 (length xs)) = xs.
Proof.
  induction xs as [|x xs IH]; [reflexivity|].
  cbn [length seq flat_map]. unfold pick at 1. cbn [nth_error app].
  f_equal. rewrite <- seq_shift, flat_map_concat_map, map_map.
  rewrite <- flat_map_concat_map. exact IH.
Qed.

Lemma take_in_range {A : Type} (idx : list nat) (xs : list A) :
  Forall (fun i => (i < length xs)%nat) idx ->
  take idx xs = Ok (flat_map (pick xs) idx).
Proof.
  unfold take. induction 1 as [|i idx Hi H IH]; [reflexivity|].
  cbn [mapM flat_map]. unfold pick at 1.
  destruct (nth_error xs i) as [x|] eqn:E.
  - cbn [rbind]. rewrite IH. reflexivity.
  - apply nth_error_None in E. lia.
Qed.

Lemma take_permutation {A : Type} (idx : list nat) (xs : list A) :
  Permutation idx (seq 0 (length xs)) ->
  exists ys, take idx xs = Ok ys /\ Permutation ys xs.
Proof.
  intros H. exists (flat_map (pick xs) idx). split.
  - apply take_in_range. rewrite Forall_forall. intros i Hi.
    apply (Permutation_in _ H) in Hi. apply in_seq in Hi. lia.
  - rewrite <- (flat_map_pick_seq xs) at 2.
    now apply Permutation_flat_map.
Qed.

(** ** The permuted catalogue *)

Lemma length_range (a b : Z) : length (range a b) = Z.to_nat (b - a).
Proof. unfold range. now rewrite length_map, length_seq. Qed.

Lemma length_range_0 (n : nat) : length (range 0 (Z.of_nat n)) = n.
Proof. rewrite length_range. lia. Qed.

Lemma entry_names_ok (catalogue : list (list cell)) :
  Forall (fun i => i <> []) catalogue ->
  mapM entry_name catalogue = Ok (map (hd VNaN) catalogue).
Proof.
  induction 1 as [|i l Hi H IH]; [reflexivity|].
  cbn [mapM map]. destruct i as [|x i]; [congruence|].
  cbn [entry_name rbind hd]. now rewrite IH.
Qed.

Lemma index_eqb_refl (ix : list Z) : index_eqb ix ix = true.
Proof. unfold index_eqb. destruct (list_eq_dec Z.eq_dec ix ix); congruence. Qed.

(** The rows of [gene_profs_perm_df] and what the loop makes of them. *)
Lemma rebuild_entries (cols : list label) (names : list cell)
  (profs : list (list cell)) :
  cols = [LStr "perm_names"; LStr "profiles"] ->
  length names = length profs ->
  mapM (fun i =>
          let! name_arr := tuple_getattr cols i "perm_names" in
          let! profiles := tuple_getattr cols i "profiles" in
          Ok (np_append name_arr profiles))
       (zip_rows (map (fun v => [v]) names)
                 (map (fun v => [v]) (map VList profs)))
  = Ok (zip_with cons names profs).
Proof.
  intros -> . revert profs.
  induction names as [|x names IH]; intros [|p profs] H; try discriminate;
    [reflexivity|].
  cbn [map zip_rows zip_with mapM app].
  cbn [tuple_getattr position_or position label_eqb String.eqb Ascii.eqb
       Bool.eqb option_map rbind nth np_append].
  rewrite IH by (cbn in H; lia). reflexivity.
Qed.

Lemma zip_with_cons_tl (names : list cell) (profs : list (list cell)) :
  length names = length profs ->
  map entry_profile (zip_with cons names profs) = profs /\
  map (hd VNaN) (zip_with cons names profs) = names.
Proof.
  revert profs. induction names as [|x names IH]; intros [|p profs] H;
    try discriminate; [split; reflexivity|].
  cbn [zip_with map entry_profile tl hd].
  destruct (IH profs) as [A B]; [cbn in H; lia|]. now rewrite A, B.
Qed.

(** C7.  For a catalogue whose entries all have a name, and a draw that is
    a permutation of the positions, the permuted catalogue of a trial of
    [prof_arr_perm] has the profiles of the catalogue, each once and in the
    same order, and its names are a permutation of the names. *)
Theorem permuted_catalogue_keeps_profiles (draw : nat -> list nat)
  (s : store) (catalogue : list (list cell)) :
  lookup (gene_profiles (instance s)) s = Some (OList catalogue) ->
  Forall (fun i => i <> []) catalogue ->
  Permutation (draw (length catalogue)) (seq 0 (length catalogue)) ->
  exists permuted,
    fst (permuted_catalogue draw s) = Ok permuted /\
    map entry_profile permuted = map entry_profile catalogue /\
    Permutation (map entry_profile permuted) (map entry_profile catalogue) /\
    Permutation (map (hd VNaN) permuted) (map (hd VNaN) catalogue) /\
    length permuted = length catalogue.
Proof.
  intros Hcat Hne Hdraw.
  destruct s as [out f0 inst]. cbn [instance] in Hcat.
  set (names := map (hd VNaN) catalogue).
  set (profs := map entry_profile catalogue).
  assert (Ln : length names = length catalogue) by apply length_map.
  assert (Lp : length profs = length catalogue) by apply length_map.
  destruct (take_permutation (draw (length names)) names) as [pn [Tn Pn]].
  { now rewrite Ln. }
  destruct (take_permutation (draw (length names))
              (range 0 (Z.of_nat (length names)))) as [pi [Ti Pi]].
  { now rewrite length_range_0, Ln. }
  assert (Lpn : length pn = length catalogue).
  { rewrite (Permutation_length Pn). exact Ln. }
  exists (zip_with cons pn profs).
  destruct (zip_with_cons_tl pn profs) as [A B]; [congruence|].
  split; [|split; [exact A|split; [now rewrite A|split]]].
  2:{ rewrite B. exact Pn. }
  2:{ rewrite <- (length_map entry_profile), A. exact Lp. }
  unfold permuted_catalogue.
  unfold get_self at 1. unfold bind at 1. cbn [instance].
  erewrite run_bind by (apply run_read_list; exact Hcat).
  erewrite run_bind by (apply run_lift; apply entry_names_ok; exact Hne).
  fold names. fold profs.
  rewrite <- (app_nil_r f0).
  erewrite run_bind by apply run_alloc.
  erewrite run_bind by apply run_alloc.
  erewrite run_bind.
  2:{ unfold sample_series.
      erewrite run_bind
        by (apply run_read_series; rewrite lookup_fresh; reflexivity).
      apply run_new_series. unfold s_sample.
      cbn [sindex svalues sname]. rewrite Ti, Tn. reflexivity. }
  erewrite run_bind.
  2:{ unfold set_sindex_range. eapply run_update_series; [reflexivity|].
      unfold set_sindex. cbn [svalues sname].
      rewrite length_range_0, Nat.eqb_refl. reflexivity. }
  erewrite run_bind.
  2:{ unfold concat_series_axis1.
      erewrite run_bind
        by (apply run_read_series; rewrite lookup_fresh; reflexivity).
      erewrite run_bind
        by (apply run_read_series; rewrite lookup_fresh; reflexivity).
      apply run_new_df. unfold hcat, to_frame.
      cbn [index sindex sname svalues columns data].
      rewrite Lpn, Lp, index_eqb_refl. reflexivity. }
  erewrite run_bind.
  2:{ unfold set_columns_to. eapply run_update_df; [reflexivity|].
      reflexivity. }
  erewrite run_bind
    by (apply run_read_df; rewrite lookup_fresh; reflexivity).
  cbn [columns data app]. unfold lift. cbn [fst].
  apply rebuild_entries; [reflexivity|congruence].
Qed.

(** ** Equality of cells and rows *)

Lemma cell_eqb_eq : forall a b : cell, cell_eqb a b = true -> a = b.
Proof.
  fix IH 1. intros [x|x|x| |x] [y|y|y| |y]; cbn [cell_eqb]; try discriminate;
    try reflexivity.
  - intros H. apply String.eqb_eq in H. now subst.
  - intros H. apply Z.eqb_eq in H. now subst.
  - intros H. apply Qeq_bool_iff in H. apply Qc_is_canon in H. now subst.
  - intros H. f_equal. revert y H.
    induction x as [|a x IHx]; intros [|b y] H; try discriminate;
      [reflexivity|].
    apply andb_true_iff in H. destruct H as [H1 H2].
    f_equal; [now apply IH|now apply IHx].
Qed.

Lemma cell_eqb_refl : forall a : cell, cell_eqb a a = true.
Proof.
  fix IH 1. intros [x|x|x| |x]; cbn [cell_eqb].
  - apply String.eqb_refl.
  - apply Z.eqb_refl.
  - apply Qeq_bool_iff. reflexivity.
  - reflexivity.
  - induction x as [|a x IHx]; [reflexivity|].
    apply andb_true_iff. split; [apply IH|exact IHx].
Qed.

Lemma cell_eqb_iff (a b : cell) : cell_eqb a b = true <-> a = b.
Proof. split; [apply cell_eqb_eq|intros ->; apply cell_eqb_refl]. Qed.

Lemma row_eqb_iff (r1 r2 : list cell) : row_eqb r1 r2 = true <-> r1 = r2.
Proof.
  revert r2. induction r1 as [|a r1 IH]; intros [|b r2]; cbn [row_eqb];
    try (split; [discriminate|discriminate]); [tauto|].
  rewrite andb_true_iff, cell_eqb_iff, IH. split.
  - intros [-> ->]. reflexivity.
  - intros H. injection H as -> ->. auto.
Qed.

Lemma label_eqb_iff (a b : label) : label_eqb a b = true <-> a = b.
Proof.
  destruct a as [x|x], b as [y|y]; cbn [label_eqb];
    try (split; discriminate).
  - rewrite String.eqb_eq. split; [now intros ->|now intros [= ->]].
  - rewrite Z.eqb_eq. split; [now intros ->|now intros [= ->]].
Qed.

Lemma label_mem_iff (l : label) (ls : list label) :
  label_mem l ls = true <-> In l ls.
Proof.
  unfold label_mem. rewrite existsb_exists. split.
  - intros [x [Hx E]]. apply label_eqb_iff in E. now subst.
  - intros H. exists l. split; [exact H|now apply label_eqb_iff].
Qed.

(** ** [drop_duplicates] *)

Lemma existsb_row_iff (r : list cell) (seen : list (list cell)) :
  existsb (row_eqb r) seen = true <-> In r seen.
Proof.
  rewrite existsb_exists. split.
  - intros [x [Hx E]]. apply row_eqb_iff in E. now subst.
  - intros H. exists r. split; [exact H|now apply row_eqb_iff].
Qed.

Lemma dedup_spec (rows : list (Z * list cell)) :
  forall seen,
    NoDup (map snd (dedup seen rows)) /\
    (forall r, In r (map snd (dedup seen rows)) <->
               In r (map snd rows) /\ ~ In r seen).
Proof.
  induction rows as [|[i r] rows IH]; intros seen; cbn [dedup map].
  - split; [constructor|]. cbn. tauto.
  - destruct (existsb (row_eqb r) seen) eqn:E.
    + apply existsb_row_iff in E. destruct (IH seen) as [N S].
      split; [exact N|]. intros r'. rewrite S. cbn [snd In].
      split; [tauto|]. intros [[<-|H] H']; tauto.
    + assert (Hr : ~ In r seen).
      { intros H. apply existsb_row_iff in H. congruence. }
      destruct (IH (r :: seen)) as [N S]. cbn [map snd]. split.
      * constructor; [|exact N]. rewrite S. cbn [In]. tauto.
      * intros r'. cbn [In]. rewrite S. cbn [In]. split.
        -- intros [<-|[H1 H2]]; tauto.
        -- intros [[<-|H1] H2]; [tauto|].
           destruct (row_eqb r r') eqn:D.
           ++ apply row_eqb_iff in D. now left.
           ++ right. split; [exact H1|]. intros [->|H3]; [|tauto].
              rewrite (proj2 (row_eqb_iff r' r') eq_refl) in D. discriminate.
Qed.

Lemma NoDup_map_inj_in {A B : Type} (f : A -> B) (l : list A) :
  (forall x y, In x l -> In y l -> f x = f y -> x = y) ->
  NoDup l -> NoDup (map f l).
Proof.
  intros Hinj H. induction H as [|x l Hx H IH]; cbn [map]; constructor.
  - intros Hin. apply in_map_iff in Hin. destruct Hin as [y [E Hy]].
    assert (y = x) by (apply Hinj; cbn; auto). now subst.
  - apply IH. intros a b Ha Hb. apply Hinj; cbn; auto.
Qed.

(** ** A left join on a key that is unique on the right *)

Lemma filter_unique_key (jr : nat) (R : list (list cell)) (k : cell) :
  NoDup (col jr R) -> In k (col jr R) ->
  exists m, In m R /\ nth jr m VNaN = k /\
            filter (fun r => cell_eqb k (nth jr r VNaN)) R = [m].
Proof.
  induction R as [|r R IH]; intros N H; [contradiction|].
  cbn [col map] in N, H. inversion N as [|? ? Hnot N']; subst.
  cbn [filter]. destruct (cell_eqb k (nth jr r VNaN)) eqn:E.
  - apply cell_eqb_eq in E. subst k. exists r.
    split; [now left|]. split; [reflexivity|]. f_equal.
    clear IH N H. induction R as [|r' R IH]; [reflexivity|].
    cbn [filter]. cbn [col map] in Hnot, N'.
    inversion N' as [|? ? Hnot' N'']; subst.
    destruct (cell_eqb (nth jr r VNaN) (nth jr r' VNaN)) eqn:E'.
    + apply cell_eqb_eq in E'. exfalso. apply Hnot. now left.
    + apply IH; [|exact N'']. intros H. apply Hnot. now right.
  - destruct H as [H|H].
    + rewrite H, cell_eqb_refl in E. discriminate.
    + destruct (IH N' H) as [m [Hm [Hk Hf]]]. exists m.
      split; [now right|]. split; assumption.
Qed.

Lemma join_unique (jl jr ncols : nat) (L R : list (list cell)) :
  NoDup (col jr R) ->
  Forall (fun l => In (nth jl l VNaN) (col jr R)) L ->
  Forall2 extends L (flat_map (join_rows jl jr ncols R) L).
Proof.
  intros N H. induction H as [|l L Hl H IH]; cbn [flat_map]; [constructor|].
  destruct (filter_unique_key jr R _ N Hl) as [m [Hm [Hk Hf]]].
  unfold join_rows at 1. rewrite Hf. cbn [map app].
  constructor; [now exists m|exact IH].
Qed.

Lemma col_extends (j : nat) (L rows : list (list cell)) :
  Forall2 extends L rows ->
  Forall (fun l => (j < length l)%nat) L ->
  col j rows = col j L.
Proof.
  induction 1 as [|l r L rows [m ->] H IH]; intros F; [reflexivity|].
  inversion F as [|? ? Hj F']; subst. cbn [col map].
  rewrite app_nth1 by exact Hj. f_equal. now apply IH.
Qed.

Lemma extends_length (n : nat) (L rows : list (list cell)) :
  Forall2 extends L rows ->
  Forall (fun l => (n <= length l)%nat) L ->
  Forall (fun r => (n <= length r)%nat) rows.
Proof.
  induction 1 as [|l r L rows [m ->] H IH]; intros F; constructor;
    inversion F; subst; auto.
  rewrite length_app. lia.
Qed.

Lemma extends_trans (A B C : list (list cell)) :
  Forall2 extends A B -> Forall2 extends B C -> Forall2 extends A C.
Proof.
  intros H. revert C. induction H as [|a b A B [m ->] H IH]; intros C HC;
    inversion HC as [|? c ? C' [m' ->] HC']; subst; constructor; auto.
  exists (m ++ m'). now rewrite app_assoc.
Qed.

(** ** Positions of columns *)

Lemma position_lt (l : label) (ls : list label) (j : nat) :
  position l ls = Some j -> (j < length ls)%nat /\ In l ls.
Proof.
  revert j. induction ls as [|x ls IH]; intros j; cbn [position];
    [discriminate|].
  destruct (label_eqb l x) eqn:E.
  - intros [= <-]. apply label_eqb_iff in E. subst. cbn. split; [lia|auto].
  - destruct (position l ls) as [j'|]; cbn [option_map]; [|discriminate].
    intros [= <-]. destruct (IH j' eq_refl). cbn. split; [lia|auto].
Qed.

Lemma position_of_mem (l : label) (ls : list label) :
  In l ls -> exists j, position l ls = Some j.
Proof.
  induction ls as [|x ls IH]; [contradiction|]. intros H. cbn [position].
  destruct (label_eqb l x) eqn:E; [now exists O|].
  destruct H as [->|H].
  - rewrite (proj2 (label_eqb_iff l l) eq_refl) in E. discriminate.
  - destruct (IH H) as [j ->]. now exists (S j).
Qed.

Lemma position_app_l (l : label) (ls ls' : list label) (j : nat) :
  position l ls = Some j -> position l (ls ++ ls') = Some j.
Proof.
  revert j. induction ls as [|x ls IH]; intros j; cbn [position app];
    [discriminate|].
  destruct (label_eqb l x); [auto|].
  destruct (position l ls) as [j'|]; cbn [option_map]; [|discriminate].
  intros [= <-]. now rewrite (IH j' eq_refl).
Qed.

Lemma position_none (l : label) (ls : list label) :
  ~ In l ls -> position l ls = None.
Proof.
  intros H. destruct (position l ls) as [j|] eqn:E; [|reflexivity].
  apply position_lt in E. tauto.
Qed.

Lemma position_app_r (l : label) (ls ls' : list label) :
  ~ In l ls ->
  position l (ls ++ ls') = option_map (Nat.add (length ls)) (position l ls').
Proof.
  induction ls as [|x ls IH]; intros H; cbn [position app length].
  - destruct (position l ls'); reflexivity.
  - destruct (label_eqb l x) eqn:E.
    + apply label_eqb_iff in E. subst. exfalso. apply H. now left.
    + rewrite IH by (intros H'; apply H; now right).
      destruct (position l ls'); reflexivity.
Qed.

Lemma drop_cells_position (cols ls : list label) (l : label) (j : nat) :
  position l cols = Some j -> ~ In l ls ->
  exists j',
    position l (filter (fun c => negb (label_mem c ls)) cols) = Some j' /\
    forall r, length r = length cols ->
              nth j' (drop_cells cols ls r) VNaN = nth j r VNaN.
Proof.
  intros H Hl. revert j H.
  induction cols as [|c cols IH]; intros j; cbn [position]; [discriminate|].
  destruct (label_eqb l c) eqn:E.
  - intros [= <-]. apply label_eqb_iff in E. subst c.
    assert (M : label_mem l ls = false).
    { destruct (label_mem l ls) eqn:M; [|reflexivity].
      apply label_mem_iff in M. contradiction. }
    cbn [filter]. rewrite M. cbn [negb position].
    rewrite (proj2 (label_eqb_iff l l) eq_refl). exists O.
    split; [reflexivity|]. intros [|v r] Hr; [discriminate|].
    cbn [drop_cells]. rewrite M. reflexivity.
  - destruct (position l cols) as [j0|]; cbn [option_map]; [|discriminate].
    intros [= <-]. destruct (IH j0 eq_refl) as [j' [P Hn]].
    cbn [filter]. destruct (label_mem c ls) eqn:M; cbn [negb].
    + exists j'. split; [exact P|]. intros [|v r] Hr; [discriminate|].
      cbn [drop_cells]. rewrite M. cbn [nth]. apply Hn. cbn in Hr. lia.
    + exists (S j'). split.
      * cbn [position]. rewrite E, P. reflexivity.
      * intros [|v r] Hr; [discriminate|].
        cbn [drop_cells]. rewrite M. cbn [nth]. apply Hn. cbn in Hr. lia.
Qed.

Lemma drop_cells_length (cols ls : list label) (r : list cell) :
  length r = length cols ->
  length (drop_cells cols ls r)
  = length (filter (fun c => negb (label_mem c ls)) cols).
Proof.
  revert r. induction cols as [|c cols IH]; intros [|v r] H;
    try discriminate; [reflexivity|].
  cbn [drop_cells filter]. destruct (label_mem c ls); cbn [negb length];
    rewrite IH by (cbn in H; lia); reflexivity.
Qed.

Lemma suffix_overlap_id (other : list label) (suf : string)
  (cols : list label) :
  (forall c, In c cols -> ~ In c other) ->
  map (suffix_overlap other suf) cols = cols.
Proof.
  intros H. induction cols as [|c cols IH]; [reflexivity|].
  cbn [map]. rewrite IH by (intros; apply H; now right).
  unfold suffix_overlap.
  destruct (label_mem c other) eqn:M; [|reflexivity].
  apply label_mem_iff in M. exfalso. apply (H c); [now left|exact M].
Qed.

(** ** The table of entities and shuffled profiles *)

Lemma map_snd_combine {A B : Type} (a : list A) (b : list B) :
  length a = length b -> map snd (combine a b) = b.
Proof.
  revert b. induction a as [|x a IH]; intros [|y b] H; try discriminate;
    [reflexivity|]. cbn [combine map snd]. f_equal. apply IH. cbn in H. lia.
Qed.

Lemma combine_map_same {A B C : Type} (f : A -> B) (g : A -> C)
  (l : list A) :
  combine (map f l) (map g l) = map (fun x => (f x, g x)) l.
Proof. induction l as [|x l IH]; cbn; [reflexivity|now rewrite IH]. Qed.

Lemma col_zip_singletons (a b : list cell) :
  length a = length b ->
  col 0 (zip_rows (map (fun v => [v]) a) (map (fun v => [v]) b)) = a /\
  Forall (fun r => length r = 2%nat)
         (zip_rows (map (fun v => [v]) a) (map (fun v => [v]) b)).
Proof.
  revert b. induction a as [|x a IH]; intros [|y b] H; try discriminate.
  - split; [reflexivity|constructor].
  - destruct (IH b) as [A B]; [cbn in H; lia|].
    cbn [map zip_rows col app nth]. fold (col 0). split.
    + unfold col in A |- *. now rewrite A.
    + constructor; [reflexivity|exact B].
Qed.

(** The rows [[entity, profile]] of the two roles, and what
    [drop_duplicates] keeps of them. *)
Lemma entities_unique (ix : list Z) (roles : list (cell * cell)) :
  length ix = length roles ->
  (forall p1 p2, In p1 roles -> In p2 roles -> fst p1 = fst p2 ->
                 snd p1 = snd p2) ->
  let stack := map (fun p => [fst p; snd p]) roles in
  let kept := map snd (dedup [] (combine ix stack)) in
  NoDup (col 0 kept) /\
  (forall p, In p roles -> In (fst p) (col 0 kept)).
Proof.
  intros Hlen Hfun stack kept.
  destruct (dedup_spec (combine ix stack) []) as [N S].
  fold kept in N, S.
  assert (E : map snd (combine ix stack) = stack).
  { apply map_snd_combine. unfold stack. now rewrite length_map. }
  rewrite E in S.
  assert (K : forall r, In r kept <-> In r stack).
  { intros r. rewrite S. cbn. tauto. }
  split.
  - apply NoDup_map_inj_in; [|exact N].
    intros r1 r2 H1 H2 Hk. apply K in H1, H2. unfold stack in H1, H2.
    apply in_map_iff in H1, H2.
    destruct H1 as [p1 [<- H1]], H2 as [p2 [<- H2]]. cbn [nth] in Hk.
    now rewrite Hk, (Hfun p1 p2 H1 H2 Hk).
  - intros p Hp. unfold col. apply in_map_iff.
    exists [fst p; snd p]. split; [reflexivity|].
    apply K. unfold stack. apply in_map_iff. now exists p.
Qed.

Lemma relayout_pairs {A : Type} (f g : A -> cell) (l : list A) :
  map (relayout [LInt 0; LInt 1] [LInt 0; LInt 1])
      (map (fun r => [f r; g r]) l)
  = map (fun r => [f r; g r]) l.
Proof. rewrite map_map. apply map_ext. intros r. reflexivity. Qed.

Lemma lookup_app (l : loc) (out f0 L : list obj) (inst : Ortho_Stats)
  (o : obj) :
  lookup l (mkStore out f0 inst) = Some o ->
  lookup l (mkStore out (f0 ++ L) inst) = Some o.
Proof.
  destruct l as [n|n]; cbn [lookup outer fresh]; [auto|].
  intros H. rewrite nth_error_app1; [exact H|].
  apply nth_error_Some. congruence.
Qed.

Lemma take_length {A : Type} (idx : list nat) (xs ys : list A) :
  take idx xs = Ok ys -> length ys = length idx.
Proof.
  unfold take. intros H. apply mapM_Forall2 in H.
  symmetry. induction H; cbn; auto.
Qed.

Lemma mapM_total {A B : Type} (f : A -> result B) (l : list A) :
  (forall x, In x l -> exists y, f x = Ok y) ->
  exists out, mapM f l = Ok out /\ length out = length l.
Proof.
  intros H. destruct (Forall2_exists (fun x y => f x = Ok y) l H) as [out F].
  exists out. split; [now apply mapM_Forall2|].
  symmetry. clear H. induction F; cbn; auto.
Qed.

Lemma col_zip_with_app (j : nat) (rows : list (list cell)) (vs : list cell) :
  length vs = length rows ->
  Forall (fun r => (j < length r)%nat) rows ->
  col j (zip_with (fun r v => r ++ [v]) rows vs) = col j rows.
Proof.
  revert vs. induction rows as [|r rows IH]; intros [|v vs] H F;
    try discriminate; [reflexivity|].
  inversion F; subst. cbn [zip_with col map].
  rewrite app_nth1 by assumption. f_equal. apply IH; [cbn in H; lia|assumption].
Qed.

Lemma nth_set_nth_other {A : Type} (i j : nat) (v d : A) (l : list A) :
  i <> j -> nth j (set_nth i v l) d = nth j l d.
Proof.
  revert i j. induction l as [|x l IH]; intros [|i] [|j] H; cbn; auto;
    try congruence.
Qed.

Lemma col_zip_with_set (i j : nat) (rows : list (list cell))
  (vs : list cell) :
  length vs = length rows -> i <> j ->
  col j (zip_with (fun r v => set_nth i v r) rows vs) = col j rows.
Proof.
  intros H Hij. revert vs H.
  induction rows as [|r rows IH]; intros [|v vs] H; try discriminate;
    [reflexivity|].
  cbn [zip_with col map]. rewrite nth_set_nth_other by exact Hij.
  f_equal. apply IH. cbn in H. lia.
Qed.

Lemma position_nth (l : label) (ls : list label) (j : nat) :
  position l ls = Some j -> nth_error ls j = Some l.
Proof.
  revert j. induction ls as [|x ls IH]; intros j; cbn [position];
    [discriminate|].
  destruct (label_eqb l x) eqn:E.
  - intros [= <-]. apply label_eqb_iff in E. now subst.
  - destruct (position l ls) as [j'|]; cbn [option_map]; [|discriminate].
    intros [= <-]. cbn. now apply IH.
Qed.

(** Assigning a column leaves the other columns as they are. *)
Lemma assign_column_other (df : DataFrame) (name l : label) (vs : list cell)
  (j : nat) :
  length vs = length (data df) ->
  position l (columns df) = Some j ->
  l <> name ->
  Forall (fun r => (j < length r)%nat) (data df) ->
  exists df',
    assign_column df name vs = Ok df' /\
    column_values df' l = Ok (col j (data df)) /\
    In name (columns df') /\
    length (data df') = length (data df).
Proof.
  intros Hlen Hpos Hne Hrows. unfold assign_column.
  rewrite Hlen, Nat.eqb_refl.
  destruct (position name (columns df)) as [i|] eqn:E.
  - eexists. split; [reflexivity|]. unfold column_values.
    cbn [columns data]. rewrite Hpos. split; [|split].
    + f_equal. apply col_zip_with_set; [exact Hlen|].
      intros ->. apply position_nth in E, Hpos. congruence.
    + apply position_lt in E. tauto.
    + clear - Hlen. revert vs Hlen.
      induction (data df) as [|r rows IH]; intros [|v vs] H;
        try discriminate; [reflexivity|].
      cbn [zip_with length]. f_equal. apply IH. cbn in H. lia.
  - eexists. split; [reflexivity|]. unfold column_values.
    cbn [columns data]. rewrite (position_app_l _ _ _ _ Hpos).
    split; [|split].
    + f_equal. now apply col_zip_with_app.
    + apply in_or_app. right. now left.
    + clear - Hlen. revert vs Hlen.
      induction (data df) as [|r rows IH]; intros [|v vs] H;
        try discriminate; [reflexivity|].
      cbn [zip_with length]. f_equal. apply IH. cbn in H. lia.
Qed.

(** ** The identity-preserving shuffle keeps the pairs of entities *)

Lemma column_values_position (d : DataFrame) (l : label) (vs : list cell) :
  column_values d l = Ok vs ->
  exists j, position l (columns d) = Some j /\ vs = col j (data d).
Proof.
  unfold column_values. destruct (position l (columns d)) as [j|];
    [|discriminate]. intros [= <-]. now exists j.
Qed.

Lemma LStr_not_in (x : string) (ls : list string) :
  ~ In x ls -> ~ In (LStr x) (map LStr ls).
Proof.
  intros H H'. apply in_map_iff in H'. destruct H' as [y [E Hy]].
  injection E as ->. contradiction.
Qed.

Section Shuffle.

Variable simple_profiles_scorer : cell -> cell -> result cell.
Hypothesis scorer_total :
  forall a b, exists v, simple_profiles_scorer a b = Ok v.

Lemma scorer_runs (df : DataFrame) (p1 p2 score : string) (l : label)
  (j j1 j2 : nat) :
  position (LStr p1) (columns df) = Some j1 ->
  position (LStr p2) (columns df) = Some j2 ->
  position l (columns df) = Some j ->
  l <> LStr score ->
  Forall (fun r => (j < length r)%nat) (data df) ->
  exists df',
    df_based_profiles_scorer simple_profiles_scorer df p1 p2 score = Ok df'
    /\ column_values df' l = Ok (col j (data df))
    /\ In (LStr score) (columns df')
    /\ length (data df') = length (data df).
Proof.
  intros H1 H2 Hl Hne Hrows. unfold df_based_profiles_scorer, column_values.
  rewrite H1, H2. cbn [rbind].
  destruct (mapM_total (fun x => simple_profiles_scorer (fst x) (snd x))
              (combine (map (fun r => nth j1 r VNaN) (data df))
                       (map (fun r => nth j2 r VNaN) (data df))))
    as [scores [E L]].
  { intros x _. apply scorer_total. }
  rewrite E. cbn [rbind].
  apply (assign_column_other df (LStr score) l scores j); auto.
  rewrite L, length_combine, !length_map. lia.
Qed.

End Shuffle.

Section Shuffle_run.

Variable simple_profiles_scorer : cell -> cell -> result cell.
Hypothesis scorer_total :
  forall a b, exists v, simple_profiles_scorer a b = Ok v.

Lemma shuffle_by_ORF_keeps_pairs (N : ColumnNames) (dataframe : loc)
  (draw : nat -> list nat) (s : store) (d : DataFrame)
  (pairs roles : list (cell * cell)) :
  lookup dataframe s = Some (ODataFrame d) ->
  well_formed d ->
  names_consistent N ->
  In (LStr (PSS N)) (columns d) ->
  ~ In (LStr "ORF") (columns d) ->
  ~ In (LStr "PROF") (columns d) ->
  id_pairs N d = Ok pairs ->
  role_pairs N d = Ok roles ->
  one_profile_per_entity roles ->
  (forall n, Permutation (draw n) (seq 0 n)) ->
  exists (l : loc) (d' : DataFrame),
    fst (shuffle_by_ORF simple_profiles_scorer N dataframe draw s) = Ok l /\
    lookup l (snd (shuffle_by_ORF simple_profiles_scorer N dataframe draw s))
    = Some (ODataFrame d') /\
    id_pairs N d' = Ok pairs /\
    In (LStr (PSS N)) (columns d') /\
    length (data d') = length (data d).
Proof.
  intros Hd [Wix Wrows] (NQ & NA & NOQ & NOA) Hpss Horf Hprof Hpairs Hroles
         Hfun Hdraw.
  (* the positions of the columns *)
  unfold role_pairs in Hroles.
  destruct (column_values d (LStr (ORF_Q N))) as [cq|] eqn:Eq; [|discriminate].
  destruct (column_values d (LStr (PROF_Q N))) as [cpq|] eqn:Epq;
    [|discriminate].
  destruct (column_values d (LStr (ORF_A N))) as [ca|] eqn:Ea; [|discriminate].
  destruct (column_values d (LStr (PROF_A N))) as [cpa|] eqn:Epa;
    [|discriminate].
  cbn [rbind] in Hroles. injection Hroles as <-.
  unfold id_pairs in Hpairs. rewrite Eq, Ea in Hpairs. cbn [rbind] in Hpairs.
  injection Hpairs as <-.
  destruct (column_values_position _ _ _ Eq) as [jq [Pq ->]].
  destruct (column_values_position _ _ _ Epq) as [jpq [Ppq ->]].
  destruct (column_values_position _ _ _ Ea) as [ja [Pa ->]].
  destruct (column_values_position _ _ _ Epa) as [jpa [Ppa ->]].
  clear Eq Epq Ea Epa.
  set (rows := data d) in *.
  set (ls := [LStr (PROF_Q N); LStr (PROF_A N); LStr (PSS N)]).
  set (cdr := filter (fun c => negb (label_mem c ls)) (columns d)).
  (* the identifier columns survive the drop *)
  assert (NOQ' : ~ In (LStr (ORF_Q N)) ls).
  { apply (LStr_not_in _ [PROF_Q N; PROF_A N; PSS N]). exact NOQ. }
  assert (NOA' : ~ In (LStr (ORF_A N)) ls).
  { apply (LStr_not_in _ [PROF_Q N; PROF_A N; PSS N]). exact NOA. }
  destruct (drop_cells_position _ ls _ _ Pq NOQ') as [jq' [Pq' Nq']].
  destruct (drop_cells_position _ ls _ _ Pa NOA') as [ja' [Pa' Na']].
  fold cdr in Pq', Pa'.
  set (drows := map (drop_cells (columns d) ls) rows).
  assert (Ldrows : Forall (fun r => length r = length cdr) drows).
  { unfold drows. rewrite Forall_forall. intros r Hr.
    apply in_map_iff in Hr. destruct Hr as [r0 [<- Hr0]].
    apply drop_cells_length. rewrite Forall_forall in Wrows. now apply Wrows. }
  assert (Cq : col jq' drows = col jq rows).
  { unfold drows, col. rewrite map_map. apply map_ext_in. intros r Hr.
    apply Nq'. rewrite Forall_forall in Wrows. now apply Wrows. }
  assert (Ca : col ja' drows = col ja rows).
  { unfold drows, col. rewrite map_map. apply map_ext_in. intros r Hr.
    apply Na'. rewrite Forall_forall in Wrows. now apply Wrows. }
  (* the entities and their profiles *)
  set (qrows := map (fun r => [nth jq r VNaN; nth jpq r VNaN]) rows).
  set (arows := map (fun r => [nth ja r VNaN; nth jpa r VNaN]) rows).
  set (stack_ix := range 0 (Z.of_nat (length (qrows ++ arows)))).
  set (kept := dedup [] (combine stack_ix (qrows ++ arows))).
  set (srows := map snd kept).
  set (roles := combine (col jq rows) (col jpq rows)
                ++ combine (col ja rows) (col jpa rows)) in *.
  assert (Estack : qrows ++ arows = map (fun p => [fst p; snd p]) roles).
  { unfold roles, qrows, arows, col. rewrite !combine_map_same, map_app,
      !map_map. reflexivity. }
  assert (Hent : NoDup (col 0 srows) /\
                 forall p, In p roles -> In (fst p) (col 0 srows)).
  { unfold srows, kept. rewrite Estack.
    apply entities_unique; [|exact Hfun].
    unfold stack_ix. rewrite length_range_0, Estack, length_map.
    reflexivity. }
  destruct Hent as [Nent Pent].
  set (n := length srows).
  destruct (take_permutation (draw n) (col 1 srows)) as [pv [Tv Pv]].
  { unfold col. rewrite length_map. apply Hdraw. }
  destruct (take_permutation (draw n) (range 0 (Z.of_nat n))) as [pi [Ti Pi]].
  { rewrite length_range_0. apply Hdraw. }
  assert (Lpv : length pv = n).
  { rewrite (Permutation_length Pv). unfold col. apply length_map. }
  set (R := zip_rows (map (fun v => [v]) (col 0 srows))
                     (map (fun v => [v]) pv)).
  destruct (col_zip_singletons (col 0 srows) pv) as [CR LR].
  { unfold col. rewrite length_map. now rewrite Lpv. }
  fold R in CR, LR.
  (* the two joins *)
  set (M1 := flat_map (join_rows jq' 0 2 R) drows).
  assert (X1 : Forall2 extends drows M1).
  { apply join_unique; rewrite CR; [exact Nent|].
    rewrite Forall_forall. intros r Hr.
    assert (In (nth jq' r VNaN) (col jq' drows)).
    { unfold col. apply in_map_iff. now exists r. }
    rewrite Cq in H. unfold col in H. apply in_map_iff in H.
    destruct H as [r0 [E Hr0]]. rewrite <- E.
    apply (Pent (nth jq r0 VNaN, nth jpq r0 VNaN)).
    unfold roles. apply in_or_app. left. unfold col.
    rewrite combine_map_same. apply in_map_iff. now exists r0. }
  set (M2 := flat_map (join_rows ja' 0 2 R) M1).
  assert (Jq : (jq' < length cdr)%nat) by (apply position_lt in Pq'; tauto).
  assert (Ja : (ja' < length cdr)%nat) by (apply position_lt in Pa'; tauto).
  assert (Fq : Forall (fun r => (jq' < length r)%nat) drows).
  { revert Ldrows. apply Forall_impl. intros r ->. exact Jq. }
  assert (Fa : Forall (fun r => (ja' < length r)%nat) drows).
  { revert Ldrows. apply Forall_impl. intros r ->. exact Ja. }
  assert (C1a : col ja' M1 = col ja rows).
  { rewrite (col_extends ja' drows M1 X1 Fa). exact Ca. }
  assert (X2 : Forall2 extends M1 M2).
  { apply join_unique; rewrite CR; [exact Nent|].
    rewrite Forall_forall. intros r Hr.
    assert (In (nth ja' r VNaN) (col ja' M1)).
    { unfold col. apply in_map_iff. now exists r. }
    rewrite C1a in H. unfold col in H. apply in_map_iff in H.
    destruct H as [r0 [E Hr0]]. rewrite <- E.
    apply (Pent (nth ja r0 VNaN, nth jpa r0 VNaN)).
    unfold roles. apply in_or_app. right. unfold col.
    rewrite combine_map_same. apply in_map_iff. now exists r0. }
  assert (X : Forall2 extends drows M2) by (eapply extends_trans; eauto).
  assert (C2q : col jq' M2 = col jq rows).
  { rewrite (col_extends jq' drows M2 X Fq). exact Cq. }
  assert (C2a : col ja' M2 = col ja rows).
  { rewrite (col_extends ja' drows M2 X Fa). exact Ca. }
  assert (L2 : length M2 = length rows).
  { rewrite <- (Forall2_length X). unfold drows. apply length_map. }
  (* the columns of the joined tables *)
  assert (Hcdr : forall c, In c cdr -> In c (columns d)).
  { intros c Hc. unfold cdr in Hc. apply filter_In in Hc. tauto. }
  set (right_cols := [LStr "ORF"; LStr "PROF"]).
  assert (S1 : map (suffix_overlap right_cols "_x") cdr = cdr).
  { apply suffix_overlap_id. intros c Hc [<-|[<-|[]]]; auto. }
  assert (S1' : map (suffix_overlap cdr "_y") right_cols = right_cols).
  { apply suffix_overlap_id. intros c [<-|[<-|[]]] Hc; auto. }
  set (cols1 := cdr ++ right_cols).
  assert (S2 : map (suffix_overlap right_cols (QUERY_SUF N)) cols1
               = cdr ++ [LStr ("ORF" ++ QUERY_SUF N); LStr (PROF_Q N)]).
  { unfold cols1. rewrite map_app.
    rewrite (suffix_overlap_id right_cols (QUERY_SUF N) cdr).
    - rewrite NQ. reflexivity.
    - intros c Hc [<-|[<-|[]]]; auto. }
  assert (S2' : map (suffix_overlap cols1 (ARRAY_SUF N)) right_cols
                = [LStr ("ORF" ++ ARRAY_SUF N); LStr (PROF_A N)]).
  { unfold right_cols. cbn [map]. unfold suffix_overlap.
    assert (I1 : label_mem (LStr "ORF") cols1 = true).
    { apply label_mem_iff. unfold cols1. apply in_or_app. right. now left. }
    assert (I2 : label_mem (LStr "PROF") cols1 = true).
    { apply label_mem_iff. unfold cols1. apply in_or_app. right.
      right. now left. }
    rewrite I1, I2, NA. reflexivity. }
  set (cols2 := (cdr ++ [LStr ("ORF" ++ QUERY_SUF N); LStr (PROF_Q N)])
                ++ [LStr ("ORF" ++ ARRAY_SUF N); LStr (PROF_A N)]).
  assert (P2q : position (LStr (ORF_Q N)) cols2 = Some jq').
  { unfold cols2. rewrite <- app_assoc. now apply position_app_l. }
  assert (P2a : position (LStr (ORF_A N)) cols2 = Some ja').
  { unfold cols2. rewrite <- app_assoc. now apply position_app_l. }
  destruct (position_of_mem (LStr (PROF_Q N)) cols2) as [j1 P1].
  { unfold cols2. apply in_or_app. left. apply in_or_app. right.
    right. now left. }
  destruct (position_of_mem (LStr (PROF_A N)) cols2) as [j2 P2].
  { unfold cols2. apply in_or_app. right. right. now left. }
  set (final := mkDF cols2 (range 0 (Z.of_nat (length M2))) M2).
  assert (F2q : Forall (fun r => (jq' < length r)%nat) M2).
  { apply (Forall_impl (fun r => (jq' < length r)%nat)
             (P := fun r => (length cdr <= length r)%nat)); [lia|].
    apply (extends_length _ drows M2 X).
    revert Ldrows. apply Forall_impl. intros r ->. lia. }
  assert (F2a : Forall (fun r => (ja' < length r)%nat) M2).
  { apply (Forall_impl (fun r => (ja' < length r)%nat)
             (P := fun r => (length cdr <= length r)%nat)); [lia|].
    apply (extends_length _ drows M2 X).
    revert Ldrows. apply Forall_impl. intros r ->. lia. }
  assert (NeQ : LStr (ORF_Q N) <> LStr (PSS N)).
  { intros [= E]. apply NOQ. rewrite E. cbn. auto. }
  assert (NeA : LStr (ORF_A N) <> LStr (PSS N)).
  { intros [= E]. apply NOA. rewrite E. cbn. auto. }
  destruct (scorer_runs simple_profiles_scorer scorer_total final
              (PROF_Q N) (PROF_A N) (PSS N) _ _ _ _ P1 P2 P2q NeQ F2q)
    as [d' [Sd' [Vq [Ipss Ld']]]].
  destruct (scorer_runs simple_profiles_scorer scorer_total final
              (PROF_Q N) (PROF_A N) (PSS N) _ _ _ _ P1 P2 P2a NeA F2a)
    as [d'' [Sd'' [Va _]]].
  assert (d'' = d') by congruence. subst d''.
  cbn [data final] in Vq, Va, Ld'.
  (* the run *)
  destruct s as [out f0 inst].
  assert (Hd' : forall L, lookup dataframe (mkStore out (f0 ++ L) inst)
                          = Some (ODataFrame d)).
  { intros L. now apply lookup_app. }
  assert (Run : exists L,
             shuffle_by_ORF simple_profiles_scorer N dataframe draw
               (mkStore out (f0 ++ []) inst)
             = (Ok (Fresh (length f0 + 10)), mkStore out (f0 ++ L) inst)
             /\ nth_error L 10 = Some (ODataFrame d')).
  { eexists. unfold shuffle_by_ORF.
    (* q_ORF_prof_df, a_ORF_prof_df, drop_prof_temp_df *)
    erewrite run_bind.
    2:{ unfold getitem_list.
        erewrite run_bind by (apply run_read_df; apply Hd').
        apply run_new_df. unfold df_getitem_list. cbn [mapM].
        unfold position_or. rewrite Pq, Ppq. reflexivity. }
    erewrite run_bind.
    2:{ unfold getitem_list.
        erewrite run_bind by (apply run_read_df; apply Hd').
        apply run_new_df. unfold df_getitem_list. cbn [mapM].
        unfold position_or. rewrite Pa, Ppa. reflexivity. }
    erewrite run_bind.
    2:{ unfold drop. erewrite run_bind by (apply run_read_df; apply Hd').
        apply run_new_df. unfold df_drop.
        replace (forallb (fun l => label_mem l (columns d))
                   [LStr (PROF_Q N); LStr (PROF_A N); LStr (PSS N)])
          with true; [reflexivity|].
        symmetry. cbn [forallb]. rewrite !andb_true_iff.
        repeat split; apply label_mem_iff;
          [apply position_lt in Ppq|apply position_lt in Ppa|]; tauto. }
    cbn [length app Nat.add rbind map]. fold rows. fold ls. fold cdr.
    fold drows. fold qrows. fold arows.
    (* the columns become 0 and 1 *)
    erewrite run_bind.
    2:{ unfold set_columns_range. eapply run_update_df; [reflexivity|].
        unfold set_columns. cbn [columns length]. reflexivity. }
    erewrite run_bind.
    2:{ unfold set_columns_range. eapply run_update_df; [reflexivity|].
        unfold set_columns. cbn [columns length]. reflexivity. }
    cbn [set_nth Nat.eqb index data length app Nat.add].
    change (range_labels 2) with [LInt 0; LInt 1].
    (* stack_ORF_prof_df *)
    erewrite run_bind.
    2:{ unfold concat_ignore_index.
        erewrite run_bind
          by (apply run_read_df; rewrite lookup_fresh; reflexivity).
        erewrite run_bind
          by (apply run_read_df; rewrite lookup_fresh; reflexivity).
        apply run_alloc. }
    unfold concat_rows. cbn [columns data length app Nat.add].
    change ([LInt 0; LInt 1]
            ++ filter (fun c => negb (label_mem c [LInt 0; LInt 1]))
                      [LInt 0; LInt 1]) with [LInt 0; LInt 1].
    unfold qrows, arows. rewrite !relayout_pairs. fold qrows. fold arows.
    fold stack_ix.
    erewrite run_bind.
    2:{ unfold drop_duplicates_inplace.
        eapply run_update_df; reflexivity. }
    cbn [set_nth length app Nat.add columns index data].
    fold kept. fold srows.
    erewrite run_bind.
    2:{ unfold set_columns_to. eapply run_update_df; reflexivity. }
    erewrite run_bind.
    2:{ unfold set_index_range. eapply run_update_df; [reflexivity|].
        unfold set_index, len. cbn [data columns index].
        rewrite length_range_0, Nat.eqb_refl. reflexivity. }
    cbn [set_nth length app Nat.add columns index data]. fold n.
    (* the shuffled profiles *)
    erewrite run_bind.
    2:{ unfold getattr_column.
        erewrite run_bind
          by (apply run_read_df; rewrite lookup_fresh; reflexivity).
        apply run_new_series. reflexivity. }
    erewrite run_bind.
    2:{ unfold sample_series.
        erewrite run_bind
          by (apply run_read_series; rewrite lookup_fresh; reflexivity).
        apply run_new_series. unfold s_sample.
        cbn [sindex svalues sname data index]. fold (col 1 srows).
        replace (length (col 1 srows)) with n
          by (unfold col; now rewrite length_map).
        unfold len. cbn [data]. fold n. rewrite Ti, Tv. reflexivity. }
    erewrite run_bind.
    2:{ unfold set_sindex_range. eapply run_update_series; [reflexivity|].
        unfold set_sindex. cbn [svalues sname].
        rewrite length_range_0, Nat.eqb_refl. reflexivity. }
    erewrite run_bind.
    2:{ unfold getattr_column.
        erewrite run_bind
          by (apply run_read_df; rewrite lookup_fresh; reflexivity).
        apply run_new_series. reflexivity. }
    erewrite run_bind.
    2:{ unfold concat_series_axis1.
        erewrite run_bind
          by (apply run_read_series; rewrite lookup_fresh; reflexivity).
        erewrite run_bind
          by (apply run_read_series; rewrite lookup_fresh; reflexivity).
        apply run_new_df. unfold hcat, to_frame, len.
        cbn [index sindex sname svalues columns data].
        rewrite Lpv. fold n. rewrite index_eqb_refl. reflexivity. }
    cbn [set_nth length app Nat.add columns index data].
    fold (col 0 srows). fold R.
    (* the joins *)
    erewrite run_bind.
    2:{ unfold merge.
        erewrite run_bind
          by (apply run_read_df; rewrite lookup_fresh; reflexivity).
        erewrite run_bind
          by (apply run_read_df; rewrite lookup_fresh; reflexivity).
        apply run_new_df. unfold merge_left, position_or.
        cbn [columns data fst snd]. rewrite Pq'. cbn [rbind].
        change (position (LStr "ORF") [LStr "ORF"; LStr "PROF"])
          with (Some O).
        cbn [rbind length]. fold right_cols. rewrite S1, S1'.
        fold M1. fold cols1. reflexivity. }
    erewrite run_bind.
    2:{ unfold merge.
        erewrite run_bind
          by (apply run_read_df; rewrite lookup_fresh; reflexivity).
        erewrite run_bind
          by (apply run_read_df; rewrite lookup_fresh; reflexivity).
        apply run_new_df. unfold merge_left, position_or.
        cbn [columns data fst snd].
        replace (position (LStr (ORF_A N)) cols1) with (Some ja')
          by (symmetry; apply position_app_l; exact Pa').
        cbn [rbind].
        change (position (LStr "ORF") [LStr "ORF"; LStr "PROF"])
          with (Some O).
        cbn [rbind length]. fold right_cols. fold cols1. rewrite S2, S2'.
        fold M2. fold cols2. fold final. reflexivity. }
    erewrite run_bind
      by (apply run_read_df; rewrite lookup_fresh; reflexivity).
    erewrite run_new_df by exact Sd'.
    split; reflexivity. }
  destruct Run as [L [Run HL]]. rewrite app_nil_r in Run.
  exists (Fresh (length f0 + 10)), d'. rewrite Run. cbn [fst snd].
  rewrite lookup_fresh. split; [reflexivity|]. split; [exact HL|].
  split; [|split; [exact Ipss|]].
  - unfold id_pairs. rewrite Vq, Va. cbn [rbind]. now rewrite C2q, C2a.
  - rewrite Ld'. exact L2.
Qed.

End Shuffle_run.

Lemma run_count_profiles (l : loc) (pss : label) (t : Q) (s : store)
  (d : DataFrame) :
  lookup l s = Some (ODataFrame d) ->
  In pss (columns d) ->
  exists counts, count_profiles l pss t s = (Ok counts, s).
Proof.
  intros H Hin. unfold count_profiles.
  erewrite run_bind by (apply run_read_df; exact H).
  destruct (position_of_mem _ _ Hin) as [j Pj].
  unfold column_values. rewrite Pj. unfold lift, bind, ret.
  eexists. reflexivity.
Qed.

Lemma literal_names_consistent : names_consistent literal_names.
Proof.
  repeat split; cbn; intros H; decompose [or] H; discriminate || contradiction.
Qed.

Section Strategy_1.

Variable simple_profiles_scorer : cell -> cell -> result cell.
Hypothesis scorer_total :
  forall a b, exists v, simple_profiles_scorer a b = Ok v.


(** The same table is built by a trial of [Stats.permute_profiles], which
    then raises: the name of the table is deleted before it is used. *)
Lemma permute_profiles_f_raises (N : ColumnNames) (dataframe : loc)
  (in_prof_sim_lev : Q) (store_dataframe : bool) (rng : generator)
  (in_iter : Z) (s : store) (d : DataFrame)
  (pairs roles : list (cell * cell)) :
  lookup dataframe s = Some (ODataFrame d) ->
  well_formed d ->
  names_consistent N ->
  In (LStr (PSS N)) (columns d) ->
  ~ In (LStr "ORF") (columns d) ->
  ~ In (LStr "PROF") (columns d) ->
  id_pairs N d = Ok pairs ->
  role_pairs N d = Ok roles ->
  one_profile_per_entity roles ->
  (forall n, Permutation (rng in_iter O n) (seq 0 n)) ->
  fst (permute_profiles_f simple_profiles_scorer N dataframe
         in_prof_sim_lev store_dataframe rng in_iter s)
  = Raise (UnboundLocalError "qa_merged_score_df").
Proof.
  intros Hd Hwf Hn Hpss Horf Hprof Hpairs Hroles Hfun Hdraw.
  destruct (shuffle_by_ORF_keeps_pairs simple_profiles_scorer scorer_total
              N dataframe (rng in_iter O) s d pairs roles Hd Hwf Hn Hpss
              Horf Hprof Hpairs Hroles Hfun Hdraw)
    as (l & d' & Hl & Hd' & Hp & Hin & _).
  unfold permute_profiles_f. unfold bind at 1.
  destruct (shuffle_by_ORF simple_profiles_scorer N dataframe
              (rng in_iter O) s) as [r s1].
  cbn [fst snd] in Hl, Hd'. subst r.
  destruct (run_count_profiles l (LStr (PSS N)) in_prof_sim_lev s1 d' Hd'
              Hin) as [counts Hc].
  unfold bind. rewrite Hc. now destruct store_dataframe.
Qed.

End Strategy_1.

(** ** The examples *)

Lemma example_rng_permutes (i : Z) (c n : nat) :
  Permutation (example_rng i c n) (seq 0 n).
Proof. unfold example_rng. apply Permutation_sym, Permutation_rev. Qed.

Lemma example_one_profile_per_entity : one_profile_per_entity example_roles.
Proof.
  intros p1 p2 H1 H2 E. unfold example_roles in H1, H2. cbn [In] in H1, H2.
  repeat (destruct H1 as [<-|H1]); try contradiction;
    repeat (destruct H2 as [<-|H2]); try contradiction;
    cbn [fst snd] in *; congruence.
Qed.

Lemma example_well_formed : well_formed example_inter_df.
Proof. split; [reflexivity|]. repeat constructor. Qed.


Lemma permuted_catalogue_keeps_profiles_witness :
  exists permuted,
    fst (permuted_catalogue (example_rng 0 O) example_store) = Ok permuted /\
    map entry_profile permuted = map entry_profile example_gene_profiles /\
    Permutation (map entry_profile permuted)
                (map entry_profile example_gene_profiles) /\
    Permutation (map (hd VNaN) permuted)
                (map (hd VNaN) example_gene_profiles) /\
    length permuted = length example_gene_profiles.
Proof.
  apply (permuted_catalogue_keeps_profiles (example_rng 0 O) example_store
           example_gene_profiles).
  - reflexivity.
  - repeat constructor; discriminate.
  - apply example_rng_permutes.
Defined.

(** ** No trial at all *)

Lemma pool_map_zero {A : Type} (f : Z -> M A) (s : store) :
  pool_map f 0 s = (Ok [], s).
Proof. reflexivity. Qed.

Lemma no_column_of_no_dict (name : string) :
  results_getattr (DataFrame_of_dicts []) name = Raise (AttributeError name).
Proof. reflexivity. Qed.

Section Zero_trials.

Variable simple_profiles_scorer : cell -> cell -> result cell.
Variable df_qa_names_2_prof_score :
  list cell -> list (list cell) -> result cell.
Variable gene_profile_finder_by_name :
  cell -> list (list cell) -> bool -> result cell.

(** C6, as amended.  With no trial, [permute_profiles] and [KO_profs_perm]
    raise an [AttributeError]: the table made of no result has no column
    [mirror], and the column is read before anything is divided.
    [prof_arr_perm] does the same once it has dropped the profile columns
    of the interaction table.  [names_perm] and [prof_cols_perm], which
    average nothing, return. *)
Theorem zero_trials_raise_attribute_error
  (N : ColumnNames) (dataframe : loc) (store_dataframe : bool)
  (in_prof_sim_lev : Q) (rng : generator) (s : store) :
  fst (permute_profiles simple_profiles_scorer N dataframe in_prof_sim_lev
         0 store_dataframe rng s) = Raise (AttributeError "mirror") /\
  fst (KO_profs_perm simple_profiles_scorer 0 in_prof_sim_lev rng s)
  = Raise (AttributeError "mirror") /\
  fst (prof_arr_perm df_qa_names_2_prof_score gene_profile_finder_by_name
         0 in_prof_sim_lev rng s)
  = match fst (drop (inter_df (instance s)) (profile_columns (instance s))
                    s) with
    | Ok _ => Raise (AttributeError "mirror")
    | Raise e => Raise e
    end /\
  fst (names_perm df_qa_names_2_prof_score 0 in_prof_sim_lev rng s)
  = Ok tt /\
  fst (prof_cols_perm simple_profiles_scorer 0 in_prof_sim_lev rng s)
  = Ok tt.
Proof.
  split; [reflexivity|]. split; [reflexivity|].
  split; [|split; reflexivity].
  unfold prof_arr_perm, get_self. unfold bind at 1.
  unfold bind at 1.
  destruct (drop (inter_df (instance s)) (profile_columns (instance s)) s)
    as [[l|e] s1]; reflexivity.
Qed.

End Zero_trials.

(** C6 fails as stated: on the example store the entry points run with no
    trial raise an [AttributeError], not a division error, and [names_perm]
    raises nothing. *)
Lemma zero_trials_no_division_error :
  fst (permute_profiles example_scorer literal_names (Outer 0) 1 0 true
         example_rng example_store) = Raise (AttributeError "mirror") /\
  fst (prof_arr_perm example_names_scorer example_finder 0 1 example_rng
         example_store) = Raise (AttributeError "mirror") /\
  fst (KO_profs_perm example_scorer 0 1 example_rng example_store)
  = Raise (AttributeError "mirror") /\
  Raise (A := unit) (AttributeError "mirror") <> Raise ZeroDivisionError /\
  fst (names_perm example_names_scorer 0 1 example_rng example_store) = Ok tt.
Proof.
  repeat split; try reflexivity. discriminate.
Qed.

(** An in-place assignment to the caller's table would be seen: the frame
    property of the entry points is not a property of every program. *)
Lemma assignment_to_outer_table_changes_it :
  lookup (Outer 0) (snd (set_columns_range (Outer 0) example_store))
  <> lookup (Outer 0) example_store.
Proof. cbn. discriminate. Qed.

(** * Further properties of the code *)

Local Open Scope py_scope.

(** ** The value of [_log_binomial_coeff] *)

Lemma range_succ (m : nat) :
  range 1 (Z.of_nat (S m) + 1) = range 1 (Z.of_nat m + 1) ++ [Z.of_nat (S m)].
Proof.
  unfold range.
  replace (Z.to_nat (Z.of_nat (S m) + 1 - 1)) with (S m) by lia.
  replace (Z.to_nat (Z.of_nat m + 1 - 1)) with m by lia.
  rewrite seq_S, map_app. cbn [map]. do 2 f_equal. lia.
Qed.

Lemma foldM_app {A B : Type} (f : A -> B -> result A) (l l' : list B) (a : A) :
  foldM f (l ++ l') a = (let! a' := foldM f l a in foldM f l' a').
Proof.
  revert a. induction l as [|x l IH]; intros a; cbn [foldM app].
  - reflexivity.
  - destruct (f a x); cbn [rbind]; auto.
Qed.

Lemma IZR_Q2R (z : Z) : Q2R (inject_Z z) = IZR z.
Proof. unfold Q2R, inject_Z. cbn. lra. Qed.

Lemma C_pos (n i : nat) : (i <= n)%nat -> (0 < C n i)%R.
Proof.
  intros H. unfold C. apply Rdiv_lt_0_compat.
  - apply INR_fact_lt_0.
  - apply Rmult_lt_0_compat; apply INR_fact_lt_0.
Qed.

Lemma C_step (n m : nat) :
  (S m <= n)%nat ->
  (C n (S m) = C n m * (INR n - INR (S m) + 1) / INR (S m))%R.
Proof.
  intros H. unfold C.
  replace (n - m)%nat with (S (n - S m)) by lia.
  rewrite !fact_simpl, !mult_INR.
  assert (INR (fact m) <> 0)%R by apply INR_fact_neq_0.
  assert (INR (fact (n - S m)) <> 0)%R by apply INR_fact_neq_0.
  assert (INR (S m) <> 0)%R by (apply not_0_INR; lia).
  assert (E : (INR (S (n - S m)) = INR n - INR (S m) + 1)%R).
  { rewrite S_INR, minus_INR by lia. lra. }
  assert (INR (S (n - S m)) <> 0)%R by (apply not_0_INR; lia).
  rewrite <- E. field. auto.
Qed.

Lemma log_binomial_loop_value (n m : nat) :
  (m <= n)%nat ->
  foldM (log_binomial_step (inject_Z (Z.of_nat n)))
        (range 1 (Z.of_nat m + 1)) (LV 0)
  = Ok (LV (ln (C n m))).
Proof.
  induction m as [|m IH]; intros H.
  - cbn. f_equal. f_equal.
    replace (C n 0) with 1%R; [now rewrite ln_1|].
    unfold C. rewrite Nat.sub_0_r. cbn. field. apply INR_fact_neq_0.
  - rewrite range_succ, foldM_app, IH by lia. cbn [rbind foldM].
    unfold log_binomial_step, fl_div.
    destruct (Qeq_bool (inject_Z (Z.of_nat (S m))) 0) eqn:E.
    { apply Qeq_bool_iff in E. unfold Qeq, inject_Z in E.
      cbn -[Z.mul Z.of_nat] in E. lia. }
    cbn [rbind].
    assert (Hq : (0 < (inject_Z (Z.of_nat n) - inject_Z (Z.of_nat (S m)) + 1)
                     / inject_Z (Z.of_nat (S m)))%Q).
    { unfold Qlt, Qdiv, Qmult, Qinv, Qplus, Qminus, Qopp, Qplus, inject_Z.
      remember (Z.of_nat (S m)) as i. destruct i as [|i|i]; try lia.
      cbn -[Z.mul Z.add Z.of_nat]. lia. }
    rewrite (math_log_pos _ Hq). cbn [rbind lv_add]. do 2 f_equal.
    rewrite (C_step n m H).
    assert (P1 : (0 < C n m)%R) by (apply C_pos; lia).
    assert (P2 : (0 < INR (S m))%R) by (apply lt_0_INR; lia).
    assert (P3 : (0 < INR n - INR (S m) + 1)%R).
    { apply le_INR in H. lra. }
    unfold Rdiv. rewrite Rmult_assoc, ln_mult; auto.
    2:{ apply Rmult_lt_0_compat; [exact P3|now apply Rinv_0_lt_compat]. }
    f_equal. f_equal. unfold Qdiv.
    rewrite Q2R_mult, Q2R_inv, Q2R_plus, Q2R_minus, !IZR_Q2R.
    + rewrite <- !INR_IZR_INZ. replace (Q2R 1) with 1%R; [reflexivity|].
      unfold Q2R. cbn. lra.
    + apply inject_Z_nonzero. lia.
Qed.

Lemma C_sym (n k : nat) : (k <= n)%nat -> C n (n - k) = C n k.
Proof. intros H. symmetry. now apply pascal_step1. Qed.

Lemma log_binomial_coeff_nat (n k : nat) :
  (k <= n)%nat ->
  _log_binomial_coeff (Z.of_nat n) (Z.of_nat k) = Ok (LV (ln (C n k))).
Proof.
  intros H. rewrite log_binomial_coeff_unfold, loop_count_spec.
  destruct (Z.leb_spec (2 * Z.of_nat k) (Z.of_nat n)).
  - now apply log_binomial_loop_value.
  - replace (Z.of_nat n - Z.of_nat k) with (Z.of_nat (n - k)) by lia.
    rewrite log_binomial_loop_value by lia. now rewrite C_sym.
Qed.



Lemma range_empty (a b : Z) : b <= a -> range a b = [].
Proof. intros H. unfold range. replace (Z.to_nat (b - a)) with O by lia.
  reflexivity. Qed.



(** ** The value of [_score] *)

Lemma sum_term_le (f : nat -> R) (n k : nat) :
  (forall i, (0 <= f i)%R) -> (k <= n)%nat -> (f k <= sum_f_R0 f n)%R.
Proof.
  intros Hf. induction n as [|n IH]; intros H.
  - replace k with O by lia. cbn. lra.
  - cbn [sum_f_R0]. destruct (Nat.eq_dec k (S n)) as [->|Hne].
    + assert (0 <= sum_f_R0 f n)%R by (apply cond_pos_sum; auto). lra.
    + specialize (IH ltac:(lia)). specialize (Hf (S n)). lra.
Qed.

Lemma binomial_term_bounds (n k : nat) (p : R) :
  (0 < p < 1)%R -> (k <= n)%nat ->
  (0 < C n k * p ^ k * (1 - p) ^ (n - k) <= 1)%R.
Proof.
  intros Hp H. split.
  - apply Rmult_lt_0_compat; [apply Rmult_lt_0_compat|].
    + now apply C_pos.
    + apply pow_lt; lra.
    + apply pow_lt; lra.
  - assert (E : (sum_f_R0 (fun i => C n i * p ^ i * (1 - p) ^ (n - i)) n
                 = 1)%R).
    { rewrite <- binomial. replace (p + (1 - p))%R with 1%R by lra.
      apply pow1. }
    rewrite <- E at 2.
    apply (sum_term_le (fun i => C n i * p ^ i * (1 - p) ^ (n - i))%R n k);
      [|exact H].
    intros i. destruct (le_lt_dec i n) as [Hi|Hi].
    + apply Rmult_le_pos; [apply Rmult_le_pos|].
      * left. now apply C_pos.
      * apply pow_le; lra.
      * apply pow_le; lra.
    + apply Rmult_le_pos; [apply Rmult_le_pos|].
      * unfold C. apply Rmult_le_pos.
        -- left. apply INR_fact_lt_0.
        -- left. apply Rinv_0_lt_compat.
           apply Rmult_lt_0_compat; apply INR_fact_lt_0.
      * apply pow_le; lra.
      * apply pow_le; lra.
Qed.

Lemma Q2R_bounds (p : Q) :
  (0 < p)%Q -> (p < 1)%Q -> (0 < Q2R p < 1)%R.
Proof.
  intros H0 H1. split.
  - replace 0%R with (Q2R 0) by (unfold Q2R; cbn; lra). now apply Qlt_Rlt.
  - replace 1%R with (Q2R 1) by (unfold Q2R; cbn; lra). now apply Qlt_Rlt.
Qed.

Lemma Q2R_one_minus (p : Q) : Q2R (1 - p) = (1 - Q2R p)%R.
Proof.
  rewrite Q2R_minus. f_equal. unfold Q2R. cbn. lra.
Qed.

Lemma score_value_nat (n k : nat) (p : Q) :
  (k <= n)%nat -> (0 < p)%Q -> (p < 1)%Q ->
  _score (of_int (Z.of_nat k)) (of_int (Z.of_nat n)) (Fin p) =
  Ok (LV (ln (C n k * Q2R p ^ k * (1 - Q2R p) ^ (n - k)))).
Proof.
  intros H H0 H1.
  rewrite (score_unfold _ _ _ _ (log_binomial_coeff_nat n k H)).
  rewrite (math_log_pos _ H0). cbn [rbind fl_sub].
  assert (Hq : (0 < 1 - p)%Q).
  { unfold Qlt, Qminus, Qplus, Qopp in *. cbn -[Z.mul] in *. lia. }
  rewrite (math_log_pos _ Hq). cbn [rbind lv_add lv_scale].
  do 2 f_equal.
  destruct (Q2R_bounds p H0 H1) as [P0 P1].
  rewrite Q2R_one_minus.
  assert (PC : (0 < C n k)%R) by now apply C_pos.
  assert (Pk : (0 < Q2R p ^ k)%R) by (apply pow_lt; lra).
  assert (Pn : (0 < (1 - Q2R p) ^ (n - k))%R) by (apply pow_lt; lra).
  rewrite ln_mult; [|now apply Rmult_lt_0_compat|exact Pn].
  rewrite ln_mult; [|exact PC|exact Pk].
  rewrite (ln_pow (Q2R p) P0), (ln_pow (1 - Q2R p)%R) by lra.
  rewrite <- Nat2Z.inj_sub by exact H.
  rewrite <- !INR_IZR_INZ. reflexivity.
Qed.

Lemma ln_le_0 (x : R) : (0 < x <= 1)%R -> (ln x <= 0)%R.
Proof.
  intros [H0 [H1|H1]].
  - left. rewrite <- ln_1. now apply ln_increasing.
  - rewrite H1, ln_1. lra.
Qed.

(** The value of [_score] on floats whose integer parts are [k] and [n]. *)
Lemma score_value (hits trials p : Q) :
  0 <= trunc hits <= trunc trials -> (0 < p)%Q -> (p < 1)%Q ->
  let n := Z.to_nat (trunc trials) in
  let k := Z.to_nat (trunc hits) in
  _score (Fin hits) (Fin trials) (Fin p) =
  Ok (LV (ln (C n k * Q2R p ^ k * (1 - Q2R p) ^ (n - k)))) /\
  (ln (C n k * Q2R p ^ k * (1 - Q2R p) ^ (n - k)) <= 0)%R.
Proof.
  intros H H0 H1 n k. split.
  - rewrite score_int.
    rewrite <- (Z2Nat.id (trunc hits)) by lia.
    rewrite <- (Z2Nat.id (trunc trials)) by lia.
    apply score_value_nat; [lia|exact H0|exact H1].
  - apply ln_le_0. apply binomial_term_bounds.
    + now apply Q2R_bounds.
    + unfold n, k. lia.
Qed.





(** ** The order of the keys *)

Lemma string_compare_refl (s : string) : String.compare s s = Eq.
Proof.
  pose proof (String.compare_antisym s s) as H.
  destruct (String.compare s s); cbn in H; congruence.
Qed.

Lemma ascii_compare_lt_trans (a b c : ascii) :
  Ascii.compare a b = Lt -> Ascii.compare b c = Lt -> Ascii.compare a c = Lt.
Proof.
  unfold Ascii.compare. rewrite !N.compare_lt_iff. lia.
Qed.

Lemma string_compare_lt_trans (a b c : string) :
  String.compare a b = Lt -> String.compare b c = Lt ->
  String.compare a c = Lt.
Proof.
  revert b c. induction a as [|x a IH]; intros [|y b] [|z c]; cbn;
    try congruence.
  destruct (Ascii.compare x y) eqn:Exy; try discriminate;
    destruct (Ascii.compare y z) eqn:Eyz; try discriminate; intros H1 H2.
  - apply Ascii.compare_eq_iff in Exy, Eyz. subst.
    replace (Ascii.compare z z) with Eq.
    2:{ symmetry. unfold Ascii.compare. apply N.compare_refl. }
    eauto.
  - apply Ascii.compare_eq_iff in Exy. subst. now rewrite Eyz.
  - apply Ascii.compare_eq_iff in Eyz. subst. now rewrite Exy.
  - now rewrite (ascii_compare_lt_trans _ _ _ Exy Eyz).
Qed.

Lemma cell_cmp_antisym (a b : cell) :
  cell_cmp a b = CompOpp (cell_cmp b a).
Proof.
  destruct a, b; cbn; try reflexivity.
  - apply String.compare_antisym.
  - apply Z.compare_antisym.
  - unfold Qcompare. apply Z.compare_antisym.
Qed.

Lemma cell_cmp_irrefl (a : cell) : cell_cmp a a <> Lt.
Proof.
  pose proof (cell_cmp_antisym a a) as H.
  destruct (cell_cmp a a); cbn in H; congruence.
Qed.

Lemma cell_cmp_lt_trans (a b c : cell) :
  cell_lt a b -> cell_lt b c -> cell_lt a c.
Proof.
  unfold cell_lt.
  destruct a, b, c; cbn; try congruence; try apply string_compare_lt_trans.
  - rewrite !Z.compare_lt_iff. lia.
  - rewrite <- !Qlt_alt. apply Qlt_trans.
Qed.

Lemma cell_cmp_eq (r : Z) (a b : cell) :
  r = 1 \/ r = 2 \/ r = 3 ->
  cell_rank a = r -> cell_rank b = r -> cell_cmp a b = Eq -> a = b.
Proof.
  intros Hr Ha Hb.
  destruct a, b; cbn in *; try lia; intros H.
  - f_equal. now apply String.compare_eq_iff.
  - f_equal. now apply Z.compare_eq.
  - f_equal. apply Qc_is_canon. now apply Qeq_alt.
Qed.

Lemma cell_cmp_lt_neq (a b : cell) : cell_lt a b -> a <> b.
Proof. intros H E. subst. exact (cell_cmp_irrefl b H). Qed.

(** ** [groupby(...).size()] *)

Lemma sorted_lt_not_in (k : cell) (l : list cell) :
  Forall (cell_lt k) l -> ~ In k l.
Proof.
  intros F H. rewrite Forall_forall in F.
  exact (cell_cmp_irrefl k (F _ H)).
Qed.

Lemma sorted_unique (l1 l2 : list cell) :
  StronglySorted cell_lt l1 -> StronglySorted cell_lt l2 ->
  (forall x, In x l1 <-> In x l2) -> l1 = l2.
Proof.
  intros S1. revert l2. induction S1 as [|a l1 S1 IH F1]; intros l2 S2 H.
  - destruct l2 as [|b l2]; [reflexivity|].
    destruct (proj2 (H b) (or_introl eq_refl)).
  - destruct S2 as [|b l2 S2 F2].
    { destruct (proj1 (H a) (or_introl eq_refl)). }
    assert (E : a = b).
    { destruct (proj1 (H a) (or_introl eq_refl)) as [E|Ia]; [auto|].
      destruct (proj2 (H b) (or_introl eq_refl)) as [E|Ib]; [auto|].
      rewrite Forall_forall in F1, F2.
      exfalso. apply (cell_cmp_irrefl a).
      exact (cell_cmp_lt_trans _ _ _ (F1 _ Ib) (F2 _ Ia)). }
    subst b. f_equal. apply IH; [exact S2|].
    intros x. split; intros Hx.
    + destruct (proj1 (H x) (or_intror Hx)) as [E|Hx']; [|exact Hx'].
      subst x. destruct (sorted_lt_not_in _ _ F1 Hx).
    + destruct (proj2 (H x) (or_intror Hx)) as [E|Hx']; [|exact Hx'].
      subst x. destruct (sorted_lt_not_in _ _ F2 Hx).
Qed.

Lemma bump_keys (k : cell) (bins : list (cell * Z)) (r : Z) :
  r = 1 \/ r = 2 \/ r = 3 -> cell_rank k = r ->
  Forall (fun b => cell_rank (fst b) = r) bins ->
  forall x, In x (map fst (bump k bins)) <-> x = k \/ In x (map fst bins).
Proof.
  intros Hr Hk. induction bins as [|[k' c] bins IH]; intros F x.
  - cbn. intuition.
  - apply Forall_cons_iff in F as [Fk' F']. cbn [fst] in Fk'. cbn [bump].
    destruct (cell_cmp k k') eqn:E.
    + apply (cell_cmp_eq r _ _ Hr Hk Fk') in E. subst k'. cbn. intuition.
    + cbn. intuition.
    + cbn [map fst In]. rewrite (IH F' x). intuition.
Qed.

Lemma bump_rank (k : cell) (bins : list (cell * Z)) (r : Z) :
  cell_rank k = r ->
  Forall (fun b => cell_rank (fst b) = r) bins ->
  Forall (fun b => cell_rank (fst b) = r) (bump k bins).
Proof.
  intros Hk. induction 1 as [|[k' c] bins Fk' F' IH]; cbn [bump].
  - constructor; auto.
  - destruct (cell_cmp k k'); repeat constructor; auto.
Qed.

Lemma bump_sorted (k : cell) (bins : list (cell * Z)) (r : Z) :
  r = 1 \/ r = 2 \/ r = 3 -> cell_rank k = r ->
  Forall (fun b => cell_rank (fst b) = r) bins ->
  StronglySorted cell_lt (map fst bins) ->
  StronglySorted cell_lt (map fst (bump k bins)).
Proof.
  intros Hr Hk. induction bins as [|[k' c] bins IH]; intros F S.
  - cbn. repeat constructor.
  - apply Forall_cons_iff in F as [Fk' F']. cbn [fst] in Fk'.
    cbn [map fst] in S. apply StronglySorted_inv in S as [S' L].
    cbn [bump]. destruct (cell_cmp k k') eqn:E.
    + cbn [map fst]. constructor; assumption.
    + cbn [map fst]. constructor; [constructor; assumption|].
      constructor; [exact E|].
      eapply Forall_impl; [|exact L].
      intros y Hy. exact (cell_cmp_lt_trans _ _ _ E Hy).
    + cbn [map fst]. constructor; [now apply IH|].
      apply Forall_forall. intros x Hx.
      apply (bump_keys k bins r Hr Hk F') in Hx.
      destruct Hx as [->|Hx].
      * unfold cell_lt. rewrite cell_cmp_antisym, E. reflexivity.
      * rewrite Forall_forall in L. now apply L.
Qed.

Lemma bin_count_cons (k k' : cell) (c : Z) (bins : list (cell * Z)) :
  bin_count k ((k', c) :: bins) =
  if cell_eqb k k' then c else bin_count k bins.
Proof. unfold bin_count. cbn. destruct (cell_eqb k k'); reflexivity. Qed.

Lemma bin_count_absent (k : cell) (bins : list (cell * Z)) :
  ~ In k (map fst bins) -> bin_count k bins = 0.
Proof.
  induction bins as [|[k' c] bins IH]; intros H; [reflexivity|].
  rewrite bin_count_cons. destruct (cell_eqb k k') eqn:E.
  - apply cell_eqb_eq in E. subst. cbn in H. tauto.
  - apply IH. cbn in H. tauto.
Qed.

Lemma bump_count (k x : cell) (bins : list (cell * Z)) (r : Z) :
  r = 1 \/ r = 2 \/ r = 3 -> cell_rank k = r ->
  Forall (fun b => cell_rank (fst b) = r) bins ->
  StronglySorted cell_lt (map fst bins) ->
  bin_count x (bump k bins) =
  bin_count x bins + (if cell_eqb x k then 1 else 0).
Proof.
  intros Hr Hk. induction bins as [|[k' c] bins IH]; intros F S.
  - cbn [bump]. rewrite bin_count_cons. unfold bin_count. cbn.
    destruct (cell_eqb x k); reflexivity.
  - apply Forall_cons_iff in F as [Fk' F']. cbn [fst] in Fk'.
    cbn [map fst] in S. apply StronglySorted_inv in S as [S' L].
    cbn [bump]. destruct (cell_cmp k k') eqn:E.
    + apply (cell_cmp_eq r _ _ Hr Hk Fk') in E. subst k'.
      rewrite !bin_count_cons. destruct (cell_eqb x k); lia.
    + rewrite !bin_count_cons. destruct (cell_eqb x k) eqn:Exk; [|lia].
      apply cell_eqb_eq in Exk. subst x.
      destruct (cell_eqb k k') eqn:Ekk'.
      { apply cell_eqb_eq in Ekk'. subst k'.
        destruct (cell_cmp_irrefl _ E). }
      rewrite bin_count_absent; [reflexivity|].
      apply sorted_lt_not_in. eapply Forall_impl; [|exact L].
      intros y Hy. exact (cell_cmp_lt_trans _ _ _ E Hy).
    + rewrite !bin_count_cons. destruct (cell_eqb x k') eqn:Exk'.
      * apply cell_eqb_eq in Exk'. subst x.
        destruct (cell_eqb k' k) eqn:Ek'k; [|lia].
        apply cell_eqb_eq in Ek'k. subst k'.
        pose proof (cell_cmp_antisym k k) as A. rewrite E in A. cbn in A.
        congruence.
      * now apply IH.
Qed.

Lemma count_in_app (k : cell) (l : list cell) (x : cell) :
  spec_count_in k (l ++ [x]) =
  spec_count_in k l + (if cell_eqb k x then 1 else 0).
Proof.
  unfold spec_count_in. rewrite filter_app, length_app. cbn.
  destruct (cell_eqb k x); cbn; lia.
Qed.

(** What the loop of [groupby_size] keeps, [seen] being the keys so far. *)
Lemma groupby_fold (r : Z) (keys seen : list cell) (bins : list (cell * Z)) :
  r = 1 \/ r = 2 \/ r = 3 ->
  Forall (fun c => is_nan c = true \/ cell_rank c = r) keys ->
  Forall (fun b => cell_rank (fst b) = r) bins ->
  StronglySorted cell_lt (map fst bins) ->
  (forall x, In x (map fst bins) <-> In x seen /\ is_nan x = false) ->
  (forall x, bin_count x bins = if is_nan x then 0 else spec_count_in x seen) ->
  let out := fold_left (fun bins k => if is_nan k then bins else bump k bins)
                       keys bins in
  Forall (fun b => cell_rank (fst b) = r) out /\
  StronglySorted cell_lt (map fst out) /\
  (forall x, In x (map fst out) <->
             In x (seen ++ keys) /\ is_nan x = false) /\
  (forall x, bin_count x out =
             if is_nan x then 0 else spec_count_in x (seen ++ keys)).
Proof.
  intros Hr. revert seen bins.
  induction keys as [|k keys IH]; intros seen bins K F S I C.
  - cbn. rewrite app_nil_r. auto.
  - apply Forall_cons_iff in K as [Kk K']. cbn [fold_left].
    replace (seen ++ k :: keys) with ((seen ++ [k]) ++ keys)
      by (rewrite <- app_assoc; reflexivity).
    destruct (is_nan k) eqn:N.
    + apply IH; auto.
      * intros x. rewrite I, in_app_iff. cbn. split; [tauto|].
        intros [[H|[H|[]]] Hx]; [tauto|]. subst. congruence.
      * intros x. rewrite C, count_in_app. destruct (is_nan x) eqn:Nx; auto.
        destruct (cell_eqb x k) eqn:E; [|lia].
        apply cell_eqb_eq in E. subst. congruence.
    + destruct Kk as [Kk|Kk]; [congruence|].
      apply IH; auto.
      * now apply bump_rank.
      * now apply (bump_sorted k bins r).
      * intros x. rewrite (bump_keys k bins r Hr Kk F), I, in_app_iff. cbn.
        split.
        -- intros [->|[H1 H2]]; auto.
        -- intros [[H|[H|[]]] Hx]; auto.
      * intros x. rewrite (bump_count k x bins r Hr Kk F S), C, count_in_app.
        destruct (is_nan x) eqn:Nx; [|reflexivity].
        destruct (cell_eqb x k) eqn:E; [|reflexivity].
        apply cell_eqb_eq in E. subst. congruence.
Qed.

Lemma groupby_size_spec (r : Z) (keys : list cell) :
  key_kind r keys ->
  Forall (fun b => cell_rank (fst b) = r) (groupby_size keys) /\
  StronglySorted cell_lt (map fst (groupby_size keys)) /\
  (forall x, In x (map fst (groupby_size keys)) <->
             In x keys /\ is_nan x = false) /\
  (forall x, bin_count x (groupby_size keys) =
             if is_nan x then 0 else spec_count_in x keys).
Proof.
  intros [Hr K].
  apply (groupby_fold r keys [] [] Hr K).
  - constructor.
  - constructor.
  - cbn. tauto.
  - intros x. cbn. destruct (is_nan x); reflexivity.
Qed.

Lemma bin_count_in (k : cell) (c : Z) (bins : list (cell * Z)) :
  StronglySorted cell_lt (map fst bins) ->
  In (k, c) bins -> bin_count k bins = c.
Proof.
  induction bins as [|[k' c'] bins IH]; intros S H; [destruct H|].
  cbn [map fst] in S. apply StronglySorted_inv in S as [S' L].
  rewrite bin_count_cons. destruct H as [E|H].
  - inversion E; subst. now rewrite cell_eqb_refl.
  - destruct (cell_eqb k k') eqn:E; [|now apply IH].
    apply cell_eqb_eq in E. subst k'.
    exfalso. apply (sorted_lt_not_in _ _ L).
    apply in_map_iff. exists (k, c). auto.
Qed.

(** ** The rows of [calculate_enrichment] *)

Lemma length_column_values (df : DataFrame) (col : label) (keys : list cell) :
  column_values df col = Ok keys -> Z.of_nat (length keys) = len df.
Proof.
  unfold column_values, len.
  destruct (position col (columns df)); [|discriminate].
  intros H. injection H as <-. now rewrite length_map.
Qed.

Lemma assign_aligned_fst {A : Type} (rows : list A) (ps : list Q) :
  map fst (assign_aligned rows ps) = rows.
Proof.
  revert ps. induction rows as [|r rows IH]; intros ps; [reflexivity|].
  destruct ps; cbn; f_equal; apply IH.
Qed.

Lemma enrichment_bins (selected total : DataFrame) (col : label)
  (sel_keys : list cell) (rows : list EnrichmentBin) :
  column_values selected col = Ok sel_keys ->
  calculate_enrichment selected total col = Ok rows ->
  map (fun r => (category r, COUNT r)) rows = groupby_size sel_keys.
Proof.
  intros Hs H.
  destruct (calculate_enrichment_Ok _ _ _ _ H)
    as (sk & tk & ps & _ & Hs' & _ & _ & F).
  rewrite Hs in Hs'. injection Hs' as <-.
  rewrite <- (assign_aligned_fst (groupby_size sel_keys) ps).
  clear H. induction F as [|x r l m Hxr F IH]; [reflexivity|].
  cbn [map]. f_equal; [|exact IH].
  destruct Hxr as (-> & -> & _). now destruct (fst x).
Qed.

Lemma bump_sum (k : cell) (bins : list (cell * Z)) :
  fold_right Z.add 0 (map snd (bump k bins)) =
  fold_right Z.add 0 (map snd bins) + 1.
Proof.
  induction bins as [|[k' c] bins IH]; [reflexivity|].
  cbn [bump]. destruct (cell_cmp k k'); cbn [map snd fold_right]; lia.
Qed.

Lemma groupby_fold_sum (keys : list cell) (bins : list (cell * Z)) :
  fold_right Z.add 0
    (map snd (fold_left (fun bins k => if is_nan k then bins else bump k bins)
                        keys bins)) =
  fold_right Z.add 0 (map snd bins) + Z.of_nat (length (keyed keys)).
Proof.
  revert bins. induction keys as [|k keys IH]; intros bins.
  - cbn. lia.
  - cbn [fold_left]. rewrite IH. unfold keyed. cbn [filter].
    destruct (is_nan k); cbn [negb length]; [lia|].
    rewrite bump_sum. lia.
Qed.

Lemma groupby_size_sum (keys : list cell) :
  fold_right Z.add 0 (map snd (groupby_size keys)) =
  Z.of_nat (length (keyed keys)).
Proof. unfold groupby_size. now rewrite groupby_fold_sum. Qed.

Lemma keyed_length (keys : list cell) :
  (length (keyed keys) <= length keys)%nat.
Proof. apply filter_length_le. Qed.

Lemma member_le_sum (l : list Z) (x : Z) :
  Forall (fun y => 0 <= y) l -> In x l -> x <= fold_right Z.add 0 l.
Proof.
  induction 1 as [|y l Hy F IH]; intros H; [destruct H|].
  assert (0 <= fold_right Z.add 0 l).
  { clear -F. induction F; cbn; lia. }
  cbn. destruct H as [->|H]; [lia|]. specialize (IH H). lia.
Qed.

Lemma groupby_size_bounds (keys : list cell) (k : cell) (c : Z) :
  In (k, c) (groupby_size keys) -> 1 <= c <= Z.of_nat (length keys).
Proof.
  intros H. split.
  - pose proof (groupby_size_pos keys) as G. rewrite Forall_forall in G.
    exact (G _ H).
  - pose proof (keyed_length keys).
    pose proof (groupby_size_sum keys) as S.
    assert (c <= fold_right Z.add 0 (map snd (groupby_size keys))).
    { apply member_le_sum.
      - apply Forall_map. eapply Forall_impl; [|apply groupby_size_pos].
        cbn. intros; lia.
      - apply in_map_iff. exists (k, c). auto. }
    lia.
Qed.

(** X5.  When [calculate_enrichment] returns, its rows are the groups of
    [selected]: the categories are in strictly ascending order (hence
    distinct), they are the values of the column of [selected] that are not
    missing, and [COUNT] is the number of rows of [selected] with the
    category.  The keys are of one kind. *)
Theorem enrichment_rows_are_selected_groups (selected total : DataFrame)
  (col : label) (sel_keys : list cell) (rows : list EnrichmentBin) :
  column_values selected col = Ok sel_keys ->
  uniform_keys sel_keys ->
  calculate_enrichment selected total col = Ok rows ->
  StronglySorted cell_lt (map category rows) /\
  (forall k, In k (map category rows) <->
             In k sel_keys /\ is_nan k = false) /\
  (forall r, In r rows -> COUNT r = spec_count_in (category r) sel_keys).
Proof.
  intros Hs [r0 U] H.
  pose proof (enrichment_bins _ _ _ _ _ Hs H) as B.
  destruct (groupby_size_spec r0 sel_keys U) as (_ & S & I & Cn).
  assert (Ec : map category rows = map fst (groupby_size sel_keys)).
  { rewrite <- B, map_map. reflexivity. }
  rewrite Ec. split; [exact S|]. split; [exact I|].
  intros r Hr.
  assert (Hin : In (category r, COUNT r) (groupby_size sel_keys)).
  { rewrite <- B. apply in_map_iff. exists r. auto. }
  pose proof (bin_count_in _ _ _ S Hin) as E. rewrite Cn in E.
  assert (N : is_nan (category r) = false).
  { apply (I (category r)). apply in_map_iff.
    exists (category r, COUNT r). auto. }
  rewrite N in E. auto.
Qed.

Lemma example_enrichment_AB :
  exists rows,
    calculate_enrichment table_AB table_AAB (LStr "PSS") = Ok rows.
Proof.
  assert (Hp : mapM (fun x => fl_div (inject_Z x) (inject_Z (len table_AAB)))
                    (map snd (groupby_size [VStr "A"; VStr "A"; VStr "B"]))
               = Ok [2 # 3; 1 # 3]%Q) by reflexivity.
  assert (F : exists rows,
             Forall2 (bin_of (len table_AB))
               (assign_aligned (groupby_size [VStr "A"; VStr "B"])
                               [2 # 3; 1 # 3]%Q) rows).
  { apply Forall2_exists. intros x Hx.
    assert (Hc : exists k c q, x = ((k, c), Fin q) /\
                 Qle_bool q 0 || Qle_bool 1 q = false).
    { vm_compute in Hx. destruct Hx as [<-|[<-|[]]]; eauto 6. }
    destruct Hc as (k & c & q & -> & Hq).
    destruct (score_returns (inject_Z c) (inject_Z (len table_AB)) q Hq)
      as [v Hv].
    destruct (score_returns (inject_Z (len table_AB) * q)
                            (inject_Z (len table_AB)) q Hq) as [w Hw].
    exists (mkBin k c (Fin q) (fl_mul (of_int (len table_AB)) (Fin q))
                  (LV v) (LV w)
                  (np_log2_ratio (of_int c)
                     (fl_mul (of_int (len table_AB)) (Fin q)))).
    unfold bin_of. cbn [category COUNT P COUNT_EXP SCORE SCORE_EXP FOLD_CHNG
                        fst snd]. repeat split; assumption. }
  destruct F as [rows F]. exists rows.
  apply (calculate_enrichment_rows table_AB table_AAB (LStr "PSS")
           [VStr "A"; VStr "B"] [VStr "A"; VStr "A"; VStr "B"]
           [2 # 3; 1 # 3]%Q rows); try reflexivity; [|exact F].
  unfold len. cbn. lia.
Qed.

Lemma uniform_strings_AB : uniform_keys [VStr "A"; VStr "B"].
Proof.
  exists 3. split; [auto|]. repeat constructor; right; reflexivity.
Qed.

Lemma uniform_strings_AAB : uniform_keys [VStr "A"; VStr "A"; VStr "B"].
Proof.
  exists 3. split; [auto|]. repeat constructor; right; reflexivity.
Qed.

Lemma enrichment_rows_are_selected_groups_witness :
  exists rows,
    (column_values table_AB (LStr "PSS") = Ok [VStr "A"; VStr "B"] /\
     uniform_keys [VStr "A"; VStr "B"] /\
     calculate_enrichment table_AB table_AAB (LStr "PSS") = Ok rows) /\
    StronglySorted cell_lt (map category rows) /\
    (forall k, In k (map category rows) <->
               In k [VStr "A"; VStr "B"] /\ is_nan k = false) /\
    (forall r, In r rows ->
               COUNT r = spec_count_in (category r) [VStr "A"; VStr "B"]).
Proof.
  destruct example_enrichment_AB as [rows H]. exists rows.
  split; [split; [reflexivity|split; [exact uniform_strings_AB|exact H]]|].
  apply (enrichment_rows_are_selected_groups table_AB table_AAB (LStr "PSS")
           [VStr "A"; VStr "B"] rows);
    [reflexivity|exact uniform_strings_AB|exact H].
Defined.

(** X6.  The [COUNT] column of a returned table adds up to the number of
    rows of [selected] whose category is not missing, so rows with a missing
    category are left out without notice; every [COUNT] is between 1 and
    [len(selected)]. *)
Theorem enrichment_counts_add_up (selected total : DataFrame) (col : label)
  (sel_keys : list cell) (rows : list EnrichmentBin) :
  column_values selected col = Ok sel_keys ->
  uniform_keys sel_keys ->
  calculate_enrichment selected total col = Ok rows ->
  total_count rows = Z.of_nat (length (keyed sel_keys)) /\
  total_count rows <= len selected /\
  (forall r, In r rows -> 1 <= COUNT r <= len selected).
Proof.
  intros Hs _ H.
  pose proof (enrichment_bins _ _ _ _ _ Hs H) as B.
  pose proof (length_column_values _ _ _ Hs) as L.
  assert (E : total_count rows = Z.of_nat (length (keyed sel_keys))).
  { unfold total_count. rewrite <- groupby_size_sum, <- B, map_map.
    reflexivity. }
  split; [exact E|]. split.
  - rewrite E, <- L. pose proof (keyed_length sel_keys). lia.
  - intros r Hr. rewrite <- L.
    apply (groupby_size_bounds sel_keys (category r)).
    rewrite <- B. apply in_map_iff. exists r. auto.
Qed.

Lemma enrichment_counts_add_up_witness :
  exists rows,
    (column_values table_AB (LStr "PSS") = Ok [VStr "A"; VStr "B"] /\
     uniform_keys [VStr "A"; VStr "B"] /\
     calculate_enrichment table_AB table_AAB (LStr "PSS") = Ok rows) /\
    total_count rows = Z.of_nat (length (keyed [VStr "A"; VStr "B"])) /\
    total_count rows <= len table_AB /\
    (forall r, In r rows -> 1 <= COUNT r <= len table_AB).
Proof.
  destruct example_enrichment_AB as [rows H]. exists rows.
  split; [split; [reflexivity|split; [exact uniform_strings_AB|exact H]]|].
  apply (enrichment_counts_add_up table_AB table_AAB (LStr "PSS")
           [VStr "A"; VStr "B"] rows);
    [reflexivity|exact uniform_strings_AB|exact H].
Defined.

(** ** The probability column *)

Lemma aligned_by_key (A B : list (cell * Z)) (g : Z -> Q)
  (x : (cell * Z) * pyfloat) :
  map fst A = map fst B ->
  In x (assign_aligned A (map g (map snd B))) ->
  exists c', In (fst (fst x), c') B /\ snd x = Fin (g c') /\ In (fst x) A.
Proof.
  revert B. induction A as [|[k c] A IH]; intros [|[k' c'] B] E H;
    cbn in *; try contradiction; try discriminate.
  injection E as <- E. destruct H as [<-|H].
  - exists c'. cbn. auto.
  - destruct (IH B E H) as (c'' & H1 & H2 & H3). exists c''. auto.
Qed.

(** X7.  When [selected] and [total] hold the same categories, the
    assignment by position of line 128 meets the right group: [P] of every
    row is the share of its category in [total], and [COUNT_EXP] is
    [len(selected)] times that share. *)
Theorem enrichment_probability_of_shared_categories
  (selected total : DataFrame) (col : label) (sel_keys tot_keys : list cell)
  (rows : list EnrichmentBin) :
  column_values selected col = Ok sel_keys ->
  column_values total col = Ok tot_keys ->
  uniform_keys sel_keys -> uniform_keys tot_keys ->
  (forall k, is_nan k = false -> (In k sel_keys <-> In k tot_keys)) ->
  calculate_enrichment selected total col = Ok rows ->
  forall r, In r rows ->
    P r = Fin (spec_background_probability (category r) tot_keys) /\
    COUNT_EXP r =
    Fin (inject_Z (len selected)
         * spec_background_probability (category r) tot_keys).
Proof.
  intros Hs Ht [rs Us] [rt Ut] Same H r Hr.
  destruct (calculate_enrichment_Ok _ _ _ _ H)
    as (sk & tk & ps & Hlen & Hs' & Ht' & Hp & F).
  rewrite Hs in Hs'. injection Hs' as <-.
  rewrite Ht in Ht'. injection Ht' as <-.
  rewrite p_series_ok in Hp by lia. injection Hp as <-.
  destruct (groupby_size_spec rs sel_keys Us) as (_ & Ss & Is & _).
  destruct (groupby_size_spec rt tot_keys Ut) as (_ & St & It & Ct).
  assert (E : map fst (groupby_size sel_keys)
              = map fst (groupby_size tot_keys)).
  { apply sorted_unique; [exact Ss|exact St|].
    intros x. rewrite Is, It. split; intros [H1 H2]; split; auto;
      now apply (Same x H2). }
  destruct (Forall2_In_r _ _ _ _ F Hr) as [x [Hx B]].
  destruct (aligned_by_key _ _ _ _ E Hx) as (c' & Hc' & Hpx & Hin).
  destruct B as (Hcat & _ & HP & HCE & _).
  assert (Ep : P r = Fin (spec_background_probability (category r) tot_keys)).
  { rewrite HP, Hpx. f_equal. unfold spec_background_probability.
    rewrite (length_column_values _ _ _ Ht).
    pose proof (bin_count_in _ _ _ St Hc') as Ec. rewrite Ct in Ec.
    assert (N : is_nan (fst (fst x)) = false).
    { apply (It (fst (fst x))). apply in_map_iff.
      exists (fst (fst x), c'). auto. }
    rewrite N in Ec. rewrite Hcat, Ec. reflexivity. }
  split; [exact Ep|]. rewrite HCE, <- HP, Ep. reflexivity.
Qed.

Lemma enrichment_probability_of_shared_categories_witness :
  exists rows,
    (column_values table_AB (LStr "PSS") = Ok [VStr "A"; VStr "B"] /\
     column_values table_AAB (LStr "PSS")
     = Ok [VStr "A"; VStr "A"; VStr "B"] /\
     uniform_keys [VStr "A"; VStr "B"] /\
     uniform_keys [VStr "A"; VStr "A"; VStr "B"] /\
     (forall k, is_nan k = false ->
                (In k [VStr "A"; VStr "B"] <->
                 In k [VStr "A"; VStr "A"; VStr "B"])) /\
     calculate_enrichment table_AB table_AAB (LStr "PSS") = Ok rows) /\
    forall r, In r rows ->
      P r = Fin (spec_background_probability (category r)
                   [VStr "A"; VStr "A"; VStr "B"]) /\
      COUNT_EXP r =
      Fin (inject_Z (len table_AB)
           * spec_background_probability (category r)
               [VStr "A"; VStr "A"; VStr "B"]).
Proof.
  destruct example_enrichment_AB as [rows H]. exists rows.
  assert (S : forall k, is_nan k = false ->
                (In k [VStr "A"; VStr "B"] <->
                 In k [VStr "A"; VStr "A"; VStr "B"])).
  { intros k _. cbn. tauto. }
  split.
  - split; [reflexivity|]. split; [reflexivity|].
    split; [exact uniform_strings_AB|].
    split; [exact uniform_strings_AAB|]. split; [exact S|exact H].
  - apply (enrichment_probability_of_shared_categories table_AB table_AAB
             (LStr "PSS") [VStr "A"; VStr "B"]
             [VStr "A"; VStr "A"; VStr "B"] rows);
      [reflexivity|reflexivity|exact uniform_strings_AB
      |exact uniform_strings_AAB|exact S|exact H].
Defined.

(** ** When [calculate_enrichment] returns *)

Lemma score_nan_hits (trials : Q) (p : pyfloat) :
  _score NaN (Fin trials) p = Raise nan_to_int_error.
Proof. reflexivity. Qed.

Lemma score_nan_p (c n : Z) :
  exists v, _score (of_int c) (of_int n) NaN = Ok v.
Proof.
  destruct (log_binomial_coeff_total n c) as [w Hw].
  rewrite (score_unfold _ _ _ _ Hw). cbn. eauto.
Qed.

(** A row gets all its columns exactly when its probability is a number
    strictly between 0 and 1. *)
Lemma bin_of_exists (n : Z) (k : cell) (c : Z) (p : pyfloat) :
  (exists r, bin_of n ((k, c), p) r) <->
  exists q, p = Fin q /\ Qle_bool q 0 || Qle_bool 1 q = false.
Proof.
  split.
  - intros [r (_ & _ & _ & HCE & Hs & Hse & _)]. cbn [fst snd] in *.
    destruct p as [q|].
    + exists q. split; [reflexivity|].
      destruct (Qle_bool q 0 || Qle_bool 1 q) eqn:E; [|reflexivity].
      unfold of_int in Hs. rewrite (score_raises _ _ _ E) in Hs. discriminate.
    + rewrite HCE in Hse. cbn in Hse. discriminate.
  - intros (q & -> & Hq).
    destruct (score_returns (inject_Z c) (inject_Z n) q Hq) as [v Hv].
    destruct (score_returns (inject_Z n * q) (inject_Z n) q Hq) as [w Hw].
    exists (mkBin k c (Fin q) (fl_mul (of_int n) (Fin q)) (LV v) (LV w)
                  (np_log2_ratio (of_int c) (fl_mul (of_int n) (Fin q)))).
    unfold bin_of. cbn [category COUNT P COUNT_EXP SCORE SCORE_EXP FOLD_CHNG
                        fst snd]. repeat split; assumption.
Qed.

Lemma Forall2_In_l {A B : Type} (R : A -> B -> Prop) (l : list A)
  (m : list B) (x : A) :
  Forall2 R l m -> In x l -> exists y, In y m /\ R x y.
Proof.
  induction 1 as [|a b l m Hab H IH]; intros Hx; [contradiction|].
  destruct Hx as [<-|Hx].
  - exists b. split; [now left|assumption].
  - destruct (IH Hx) as [y [Hy Hr]]. exists y. split; [now right|assumption].
Qed.

Lemma aligned_all_fin {A : Type} (Pq : Q -> Prop) (rows : list A)
  (ps : list Q) :
  (forall x, In x (assign_aligned rows ps) ->
             exists q, snd x = Fin q /\ Pq q) <->
  (length rows <= length ps)%nat /\ Forall Pq (firstn (length rows) ps).
Proof.
  revert ps. induction rows as [|r rows IH]; intros ps.
  - cbn. split; [intros _; split; [lia|constructor]|intros _ x []].
  - destruct ps as [|p ps]; cbn [assign_aligned length firstn].
    + split.
      * intros H. destruct (H (r, NaN) (or_introl eq_refl)) as [q [E _]].
        discriminate.
      * intros [H _]. lia.
    + split.
      * intros H. assert (H' := proj1 (IH ps) (fun x Hx => H x (or_intror Hx))).
        destruct (H (r, Fin p) (or_introl eq_refl)) as [q [E Hq]].
        injection E as <-. destruct H' as [H1 H2].
        split; [lia|constructor; assumption].
      * intros [H1 H2] x [<-|Hx].
        -- exists p. split; [reflexivity|]. now inversion H2.
        -- apply (proj2 (IH ps)); [|exact Hx].
           split; [lia|now inversion H2].
Qed.

Lemma ratio_in_unit (c n : Z) :
  1 <= c -> 1 <= n ->
  (Qle_bool (inject_Z c / inject_Z n) 0
   || Qle_bool 1 (inject_Z c / inject_Z n) = false <-> c < n).
Proof.
  intros Hc Hn. split.
  - intros H. apply orb_false_elim in H as [_ H].
    destruct (Z_lt_le_dec c n) as [L|L]; [exact L|].
    exfalso. apply Bool.not_true_iff_false in H. apply H.
    apply Qle_bool_iff. unfold Qle, Qdiv, Qmult, Qinv, inject_Z.
    destruct n as [|n|n]; try lia. cbn -[Z.mul]. lia.
  - intros H. apply ratio_bounds. lia.
Qed.

Lemma enrichment_returns (selected total : DataFrame) (col : label)
  (sel_keys tot_keys : list cell) :
  0 < len selected <= len total ->
  column_values selected col = Ok sel_keys ->
  column_values total col = Ok tot_keys ->
  ((exists rows, calculate_enrichment selected total col = Ok rows) <->
   (length (groupby_size sel_keys) <= length (groupby_size tot_keys))%nat /\
   Forall (fun b => snd b < len total)
          (firstn (length (groupby_size sel_keys)) (groupby_size tot_keys))).
Proof.
  intros Hlen Hs Ht.
  assert (Hn : len total <> 0) by lia.
  pose proof (p_series_ok (len total) (map snd (groupby_size tot_keys)) Hn)
    as Hp.
  set (ps := map (fun x => inject_Z x / inject_Z (len total))%Q
                 (map snd (groupby_size tot_keys))) in *.
  set (wp := assign_aligned (groupby_size sel_keys) ps).
  assert (R : (exists rows, calculate_enrichment selected total col = Ok rows)
              <-> forall x, In x wp ->
                    exists q, snd x = Fin q /\
                              Qle_bool q 0 || Qle_bool 1 q = false).
  { split.
    - intros [rows H] [[k c] p] Hx.
      apply (calculate_enrichment_rows _ _ _ _ _ _ _ Hlen Hs Ht Hp) in H.
      destruct (Forall2_In_l _ _ _ _ H Hx) as [r [_ B]].
      apply (proj1 (bin_of_exists (len selected) k c p)). eauto.
    - intros H.
      assert (F : exists rows, Forall2 (bin_of (len selected)) wp rows).
      { apply Forall2_exists. intros [[k c] p] Hx.
        apply (proj2 (bin_of_exists (len selected) k c p)).
        exact (H _ Hx). }
      destruct F as [rows F]. exists rows.
      now apply (calculate_enrichment_rows _ _ _ _ _ _ _ Hlen Hs Ht Hp). }
  rewrite R. unfold wp. rewrite aligned_all_fin.
  unfold ps. rewrite !length_map.
  apply and_iff_compat_l.
  rewrite !firstn_map, !Forall_map.
  pose proof (groupby_size_pos tot_keys) as G.
  assert (G' : Forall (fun b => 1 <= snd b)
                 (firstn (length (groupby_size sel_keys))
                         (groupby_size tot_keys))).
  { apply Forall_forall. intros b Hb. rewrite Forall_forall in G.
    apply G. rewrite <- (firstn_skipn (length (groupby_size sel_keys))
                                     (groupby_size tot_keys)).
    apply in_or_app. now left. }
  revert G'. generalize (firstn (length (groupby_size sel_keys))
                                (groupby_size tot_keys)).
  intros l G'. induction G' as [|b l Hb G' IH].
  - split; constructor.
  - split; intros H; inversion H; subst; constructor; try tauto;
      apply (ratio_in_unit (snd b) (len total)); auto; lia.
Qed.

(** X8.  Past its checks of the sizes, and with the column in both tables,
    [calculate_enrichment] returns a table exactly when [selected] has at
    most as many groups as [total] and none of the groups of [total] whose
    probability is used fills all of [total]; otherwise a score raises
    [ValueError]. *)
Theorem enrichment_returns_iff (selected total : DataFrame) (col : label)
  (sel_keys tot_keys : list cell) :
  0 < len selected <= len total ->
  column_values selected col = Ok sel_keys ->
  column_values total col = Ok tot_keys ->
  uniform_keys sel_keys -> uniform_keys tot_keys ->
  keyed sel_keys <> [] ->
  ((exists rows, calculate_enrichment selected total col = Ok rows) <->
   (length (groupby_size sel_keys) <= length (groupby_size tot_keys))%nat /\
   Forall (fun b => snd b < len total)
          (firstn (length (groupby_size sel_keys)) (groupby_size tot_keys))).
Proof.
  intros Hlen Hs Ht _ _ _. now apply enrichment_returns.
Qed.

Lemma enrichment_returns_iff_witness :
  (0 < len table_AB <= len table_AAB /\
   column_values table_AB (LStr "PSS") = Ok [VStr "A"; VStr "B"] /\
   column_values table_AAB (LStr "PSS")
   = Ok [VStr "A"; VStr "A"; VStr "B"] /\
   uniform_keys [VStr "A"; VStr "B"] /\
   uniform_keys [VStr "A"; VStr "A"; VStr "B"] /\
   keyed [VStr "A"; VStr "B"] <> []) /\
  ((exists rows,
       calculate_enrichment table_AB table_AAB (LStr "PSS") = Ok rows) <->
   (length (groupby_size [VStr "A"; VStr "B"])
    <= length (groupby_size [VStr "A"; VStr "A"; VStr "B"]))%nat /\
   Forall (fun b => snd b < len table_AAB)
          (firstn (length (groupby_size [VStr "A"; VStr "B"]))
                  (groupby_size [VStr "A"; VStr "A"; VStr "B"]))).
Proof.
  assert (L : 0 < len table_AB <= len table_AAB) by (unfold len; cbn; lia).
  assert (K : keyed [VStr "A"; VStr "B"] <> []) by discriminate.
  split.
  - split; [exact L|]. split; [reflexivity|]. split; [reflexivity|].
    split; [exact uniform_strings_AB|].
    split; [exact uniform_strings_AAB|exact K].
  - apply (enrichment_returns_iff table_AB table_AAB (LStr "PSS")
             [VStr "A"; VStr "B"] [VStr "A"; VStr "A"; VStr "B"]);
      [exact L|reflexivity|reflexivity|exact uniform_strings_AB
      |exact uniform_strings_AAB|exact K].
Defined.

(** ** The score and fold-change columns *)

Lemma trunc_product_bounds (n : Z) (q : Q) :
  1 <= n -> (0 < q)%Q -> (q < 1)%Q ->
  0 <= trunc (inject_Z n * q) <= n.
Proof.
  intros Hn H0 H1.
  assert (P0 : (0 <= inject_Z n * q)%Q).
  { apply Qmult_le_0_compat; [|now apply Qlt_le_weak].
    unfold Qle, inject_Z. cbn. lia. }
  assert (P1 : (inject_Z n * q <= inject_Z n)%Q).
  { destruct q as [a b]. unfold Qle, Qlt, Qmult, inject_Z in *.
    cbn -[Z.mul] in *. rewrite Z.mul_1_r.
    apply Z.mul_le_mono_nonneg_l; lia. }
  unfold trunc. apply Qle_bool_iff in P0 as B. rewrite B.
  split.
  - change 0 with (Qfloor 0). now apply Qfloor_resp_le.
  - apply Z.le_trans with (Qfloor (inject_Z n)).
    + now apply Qfloor_resp_le.
    + rewrite Qfloor_Z. lia.
Qed.

Lemma unit_interval (q : Q) :
  Qle_bool q 0 || Qle_bool 1 q = false -> (0 < q)%Q /\ (q < 1)%Q.
Proof.
  intros H. apply orb_false_elim in H as [H0 H1]. split.
  - apply Qnot_le_lt. intros L. apply Qle_bool_iff in L. congruence.
  - apply Qnot_le_lt. intros L. apply Qle_bool_iff in L. congruence.
Qed.

(** What every row of a returned table is made of. *)
Lemma enrichment_row (selected total : DataFrame) (col : label)
  (rows : list EnrichmentBin) (r : EnrichmentBin) :
  calculate_enrichment selected total col = Ok rows -> In r rows ->
  exists q,
    (0 < q)%Q /\ (q < 1)%Q /\ 1 <= COUNT r <= len selected /\
    P r = Fin q /\
    COUNT_EXP r = Fin (inject_Z (len selected) * q) /\
    _score (of_int (COUNT r)) (of_int (len selected)) (Fin q)
    = Ok (SCORE r) /\
    _score (Fin (inject_Z (len selected) * q)) (of_int (len selected)) (Fin q)
    = Ok (SCORE_EXP r) /\
    FOLD_CHNG r =
    np_log2_ratio (of_int (COUNT r)) (Fin (inject_Z (len selected) * q)).
Proof.
  intros H Hr.
  destruct (calculate_enrichment_Ok _ _ _ _ H)
    as (sk & tk & ps & Hlen & Hs & _ & _ & F).
  destruct (Forall2_In_r _ _ _ _ F Hr) as [[[k c] p] [Hx B]].
  destruct (proj1 (bin_of_exists (len selected) k c p)
                  (ex_intro _ r B)) as (q & -> & Hq).
  destruct (unit_interval q Hq) as [H0 H1].
  destruct B as (Hcat & Hc & HP & HCE & Hsc & Hse & Hf). cbn [fst snd] in *.
  exists q. rewrite Hc, HP. rewrite HCE in *. cbn [fl_mul of_int] in *.
  repeat split; auto.
  - apply (groupby_size_bounds sk k c).
    rewrite <- (assign_aligned_fst (groupby_size sk) ps).
    apply in_map_iff. exists ((k, c), Fin q). auto.
  - rewrite <- (length_column_values _ _ _ Hs).
    apply (groupby_size_bounds sk k c).
    rewrite <- (assign_aligned_fst (groupby_size sk) ps).
    apply in_map_iff. exists ((k, c), Fin q). auto.
Qed.

(** X9.  In every row of a returned table [SCORE] and [SCORE_EXP] are finite
    numbers that are not positive. *)
Theorem enrichment_scores_not_positive (selected total : DataFrame)
  (col : label) (rows : list EnrichmentBin) (r : EnrichmentBin) :
  calculate_enrichment selected total col = Ok rows -> In r rows ->
  exists v w, SCORE r = LV v /\ SCORE_EXP r = LV w /\
              (v <= 0)%R /\ (w <= 0)%R.
Proof.
  intros H Hr.
  destruct (enrichment_row _ _ _ _ _ H Hr)
    as (q & H0 & H1 & Hc & _ & _ & Hs & Hse & _).
  assert (Hn : 1 <= len selected) by lia.
  unfold of_int in *.
  assert (B1 : 0 <= trunc (inject_Z (COUNT r))
               <= trunc (inject_Z (len selected))).
  { rewrite !trunc_inject_Z. lia. }
  assert (B2 : 0 <= trunc (inject_Z (len selected) * q)
               <= trunc (inject_Z (len selected))).
  { rewrite trunc_inject_Z. now apply trunc_product_bounds. }
  destruct (score_value _ _ q B1 H0 H1) as [Ev Hv].
  destruct (score_value _ _ q B2 H0 H1) as [Ew Hw].
  rewrite Ev in Hs. rewrite Ew in Hse.
  injection Hs as <-. injection Hse as <-.
  do 2 eexists. split; [reflexivity|]. split; [reflexivity|].
  split; assumption.
Qed.

Lemma enrichment_scores_not_positive_witness :
  exists rows r,
    (calculate_enrichment table_AB table_AAB (LStr "PSS") = Ok (r :: rows) /\
     In r (r :: rows)) /\
    exists v w, SCORE r = LV v /\ SCORE_EXP r = LV w /\
                (v <= 0)%R /\ (w <= 0)%R.
Proof.
  destruct example_enrichment_AB as [rows H].
  destruct rows as [|r rows].
  - exfalso. pose proof (enrichment_bins table_AB table_AAB (LStr "PSS")
                           [VStr "A"; VStr "B"] [] eq_refl H) as B.
    discriminate.
  - exists rows, r. split; [split; [exact H|now left]|].
    apply (enrichment_scores_not_positive table_AB table_AAB (LStr "PSS")
             (r :: rows) r); [exact H|now left].
Defined.

Lemma ln_sign (x : R) :
  (0 < x)%R ->
  ((0 < ln x / ln 2 <-> 1 < x) /\ (ln x / ln 2 < 0 <-> x < 1))%R.
Proof.
  intros Hx.
  assert (L2 : (0 < ln 2)%R).
  { rewrite <- ln_1. apply ln_increasing; lra. }
  assert (I2 : (0 < / ln 2)%R) by now apply Rinv_0_lt_compat.
  unfold Rdiv. split; split; intros H.
  - assert (0 < ln x)%R.
    { destruct (Rlt_le_dec 0 (ln x)) as [G|G]; [exact G|].
      exfalso. assert (ln x * / ln 2 <= 0)%R; [|lra].
      replace 0%R with (0 * / ln 2)%R by lra.
      apply Rmult_le_compat_r; lra. }
    apply ln_lt_inv; [lra|exact Hx|]. now rewrite ln_1.
  - apply Rmult_lt_0_compat; [|exact I2].
    rewrite <- ln_1. apply ln_increasing; lra.
  - assert (ln x < 0)%R.
    { destruct (Rlt_le_dec (ln x) 0) as [G|G]; [exact G|].
      exfalso. assert (0 <= ln x * / ln 2)%R; [|lra].
      apply Rmult_le_pos; lra. }
    apply ln_lt_inv; [exact Hx|lra|]. now rewrite ln_1.
  - assert (ln x < 0)%R.
    { rewrite <- ln_1. now apply ln_increasing. }
    replace 0%R with (0 * / ln 2)%R by lra.
    apply Rmult_lt_compat_r; lra.
Qed.

(** X10.  In every row of a returned table [COUNT_EXP] is a number and
    [FOLD_CHNG] is finite; it is positive exactly when [COUNT] exceeds
    [COUNT_EXP] and negative exactly when [COUNT] is below it. *)
Theorem enrichment_fold_change_sign (selected total : DataFrame)
  (col : label) (rows : list EnrichmentBin) (r : EnrichmentBin) :
  calculate_enrichment selected total col = Ok rows -> In r rows ->
  exists e v,
    COUNT_EXP r = Fin e /\ FOLD_CHNG r = LV v /\
    ((0 < v)%R <-> (e < inject_Z (COUNT r))%Q) /\
    ((v < 0)%R <-> (inject_Z (COUNT r) < e)%Q).
Proof.
  intros H Hr.
  destruct (enrichment_row _ _ _ _ _ H Hr)
    as (q & H0 & H1 & Hc & _ & HCE & _ & _ & Hf).
  set (e := (inject_Z (len selected) * q)%Q) in *.
  set (c := COUNT r) in *.
  assert (Pe : (0 < e)%Q).
  { unfold e. apply Qmult_lt_0_compat; [|exact H0].
    unfold Qlt, inject_Z. cbn. lia. }
  assert (Pc : (0 < inject_Z c)%Q) by (unfold Qlt, inject_Z; cbn; lia).
  assert (Pq : (0 < inject_Z c / e)%Q).
  { apply Qlt_shift_div_l; [exact Pe|]. now rewrite Qmult_0_l. }
  exists e, (ln (Q2R (inject_Z c / e)) / ln 2)%R.
  split; [exact HCE|]. split.
  - rewrite Hf. unfold np_log2_ratio, of_int.
    destruct (Qeq_bool e 0) eqn:E0.
    { apply Qeq_bool_iff in E0. rewrite E0 in Pe. discriminate. }
    destruct (Qeq_bool (inject_Z c / e) 0) eqn:E1.
    { apply Qeq_bool_iff in E1. rewrite E1 in Pq. discriminate. }
    apply Qlt_le_weak, Qle_bool_iff in Pq as ->. reflexivity.
  - assert (PR : (0 < Q2R (inject_Z c / e))%R).
    { replace 0%R with (Q2R 0) by (unfold Q2R; cbn; lra).
      now apply Qlt_Rlt. }
    destruct (ln_sign _ PR) as [S1 S2]. rewrite S1, S2.
    replace 1%R with (Q2R 1) by (unfold Q2R; cbn; lra).
    split; split; intros G.
    + apply Rlt_Qlt in G.
      apply (Qmult_lt_r _ _ e Pe) in G.
      rewrite Qmult_1_l in G. unfold Qdiv in G.
      rewrite <- Qmult_assoc, (Qmult_comm (/ e)), Qmult_inv_r, Qmult_1_r in G;
        [exact G|].
      intros E. rewrite E in Pe. discriminate.
    + apply Qlt_Rlt. apply Qlt_shift_div_l; [exact Pe|].
      now rewrite Qmult_1_l.
    + apply Rlt_Qlt in G.
      apply (Qmult_lt_r _ _ e Pe) in G.
      rewrite Qmult_1_l in G. unfold Qdiv in G.
      rewrite <- Qmult_assoc, (Qmult_comm (/ e)), Qmult_inv_r, Qmult_1_r in G;
        [exact G|].
      intros E. rewrite E in Pe. discriminate.
    + apply Qlt_Rlt. apply Qlt_shift_div_r; [exact Pe|].
      now rewrite Qmult_1_l.
Qed.

Lemma enrichment_fold_change_sign_witness :
  exists rows r,
    (calculate_enrichment table_AB table_AAB (LStr "PSS") = Ok (r :: rows) /\
     In r (r :: rows)) /\
    exists e v,
      COUNT_EXP r = Fin e /\ FOLD_CHNG r = LV v /\
      ((0 < v)%R <-> (e < inject_Z (COUNT r))%Q) /\
      ((v < 0)%R <-> (inject_Z (COUNT r) < e)%Q).
Proof.
  destruct example_enrichment_AB as [rows H].
  destruct rows as [|r rows].
  - exfalso. pose proof (enrichment_bins table_AB table_AAB (LStr "PSS")
                           [VStr "A"; VStr "B"] [] eq_refl H) as B.
    discriminate.
  - exists rows, r. split; [split; [exact H|now left]|].
    apply (enrichment_fold_change_sign table_AB table_AAB (LStr "PSS")
             (r :: rows) r); [exact H|now left].
Defined.

(** ** The errors of [calculate_enrichment] *)

Lemma mapM_raise {A B : Type} (f : A -> result B) (l : list A) (e : pyerror) :
  mapM f l = Raise e -> exists x, In x l /\ f x = Raise e.
Proof.
  induction l as [|x l IH]; cbn [mapM]; [discriminate|].
  destruct (f x) as [y|e'] eqn:E; cbn [rbind].
  - destruct (mapM f l) as [ys|e'']; cbn [rbind]; [discriminate|].
    intros H. injection H as ->. destruct (IH eq_refl) as [x' [Hx Hf]].
    exists x'. split; [now right|exact Hf].
  - intros H. injection H as ->. exists x. split; [now left|exact E].
Qed.

Lemma assign_apply_raise {A B : Type} (f : A -> result B) (l : list A)
  (e : pyerror) :
  assign_apply f l = Raise e -> exists x, In x l /\ f x = Raise e.
Proof.
  unfold assign_apply. intros H.
  destruct (mapM_raise _ _ _ H) as [x [Hx Hf]]. exists x. split; [exact Hx|].
  destruct (f x); cbn in Hf; [discriminate|congruence].
Qed.




(** The row at which [calculate_enrichment] stops when it has passed its
    checks of the sizes and found the column in both tables. *)
Lemma enrichment_raise_row (selected total : DataFrame) (col : label)
  (sel_keys tot_keys : list cell) (e : pyerror) :
  0 < len selected <= len total ->
  column_values selected col = Ok sel_keys ->
  column_values total col = Ok tot_keys ->
  calculate_enrichment selected total col = Raise e ->
  exists k c p,
    In ((k, c), p)
       (assign_aligned (groupby_size sel_keys)
          (map (fun x => inject_Z x / inject_Z (len total))%Q
               (map snd (groupby_size tot_keys)))) /\
    (_score (of_int c) (of_int (len selected)) p = Raise e \/
     _score (fl_mul (of_int (len selected)) p) (of_int (len selected)) p
     = Raise e).
Proof.
  intros Hlen Hs Ht. unfold calculate_enrichment.
  replace (len selected =? 0) with false by (symmetry; apply Z.eqb_neq; lia).
  replace (len total =? 0) with false by (symmetry; apply Z.eqb_neq; lia).
  replace (len total <? len selected) with false
    by (symmetry; apply Z.ltb_ge; lia).
  cbn [orb]. rewrite Hs, Ht. cbn [rbind].
  rewrite p_series_ok by lia. cbn [rbind].
  set (wp := assign_aligned _ _).
  match goal with
  | |- context [assign_apply ?f wp] =>
      destruct (assign_apply f wp) as [we|e1] eqn:A1
  end; cbn [rbind].
  2:{ destruct (assign_apply_raise _ _ _ A1) as [x [_ Hx]]. discriminate. }
  apply assign_apply_Forall2 in A1.
  match goal with
  | |- context [assign_apply ?f we] =>
      destruct (assign_apply f we) as [ws|e2] eqn:A2
  end; cbn [rbind].
  2:{ intros H. injection H as <-.
      destruct (assign_apply_raise _ _ _ A2) as [[[[k c] p] ce] [Hin Hx]].
      destruct (Forall2_In_r _ _ _ _ A1 Hin) as [a [Ha [Ea _]]].
      cbn [fst snd] in *. subst a. exists k, c, p. auto. }
  apply assign_apply_Forall2 in A2.
  match goal with
  | |- context [assign_apply ?f ws] =>
      destruct (assign_apply f ws) as [wse|e3] eqn:A3
  end; cbn [rbind]; [discriminate|].
  intros H. injection H as <-.
  destruct (assign_apply_raise _ _ _ A3) as [[[[[k c] p] ce] s0] [Hin Hx]].
  destruct (Forall2_In_r _ _ _ _ A2 Hin) as [b [Hb [Eb _]]].
  cbn [fst snd] in *. subst b.
  destruct (Forall2_In_r _ _ _ _ A1 Hb) as [a [Ha [Ea Ece]]].
  cbn [fst snd] in *. subst a. injection Ece as <-.
  exists k, c, p. auto.
Qed.

Lemma aligned_cases {A : Type} (rows : list A) (ps : list Q)
  (x : A * pyfloat) :
  In x (assign_aligned rows ps) ->
  (exists q, In q ps /\ snd x = Fin q) \/ snd x = NaN.
Proof.
  revert ps. induction rows as [|r rows IH]; intros ps H; [destruct H|].
  destruct ps as [|p ps]; cbn in H; destruct H as [<-|H].
  - now right.
  - destruct (IH [] H) as [(q & [] & _)|E]. now right.
  - left. exists p. cbn. auto.
  - destruct (IH ps H) as [(q & Hq & E)|E]; [|now right].
    left. exists q. cbn. auto.
Qed.

(** X12.  When [selected] has more groups than [total], and no group of
    [total] fills it, the rows beyond the groups of [total] receive no
    probability and [calculate_enrichment] raises the [ValueError] of
    [int(NaN)], from the expected score. *)
Theorem enrichment_extra_category_raises (selected total : DataFrame)
  (col : label) (sel_keys tot_keys : list cell) :
  0 < len selected <= len total ->
  column_values selected col = Ok sel_keys ->
  column_values total col = Ok tot_keys ->
  uniform_keys sel_keys -> uniform_keys tot_keys ->
  (length (groupby_size tot_keys) < length (groupby_size sel_keys))%nat ->
  Forall (fun b => snd b < len total) (groupby_size tot_keys) ->
  calculate_enrichment selected total col = Raise nan_to_int_error.
Proof.
  intros Hlen Hs Ht _ _ Hmore Hfill.
  destruct (calculate_enrichment selected total col) as [rows|e] eqn:E.
  - exfalso.
    destruct (proj1 (enrichment_returns _ _ _ _ _ Hlen Hs Ht)
                    (ex_intro _ rows E)) as [L _]. lia.
  - f_equal.
    destruct (enrichment_raise_row _ _ _ _ _ _ Hlen Hs Ht E)
      as (k & c & p & Hin & Hr).
    destruct (aligned_cases _ _ _ Hin) as [(q & Hq & Ep)|Ep];
      cbn [snd] in Ep; subst p.
    + exfalso. rewrite map_map in Hq. apply in_map_iff in Hq.
      destruct Hq as [[k' c'] [<- Hb]]. cbn [snd] in Hr.
      assert (Hc' : 1 <= c' < len total).
      { rewrite Forall_forall in Hfill. split; [|exact (Hfill _ Hb)].
        pose proof (groupby_size_pos tot_keys) as G.
        rewrite Forall_forall in G. exact (G _ Hb). }
      pose proof (ratio_bounds c' (len total) Hc') as Hu.
      destruct Hr as [Hr|Hr].
      * destruct (score_returns (inject_Z c) (inject_Z (len selected)) _ Hu)
          as [v Hv]. unfold of_int in Hr. congruence.
      * destruct (score_returns
                    (inject_Z (len selected)
                     * (inject_Z c' / inject_Z (len total)))
                    (inject_Z (len selected)) _ Hu) as [v Hv].
        unfold of_int, fl_mul in Hr. congruence.
    + destruct Hr as [Hr|Hr].
      * destruct (score_nan_p c (len selected)) as [v Hv]. congruence.
      * cbn in Hr. congruence.
Qed.

Lemma enrichment_extra_category_raises_witness :
  (0 < len table_ABC <= len table_AABB /\
   column_values table_ABC (LStr "PSS")
   = Ok [VStr "A"; VStr "B"; VStr "C"] /\
   column_values table_AABB (LStr "PSS")
   = Ok [VStr "A"; VStr "A"; VStr "B"; VStr "B"] /\
   uniform_keys [VStr "A"; VStr "B"; VStr "C"] /\
   uniform_keys [VStr "A"; VStr "A"; VStr "B"; VStr "B"] /\
   (length (groupby_size [VStr "A"; VStr "A"; VStr "B"; VStr "B"])
    < length (groupby_size [VStr "A"; VStr "B"; VStr "C"]))%nat /\
   Forall (fun b => snd b < len table_AABB)
          (groupby_size [VStr "A"; VStr "A"; VStr "B"; VStr "B"])) /\
  calculate_enrichment table_ABC table_AABB (LStr "PSS")
  = Raise nan_to_int_error.
Proof.
  assert (L : 0 < len table_ABC <= len table_AABB) by (unfold len; cbn; lia).
  assert (U1 : uniform_keys [VStr "A"; VStr "B"; VStr "C"]).
  { exists 3. split; [auto|]. repeat constructor; right; reflexivity. }
  assert (U2 : uniform_keys [VStr "A"; VStr "A"; VStr "B"; VStr "B"]).
  { exists 3. split; [auto|]. repeat constructor; right; reflexivity. }
  assert (M : (length (groupby_size [VStr "A"; VStr "A"; VStr "B"; VStr "B"])
               < length (groupby_size [VStr "A"; VStr "B"; VStr "C"]))%nat).
  { cbn. lia. }
  assert (F : Forall (fun b => snd b < len table_AABB)
                (groupby_size [VStr "A"; VStr "A"; VStr "B"; VStr "B"])).
  { cbn. repeat constructor. }
  split.
  - split; [exact L|]. split; [reflexivity|]. split; [reflexivity|].
    split; [exact U1|]. split; [exact U2|]. split; [exact M|exact F].
  - apply (enrichment_extra_category_raises table_ABC table_AABB
             (LStr "PSS") [VStr "A"; VStr "B"; VStr "C"]
             [VStr "A"; VStr "A"; VStr "B"; VStr "B"]);
      [exact L|reflexivity|reflexivity|exact U1|exact U2|exact M|exact F].
Defined.

(** ** Classification of arbitrary scores *)

Lemma masks_as_integers (t q : Q) :
  Qle_bool t q = (Qnum t * QDen q <=? Qnum q * QDen t) /\
  Qle_bool q 0 = (Qnum q <=? 0) /\
  Qle_bool 0 q = (0 <=? Qnum q) /\
  Qeq_bool q 0 = (Qnum q =? 0).
Proof.
  unfold Qle_bool, Qeq_bool. cbn -[Z.mul].
  rewrite !Z.mul_1_r. repeat split.
Qed.

Lemma classes_disjoint (t : Q) (c : cell) :
  (0 < t)%Q ->
  (if sim_prof_bool t c then 1 else 0)
  + (if unsim_prof_bool t c then 1 else 0)
  + (if mir_prof_bool c then 1 else 0)
  = if is_nonneg_score c then 1 else 0.
Proof.
  intros Ht.
  unfold sim_prof_bool, unsim_prof_bool, mir_prof_bool, is_nonneg_score.
  destruct (num_of_cell c) as [q|]; [|reflexivity].
  destruct (masks_as_integers t q) as (-> & -> & -> & ->).
  unfold Qlt in Ht. cbn -[Z.mul] in Ht.
  destruct t as [tn td], q as [qn qd]. cbn [Qnum Qden] in *.
  destruct (Z.leb_spec (tn * Z.pos qd) (qn * Z.pos td)),
           (Z.leb_spec qn 0), (Z.eqb_spec qn 0), (Z.leb_spec 0 qn);
    cbn [negb andb]; try reflexivity; exfalso; nia.
Qed.

Lemma classes_at_low_threshold (t : Q) (c : cell) :
  (t <= 0)%Q ->
  unsim_prof_bool t c = false /\
  (mir_prof_bool c = true -> sim_prof_bool t c = true).
Proof.
  intros Ht.
  unfold sim_prof_bool, unsim_prof_bool, mir_prof_bool.
  destruct (num_of_cell c) as [q|]; [|split; [reflexivity|discriminate]].
  destruct (masks_as_integers t q) as (-> & -> & _ & ->).
  unfold Qle in Ht. cbn -[Z.mul] in Ht.
  destruct t as [tn td], q as [qn qd]. cbn [Qnum Qden] in *.
  destruct (Z.leb_spec (tn * Z.pos qd) (qn * Z.pos td)),
           (Z.leb_spec qn 0), (Z.eqb_spec qn 0);
    cbn [negb andb]; split; try reflexivity; try discriminate; exfalso; nia.
Qed.

(** X13.  For a threshold above 0 and scores that are numbers or missing, no
    row is in two of the classes similar, dissimilar and mirror, and a row
    is in one of them exactly when its score is a number that is not
    negative: the three counts add up to the number of such rows, which rows
    with a negative or a missing score do not reach. *)
Theorem classes_hold_the_nonnegative_scores (t : Q) (pss : list cell) :
  (0 < t)%Q ->
  Forall number_or_nan pss ->
  (forall c, In c pss ->
     (sim_prof_bool t c && unsim_prof_bool t c = false) /\
     (sim_prof_bool t c && mir_prof_bool c = false) /\
     (unsim_prof_bool t c && mir_prof_bool c = false) /\
     (sim_prof_bool t c || unsim_prof_bool t c || mir_prof_bool c
      = is_nonneg_score c)) /\
  sim_prof_perm_num (classify t pss) + unsim_prof_perm_num (classify t pss)
  + mir_prof_perm_num (classify t pss)
  = Z.of_nat (length (filter is_nonneg_score pss)) /\
  sim_prof_perm_num (classify t pss) + unsim_prof_perm_num (classify t pss)
  + mir_prof_perm_num (classify t pss) <= Z.of_nat (length pss).
Proof.
  intros Ht _.
  assert (S : sim_prof_perm_num (classify t pss)
              + unsim_prof_perm_num (classify t pss)
              + mir_prof_perm_num (classify t pss)
              = Z.of_nat (length (filter is_nonneg_score pss))).
  { unfold classify.
    cbn [sim_prof_perm_num unsim_prof_perm_num mir_prof_perm_num].
    induction pss as [|c l IH]; [reflexivity|].
    rewrite !count_mask_cons. cbn [filter].
    pose proof (classes_disjoint t c Ht) as D.
    destruct (is_nonneg_score c); cbn [length]; lia. }
  split; [|split; [exact S|]].
  - intros c _. pose proof (classes_disjoint t c Ht) as D.
    destruct (sim_prof_bool t c), (unsim_prof_bool t c), (mir_prof_bool c),
             (is_nonneg_score c); cbn [andb orb]; repeat split; lia.
  - rewrite S. pose proof (filter_length_le is_nonneg_score pss). lia.
Qed.

Lemma classes_hold_the_nonnegative_scores_witness :
  ((0 < 2)%Q /\ Forall number_or_nan [VInt 3; VInt (-1); VNaN; VInt 0]) /\
  sim_prof_perm_num (classify 2 [VInt 3; VInt (-1); VNaN; VInt 0])
  + unsim_prof_perm_num (classify 2 [VInt 3; VInt (-1); VNaN; VInt 0])
  + mir_prof_perm_num (classify 2 [VInt 3; VInt (-1); VNaN; VInt 0])
  = Z.of_nat (length (filter is_nonneg_score
                             [VInt 3; VInt (-1); VNaN; VInt 0])).
Proof.
  assert (F : Forall number_or_nan [VInt 3; VInt (-1); VNaN; VInt 0]).
  { repeat constructor. }
  split; [split; [reflexivity|exact F]|].
  apply (classes_hold_the_nonnegative_scores 2
           [VInt 3; VInt (-1); VNaN; VInt 0]); [reflexivity|exact F].
Defined.

(** X14.  For a threshold of 0 or below, no row is dissimilar, and every
    mirror row is similar as well, so it is counted twice. *)
Theorem no_dissimilar_at_low_threshold (t : Q) (pss : list cell) :
  (t <= 0)%Q ->
  Forall number_or_nan pss ->
  unsim_prof_perm_num (classify t pss) = 0 /\
  mir_prof_perm_num (classify t pss) <= sim_prof_perm_num (classify t pss) /\
  (forall c, In c pss -> mir_prof_bool c = true -> sim_prof_bool t c = true).
Proof.
  intros Ht _. unfold classify.
  cbn [sim_prof_perm_num unsim_prof_perm_num mir_prof_perm_num].
  split; [|split].
  - induction pss as [|c l IH]; [reflexivity|].
    rewrite count_mask_cons, IH.
    now rewrite (proj1 (classes_at_low_threshold t c Ht)).
  - induction pss as [|c l IH]; [reflexivity|].
    rewrite !count_mask_cons.
    pose proof (proj2 (classes_at_low_threshold t c Ht)) as D.
    destruct (mir_prof_bool c); [rewrite (D eq_refl)|];
      destruct (sim_prof_bool t c); lia.
  - intros c _. apply (classes_at_low_threshold t c Ht).
Qed.

Lemma no_dissimilar_at_low_threshold_witness :
  ((0 <= 0)%Q /\ Forall number_or_nan [VInt 3; VInt 0; VNaN]) /\
  unsim_prof_perm_num (classify 0 [VInt 3; VInt 0; VNaN]) = 0 /\
  mir_prof_perm_num (classify 0 [VInt 3; VInt 0; VNaN])
  <= sim_prof_perm_num (classify 0 [VInt 3; VInt 0; VNaN]) /\
  (forall c, In c [VInt 3; VInt 0; VNaN] -> mir_prof_bool c = true ->
             sim_prof_bool 0 c = true).
Proof.
  assert (F : Forall number_or_nan [VInt 3; VInt 0; VNaN]).
  { repeat constructor. }
  split; [split; [discriminate|exact F]|].
  apply (no_dissimilar_at_low_threshold 0 [VInt 3; VInt 0; VNaN]);
    [discriminate|exact F].
Defined.

(** ** [Stats.permute_profiles] never returns *)

Lemma range_cons (a b : Z) : a < b -> range a b = a :: range (a + 1) b.
Proof.
  intros H. unfold range.
  replace (Z.to_nat (b - a)) with (S (Z.to_nat (b - (a + 1)))) by lia.
  cbn [seq map]. f_equal; [lia|].
  rewrite <- seq_shift, map_map. apply map_ext. intros i. lia.
Qed.

Section Never.

Variable simple_profiles_scorer : cell -> cell -> result cell.

Lemma permute_profiles_f_never_returns (N : ColumnNames) (dataframe : loc)
  (t : Q) (store_dataframe : bool) (rng : generator) (in_iter : Z)
  (s : store) :
  exists e, fst (permute_profiles_f simple_profiles_scorer N dataframe t
                   store_dataframe rng in_iter s) = Raise e.
Proof.
  unfold permute_profiles_f, bind.
  destruct (shuffle_by_ORF _ _ _ _ s) as [[l|e] s1];
    [|exists e; reflexivity].
  destruct (count_profiles _ _ _ s1) as [[c|e] s2];
    [|exists e; reflexivity].
  destruct store_dataframe; eexists; reflexivity.
Qed.

(** X15.  [Stats.permute_profiles] returns for no input: with a trial to
    run, the first trial raises (at the latest where it uses the deleted
    name), and with none, for [e_value <= 0], the summary raises
    [AttributeError]. *)
Theorem permute_profiles_never_returns (N : ColumnNames) (dataframe : loc)
  (in_prof_sim_lev : Q) (e_value : Z) (store_dataframe : bool)
  (rng : generator) (s : store) :
  (exists e, fst (permute_profiles simple_profiles_scorer N dataframe
                    in_prof_sim_lev e_value store_dataframe rng s)
             = Raise e) /\
  (e_value <= 0 ->
   fst (permute_profiles simple_profiles_scorer N dataframe in_prof_sim_lev
          e_value store_dataframe rng s) = Raise (AttributeError "mirror")).
Proof.
  assert (Z0 : e_value <= 0 ->
               fst (permute_profiles simple_profiles_scorer N dataframe
                      in_prof_sim_lev e_value store_dataframe rng s)
               = Raise (AttributeError "mirror")).
  { intros H. unfold permute_profiles, pool_map.
    rewrite range_empty by lia. reflexivity. }
  split; [|exact Z0].
  destruct (Z_le_gt_dec e_value 0) as [H|H]; [eauto|].
  unfold permute_profiles, pool_map.
  rewrite range_cons by lia. cbn [mapM_M].
  destruct (permute_profiles_f_never_returns N dataframe in_prof_sim_lev
              store_dataframe rng 0 s) as [e He].
  exists e. unfold bind at 1. unfold bind at 1.
  destruct (permute_profiles_f _ _ _ _ _ _ 0 s) as [[r|e'] s1];
    cbn [fst] in *; congruence.
Qed.

End Never.

(** ** The table of the results and its averages *)

Lemma py_sum_from (zs : list Z) (a : Z) :
  foldM (fun acc v => match v with
                      | PInt z => Ok (acc + z)
                      | _ => Raise TypeError
                      end) (map PInt zs) a
  = Ok (a + fold_right Z.add 0 zs).
Proof.
  revert a. induction zs as [|z zs IH]; intros a; cbn [map foldM fold_right].
  - f_equal. lia.
  - cbn [rbind]. rewrite IH. f_equal. lia.
Qed.

Lemma py_sum_ints (zs : list Z) :
  py_sum (map PInt zs) = Ok (fold_right Z.add 0 zs).
Proof. unfold py_sum. now rewrite py_sum_from. Qed.

Lemma add_keys_known (acc : list string) :
  acc = ["similar"; "unsimilar"; "mirror"; "iteration"; "dataframe"] ->
  forall x, add_keys (map fst (trial_of x)) acc = acc.
Proof. intros -> x. reflexivity. Qed.

Lemma DataFrame_of_trials (xs : list (Counts * Z * loc)) :
  xs <> [] ->
  DataFrame_of_dicts (map trial_of xs) =
  mkResults ["similar"; "unsimilar"; "mirror"; "iteration"; "dataframe"]
    (map (fun x => [PInt (sim_prof_perm_num (fst (fst x)));
                    PInt (unsim_prof_perm_num (fst (fst x)));
                    PInt (mir_prof_perm_num (fst (fst x)));
                    PInt (snd (fst x) + 1);
                    PRef (snd x)]) xs).
Proof.
  intros H. destruct xs as [|x xs]; [contradiction|].
  unfold DataFrame_of_dicts.
  assert (E : fold_left (fun acc d => add_keys (map fst d) acc)
                        (map trial_of (x :: xs)) []
              = ["similar"; "unsimilar"; "mirror"; "iteration"; "dataframe"]).
  { cbn [map fold_left]. change (add_keys (map fst (trial_of x)) [])
      with ["similar"; "unsimilar"; "mirror"; "iteration"; "dataframe"].
    clear H. induction xs as [|y xs IH]; [reflexivity|].
    cbn [map fold_left].
    rewrite (add_keys_known _ eq_refl). exact IH. }
  rewrite E. f_equal. rewrite map_map. apply map_ext. intros y. reflexivity.
Qed.

Lemma np_mean_of_trials (xs : list (Counts * Z * loc)) :
  xs <> [] ->
  np_mean (DataFrame_of_dicts (map trial_of xs)) "mirror"
  = Ok (mean_of mir_prof_perm_num xs) /\
  np_mean (DataFrame_of_dicts (map trial_of xs)) "similar"
  = Ok (mean_of sim_prof_perm_num xs) /\
  np_mean (DataFrame_of_dicts (map trial_of xs)) "unsimilar"
  = Ok (mean_of unsim_prof_perm_num xs).
Proof.
  intros H. rewrite (DataFrame_of_trials xs H).
  assert (L : (Z.of_nat (length xs) =? 0) = false).
  { apply Z.eqb_neq. destruct xs; [contradiction|cbn [length]; lia]. }
  unfold np_mean, results_getattr, rlen, mean_of, sum_of.
  cbn [rcolumns rrows str_position String.eqb Ascii.eqb Bool.eqb option_map].
  rewrite !map_map. cbn [nth]. rewrite !length_map, L.
  cbn [rbind]. repeat split.
  - rewrite <- (map_map (fun x => mir_prof_perm_num (fst (fst x))) PInt).
    rewrite py_sum_ints. reflexivity.
  - rewrite <- (map_map (fun x => sim_prof_perm_num (fst (fst x))) PInt).
    rewrite py_sum_ints. reflexivity.
  - rewrite <- (map_map (fun x => unsim_prof_perm_num (fst (fst x))) PInt).
    rewrite py_sum_ints. reflexivity.
Qed.



(** ** A complete run of [KO_profs_perm] *)

Lemma caller_data_unchanged_trans (s1 s2 s3 : store) :
  caller_data_unchanged s1 s2 -> caller_data_unchanged s2 s3 ->
  caller_data_unchanged s1 s3.
Proof.
  intros (A1 & B1 & C1) (A2 & B2 & C2). split; [|split; congruence].
  intros l o H. auto.
Qed.

Lemma run_count_profiles_value (l : loc) (pss : label) (t : Q) (s : store)
  (d : DataFrame) :
  lookup l s = Some (ODataFrame d) ->
  In pss (columns d) ->
  exists scores,
    column_values d pss = Ok scores /\
    count_profiles l pss t s = (Ok (classify t scores), s).
Proof.
  intros H Hin. unfold count_profiles.
  erewrite run_bind by (apply run_read_df; exact H).
  destruct (position_of_mem _ _ Hin) as [j Pj].
  unfold column_values. rewrite Pj. unfold lift, bind, ret.
  eexists. split; reflexivity.
Qed.

Section Strategy_1_run.

Variable simple_profiles_scorer : cell -> cell -> result cell.
Hypothesis scorer_total :
  forall a b, exists v, simple_profiles_scorer a b = Ok v.

Variable in_prof_sim_lev : Q.
Variable rng : generator.
Variable d : DataFrame.
Variables pairs roles : list (cell * cell).

Hypothesis d_well_formed : well_formed d.
Hypothesis d_has_PSS : In (LStr "PSS") (columns d).
Hypothesis d_no_ORF : ~ In (LStr "ORF") (columns d).
Hypothesis d_no_PROF : ~ In (LStr "PROF") (columns d).
Hypothesis d_pairs : id_pairs literal_names d = Ok pairs.
Hypothesis d_roles : role_pairs literal_names d = Ok roles.
Hypothesis d_one_profile : one_profile_per_entity roles.

Lemma KO_trial_run (in_iter : Z) (s : store) :
  lookup (inter_df (instance s)) s = Some (ODataFrame d) ->
  (forall n, Permutation (rng in_iter O n) (seq 0 n)) ->
  exists c l s1,
    KO_profs_perm_f simple_profiles_scorer in_prof_sim_lev rng in_iter s
    = (Ok (trial_of (c, in_iter, l)), s1) /\
    caller_data_unchanged s s1 /\
    trial_stored in_prof_sim_lev d pairs s1 (c, in_iter, l).
Proof.
  intros Hd Hdraw.
  destruct (shuffle_by_ORF_keeps_pairs simple_profiles_scorer scorer_total
              literal_names (inter_df (instance s)) (rng in_iter O) s d
              pairs roles Hd d_well_formed literal_names_consistent
              d_has_PSS d_no_ORF d_no_PROF d_pairs d_roles d_one_profile
              Hdraw)
    as (l & d' & Hl & Hd' & Hp & Hin & Hlen).
  destruct (shuffle_by_ORF simple_profiles_scorer literal_names
              (inter_df (instance s)) (rng in_iter O) s) as [r s1] eqn:Run.
  cbn [fst snd] in Hl, Hd'. subst r.
  destruct (run_count_profiles_value l (LStr "PSS") in_prof_sim_lev s1 d'
              Hd' Hin) as (scores & Hsc & Hc).
  assert (E : KO_profs_perm_f simple_profiles_scorer in_prof_sim_lev rng
                in_iter s
              = (Ok (trial_of (classify in_prof_sim_lev scores, in_iter, l)),
                 s1)).
  { unfold KO_profs_perm_f, get_self. unfold bind at 1.
    erewrite run_bind by exact Run. erewrite run_bind by exact Hc.
    reflexivity. }
  exists (classify in_prof_sim_lev scores), l, s1.
  split; [exact E|]. split.
  - apply unchanged_caller_data.
    pose proof (keeps_KO_profs_perm_f simple_profiles_scorer
                  (length (fresh s)) in_prof_sim_lev rng in_iter s (le_n _))
      as [U _].
    rewrite E in U. exact U.
  - exists d', scores. cbn [fst snd]. auto.
Qed.

Lemma KO_pool_run (iters : list Z) (s : store) :
  lookup (inter_df (instance s)) s = Some (ODataFrame d) ->
  (forall i n, In i iters -> Permutation (rng i O n) (seq 0 n)) ->
  exists xs s',
    mapM_M (KO_profs_perm_f simple_profiles_scorer in_prof_sim_lev rng)
           iters s = (Ok (map trial_of xs), s') /\
    map (fun x => snd (fst x)) xs = iters /\
    caller_data_unchanged s s' /\
    Forall (trial_stored in_prof_sim_lev d pairs s') xs.
Proof.
  revert s. induction iters as [|i iters IH]; intros s Hd Hdraw.
  - exists [], s. cbn. repeat split; auto.
  - destruct (KO_trial_run i s Hd (fun n => Hdraw i n (or_introl eq_refl)))
      as (c & l & s1 & Run & U1 & T1).
    assert (Hd1 : lookup (inter_df (instance s1)) s1 = Some (ODataFrame d)).
    { destruct U1 as (A & B & _). rewrite B. now apply A. }
    destruct (IH s1 Hd1 (fun j n Hj => Hdraw j n (or_intror Hj)))
      as (xs & s' & Runs & Is & U2 & Ts).
    exists ((c, i, l) :: xs), s'. cbn [mapM_M map fst snd].
    erewrite run_bind by exact Run. erewrite run_bind by exact Runs.
    split; [reflexivity|]. split; [now rewrite Is|].
    split; [now apply caller_data_unchanged_trans with s1|].
    constructor; [|exact Ts].
    destruct T1 as (d' & scores & L & R). exists d', scores.
    split; [|exact R]. destruct U2 as (A & _). now apply A.
Qed.

(** X17.  A run of [KO_profs_perm] with one trial or more, on a well-formed
    interaction table in which every entity has one profile: the call
    returns, the results hold one row per trial, numbered in order, the
    averages are the means of the counts, and every table stored under
    [dataframe] is still in the store at the end, with the identifier pairs
    and the length of the interaction table and with the counts of its own
    scores. *)
Theorem KO_profs_perm_completes (e_value : Z) (s : store) :
  1 <= e_value ->
  lookup (inter_df (instance s)) s = Some (ODataFrame d) ->
  (forall i n, Permutation (rng i O n) (seq 0 n)) ->
  exists xs s',
    KO_profs_perm simple_profiles_scorer e_value in_prof_sim_lev rng s
    = (Ok tt, s') /\
    map (fun x => snd (fst x)) xs = range 0 e_value /\
    prof_KO_perm_results (instance s')
    = Some (DataFrame_of_dicts (map trial_of xs)) /\
    prof_KO_perm_res_avg (instance s')
    = Some [("mirror_profiles", mean_of mir_prof_perm_num xs);
            ("similar_profiles", mean_of sim_prof_perm_num xs);
            ("unsimilar", mean_of unsim_prof_perm_num xs)] /\
    Forall (trial_stored in_prof_sim_lev d pairs s') xs.
Proof.
  intros He Hd Hdraw.
  destruct (KO_pool_run (range 0 e_value) s Hd (fun i n _ => Hdraw i n))
    as (xs & s1 & Run & Is & U & Ts).
  assert (Hx : xs <> []).
  { intros ->. rewrite range_cons in Is by lia. discriminate. }
  pose proof (np_mean_of_trials xs Hx) as (E1 & E2 & E3).
  eexists xs, _. unfold KO_profs_perm, pool_map.
  erewrite run_bind by exact Run.
  unfold averages. rewrite E1, E2, E3. cbn [rbind].
  unfold set_self, lift, bind. cbn [fst snd instance outer fresh].
  split; [reflexivity|]. split; [exact Is|].
  cbn [prof_KO_perm_results prof_KO_perm_res_avg].
  split; [reflexivity|]. split; [reflexivity|].
  eapply Forall_impl; [|exact Ts].
  intros x (d' & scores & L & R). exists d', scores. split; [|exact R].
  destruct (snd x); exact L.
Qed.

End Strategy_1_run.

Lemma KO_profs_perm_completes_witness :
  exists xs s',
    KO_profs_perm example_scorer 2 1 example_rng example_store = (Ok tt, s') /\
    map (fun x => snd (fst x)) xs = range 0 2 /\
    prof_KO_perm_results (instance s')
    = Some (DataFrame_of_dicts (map trial_of xs)) /\
    prof_KO_perm_res_avg (instance s')
    = Some [("mirror_profiles", mean_of mir_prof_perm_num xs);
            ("similar_profiles", mean_of sim_prof_perm_num xs);
            ("unsimilar", mean_of unsim_prof_perm_num xs)] /\
    Forall (trial_stored 1 example_inter_df example_pairs s') xs.
Proof.
  apply (KO_profs_perm_completes example_scorer
           (fun a b => ex_intro _ _ eq_refl)
           1 example_rng example_inter_df example_pairs example_roles).
  - exact example_well_formed.
  - cbn. auto 10.
  - cbn. intros H. decompose [or] H; discriminate || contradiction.
  - cbn. intros H. decompose [or] H; discriminate || contradiction.
  - reflexivity.
  - reflexivity.
  - exact example_one_profile_per_entity.
  - lia.
  - reflexivity.
  - intros i n. apply example_rng_permutes.
Defined.

Section Deleted_name.

Variable simple_profiles_scorer : cell -> cell -> result cell.
Hypothesis scorer_total :
  forall a b, exists v, simple_profiles_scorer a b = Ok v.

(** X18.  With a trial to run, on a well-formed table in which every entity
    has one profile, [Stats.permute_profiles] raises [UnboundLocalError] for
    the name [qa_merged_score_df], deleted on line 211 and used on lines 218
    and 220, whatever [store_dataframe] is. *)
Theorem permute_profiles_raises_unbound_local (N : ColumnNames)
  (dataframe : loc) (in_prof_sim_lev : Q) (e_value : Z)
  (store_dataframe : bool) (rng : generator) (s : store) (d : DataFrame)
  (pairs roles : list (cell * cell)) :
  1 <= e_value ->
  lookup dataframe s = Some (ODataFrame d) ->
  well_formed d ->
  names_consistent N ->
  In (LStr (PSS N)) (columns d) ->
  ~ In (LStr "ORF") (columns d) ->
  ~ In (LStr "PROF") (columns d) ->
  id_pairs N d = Ok pairs ->
  role_pairs N d = Ok roles ->
  one_profile_per_entity roles ->
  (forall n, Permutation (rng 0 O n) (seq 0 n)) ->
  fst (permute_profiles simple_profiles_scorer N dataframe in_prof_sim_lev
         e_value store_dataframe rng s)
  = Raise (UnboundLocalError "qa_merged_score_df").
Proof.
  intros He Hd Hwf Hn Hpss Horf Hprof Hpairs Hroles Hfun Hdraw.
  pose proof (permute_profiles_f_raises simple_profiles_scorer scorer_total
                N dataframe in_prof_sim_lev store_dataframe rng 0 s d pairs
                roles Hd Hwf Hn Hpss Horf Hprof Hpairs Hroles Hfun Hdraw)
    as R.
  unfold permute_profiles, pool_map.
  rewrite range_cons by lia. cbn [mapM_M].
  unfold bind at 1. unfold bind at 1.
  destruct (permute_profiles_f _ _ _ _ _ _ 0 s) as [[r|e] s1];
    cbn [fst] in *; congruence.
Qed.

End Deleted_name.

Lemma permute_profiles_raises_unbound_local_witness :
  fst (permute_profiles example_scorer literal_names (Outer 0) 1 3 true
         example_rng example_store)
  = Raise (UnboundLocalError "qa_merged_score_df").
Proof.
  apply (permute_profiles_raises_unbound_local example_scorer
           (fun a b => ex_intro _ _ eq_refl)
           literal_names (Outer 0) 1 3 true example_rng example_store
           example_inter_df example_pairs example_roles).
  - lia.
  - reflexivity.
  - exact example_well_formed.
  - exact literal_names_consistent.
  - cbn. auto 10.
  - cbn. intros H. decompose [or] H; discriminate || contradiction.
  - cbn. intros H. decompose [or] H; discriminate || contradiction.
  - reflexivity.
  - reflexivity.
  - exact example_one_profile_per_entity.
  - intros n. apply example_rng_permutes.
Defined.

(** ** Statements on the attributes of a selection *)

Lemma sel_run_bind {A B : Type} (m : Sel A) (f : A -> Sel B)
  (self self' : Selection) (a : A) :
  m self = (Ok a, self') -> sel_bind m f self = f a self'.
Proof. intros H. unfold sel_bind. now rewrite H. Qed.

Lemma sel_run_raise {A B : Type} (m : Sel A) (f : A -> Sel B)
  (self self' : Selection) (e : pyerror) :
  m self = (Raise e, self') -> sel_bind m f self = (Raise e, self').
Proof. intros H. unfold sel_bind. now rewrite H. Qed.

Lemma sel_column_run (name : string) (self : Selection) (j : nat) :
  position (LStr name) (columns (self_inter_df self)) = Some j ->
  sel_column name self = (Ok (col j (data (self_inter_df self))), self).
Proof. intros H. unfold sel_column, column_values. now rewrite H. Qed.

Lemma sel_column_missing (name : string) (self : Selection) :
  position (LStr name) (columns (self_inter_df self)) = None ->
  sel_column name self = (Raise KeyError, self).
Proof. intros H. unfold sel_column, column_values. now rewrite H. Qed.

(** ** Choosing rows by a mask *)

Lemma map_fst_combine {A B : Type} (a : list A) (b : list B) :
  length a = length b -> map fst (combine a b) = a.
Proof.
  revert b. induction a as [|x a IH]; intros [|y b] H; try discriminate;
    [reflexivity|]. cbn [combine map fst]. f_equal. apply IH. cbn in H. lia.
Qed.

Lemma choose_rows_map (p : list cell -> bool) (d : DataFrame) :
  length (index d) = length (data d) ->
  choose_rows (map p (data d)) d = filter_rows p d.
Proof.
  intros H. unfold choose_rows, filter_rows. destruct d as [cs ix rows].
  cbn [columns index data] in *. f_equal.
  - revert ix H. induction rows as [|r rows IH]; intros [|i ix] H;
      try discriminate; [reflexivity|].
    cbn [map combine filter fst snd]. destruct (p r); cbn [map fst snd];
      [f_equal|]; apply IH; cbn in H; lia.
  - revert ix H. induction rows as [|r rows IH]; intros [|i ix] H;
      try discriminate; [reflexivity|].
    cbn [map combine filter fst snd]. destruct (p r); cbn [map fst snd];
      [f_equal|]; apply IH; cbn in H; lia.
Qed.

Lemma distinct_NoDup (ls : list Z) : NoDup ls -> distinct ls = true.
Proof.
  induction 1 as [|l ls Hl H IH]; [reflexivity|]. cbn [distinct].
  rewrite IH, andb_true_r. apply negb_true_iff.
  destruct (existsb (Z.eqb l) ls) eqn:E; [|reflexivity].
  apply existsb_exists in E. destruct E as [x [Hx E]].
  apply Z.eqb_eq in E. subst. contradiction.
Qed.

Lemma label_flag_in (p : list cell -> bool) (ix : list Z)
  (rows : list (list cell)) (l : Z) (r : list cell) :
  NoDup ix -> In (l, r) (combine ix rows) ->
  label_flag l ix (map p rows) = Some (p r).
Proof.
  revert rows. induction ix as [|i ix IH]; intros [|r0 rows] N H;
    try destruct H.
  - injection H as -> ->. cbn. now rewrite Z.eqb_refl.
  - cbn [map label_flag]. inversion N as [|? ? Hi N']; subst.
    destruct (Z.eqb_spec l i) as [->|Hne].
    + exfalso. apply Hi. apply (in_combine_l _ _ _ _ H).
    + now apply IH.
Qed.

Lemma filter_rows_rows (p : list cell -> bool) (d : DataFrame) :
  length (index d) = length (data d) ->
  combine (index (filter_rows p d)) (data (filter_rows p d))
  = filter (fun x => p (snd x)) (combine (index d) (data d)).
Proof.
  intros _. unfold filter_rows. cbn [index data].
  induction (filter (fun x => p (snd x)) (combine (index d) (data d)))
    as [|[i r] l IH]; [reflexivity|]. cbn. now rewrite IH.
Qed.

Lemma filter_rows_twice (p q : list cell -> bool) (d : DataFrame) :
  length (index d) = length (data d) ->
  filter_rows p (filter_rows q d) = filter_rows (fun r => q r && p r) d.
Proof.
  intros H. unfold filter_rows at 1. rewrite (filter_rows_rows q d H).
  unfold filter_rows. cbn [columns]. 
  assert (E : filter (fun x => p (snd x))
                (filter (fun x => q (snd x)) (combine (index d) (data d)))
              = filter (fun x => q (snd x) && p (snd x))
                  (combine (index d) (data d))).
  { induction (combine (index d) (data d)) as [|x l IH]; [reflexivity|].
    cbn [filter]. destruct (q (snd x)); cbn [filter andb];
      [destruct (p (snd x)); now rewrite IH|exact IH]. }
  now rewrite E.
Qed.

Lemma filter_rows_true (d : DataFrame) :
  length (index d) = length (data d) ->
  filter_rows (fun _ => true) d = d.
Proof.
  intros H. unfold filter_rows. destruct d as [cs ix rows].
  cbn [columns index data] in *.
  assert (E : filter (fun x : Z * list cell => true) (combine ix rows)
              = combine ix rows).
  { induction (combine ix rows) as [|x l IH]; [reflexivity|].
    cbn. now rewrite IH. }
  rewrite E, (map_fst_combine _ _ H), (map_snd_combine _ _ H). reflexivity.
Qed.

Lemma filter_rows_ext (p q : list cell -> bool) (d : DataFrame) :
  (forall r, In r (data d) -> p r = q r) ->
  filter_rows p d = filter_rows q d.
Proof.
  intros H. unfold filter_rows.
  assert (E : filter (fun x => p (snd x)) (combine (index d) (data d))
              = filter (fun x => q (snd x)) (combine (index d) (data d))).
  { apply filter_ext_in. intros [i r] Hx. apply H.
    apply (in_combine_r _ _ _ _ Hx). }
  now rewrite E.
Qed.

(** A mask computed on [d] chooses, from the rows of [d] that satisfy [q],
    those that satisfy [p] as well. *)
Lemma bool_getitem_filter (p q : list cell -> bool) (d : DataFrame) :
  length (index d) = length (data d) ->
  NoDup (index d) ->
  bool_getitem (index d) (map p (data d)) (filter_rows q d)
  = Ok (filter_rows (fun r => q r && p r) d).
Proof.
  intros H N. unfold bool_getitem.
  destruct (index_eqb (index d) (index (filter_rows q d))) eqn:E.
  - unfold index_eqb in E.
    destruct (list_eq_dec Z.eq_dec (index d) (index (filter_rows q d)))
      as [Eix|]; [|discriminate].
    assert (Ed : filter_rows q d = d).
    { unfold filter_rows in *. cbn [index] in Eix.
      assert (L : length (filter (fun x => q (snd x))
                                 (combine (index d) (data d)))
                  = length (combine (index d) (data d))).
      { rewrite <- (length_map fst), <- Eix, length_combine. lia. }
      assert (F : filter (fun x => q (snd x)) (combine (index d) (data d))
                  = combine (index d) (data d)).
      { clear -L. induction (combine (index d) (data d)) as [|x l IH];
          [reflexivity|]. cbn [filter length] in *.
        destruct (q (snd x)).
        - cbn [length] in L. f_equal. apply IH. lia.
        - pose proof (filter_length_le (fun x => q (snd x)) l). lia. }
      rewrite F, (map_fst_combine _ _ H), (map_snd_combine _ _ H).
      now destruct d. }
    rewrite Ed, length_map, Nat.eqb_refl, (choose_rows_map p d H).
    f_equal. rewrite <- (filter_rows_twice p q d H), Ed. reflexivity.
  - rewrite (distinct_NoDup _ N).
    assert (M : mapM (fun l => match label_flag l (index d) (map p (data d))
                               with
                               | Some b => Ok b
                               | None => Raise LibraryError
                               end) (index (filter_rows q d))
                = Ok (map p (data (filter_rows q d)))).
    { pose proof (filter_rows_rows q d H) as R.
      assert (S : forall x, In x (combine (index (filter_rows q d))
                                          (data (filter_rows q d))) ->
                            In x (combine (index d) (data d))).
      { intros x Hx. rewrite R in Hx. now apply filter_In in Hx. }
      assert (L : length (index (filter_rows q d))
                  = length (data (filter_rows q d))).
      { unfold filter_rows. cbn [index data]. now rewrite !length_map. }
      revert S L.
      generalize (index (filter_rows q d)) (data (filter_rows q d)).
      intros ix. induction ix as [|i ix IH]; intros [|r rows] S L;
        try discriminate; [reflexivity|].
      cbn [mapM map].
      rewrite (label_flag_in p (index d) (data d) i r N
                 (S _ (or_introl eq_refl))).
      cbn [rbind]. rewrite (IH rows); [reflexivity| |cbn in L; lia].
      intros x Hx. apply S. now right. }
    rewrite M. cbn [rbind]. f_equal.
    rewrite choose_rows_map.
    + now apply filter_rows_twice.
    + unfold filter_rows. cbn [index data]. now rewrite !length_map.
Qed.

Lemma zip_with_cols {A : Type} (f : cell -> cell -> A) (j k : nat)
  (rows : list (list cell)) :
  zip_with f (col j rows) (col k rows)
  = map (fun r => f (nth j r VNaN) (nth k r VNaN)) rows.
Proof.
  unfold col. induction rows as [|r rows IH]; [reflexivity|].
  cbn [map zip_with]. now rewrite IH.
Qed.

Lemma mask_and_map {A : Type} (p q : A -> bool) (l : list A) :
  mask_and (map p l) (map q l) = map (fun r => p r && q r) l.
Proof.
  unfold mask_and. induction l as [|x l IH]; [reflexivity|].
  cbn [map zip_with]. now rewrite IH.
Qed.

Section Selector_run.

Variable format_number : pynum -> string.
Variable d : DataFrame.
Variable sp : list string.
Variable npr : option Num_prop.

Hypothesis d_labelled : length (index d) = length (data d).
Hypothesis d_distinct : NoDup (index d).

Lemma filter_run (p q : list cell -> bool) (u n : list string) :
  sel_filter (index d) (map p (data d)) (selection_of d sp npr q u n)
  = (Ok tt, selection_of d sp npr (fun r => q r && p r) u n).
Proof.
  unfold sel_filter, selection_of.
  cbn [self_inter_df self_query_species filters_used filters_name
       num_prop_res].
  now rewrite (bool_getitem_filter p q d d_labelled d_distinct).
Qed.

Lemma note_run (a b : string) (q : list cell -> bool) (u n : list string) :
  note_filter a b (selection_of d sp npr q u n)
  = (Ok tt, selection_of d sp npr q (u ++ [a]) (n ++ [b])).
Proof. reflexivity. Qed.

Lemma stage_one {B : Type} (c : bool) (p : list cell -> bool) (a b : string)
  (rest : Sel B) (q : list cell -> bool) (u n : list string) :
  sel_bind (if c
            then sel_bind (sel_filter (index d) (map p (data d)))
                          (fun _ => note_filter a b)
            else sel_ret tt) (fun _ => rest) (selection_of d sp npr q u n)
  = rest (selection_of d sp npr (fun r => q r && (if c then p r else true))
                       (u ++ (if c then [a] else []))
                       (n ++ (if c then [b] else []))).
Proof.
  destruct c.
  - erewrite sel_run_bind; [reflexivity|].
    erewrite sel_run_bind by apply filter_run. apply note_run.
  - erewrite sel_run_bind by reflexivity. rewrite !app_nil_r.
    unfold selection_of. f_equal. f_equal.
    apply filter_rows_ext. intros r _. now rewrite andb_true_r.
Qed.

Lemma stage_either {B : Type} (c1 c2 : bool) (p1 p2 : list cell -> bool)
  (a1 b1 a2 b2 : string) (rest : Sel B) (q : list cell -> bool)
  (u n : list string) :
  sel_bind (if c1
            then sel_bind (sel_filter (index d) (map p1 (data d)))
                          (fun _ => note_filter a1 b1)
            else if c2
            then sel_bind (sel_filter (index d) (map p2 (data d)))
                          (fun _ => note_filter a2 b2)
            else sel_ret tt) (fun _ => rest) (selection_of d sp npr q u n)
  = rest (selection_of d sp npr
            (fun r => q r && (if c1 then p1 r else if c2 then p2 r else true))
            (u ++ (if c1 then [a1] else if c2 then [a2] else []))
            (n ++ (if c1 then [b1] else if c2 then [b2] else []))).
Proof.
  destruct c1; [|destruct c2].
  - erewrite sel_run_bind; [reflexivity|].
    erewrite sel_run_bind by apply filter_run. apply note_run.
  - erewrite sel_run_bind; [reflexivity|].
    erewrite sel_run_bind by apply filter_run. apply note_run.
  - erewrite sel_run_bind by reflexivity. rewrite !app_nil_r.
    unfold selection_of. f_equal. f_equal.
    apply filter_rows_ext. intros r _. now rewrite andb_true_r.
Qed.

Lemma stage_two {B : Type} (c : bool) (p1 p2 : list cell -> bool)
  (a b : string) (rest : Sel B) (q : list cell -> bool) (u n : list string) :
  sel_bind (if c
            then sel_bind (sel_filter (index d) (map p1 (data d)))
                   (fun _ =>
                      sel_bind (sel_filter (index d) (map p2 (data d)))
                               (fun _ => note_filter a b))
            else sel_ret tt) (fun _ => rest) (selection_of d sp npr q u n)
  = rest (selection_of d sp npr
            (fun r => q r && (if c then p1 r && p2 r else true))
            (u ++ (if c then [a] else []))
            (n ++ (if c then [b] else []))).
Proof.
  destruct c.
  - erewrite sel_run_bind.
    2:{ erewrite sel_run_bind by apply filter_run.
        erewrite sel_run_bind by apply filter_run. apply note_run. }
    unfold selection_of. f_equal. f_equal.
    apply filter_rows_ext. intros r _. now rewrite andb_assoc.
  - erewrite sel_run_bind by reflexivity. rewrite !app_nil_r.
    unfold selection_of. f_equal. f_equal.
    apply filter_rows_ext. intros r _. now rewrite andb_true_r.
Qed.

End Selector_run.

Lemma positive_DMF_run (self : Selection) (jD jSQ jSA : nat) :
  position (LStr "DMF") (columns (self_inter_df self)) = Some jD ->
  position (LStr "SMF_Q") (columns (self_inter_df self)) = Some jSQ ->
  position (LStr "SMF_A") (columns (self_inter_df self)) = Some jSA ->
  positive_DMF_bool self
  = (Ok (map (fun r => cell_gt (nth jD r VNaN) (nth jSQ r VNaN)
                       && cell_gt (nth jD r VNaN) (nth jSA r VNaN))
             (data (self_inter_df self))), self).
Proof.
  intros PD PQ PA. unfold positive_DMF_bool.
  erewrite sel_run_bind by (apply sel_column_run; exact PD).
  erewrite sel_run_bind by (apply sel_column_run; exact PQ).
  erewrite sel_run_bind by (apply sel_column_run; exact PD).
  erewrite sel_run_bind by (apply sel_column_run; exact PA).
  unfold sel_ret. now rewrite !zip_with_cols, mask_and_map.
Qed.

Lemma negative_DMF_run (self : Selection) (jD jSQ jSA : nat) :
  position (LStr "DMF") (columns (self_inter_df self)) = Some jD ->
  position (LStr "SMF_Q") (columns (self_inter_df self)) = Some jSQ ->
  position (LStr "SMF_A") (columns (self_inter_df self)) = Some jSA ->
  negative_DMF_bool self
  = (Ok (map (fun r => cell_lt_b (nth jD r VNaN) (nth jSQ r VNaN)
                       && cell_lt_b (nth jD r VNaN) (nth jSA r VNaN))
             (data (self_inter_df self))), self).
Proof.
  intros PD PQ PA. unfold negative_DMF_bool.
  erewrite sel_run_bind by (apply sel_column_run; exact PD).
  erewrite sel_run_bind by (apply sel_column_run; exact PQ).
  erewrite sel_run_bind by (apply sel_column_run; exact PD).
  erewrite sel_run_bind by (apply sel_column_run; exact PA).
  unfold sel_ret. now rewrite !zip_with_cols, mask_and_map.
Qed.

Lemma map_col {A : Type} (f : cell -> A) (j : nat) (rows : list (list cell)) :
  map f (col j rows) = map (fun r => f (nth j r VNaN)) rows.
Proof. unfold col. apply map_map. Qed.

Section Selector_result.

Variable format_number : pynum -> string.

Lemma df_selector_run (self : Selection) (DMF : option string)
  (SMF_below_one : bool) (inter_score_min inter_score_max : pynum)
  (no_flat_plus no_flat_minus : bool) (process profiles : option string)
  (prof_sim_lev : pynum) :
  let d := self_inter_df self in
  length (index d) = length (data d) ->
  NoDup (index d) ->
  Forall (fun c => In (LStr c) (columns d)) selector_columns ->
  (profiles <> None -> In (LStr "PSS") (columns d)) ->
  guard_passes profiles prof_sim_lev = true ->
  df_selector format_number DMF SMF_below_one inter_score_min
    inter_score_max no_flat_plus no_flat_minus process profiles
    prof_sim_lev self
  = (Ok tt,
     mkSelection (self_query_species self)
       (filter_rows
          (selected d (self_query_species self) DMF SMF_below_one
             inter_score_min inter_score_max no_flat_plus no_flat_minus
             process profiles prof_sim_lev) d)
       (FList (selected_used format_number DMF SMF_below_one
                 inter_score_min inter_score_max no_flat_plus no_flat_minus
                 process profiles))
       (FList (selected_names format_number DMF SMF_below_one
                 inter_score_min inter_score_max no_flat_plus no_flat_minus
                 process profiles))
       (num_prop_res self)).
Proof.
  intros d HL HN Hcols Hpss Hg.
  destruct self as [sp d0 fu fn npr]. cbn [self_inter_df] in d. subst d.
  cbn [self_query_species num_prop_res].
  unfold selector_columns in Hcols.
  repeat match goal with
         | H : Forall _ (_ :: _) |- _ =>
             apply Forall_cons_iff in H; destruct H as [? H]
         end.
  repeat match goal with
         | H : In (LStr ?c) (columns d0) |- _ =>
             let j := fresh "j" in
             let P := fresh "P" in
             destruct (position_of_mem _ _ H) as [j P]; clear H
         end.
  rename j into jBSS, j0 into jPA, j1 into jPQ, j2 into jGIS,
         j3 into jSA, j4 into jSQ, j5 into jD.
  assert (E0 : mkSelection sp d0 (FList []) (FList []) npr
               = selection_of d0 sp npr (fun _ => true) [] []).
  { unfold selection_of. now rewrite (filter_rows_true d0 HL). }
  assert (Hpss' : profiles <> None ->
                  exists j, position (LStr "PSS") (columns d0) = Some j).
  { intros Hp. apply position_of_mem. now apply Hpss. }
  unfold df_selector.
  set (s0 := mkSelection sp d0 (FList []) (FList []) npr) in *.
  assert (Heads : forall B (k : Sel B),
             sel_bind (set_filters_used (FList []))
               (fun _ => sel_bind (set_filters_name (FList [])) (fun _ => k))
               (mkSelection sp d0 fu fn npr) = k s0).
  { reflexivity. }
  assert (Reads : forall name j,
             position (LStr name) (columns d0) = Some j ->
             sel_column name s0 = (Ok (col j (data d0)), s0)).
  { intros name j Hp. now apply sel_column_run. }
  assert (Body :
    forall (masks : Sel (list bool * list bool)) (m1 m2 : list bool)
           (ps pu : list cell -> bool),
      masks s0 = (Ok (m1, m2), s0) ->
      (str_is profiles "similar" = true \/ str_is profiles "unsimilar" = true
       -> m1 = map ps (data d0) /\ m2 = map pu (data d0) /\
          forall r, ps r = ge_num prof_sim_lev (cell_of d0 "PSS" r) /\
                    pu r = lt_num prof_sim_lev (cell_of d0 "PSS" r)) ->
      sel_bind (set_filters_used (FList []))
        (fun _ => sel_bind (set_filters_name (FList []))
        (fun _ =>
    mix <~ (fun self => (Ok (index (self_inter_df self)), self)) ;;
    species <~ (fun self => (Ok (self_query_species self), self)) ;;
    positive_DMF <~ positive_DMF_bool ;;
    negative_DMF <~ negative_DMF_bool ;;
    smf_q <~ sel_column "SMF_Q" ;;
    smf_a <~ sel_column "SMF_A" ;;
    let SMF_below_one_bool :=
      mask_and (map (lt_num (NFloat 1)) smf_q)
               (map (lt_num (NFloat 1)) smf_a) in
    gis <~ sel_column "GIS" ;;
    let inter_score_max_bool := map (lt_num inter_score_max) gis in
    gis' <~ sel_column "GIS" ;;
    let inter_score_min_bool := map (gt_num inter_score_min) gis' in
    prof_q <~ sel_column "PROF_Q" ;;
    let no_flat_plu_q_bool :=
      map (ne_str (string_times "+" (length species))) prof_q in
    prof_q' <~ sel_column "PROF_Q" ;;
    let no_flat_min_q_bool :=
      map (ne_str (string_times "-" (length species))) prof_q' in
    prof_a <~ sel_column "PROF_A" ;;
    let no_flat_plu_a_bool :=
      map (ne_str (string_times "+" (length species))) prof_a in
    prof_a' <~ sel_column "PROF_A" ;;
    let no_flat_min_a_bool :=
      map (ne_str (string_times "-" (length species))) prof_a' in
    bss <~ sel_column "BSS" ;;
    let iden_proc_bool := map (eq_str "identical") bss in
    bss' <~ sel_column "BSS" ;;
    let diff_proc_bool := map (eq_str "different") bss' in
    prof_masks <~ masks ;;
    let sim_prof_bool_sel := fst prof_masks in
    let unsim_prof_bool_sel := snd prof_masks in
    (if str_is DMF "positive" then
       sel_filter mix positive_DMF ;;~ note_filter "DMF positive" "DMF_p"
     else if str_is DMF "negative" then
       sel_filter mix negative_DMF ;;~ note_filter "DMF negative" "DMF_n"
     else sel_ret tt) ;;~
    (if SMF_below_one then
       sel_filter mix SMF_below_one_bool ;;~
       note_filter "SMF < 1.0" "SMF_blw_1"
     else sel_ret tt) ;;~
    (if is_float inter_score_max then
       sel_filter mix inter_score_max_bool ;;~
       note_filter
         ("Genetic interaction score < " ++ format_number inter_score_max)
         ("gis_" ++ format_number inter_score_max)
     else sel_ret tt) ;;~
    (if is_float inter_score_min then
       sel_filter mix inter_score_min_bool ;;~
       note_filter
         ("Genetic interaction score > " ++ format_number inter_score_min)
         ("gis_" ++ format_number inter_score_min)
     else sel_ret tt) ;;~
    (if no_flat_plus then
       sel_filter mix no_flat_plu_q_bool ;;~
       sel_filter mix no_flat_plu_a_bool ;;~
       note_filter "No plus-only (eg ++++++) profiles" "no_plus_flat"
     else sel_ret tt) ;;~
    (if no_flat_minus then
       sel_filter mix no_flat_min_q_bool ;;~
       sel_filter mix no_flat_min_a_bool ;;~
       note_filter "No minus-only (eg ------) profiles" "no_min_flat"
     else sel_ret tt) ;;~
    (if str_is process "identical" then
       sel_filter mix iden_proc_bool ;;~
       note_filter "Identical bioprocesses" "iden_proc"
     else if str_is process "different" then
       sel_filter mix diff_proc_bool ;;~
       note_filter "Different bioprocesses" "diff_proc"
     else sel_ret tt) ;;~
    (if str_is profiles "similar" then
       sel_filter mix sim_prof_bool_sel ;;~
       note_filter "Similar profiles" "sim_prof"
     else if str_is profiles "unsimilar" then
       sel_filter mix unsim_prof_bool_sel ;;~
       note_filter "Dissimilar profiles" "dis_prof"
     else sel_ret tt)))
        (mkSelection sp d0 fu fn npr)
      = (Ok tt,
         mkSelection sp
           (filter_rows
              (selected d0 sp DMF SMF_below_one inter_score_min
                 inter_score_max no_flat_plus no_flat_minus process profiles
                 prof_sim_lev) d0)
           (FList (selected_used format_number DMF SMF_below_one
                     inter_score_min inter_score_max no_flat_plus
                     no_flat_minus process profiles))
           (FList (selected_names format_number DMF SMF_below_one
                     inter_score_min inter_score_max no_flat_plus
                     no_flat_minus process profiles))
           npr)).
  { intros masks m1 m2 ps pu Hm Hps. rewrite Heads.
    erewrite sel_run_bind by reflexivity.
    erewrite sel_run_bind by reflexivity.
    erewrite sel_run_bind by (apply positive_DMF_run; eassumption).
    erewrite sel_run_bind by (apply negative_DMF_run; eassumption).
    do 10 (erewrite sel_run_bind by (apply Reads; eassumption)).
    erewrite sel_run_bind by exact Hm.
    cbn [fst snd self_inter_df self_query_species s0].
    rewrite !map_col, !mask_and_map.
    rewrite E0.
    rewrite (stage_either d0 sp npr HL HN).
    rewrite (stage_one d0 sp npr HL HN).
    rewrite (stage_one d0 sp npr HL HN).
    rewrite (stage_one d0 sp npr HL HN).
    rewrite (stage_two d0 sp npr HL HN).
    rewrite (stage_two d0 sp npr HL HN).
    rewrite (stage_either d0 sp npr HL HN).
    (* the last stage has nothing after it *)
    match goal with
    | |- (if ?c1 then ?F else if ?c2 then ?G else ?R) ?st = _ =>
        replace (if c1 then F else if c2 then G else R)
          with (if c1
                then sel_filter (index d0) (map ps (data d0)) ;;~
                     note_filter "Similar profiles" "sim_prof"
                else if c2
                then sel_filter (index d0) (map pu (data d0)) ;;~
                     note_filter "Dissimilar profiles" "dis_prof"
                else sel_ret tt)
    end.
    2:{ destruct (str_is profiles "similar") eqn:Es.
        - destruct (Hps (or_introl eq_refl)) as (-> & _ & _). reflexivity.
        - destruct (str_is profiles "unsimilar") eqn:Eu; [|reflexivity].
          destruct (Hps (or_intror eq_refl)) as (_ & -> & _). reflexivity. }
    match goal with
    | |- ?m ?st = _ =>
        replace (m st) with (sel_bind m (fun _ => sel_ret tt) st)
    end.
    2:{ unfold sel_bind, sel_ret.
        match goal with
        | |- match ?x with _ => _ end = _ =>
            destruct x as [[[]|e] s1]; reflexivity
        end. }
    rewrite (stage_either d0 sp npr HL HN).
    unfold sel_ret, selection_of. f_equal. f_equal.
    - apply filter_rows_ext. intros r _.
      unfold selected, cell_of. rewrite P0, P1, P2, P3, P4, P5, P6.
      cbn [andb].
      destruct (str_is profiles "similar") eqn:Es.
      + destruct (Hps (or_introl eq_refl)) as (_ & _ & Hr).
        destruct (Hr r) as [-> _]. unfold cell_of. reflexivity.
      + destruct (str_is profiles "unsimilar") eqn:Eu; [|reflexivity].
        destruct (Hps (or_intror eq_refl)) as (_ & _ & Hr).
        destruct (Hr r) as [_ ->]. unfold cell_of. reflexivity.
    - unfold selected_used. cbn [app]. now rewrite <- !app_assoc.
    - unfold selected_names. cbn [app]. now rewrite <- !app_assoc. }
  destruct profiles as [pr|]; destruct prof_sim_lev as [|t|t];
    try discriminate.
  - destruct (Hpss' ltac:(discriminate)) as [jP PP].
    eapply (Body _ _ _ (fun r => ge_num (NFloat t) (nth jP r VNaN))
                      (fun r => lt_num (NFloat t) (nth jP r VNaN))).
    + erewrite sel_run_bind by (apply Reads; exact PP).
      erewrite sel_run_bind by (apply Reads; exact PP).
      reflexivity.
    + intros _. rewrite !map_col. split; [reflexivity|].
      split; [reflexivity|]. intros r. unfold cell_of. rewrite PP. auto.
  - destruct (Hpss' ltac:(discriminate)) as [jP PP].
    eapply (Body _ _ _ (fun r => ge_num (NInt t) (nth jP r VNaN))
                      (fun r => lt_num (NInt t) (nth jP r VNaN))).
    + erewrite sel_run_bind by (apply Reads; exact PP).
      erewrite sel_run_bind by (apply Reads; exact PP).
      reflexivity.
    + intros _. rewrite !map_col. split; [reflexivity|].
      split; [reflexivity|]. intros r. unfold cell_of. rewrite PP. auto.
  - apply (Body _ [] [] (fun _ => true) (fun _ => true)); [reflexivity|].
    cbn. intros [H|H]; discriminate.
Qed.

End Selector_result.

(** ** [df_selector] *)

Lemma filter_rows_labelled (p : list cell -> bool) (d : DataFrame) :
  length (index (filter_rows p d)) = length (data (filter_rows p d)).
Proof. unfold filter_rows. cbn [index data]. now rewrite !length_map. Qed.

Lemma NoDup_map_fst_filter {A B : Type} (f : A * B -> bool)
  (l : list (A * B)) :
  NoDup (map fst l) -> NoDup (map fst (filter f l)).
Proof.
  induction l as [|x l IH]; cbn [map filter]; [auto|].
  intros N. inversion N as [|? ? Hx N']; subst.
  destruct (f x); [|auto]. cbn [map]. constructor; [|auto].
  intros H. apply Hx. apply in_map_iff in H. destruct H as [y [E Hy]].
  apply filter_In in Hy. apply in_map_iff. exists y. tauto.
Qed.

Lemma filter_rows_distinct (p : list cell -> bool) (d : DataFrame) :
  length (index d) = length (data d) ->
  NoDup (index d) -> NoDup (index (filter_rows p d)).
Proof.
  intros H N. unfold filter_rows. cbn [index].
  apply NoDup_map_fst_filter. now rewrite (map_fst_combine _ _ H).
Qed.

Lemma filter_rows_data (p : list cell -> bool) (d : DataFrame)
  (r : list cell) :
  length (index d) = length (data d) ->
  (In r (data (filter_rows p d)) <-> In r (data d) /\ p r = true).
Proof.
  intros H. unfold filter_rows. cbn [data]. rewrite in_map_iff. split.
  - intros [[i r'] [E Hx]]. cbn in E. subst r'.
    apply filter_In in Hx. destruct Hx as [Hx Hp]. split; [|exact Hp].
    apply (in_combine_r _ _ _ _ Hx).
  - intros [Hr Hp].
    rewrite <- (map_snd_combine _ _ H) in Hr. apply in_map_iff in Hr.
    destruct Hr as [[i r'] [E Hx]]. cbn in E. subst r'.
    exists (i, r). split; [reflexivity|]. apply filter_In. auto.
Qed.

Section Selector_theorems.

Variable format_number : pynum -> string.

(** X19.  On a table with distinct row labels that has the columns it reads,
    [df_selector] returns, and [inter_df] then refers to the rows that pass
    every filter asked for, in their order and with their labels: the masks,
    computed on the table as it was, are applied one after the other to what
    the earlier ones left.  A threshold of the interaction score that is not
    a float (an int, say) filters nothing, as does a value of [DMF],
    [process] or [profiles] other than the two the method knows.
    [filters_used] and [filters_name] list the filters applied, in a fixed
    order. *)
Theorem df_selector_selects (self : Selection) (DMF : option string)
  (SMF_below_one : bool) (inter_score_min inter_score_max : pynum)
  (no_flat_plus no_flat_minus : bool) (process profiles : option string)
  (prof_sim_lev : pynum) :
  selectable (self_inter_df self) profiles ->
  guard_passes profiles prof_sim_lev = true ->
  df_selector format_number DMF SMF_below_one inter_score_min
    inter_score_max no_flat_plus no_flat_minus process profiles
    prof_sim_lev self
  = (Ok tt,
     mkSelection (self_query_species self)
       (filter_rows
          (selected (self_inter_df self) (self_query_species self) DMF
             SMF_below_one inter_score_min inter_score_max no_flat_plus
             no_flat_minus process profiles prof_sim_lev)
          (self_inter_df self))
       (FList (selected_used format_number DMF SMF_below_one
                 inter_score_min inter_score_max no_flat_plus no_flat_minus
                 process profiles))
       (FList (selected_names format_number DMF SMF_below_one
                 inter_score_min inter_score_max no_flat_plus no_flat_minus
                 process profiles))
       (num_prop_res self)).
Proof.
  intros (HL & HN & Hc & _ & Hp) Hg.
  apply df_selector_run; auto. intros H. now apply Hp.
Qed.

(** X20.  [df_selector] is idempotent: a second call with the same arguments
    returns and leaves the instance as the first call left it. *)
Theorem df_selector_twice (self : Selection) (DMF : option string)
  (SMF_below_one : bool) (inter_score_min inter_score_max : pynum)
  (no_flat_plus no_flat_minus : bool) (process profiles : option string)
  (prof_sim_lev : pynum) :
  selectable (self_inter_df self) profiles ->
  guard_passes profiles prof_sim_lev = true ->
  let run := df_selector format_number DMF SMF_below_one inter_score_min
               inter_score_max no_flat_plus no_flat_minus process profiles
               prof_sim_lev in
  run (snd (run self)) = run self.
Proof.
  intros (HL & HN & Hc & _ & Hp) Hg run. unfold run.
  rewrite (df_selector_run format_number self); auto.
  2:{ intros H. now apply Hp. }
  cbn [snd].
  set (p := selected (self_inter_df self) (self_query_species self) DMF
              SMF_below_one inter_score_min inter_score_max no_flat_plus
              no_flat_minus process profiles prof_sim_lev).
  rewrite df_selector_run; cbn [self_inter_df self_query_species
                                num_prop_res].
  - f_equal. f_equal.
    rewrite (filter_rows_ext
               (selected (filter_rows p (self_inter_df self))
                  (self_query_species self) DMF SMF_below_one
                  inter_score_min inter_score_max no_flat_plus no_flat_minus
                  process profiles prof_sim_lev) p) by reflexivity.
    rewrite (filter_rows_twice p p _ HL).
    apply filter_rows_ext. intros r _. now destruct (p r).
  - apply filter_rows_labelled.
  - now apply filter_rows_distinct.
  - exact Hc.
  - intros H. now apply Hp.
  - exact Hg.
Qed.

End Selector_theorems.

Lemma example_selectable (profiles : option string) :
  selectable example_selection_df profiles.
Proof.
  split; [reflexivity|]. split.
  { cbn [example_selection_df index].
    repeat (constructor;
            [cbn; intros H; decompose [or] H; lia || contradiction|]).
    constructor. }
  split.
  { unfold selector_columns.
    repeat (apply Forall_cons; [cbn; auto 10|]). apply Forall_nil. }
  split.
  { repeat (apply Forall_cons;
            [intros r Hr; cbn in Hr; decompose [or] Hr; subst;
             try contradiction; exact I|]).
    apply Forall_nil. }
  intros _. split; [cbn; auto 10|].
  intros r Hr; cbn in Hr; decompose [or] Hr; subst; try contradiction;
    exact I.
Qed.

Lemma df_selector_selects_witness :
  (selectable (self_inter_df example_selection) (Some "similar") /\
   guard_passes (Some "similar") (NInt 1) = true) /\
  df_selector example_format (Some "positive") true NNone (NInt 5) false
    false None (Some "similar") (NInt 1) example_selection
  = (Ok tt,
     mkSelection (self_query_species example_selection)
       (filter_rows
          (selected (self_inter_df example_selection)
             (self_query_species example_selection) (Some "positive") true
             NNone (NInt 5) false false None (Some "similar") (NInt 1))
          (self_inter_df example_selection))
       (FList (selected_used example_format (Some "positive") true NNone
                 (NInt 5) false false None (Some "similar")))
       (FList (selected_names example_format (Some "positive") true NNone
                 (NInt 5) false false None (Some "similar")))
       (num_prop_res example_selection)).
Proof.
  split; [split; [apply example_selectable|reflexivity]|].
  apply (df_selector_selects example_format example_selection
           (Some "positive") true NNone (NInt 5) false false None
           (Some "similar") (NInt 1));
    [apply example_selectable|reflexivity].
Defined.

Lemma df_selector_twice_witness :
  (selectable (self_inter_df example_selection) None /\
   guard_passes None NNone = true) /\
  df_selector example_format (Some "negative") false NNone NNone true true
    (Some "different") None NNone
    (snd (df_selector example_format (Some "negative") false NNone NNone
            true true (Some "different") None NNone example_selection))
  = df_selector example_format (Some "negative") false NNone NNone true true
      (Some "different") None NNone example_selection.
Proof.
  split; [split; [apply example_selectable|reflexivity]|].
  apply (df_selector_twice example_format example_selection
           (Some "negative") false NNone NNone true true (Some "different")
           None NNone);
    [apply example_selectable|reflexivity].
Defined.

(** ** The errors of [df_selector] *)

Lemma positive_DMF_missing (self : Selection) :
  position (LStr "DMF") (columns (self_inter_df self)) = None \/
  position (LStr "SMF_Q") (columns (self_inter_df self)) = None \/
  position (LStr "SMF_A") (columns (self_inter_df self)) = None ->
  positive_DMF_bool self = (Raise KeyError, self).
Proof.
  intros H. unfold positive_DMF_bool, sel_bind, sel_column, column_values.
  destruct (position (LStr "DMF") (columns (self_inter_df self)));
    [|reflexivity].
  destruct (position (LStr "SMF_Q") (columns (self_inter_df self)));
    [|reflexivity].
  destruct (position (LStr "SMF_A") (columns (self_inter_df self)));
    [|reflexivity].
  destruct H as [H|[H|H]]; discriminate.
Qed.

Lemma not_in_position (l : label) (ls : list label) :
  ~ In l ls -> position l ls = None.
Proof.
  intros H. destruct (position l ls) as [j|] eqn:E; [|reflexivity].
  exfalso. apply H. apply position_lt in E. tauto.
Qed.

Section Selector_errors.

Variable format_number : pynum -> string.

(** X21.  The errors of [df_selector].  A threshold without [profiles], or
    [profiles] without a threshold, raises [ValueError] and leaves the
    instance as it was.  Past this check the two lists of filters are
    emptied and every mask is computed, whichever filters are asked for: a
    table that lacks one of the seven columns, or [PSS] when [profiles] is
    given, raises [KeyError], and the instance is left with its table and
    with empty lists of filters. *)
Theorem df_selector_errors (self : Selection) (DMF : option string)
  (SMF_below_one : bool) (inter_score_min inter_score_max : pynum)
  (no_flat_plus no_flat_minus : bool) (process profiles : option string)
  (prof_sim_lev : pynum) :
  let run := df_selector format_number DMF SMF_below_one inter_score_min
               inter_score_max no_flat_plus no_flat_minus process profiles
               prof_sim_lev in
  (profiles = None -> prof_sim_lev <> NNone ->
   run self = (Raise (ValueError "No value for profiles"), self)) /\
  (profiles <> None -> prof_sim_lev = NNone ->
   run self = (Raise (ValueError "No value for prof_sim_lev"), self)) /\
  (guard_passes profiles prof_sim_lev = true ->
   (exists c, In c selector_columns /\
              ~ In (LStr c) (columns (self_inter_df self))) ->
   run self = (Raise KeyError, filters_reset self)) /\
  (guard_passes profiles prof_sim_lev = true ->
   profiles <> None ->
   ~ In (LStr "PSS") (columns (self_inter_df self)) ->
   run self = (Raise KeyError, filters_reset self)).
Proof.
  intros run. unfold run. clear run.
  split; [|split; [|split]].
  - intros -> H. unfold df_selector.
    destruct prof_sim_lev; [contradiction|reflexivity|reflexivity].
  - intros H ->. unfold df_selector.
    destruct profiles; [reflexivity|contradiction].
  - intros Hg [c [Hc Hn]].
    apply not_in_position in Hn.
    assert (G : df_selector format_number DMF SMF_below_one inter_score_min
                  inter_score_max no_flat_plus no_flat_minus process profiles
                  prof_sim_lev self
                = (Raise KeyError, filters_reset self)).
    2:{ exact G. }
    unfold df_selector.
    destruct self as [sp d fu fn npr]. unfold filters_reset.
    cbn [self_inter_df self_query_species num_prop_res] in *.
    set (s0 := mkSelection sp d (FList []) (FList []) npr).
    assert (Heads : forall B (k : Sel B),
               sel_bind (set_filters_used (FList []))
                 (fun _ => sel_bind (set_filters_name (FList []))
                                    (fun _ => k))
                 (mkSelection sp d fu fn npr) = k s0) by reflexivity.
    assert (Reads : forall name,
               sel_column name s0
               = match position (LStr name) (columns d) with
                 | Some j => (Ok (col j (data d)), s0)
                 | None => (Raise KeyError, s0)
                 end).
    { intros name. unfold sel_column, column_values. cbn [self_inter_df s0].
      now destruct (position (LStr name) (columns d)). }
    assert (Body : forall B (rest : list bool -> list bool -> list cell ->
                                    list cell -> list cell -> list cell ->
                                    list cell -> list cell -> list cell ->
                                    list cell -> list cell -> list cell ->
                                    Sel B),
      (positive_DMF <~ positive_DMF_bool ;;
       negative_DMF <~ negative_DMF_bool ;;
       smf_q <~ sel_column "SMF_Q" ;;
       smf_a <~ sel_column "SMF_A" ;;
       gis <~ sel_column "GIS" ;;
       gis' <~ sel_column "GIS" ;;
       prof_q <~ sel_column "PROF_Q" ;;
       prof_q' <~ sel_column "PROF_Q" ;;
       prof_a <~ sel_column "PROF_A" ;;
       prof_a' <~ sel_column "PROF_A" ;;
       bss <~ sel_column "BSS" ;;
       bss' <~ sel_column "BSS" ;;
       rest positive_DMF negative_DMF smf_q smf_a gis gis' prof_q prof_q'
            prof_a prof_a' bss bss') s0
      = (Raise KeyError, s0)).
    { intros B rest.
      destruct (position (LStr "DMF") (columns d)) as [jD|] eqn:PD.
      2:{ apply sel_run_raise. apply positive_DMF_missing. auto. }
      destruct (position (LStr "SMF_Q") (columns d)) as [jQ|] eqn:PQ.
      2:{ apply sel_run_raise. apply positive_DMF_missing. auto. }
      destruct (position (LStr "SMF_A") (columns d)) as [jA|] eqn:PA.
      2:{ apply sel_run_raise. apply positive_DMF_missing. auto. }
      erewrite sel_run_bind by (apply positive_DMF_run; eassumption).
      erewrite sel_run_bind by (apply negative_DMF_run; eassumption).
      erewrite sel_run_bind by (rewrite Reads, PQ; reflexivity).
      erewrite sel_run_bind by (rewrite Reads, PA; reflexivity).
      destruct (position (LStr "GIS") (columns d)) as [jG|] eqn:PG.
      2:{ apply sel_run_raise. now rewrite Reads, PG. }
      erewrite sel_run_bind by (rewrite Reads, PG; reflexivity).
      erewrite sel_run_bind by (rewrite Reads, PG; reflexivity).
      destruct (position (LStr "PROF_Q") (columns d)) as [jPQ|] eqn:PPQ.
      2:{ apply sel_run_raise. now rewrite Reads, PPQ. }
      erewrite sel_run_bind by (rewrite Reads, PPQ; reflexivity).
      erewrite sel_run_bind by (rewrite Reads, PPQ; reflexivity).
      destruct (position (LStr "PROF_A") (columns d)) as [jPA|] eqn:PPA.
      2:{ apply sel_run_raise. now rewrite Reads, PPA. }
      erewrite sel_run_bind by (rewrite Reads, PPA; reflexivity).
      erewrite sel_run_bind by (rewrite Reads, PPA; reflexivity).
      destruct (position (LStr "BSS") (columns d)) as [jB|] eqn:PB.
      2:{ apply sel_run_raise. now rewrite Reads, PB. }
      exfalso. unfold selector_columns in Hc. cbn [In] in Hc.
      decompose [or] Hc; subst; try contradiction; congruence. }
    destruct profiles as [pr|]; destruct prof_sim_lev as [|t|t];
      try discriminate; rewrite Heads;
      (erewrite sel_run_bind by reflexivity);
      (erewrite sel_run_bind by reflexivity);
      cbn [self_inter_df self_query_species s0];
      apply (Body unit (fun _ _ _ _ _ _ _ _ _ _ _ _ => _)).
  - intros Hg Hp Hn. apply not_in_position in Hn.
    unfold df_selector.
    destruct self as [sp d fu fn npr]. unfold filters_reset.
    cbn [self_inter_df self_query_species num_prop_res] in *.
    set (s0 := mkSelection sp d (FList []) (FList []) npr).
    assert (Heads : forall B (k : Sel B),
               sel_bind (set_filters_used (FList []))
                 (fun _ => sel_bind (set_filters_name (FList []))
                                    (fun _ => k))
                 (mkSelection sp d fu fn npr) = k s0) by reflexivity.
    assert (Chain : forall (B C : Type) (m : Sel B) (f : B -> Sel C),
               (exists b, m s0 = (Ok b, s0) /\ f b s0 = (Raise KeyError, s0))
               \/ m s0 = (Raise KeyError, s0) ->
               sel_bind m f s0 = (Raise KeyError, s0)).
    { intros B C m f [[b [H1 H2]]|H1].
      - now erewrite sel_run_bind by exact H1.
      - now apply sel_run_raise. }
    assert (Col : forall name,
               (exists vs, sel_column name s0 = (Ok vs, s0)) \/
               sel_column name s0 = (Raise KeyError, s0)).
    { intros name. unfold sel_column, column_values. cbn [self_inter_df s0].
      destruct (position (LStr name) (columns d)); eauto. }
    assert (Pos : (exists m, positive_DMF_bool s0 = (Ok m, s0)) \/
                  positive_DMF_bool s0 = (Raise KeyError, s0)).
    { unfold positive_DMF_bool, sel_bind, sel_column, column_values.
      cbn [self_inter_df s0].
      destruct (position (LStr "DMF") (columns d)); [|auto].
      destruct (position (LStr "SMF_Q") (columns d)); [|auto].
      destruct (position (LStr "SMF_A") (columns d)); [|auto].
      left. eexists. reflexivity. }
    assert (Neg : (exists m, negative_DMF_bool s0 = (Ok m, s0)) \/
                  negative_DMF_bool s0 = (Raise KeyError, s0)).
    { unfold negative_DMF_bool, sel_bind, sel_column, column_values.
      cbn [self_inter_df s0].
      destruct (position (LStr "DMF") (columns d)); [|auto].
      destruct (position (LStr "SMF_Q") (columns d)); [|auto].
      destruct (position (LStr "SMF_A") (columns d)); [|auto].
      left. eexists. reflexivity. }
    destruct profiles as [pr|]; [|contradiction].
    destruct prof_sim_lev as [|t|t]; try discriminate; rewrite Heads;
      (erewrite sel_run_bind by reflexivity);
      (erewrite sel_run_bind by reflexivity);
      cbn [self_inter_df self_query_species s0].
    all: apply Chain; destruct Pos as [[m E]|E]; [left; exists m|auto];
      split; [exact E|].
    all: apply Chain; destruct Neg as [[m' E']|E']; [left; exists m'|auto];
      split; [exact E'|].
    all: do 10 (apply Chain;
                match goal with
                | |- (exists b, sel_column ?n _ = _ /\ _) \/ _ =>
                    let vs := fresh "vs" in
                    let Ev := fresh "Ev" in
                    destruct (Col n) as [[vs Ev]|Ev];
                    [left; exists vs; split; [exact Ev|]|auto]
                end).
    all: apply sel_run_raise; apply sel_run_raise;
      unfold sel_column, column_values; cbn [self_inter_df s0];
      now rewrite Hn.
Qed.

End Selector_errors.

(** ** [df_num_prop] *)

Lemma count_true_map {A : Type} (f : A -> bool) (l : list A) :
  count_true (map f l) = Z.of_nat (length (filter f l)).
Proof.
  unfold count_true. f_equal.
  induction l as [|x l IH]; [reflexivity|]. cbn [map filter].
  destruct (f x); cbn [length]; now rewrite IH.
Qed.

Lemma masks_of_classes (lev : pynum) (q : Q) (pss : list cell) :
  num_value lev = Some q ->
  count_true (map (ge_num lev) pss)
  = sim_prof_perm_num (classify q pss) /\
  count_true (mask_and (map (lt_num lev) pss) (map (gt_num (NInt 0)) pss))
  = unsim_prof_perm_num (classify q pss) /\
  count_true (map (fun c => match num_of_cell c with
                            | Some v => Qeq_bool v 0
                            | None => false
                            end) pss)
  = mir_prof_perm_num (classify q pss).
Proof.
  intros H. unfold classify, count_mask.
  cbn [sim_prof_perm_num unsim_prof_perm_num mir_prof_perm_num].
  rewrite mask_and_map, !count_true_map. repeat split.
  - do 2 f_equal. apply filter_ext. intros c.
    unfold ge_num, sim_prof_bool. rewrite H. reflexivity.
  - do 2 f_equal. apply filter_ext. intros c.
    unfold lt_num, gt_num, unsim_prof_bool. rewrite H. cbn [num_value].
    destruct (num_of_cell c); reflexivity.
Qed.

Lemma disjoint_masks_count {A : Type} (f g : A -> bool) (l : list A) :
  (forall x, f x && g x = false) ->
  Z.of_nat (length (filter f l)) + Z.of_nat (length (filter g l))
  <= Z.of_nat (length l).
Proof.
  intros H. induction l as [|x l IH]; [cbn; lia|]. cbn [filter].
  specialize (H x). destruct (f x), (g x); cbn [length] in *;
    try discriminate; lia.
Qed.

Lemma cell_gt_asym (a b : cell) : cell_gt a b && cell_gt b a = false.
Proof.
  unfold cell_gt. destruct (num_of_cell a) as [x|], (num_of_cell b) as [y|];
    try reflexivity.
  destruct (Qle_bool x y) eqn:E1, (Qle_bool y x) eqn:E2; try reflexivity.
  exfalso.
  assert (~ (x <= y)%Q) by (intros G; apply Qle_bool_iff in G; congruence).
  assert (~ (y <= x)%Q) by (intros G; apply Qle_bool_iff in G; congruence).
  destruct (Qlt_le_dec x y) as [L|L]; [apply Qlt_le_weak in L|]; tauto.
Qed.

Section Num_prop.

Variable format_number : pynum -> string.
Variable value_counts : list cell -> list (cell * Z).

Lemma df_num_prop_run (lev : pynum) (self : Selection)
  (jD jQ jA jP : nat) :
  let d := self_inter_df self in
  position (LStr "DMF") (columns d) = Some jD ->
  position (LStr "SMF_Q") (columns d) = Some jQ ->
  position (LStr "SMF_A") (columns d) = Some jA ->
  position (LStr "PSS") (columns d) = Some jP ->
  let pos := count_true
               (map (fun r => cell_gt (nth jD r VNaN) (nth jQ r VNaN)
                              && cell_gt (nth jD r VNaN) (nth jA r VNaN))
                    (data d)) in
  let neg := count_true
               (map (fun r => cell_lt_b (nth jD r VNaN) (nth jQ r VNaN)
                              && cell_lt_b (nth jD r VNaN) (nth jA r VNaN))
                    (data d)) in
  let pss := col jP (data d) in
  df_num_prop format_number value_counts lev self
  = (Ok tt,
     match lev with
     | NNone =>
         mkSelection (self_query_species self) d
           (FList (filters_list (filters_used self)))
           (FList (filters_list (filters_name self)))
           (Some (mkNum_prop (len d) pos neg None None None
                             (value_counts pss)))
     | _ =>
         mkSelection (self_query_species self) d
           (FList (filters_list (filters_used self)
                   ++ [("Profiles similarity threshold: "
                        ++ format_number lev)%string]))
           (FList (filters_list (filters_name self)
                   ++ [("prof_sim_th_" ++ format_number lev)%string]))
           (Some (mkNum_prop (len d) pos neg
                    (Some (count_true (map (ge_num lev) pss)))
                    (Some (count_true
                             (mask_and (map (lt_num lev) pss)
                                       (map (gt_num (NInt 0)) pss))))
                    (Some (count_true
                             (map (fun c => match num_of_cell c with
                                            | Some v => Qeq_bool v 0
                                            | None => false
                                            end) pss)))
                    (value_counts pss)))
     end).
Proof.
  intros d PD PQ PA PP pos neg pss.
  destruct self as [sp d0 fu fn npr]. cbn [self_inter_df] in d. subst d.
  cbn [self_query_species filters_used filters_name] in *.
  unfold df_num_prop.
  set (s1 := mkSelection sp d0 (FList (filters_list fu))
                         (FList (filters_list fn)) npr).
  assert (Heads : forall B (k : Sel B),
    (fu0 <~ (fun self => (Ok (filters_used self), self)) ;;
     match fu0 with
     | FStr _ => set_filters_used (FList [])
     | FList _ => sel_ret tt
     end ;;~
     fn0 <~ (fun self => (Ok (filters_name self), self)) ;;
     match fn0 with
     | FStr _ => set_filters_name (FList [])
     | FList _ => sel_ret tt
     end ;;~ k) (mkSelection sp d0 fu fn npr) = k s1).
  { intros B k. destruct fu, fn; reflexivity. }
  rewrite Heads.
  erewrite sel_run_bind by (apply positive_DMF_run; eassumption).
  erewrite sel_run_bind by (apply negative_DMF_run; eassumption).
  do 4 (erewrite sel_run_bind by (apply sel_column_run; exact PP)).
  erewrite sel_run_bind by reflexivity.
  erewrite sel_run_bind by (apply sel_column_run; exact PP).
  cbn [self_inter_df s1]. fold pos neg pss.
  destruct lev; reflexivity.
Qed.

(** X22.  With a threshold, [df_num_prop] returns on a table that has the
    columns [DMF], [SMF_Q], [SMF_A] and [PSS]: [total] is the number of
    rows, the numbers of similar, dissimilar and mirror profiles are those a
    permutation trial counts on the same scores, the rows with a positive
    and with a negative DMF are disjoint, and the threshold is appended to
    the two lists of filters, which replace the strings of [__init__]; the
    table stays. *)
Theorem df_num_prop_counts (lev : pynum) (q : Q) (self : Selection) :
  let d := self_inter_df self in
  Forall (fun c => In (LStr c) (columns d))
         ["DMF"; "SMF_Q"; "SMF_A"; "PSS"] ->
  Forall (numbers_in d) ["DMF"; "SMF_Q"; "SMF_A"; "PSS"] ->
  num_value lev = Some q ->
  exists pss pos neg,
    column_values d (LStr "PSS") = Ok pss /\
    df_num_prop format_number value_counts lev self
    = (Ok tt,
       mkSelection (self_query_species self) d
         (FList (filters_list (filters_used self)
                 ++ [("Profiles similarity threshold: "
                      ++ format_number lev)%string]))
         (FList (filters_list (filters_name self)
                 ++ [("prof_sim_th_" ++ format_number lev)%string]))
         (Some (mkNum_prop (len d) pos neg
                  (Some (sim_prof_perm_num (classify q pss)))
                  (Some (unsim_prof_perm_num (classify q pss)))
                  (Some (mir_prof_perm_num (classify q pss)))
                  (value_counts pss)))) /\
    0 <= pos /\ 0 <= neg /\ pos + neg <= len d.
Proof.
  intros d Hc _ Hq.
  repeat match goal with
         | H : Forall _ (_ :: _) |- _ =>
             apply Forall_cons_iff in H; destruct H as [? H]
         end.
  repeat match goal with
         | H : In (LStr ?c) (columns d) |- _ =>
             let j := fresh "j" in
             let P := fresh "P" in
             destruct (position_of_mem _ _ H) as [j P]; clear H
         end.
  rename j into jP, j0 into jA, j1 into jQ, j2 into jD.
  pose proof (df_num_prop_run lev self jD jQ jA jP P3 P2 P1 P0) as R.
  cbv zeta in R. fold d in R.
  destruct (masks_of_classes lev q (col jP (data d)) Hq) as (E1 & E2 & E3).
  rewrite E1, E2, E3 in R.
  eexists (col jP (data d)), _, _.
  split; [unfold column_values; fold d; now rewrite P0|].
  split.
  - rewrite R. destruct lev; [discriminate|reflexivity|reflexivity].
  - rewrite !count_true_map. split; [lia|]. split; [lia|].
    unfold len. apply disjoint_masks_count. intros r.
    unfold cell_lt_b.
    pose proof (cell_gt_asym (nth jD r VNaN) (nth jQ r VNaN)) as G.
    destruct (cell_gt (nth jD r VNaN) (nth jQ r VNaN)),
             (cell_gt (nth jQ r VNaN) (nth jD r VNaN));
      cbn [andb] in *; try discriminate; try reflexivity;
      now rewrite ?andb_false_r.
Qed.

End Num_prop.

Lemma filter_all {A : Type} (f : A -> bool) (l : list A) :
  (forall x, In x l -> f x = true) -> filter f l = l.
Proof.
  induction l as [|x l IH]; intros H; [reflexivity|]. cbn [filter].
  rewrite (H x (or_introl eq_refl)). f_equal. apply IH.
  intros y Hy. apply H. now right.
Qed.

Lemma filter_none {A : Type} (f : A -> bool) (l : list A) :
  (forall x, In x l -> f x = false) -> filter f l = [].
Proof.
  induction l as [|x l IH]; intros H; [reflexivity|]. cbn [filter].
  rewrite (H x (or_introl eq_refl)). apply IH.
  intros y Hy. apply H. now right.
Qed.

Section Selection_then_counts.

Variable format_number : pynum -> string.
Variable value_counts : list cell -> list (cell * Z).

(** X23.  [df_selector] with [profiles="similar"] and a threshold above 0,
    followed by [df_num_prop] with the same threshold: every row left is
    counted as similar, none as dissimilar or mirror. *)
Theorem similar_selection_counts_similar (self : Selection)
  (DMF : option string) (SMF_below_one : bool)
  (inter_score_min inter_score_max : pynum)
  (no_flat_plus no_flat_minus : bool) (process : option string)
  (lev : pynum) (q : Q) :
  selectable (self_inter_df self) (Some "similar") ->
  num_value lev = Some q ->
  (0 < q)%Q ->
  let self1 :=
    snd (df_selector format_number DMF SMF_below_one inter_score_min
           inter_score_max no_flat_plus no_flat_minus process
           (Some "similar") lev self) in
  exists pos neg,
    fst (df_num_prop format_number value_counts lev self1) = Ok tt /\
    num_prop_res (snd (df_num_prop format_number value_counts lev self1))
    = Some (mkNum_prop (len (self_inter_df self1)) pos neg
              (Some (len (self_inter_df self1))) (Some 0) (Some 0)
              (value_counts
                 (map (cell_of (self_inter_df self) "PSS")
                      (data (self_inter_df self1))))).
Proof.
  intros Hs Hq Hpos self1.
  assert (Hg : guard_passes (Some "similar") lev = true).
  { destruct lev; [discriminate|reflexivity|reflexivity]. }
  pose proof (df_selector_run format_number self DMF SMF_below_one
                inter_score_min inter_score_max no_flat_plus no_flat_minus
                process (Some "similar") lev) as R.
  cbv zeta in R.
  destruct Hs as (HL & HN & Hc & _ & Hp).
  destruct (Hp ltac:(discriminate)) as [HP _].
  specialize (R HL HN Hc (fun _ => HP) Hg).
  unfold self1. rewrite R. cbn [snd]. clear self1 R.
  set (p := selected (self_inter_df self) (self_query_species self) DMF
              SMF_below_one inter_score_min inter_score_max no_flat_plus
              no_flat_minus process (Some "similar") lev).
  set (d := self_inter_df self) in *.
  set (d1 := filter_rows p d).
  unfold selector_columns in Hc.
  repeat match goal with
         | H : Forall _ (_ :: _) |- _ =>
             apply Forall_cons_iff in H; destruct H as [? H]
         end.
  repeat match goal with
         | H : In (LStr ?c) (columns d) |- _ =>
             let j := fresh "j" in
             let P := fresh "P" in
             destruct (position_of_mem _ _ H) as [j P]; clear H
         end.
  rename j into jP.
  pose proof (df_num_prop_run format_number value_counts lev
                (mkSelection (self_query_species self) d1
                   (FList (selected_used format_number DMF SMF_below_one
                             inter_score_min inter_score_max no_flat_plus
                             no_flat_minus process (Some "similar")))
                   (FList (selected_names format_number DMF SMF_below_one
                             inter_score_min inter_score_max no_flat_plus
                             no_flat_minus process (Some "similar")))
                   (num_prop_res self))
                j6 j5 j4 jP P7 P6 P5 P0) as R.
  cbv zeta in R. cbn [self_inter_df self_query_species filters_used
                      filters_name filters_list] in R.
  rewrite R. clear R. cbn [fst snd self_inter_df].
  assert (Hrow : forall r, In r (data d1) ->
                           ge_num lev (nth jP r VNaN) = true).
  { intros r Hr. apply (filter_rows_data p d r HL) in Hr.
    destruct Hr as [_ Hr]. unfold p, selected in Hr.
    cbn [str_is String.eqb Ascii.eqb Bool.eqb] in Hr.
    apply andb_true_iff in Hr. destruct Hr as [_ Hr].
    unfold cell_of in Hr. now rewrite P0 in Hr. }
  assert (Hcells : forall c, In c (col jP (data d1)) ->
                             ge_num lev c = true).
  { intros c Hc0. unfold col in Hc0. apply in_map_iff in Hc0.
    destruct Hc0 as [r [<- Hr]]. now apply Hrow. }
  assert (Hv : forall c, ge_num lev c = true ->
                 exists v, num_of_cell c = Some v /\ (q <= v)%Q).
  { intros c Hc0. unfold ge_num in Hc0. rewrite Hq in Hc0.
    destruct (num_of_cell c) as [v|]; [|discriminate].
    exists v. split; [reflexivity|]. now apply Qle_bool_iff. }
  eexists _, _. split; [destruct lev; [discriminate| |]; reflexivity|].
  assert (E1 : count_true (map (ge_num lev) (col jP (data d1))) = len d1).
  { rewrite count_true_map, (filter_all _ _ Hcells). unfold col, len.
    now rewrite length_map. }
  assert (E2 : count_true (mask_and (map (lt_num lev) (col jP (data d1)))
                             (map (gt_num (NInt 0)) (col jP (data d1))))
               = 0).
  { rewrite mask_and_map, count_true_map, filter_none; [reflexivity|].
    intros c Hc0. destruct (Hv c (Hcells c Hc0)) as [v [Ev Lv]].
    unfold lt_num. rewrite Ev, Hq.
    apply Qle_bool_iff in Lv. now rewrite Lv. }
  assert (E3 : count_true (map (fun c => match num_of_cell c with
                                         | Some v => Qeq_bool v 0
                                         | None => false
                                         end) (col jP (data d1))) = 0).
  { rewrite count_true_map, filter_none; [reflexivity|].
    intros c Hc0. destruct (Hv c (Hcells c Hc0)) as [v [Ev Lv]].
    rewrite Ev. destruct (Qeq_bool v 0) eqn:E; [|reflexivity].
    apply Qeq_bool_iff in E. rewrite E in Lv.
    exfalso. exact (Qlt_not_le _ _ Hpos Lv). }
  assert (E4 : col jP (data d1) = map (cell_of d "PSS") (data d1)).
  { unfold col, cell_of. now rewrite P0. }
  destruct lev; [discriminate| |];
    cbn [num_prop_res]; rewrite E1, E2, E3, E4; reflexivity.
Qed.

End Selection_then_counts.

Lemma similar_selection_counts_similar_witness :
  exists pos neg,
    fst (df_num_prop example_format example_value_counts (NInt 1)
           (snd (df_selector example_format None false NNone NNone false
                   false None (Some "similar") (NInt 1) example_selection)))
    = Ok tt /\
    num_prop_res
      (snd (df_num_prop example_format example_value_counts (NInt 1)
              (snd (df_selector example_format None false NNone NNone false
                      false None (Some "similar") (NInt 1)
                      example_selection))))
    = Some (mkNum_prop
              (len (self_inter_df
                      (snd (df_selector example_format None false NNone
                              NNone false false None (Some "similar")
                              (NInt 1) example_selection))))
              pos neg
              (Some (len (self_inter_df
                            (snd (df_selector example_format None false
                                    NNone NNone false false None
                                    (Some "similar") (NInt 1)
                                    example_selection)))))
              (Some 0) (Some 0)
              (example_value_counts
                 (map (cell_of (self_inter_df example_selection) "PSS")
                      (data (self_inter_df
                               (snd (df_selector example_format None false
                                       NNone NNone false false None
                                       (Some "similar") (NInt 1)
                                       example_selection))))))).
Proof.
  apply (similar_selection_counts_similar example_format
           example_value_counts example_selection None false NNone NNone
           false false None (NInt 1) 1).
  - apply example_selectable.
  - reflexivity.
  - reflexivity.
Defined.

Lemma df_num_prop_counts_witness :
  exists pss pos neg,
    column_values (self_inter_df example_selection) (LStr "PSS") = Ok pss /\
    df_num_prop example_format example_value_counts (NInt 1)
      example_selection
    = (Ok tt,
       mkSelection (self_query_species example_selection)
         (self_inter_df example_selection)
         (FList (filters_list (filters_used example_selection)
                 ++ [("Profiles similarity threshold: "
                      ++ example_format (NInt 1))%string]))
         (FList (filters_list (filters_name example_selection)
                 ++ [("prof_sim_th_" ++ example_format (NInt 1))%string]))
         (Some (mkNum_prop (len (self_inter_df example_selection)) pos neg
                  (Some (sim_prof_perm_num (classify 1 pss)))
                  (Some (unsim_prof_perm_num (classify 1 pss)))
                  (Some (mir_prof_perm_num (classify 1 pss)))
                  (example_value_counts pss)))) /\
    0 <= pos /\ 0 <= neg /\ pos + neg <= len (self_inter_df example_selection).
Proof.
  apply (df_num_prop_counts example_format example_value_counts (NInt 1) 1
           example_selection).
  - repeat (apply Forall_cons; [cbn; auto 10|]). apply Forall_nil.
  - repeat (apply Forall_cons;
            [intros r Hr; cbn in Hr; decompose [or] Hr; subst;
             try contradiction; exact I|]).
    apply Forall_nil.
  - reflexivity.
Defined.

(** ** The duplicates of [get_org_db_X_ref] *)

Lemma occurrences_cons (j : nat) (c : cell) (r : list cell)
  (rows : list (list cell)) :
  occurrences j c (r :: rows)
  = ((if cell_eqb c (nth j r VNaN) then 1 else 0) + occurrences j c rows)%nat.
Proof.
  unfold occurrences. cbn [filter].
  destruct (cell_eqb c (nth j r VNaN)); reflexivity.
Qed.

Lemma occurrences_none (j : nat) (c : cell) (rows : list (list cell)) :
  occurrences j c rows = O -> ~ In c (col j rows).
Proof.
  induction rows as [|r rows IH]; [intros _ []|].
  rewrite occurrences_cons. unfold col. cbn [map In].
  destruct (cell_eqb c (nth j r VNaN)) eqn:E; [discriminate|].
  intros H [H1|H1].
  - subst c. rewrite cell_eqb_refl in E. discriminate.
  - now apply IH.
Qed.

(** The rows that hold a value found once, counting [g] occurrences
    elsewhere, hold distinct values. *)
Lemma once_distinct (j : nat) (g : cell -> nat) (rows : list (list cell)) :
  NoDup (col j (filter (fun r => (g (nth j r VNaN)
                                  + occurrences j (nth j r VNaN) rows
                                  =? 1)%nat) rows)).
Proof.
  revert g. induction rows as [|a rows IH]; intros g; [constructor|].
  cbn [filter].
  assert (E : filter (fun r => (g (nth j r VNaN)
                                + occurrences j (nth j r VNaN) (a :: rows)
                                =? 1)%nat) rows
              = filter (fun r =>
                          ((g (nth j r VNaN)
                            + (if cell_eqb (nth j r VNaN) (nth j a VNaN)
                               then 1 else 0))
                           + occurrences j (nth j r VNaN) rows =? 1)%nat)
                       rows).
  { apply filter_ext. intros r. rewrite occurrences_cons. f_equal. lia. }
  rewrite E. clear E.
  pose proof (IH (fun c => (g c + (if cell_eqb c (nth j a VNaN)
                                   then 1 else 0))%nat)) as N.
  cbv beta in N.
  destruct (g (nth j a VNaN) + occurrences j (nth j a VNaN) (a :: rows)
            =? 1)%nat eqn:Ka; [|exact N].
  unfold col. cbn [map]. constructor; [|exact N].
  intros H. apply in_map_iff in H. destruct H as [r [Er Hr]].
  apply filter_In in Hr. destruct Hr as [Hr _].
  apply Nat.eqb_eq in Ka. rewrite occurrences_cons, cell_eqb_refl in Ka.
  assert (Z0 : occurrences j (nth j a VNaN) rows = O) by lia.
  apply (occurrences_none _ _ _ Z0). unfold col. apply in_map_iff.
  now exists r.
Qed.

Lemma NoDup_col_filter (j : nat) (f : list cell -> bool)
  (rows : list (list cell)) :
  NoDup (col j rows) -> NoDup (col j (filter f rows)).
Proof.
  unfold col. induction rows as [|r rows IH]; cbn [map filter]; [auto|].
  intros N. inversion N as [|? ? Hx N']; subst.
  destruct (f r); [|auto]. cbn [map]. constructor; [|auto].
  intros H. apply Hx. apply in_map_iff in H. destruct H as [y [E Hy]].
  apply filter_In in Hy. apply in_map_iff. exists y. tauto.
Qed.

Lemma map_snd_filter_combine {A B : Type} (f : B -> bool) (a : list A)
  (b : list B) :
  length a = length b ->
  map snd (filter (fun x => f (snd x)) (combine a b)) = filter f b.
Proof.
  revert b. induction a as [|x a IH]; intros [|y b] H; try discriminate;
    [reflexivity|]. cbn [combine filter snd].
  destruct (f y); cbn [map snd]; [f_equal|]; apply IH; cbn in H; lia.
Qed.

Lemma filter_filter_le {A : Type} (f g : A -> bool) (l : list A) :
  (length (filter g (filter f l)) <= length (filter g l))%nat.
Proof.
  induction l as [|x l IH]; [cbn; lia|]. cbn [filter].
  destruct (f x); cbn [filter]; destruct (g x); cbn [length]; lia.
Qed.

Lemma drop_duplicates_keep_false_data (col0 : label) (j : nat)
  (d : DataFrame) :
  position col0 (columns d) = Some j ->
  length (index d) = length (data d) ->
  exists d',
    drop_duplicates_keep_false col0 d = Ok d' /\
    columns d' = columns d /\
    length (index d') = length (data d') /\
    data d' = filter (fun r => (occurrences j (nth j r VNaN) (data d)
                                =? 1)%nat) (data d).
Proof.
  intros P L. unfold drop_duplicates_keep_false, position_or. rewrite P.
  cbn [rbind]. eexists. split; [reflexivity|]. cbn [columns index data].
  split; [reflexivity|]. split; [now rewrite !length_map|].
  now rewrite (map_snd_filter_combine
                 (fun r => (occurrences j (nth j r VNaN) (data d) =? 1)%nat)
                 _ _ L).
Qed.

(** X24.  With [drop_duplicates], [get_org_db_X_ref] leaves a table in which
    no [ORF_ID] and no [KEGG_ID] occurs twice.  A row stays exactly when its
    [ORF_ID] occurs once in the table read and its [KEGG_ID] once among the
    rows with such an [ORF_ID]; a row whose two identifiers both occur once
    in the table read stays. *)
Theorem get_org_db_X_ref_one_to_one (d : DataFrame) :
  X_ref_table d ->
  exists d',
    get_org_db_X_ref_duplicates true d = Ok d' /\
    NoDup (col 0 (data d')) /\
    NoDup (col 1 (data d')) /\
    (forall r, In r (data d') <->
               In r (data d) /\
               occurrences 0 (nth 0 r VNaN) (data d) = 1%nat /\
               occurrences 1 (nth 1 r VNaN)
                 (filter (fun r' => (occurrences 0 (nth 0 r' VNaN) (data d)
                                     =? 1)%nat) (data d)) = 1%nat) /\
    (forall r, In r (data d) ->
               occurrences 0 (nth 0 r VNaN) (data d) = 1%nat ->
               occurrences 1 (nth 1 r VNaN) (data d) = 1%nat ->
               In r (data d')).
Proof.
  intros (Hc & HL & _).
  destruct (drop_duplicates_keep_false_data (LStr "ORF_ID") 0 d)
    as (d1 & E1 & C1 & L1 & D1); [now rewrite Hc|exact HL|].
  destruct (drop_duplicates_keep_false_data (LStr "KEGG_ID") 1 d1)
    as (d2 & E2 & C2 & L2 & D2); [now rewrite C1, Hc|exact L1|].
  exists d2. unfold get_org_db_X_ref_duplicates. rewrite E1. cbn [rbind].
  split; [exact E2|].
  assert (N1 : NoDup (col 0 (data d1))).
  { rewrite D1. apply (once_distinct 0 (fun _ => O)). }
  assert (Iff : forall r, In r (data d2) <->
               In r (data d) /\
               occurrences 0 (nth 0 r VNaN) (data d) = 1%nat /\
               occurrences 1 (nth 1 r VNaN) (data d1) = 1%nat).
  { intros r. rewrite D2, filter_In, D1, filter_In, !Nat.eqb_eq.
    rewrite <- D1. tauto. }
  split; [rewrite D2; now apply NoDup_col_filter|].
  split; [rewrite D2; apply (once_distinct 1 (fun _ => O))|].
  split; [intros r; rewrite Iff, D1; reflexivity|].
  intros r Hr H0 H1. apply Iff. split; [exact Hr|]. split; [exact H0|].
  assert (In1 : In r (data d1)).
  { rewrite D1. apply filter_In. split; [exact Hr|now apply Nat.eqb_eq]. }
  assert (Le : (occurrences 1 (nth 1 r VNaN) (data d1)
                <= occurrences 1 (nth 1 r VNaN) (data d))%nat).
  { rewrite D1. unfold occurrences. apply filter_filter_le. }
  assert (Ge : (1 <= occurrences 1 (nth 1 r VNaN) (data d1))%nat).
  { unfold occurrences.
    assert (Hin : In r (filter (fun r0 => cell_eqb (nth 1 r VNaN)
                                                   (nth 1 r0 VNaN))
                               (data d1))).
    { apply filter_In. split; [exact In1|apply cell_eqb_refl]. }
    revert Hin.
    generalize (filter (fun r0 => cell_eqb (nth 1 r VNaN) (nth 1 r0 VNaN))
                       (data d1)).
    intros [|x l] Hin; [destruct Hin|cbn; lia]. }
  lia.
Qed.

Lemma example_X_ref_table : X_ref_table example_X_ref.
Proof. split; [reflexivity|]. split; [reflexivity|]. repeat constructor. Qed.

Lemma get_org_db_X_ref_one_to_one_witness :
  exists d',
    get_org_db_X_ref_duplicates true example_X_ref = Ok d' /\
    NoDup (col 0 (data d')) /\
    NoDup (col 1 (data d')) /\
    (forall r, In r (data d') <->
               In r (data example_X_ref) /\
               occurrences 0 (nth 0 r VNaN) (data example_X_ref) = 1%nat /\
               occurrences 1 (nth 1 r VNaN)
                 (filter (fun r' =>
                            (occurrences 0 (nth 0 r' VNaN)
                               (data example_X_ref) =? 1)%nat)
                         (data example_X_ref)) = 1%nat) /\
    (forall r, In r (data example_X_ref) ->
               occurrences 0 (nth 0 r VNaN) (data example_X_ref) = 1%nat ->
               occurrences 1 (nth 1 r VNaN) (data example_X_ref) = 1%nat ->
               In r (data d')).
Proof.
  apply (get_org_db_X_ref_one_to_one example_X_ref).
  exact example_X_ref_table.
Defined.

(** A row can stay whose [KEGG_ID] the file holds twice: the other row with
    it went with its [ORF_ID]. *)
Lemma duplicate_of_dropped_row_stays :
  get_org_db_X_ref_duplicates true example_X_ref
  = Ok (mkDF [LStr "ORF_ID"; LStr "KEGG_ID"] [2; 3]
             [[VStr "b"; VStr "K1"]; [VStr "c"; VStr "K3"]]) /\
  occurrences 1 (VStr "K1") (data example_X_ref) = 2%nat.
Proof. split; reflexivity. Qed.

(** ** [org_name_2_kegg_id] *)

Lemma str_contains_strings (re_compile : string -> result (string -> bool))
  (pattern : string) (search : string -> bool) (vs : list cell) :
  re_compile pattern = Ok search ->
  Forall (fun c => exists s, c = VStr s) vs ->
  str_contains re_compile pattern vs = Ok (map (is_hit search) vs).
Proof.
  intros H F. unfold str_contains. rewrite H. cbn [rbind].
  induction F as [|c vs [s ->] F IH]; [reflexivity|].
  cbn [mapM map is_hit rbind]. now rewrite IH.
Qed.

Lemma filter_rows_data_eq (p : list cell -> bool) (d : DataFrame) :
  length (index d) = length (data d) ->
  data (filter_rows p d) = filter p (data d).
Proof.
  intros H. unfold filter_rows. cbn [data].
  now apply map_snd_filter_combine.
Qed.

Section KEGG_queries.

Variable re_compile : string -> result (string -> bool).

(** X25.  [org_name_2_kegg_id] on a table of organisms with the columns
    [DESCRIPTION] (of strings) and [KEGG_ORG_ID], for a pattern that
    compiles.  No description matches: [None], and the query is appended to
    [query_ids_not_found].  One matches, or several with [assume_1st]: the
    [KEGG_ORG_ID] of the first matching row, and the query is appended to
    [query_ids_found].  Several match without [assume_1st]: [None], and the
    instance is unchanged. *)
Theorem org_name_2_kegg_id_outcome (organism : string) (assume_1st : bool)
  (self : KEGG_API) (df : DataFrame) (search : string -> bool)
  (jD jK : nat) :
  organisms_ids_df self = Some df ->
  length (index df) = length (data df) ->
  position (LStr "DESCRIPTION") (columns df) = Some jD ->
  position (LStr "KEGG_ORG_ID") (columns df) = Some jK ->
  Forall (fun r => exists s, nth jD r VNaN = VStr s) (data df) ->
  re_compile organism = Ok search ->
  org_name_2_kegg_id re_compile organism assume_1st self
  = match filter (fun r => is_hit search (nth jD r VNaN)) (data df) with
    | [] => (Ok None, not_found_append organism self)
    | [r] => (Ok (Some (nth jK r VNaN)), found_append organism self)
    | r :: _ :: _ =>
        if assume_1st
        then (Ok (Some (nth jK r VNaN)), found_append organism self)
        else (Ok None, self)
    end.
Proof.
  intros Hdf HL PD PK Hs Hc. unfold org_name_2_kegg_id. rewrite Hdf.
  unfold column_values at 1. rewrite PD. cbn [rbind].
  rewrite (str_contains_strings re_compile organism search _ Hc).
  2:{ apply Forall_map. exact Hs. }
  rewrite map_map.
  rewrite (choose_rows_map (fun r => is_hit search (nth jD r VNaN)) df HL).
  set (p := fun r => is_hit search (nth jD r VNaN)).
  unfold len, df_getitem_list, column_values, position_or.
  cbn [mapM]. rewrite (filter_rows_data_eq p df HL).
  change (columns (filter_rows p df)) with (columns df).
  rewrite PD, PK. cbn [rbind].
  destruct (filter p (data df)) as [|r [|r' rest]].
  - reflexivity.
  - reflexivity.
  - cbn [map iloc_0 rbind].
    replace (Z.of_nat (length (r :: r' :: rest)) =? 0) with false
      by (symmetry; apply Z.eqb_neq; cbn [length]; lia).
    replace (1 <? Z.of_nat (length (r :: r' :: rest))) with true
      by (symmetry; apply Z.ltb_lt; cbn [length]; lia).
    destruct assume_1st; reflexivity.
Qed.

End KEGG_queries.

Lemma org_name_2_kegg_id_outcome_witness :
  org_name_2_kegg_id example_compile "Saccharomyces" true example_KEGG
  = match filter (fun r => is_hit (String.prefix "Saccharomyces")
                                  (nth 1 r VNaN))
                 (data example_organisms) with
    | [] => (Ok None, not_found_append "Saccharomyces" example_KEGG)
    | [r] => (Ok (Some (nth 2 r VNaN)),
              found_append "Saccharomyces" example_KEGG)
    | r :: _ :: _ =>
        if true
        then (Ok (Some (nth 2 r VNaN)),
              found_append "Saccharomyces" example_KEGG)
        else (Ok None, example_KEGG)
    end.
Proof.
  apply (org_name_2_kegg_id_outcome example_compile "Saccharomyces" true
           example_KEGG example_organisms (String.prefix "Saccharomyces")
           1 2).
  - reflexivity.
  - reflexivity.
  - reflexivity.
  - reflexivity.
  - repeat constructor; eexists; reflexivity.
  - reflexivity.
Defined.

(** ** A complete run of [names_perm] *)

Lemma zip_rows_names (f : list cell -> result cell)
  (Q A : list (list cell)) :
  Forall (fun r => length r = 2%nat) Q ->
  mapM (fun ii =>
          let! gq := tuple_getattr [LStr "GENE_Q"; LStr "PROF_Q";
                                    LStr "GENE_A"; LStr "PROF_A"]
                                   ii "GENE_Q" in
          let! ga := tuple_getattr [LStr "GENE_Q"; LStr "PROF_Q";
                                    LStr "GENE_A"; LStr "PROF_A"]
                                   ii "GENE_A" in
          f [gq; ga])
       (zip_rows Q A)
  = mapM (fun x => f [fst x; snd x]) (combine (col 0 Q) (col 0 A)).
Proof.
  intros H. revert A. induction H as [|q Q Hq H IH]; intros [|a A];
    try reflexivity.
  destruct q as [|x [|y [|z q]]]; try discriminate.
  cbn [zip_rows col map combine mapM fst snd]. fold (col 0 Q) (col 0 A).
  rewrite IH. reflexivity.
Qed.

Lemma zip_rows_length (n m : nat) (Q A : list (list cell)) :
  length Q = length A ->
  Forall (fun r => length r = n) Q ->
  Forall (fun r => length r = m) A ->
  length (zip_rows Q A) = length Q /\
  Forall (fun r => length r = (n + m)%nat) (zip_rows Q A).
Proof.
  intros HL HQ. revert A HL. induction HQ as [|q Q Hq HQ IH];
    intros [|a A] HL HA; try discriminate.
  - split; [reflexivity|constructor].
  - apply Forall_cons_iff in HA as [Ha HA].
    destruct (IH A) as [E F]; [cbn in HL; lia|exact HA|].
    cbn [zip_rows length]. split; [now rewrite E|].
    constructor; [|exact F]. rewrite length_app. lia.
Qed.

Lemma col_zip_rows_last (n : nat) (rows : list (list cell))
  (vs : list cell) :
  length rows = length vs ->
  Forall (fun r => length r = n) rows ->
  col n (zip_rows rows (map (fun v => [v]) vs)) = vs.
Proof.
  intros HL H. revert vs HL. induction H as [|r rows Hr H IH];
    intros [|v vs] HL; try discriminate; [reflexivity|].
  unfold col in IH |- *. cbn [map zip_rows].
  rewrite IH by (cbn in HL; lia).
  f_equal. rewrite app_nth2 by lia. rewrite Hr, Nat.sub_diag. reflexivity.
Qed.

Lemma DataFrame_of_column (vs : list cell) (ix : list Z) (l : label) :
  length ix = length vs ->
  DataFrame_of_rows (map (fun v => [v]) vs) ix [l]
  = Ok (mkDF [l] ix (map (fun v => [v]) vs)).
Proof.
  intros H. unfold DataFrame_of_rows.
  rewrite length_map, H, Nat.eqb_refl. cbn [andb].
  replace (forallb _ _) with true; [reflexivity|].
  symmetry. apply forallb_forall. intros r Hr. apply in_map_iff in Hr.
  destruct Hr as [v [<- _]]. reflexivity.
Qed.

Section Names_run.

Variable df_qa_names_2_prof_score :
  list cell -> list (list cell) -> result cell.
Variable in_prof_sim_lev : Q.
Variable rng : generator.
Variable d : DataFrame.
Variable catalogue : list (list cell).
Variables gq ga : list cell.

Hypothesis d_well_formed : well_formed d.
Hypothesis d_GENE_Q : column_values d (LStr "GENE_Q") = Ok gq.
Hypothesis d_GENE_A : column_values d (LStr "GENE_A") = Ok ga.
Hypothesis d_PROF_Q : In (LStr "PROF_Q") (columns d).
Hypothesis d_PROF_A : In (LStr "PROF_A") (columns d).
Hypothesis scorer_total :
  forall q a, In q gq -> In a ga ->
    exists v, df_qa_names_2_prof_score [q; a] catalogue = Ok v.
Hypothesis rng_permutes :
  forall i c n, Permutation (rng i c n) (seq 0 n).

Lemma names_trial_run (in_iter : Z) (out f0 : list obj)
  (inst : Ortho_Stats) :
  lookup (inter_df inst) (mkStore out f0 inst) = Some (ODataFrame d) ->
  lookup (gene_profiles inst) (mkStore out f0 inst)
  = Some (OList catalogue) ->
  exists c L,
    names_perm_f df_qa_names_2_prof_score in_prof_sim_lev rng in_iter
                 (mkStore out f0 inst)
    = (Ok (counts_dict c in_iter), mkStore out (f0 ++ L) inst) /\
    names_trial df_qa_names_2_prof_score in_prof_sim_lev d catalogue c.
Proof.
  intros Hd Hc. destruct d_well_formed as [Wix _].
  destruct (column_values_position _ _ _ d_GENE_Q) as [jq [Pq Eq]].
  destruct (column_values_position _ _ _ d_GENE_A) as [ja [Pa Ea]].
  destruct (position_of_mem _ _ d_PROF_Q) as [jpq Ppq].
  destruct (position_of_mem _ _ d_PROF_A) as [jpa Ppa].
  set (rows := data d) in *.
  set (n := length rows).
  set (qrows := map (fun r => [nth jq r VNaN; nth jpq r VNaN]) rows).
  set (arows := map (fun r => [nth ja r VNaN; nth jpa r VNaN]) rows).
  assert (Lq : length qrows = n) by apply length_map.
  assert (La : length arows = n) by apply length_map.
  destruct (take_permutation (rng in_iter O n) (index d)) as [iq [Tiq _]].
  { rewrite Wix. apply rng_permutes. }
  destruct (take_permutation (rng in_iter 1%nat n) (index d))
    as [ia [Tia _]].
  { rewrite Wix. apply rng_permutes. }
  destruct (take_permutation (rng in_iter O n) qrows) as [Qs [TQ PQ]].
  { rewrite Lq. apply rng_permutes. }
  destruct (take_permutation (rng in_iter 1%nat n) arows) as [As [TA PA]].
  { rewrite La. apply rng_permutes. }
  assert (LQ : length Qs = n) by (now rewrite (Permutation_length PQ)).
  assert (LA : length As = n) by (now rewrite (Permutation_length PA)).
  assert (FQ : Forall (fun r => length r = 2%nat) Qs).
  { apply (Permutation_Forall (Permutation_sym PQ)).
    apply Forall_map. apply Forall_forall. reflexivity. }
  assert (FA : Forall (fun r => length r = 2%nat) As).
  { apply (Permutation_Forall (Permutation_sym PA)).
    apply Forall_map. apply Forall_forall. reflexivity. }
  assert (CQ : Permutation (col 0 Qs) gq).
  { rewrite Eq. fold rows. unfold col.
    replace (map (fun r => nth jq r VNaN) rows)
      with (map (fun r => nth 0 r VNaN) qrows)
      by (unfold qrows; now rewrite map_map).
    now apply Permutation_map. }
  assert (CA : Permutation (col 0 As) ga).
  { rewrite Ea. fold rows. unfold col.
    replace (map (fun r => nth ja r VNaN) rows)
      with (map (fun r => nth 0 r VNaN) arows)
      by (unfold arows; now rewrite map_map).
    now apply Permutation_map. }
  destruct (mapM_total
              (fun x => df_qa_names_2_prof_score [fst x; snd x] catalogue)
              (combine (col 0 Qs) (col 0 As))) as [scores [Hs Ls]].
  { intros [q a] Hin. cbn [fst snd]. apply scorer_total.
    - apply (Permutation_in _ CQ). now apply in_combine_l in Hin.
    - apply (Permutation_in _ CA). now apply in_combine_r in Hin. }
  assert (Ls' : length scores = n).
  { rewrite Ls, length_combine. unfold col. rewrite !length_map. lia. }
  destruct (zip_rows_length 2 2 Qs As) as [LZ FZ];
    [congruence|exact FQ|exact FA|].
  assert (Hd' : forall L, lookup (inter_df inst) (mkStore out (f0 ++ L) inst)
                          = Some (ODataFrame d)).
  { intros L. now apply lookup_app. }
  assert (Hc' : forall L, lookup (gene_profiles inst)
                            (mkStore out (f0 ++ L) inst)
                          = Some (OList catalogue)).
  { intros L. now apply lookup_app. }
  exists (classify in_prof_sim_lev scores).
  assert (Run : exists L,
             names_perm_f df_qa_names_2_prof_score in_prof_sim_lev rng
               in_iter (mkStore out (f0 ++ []) inst)
             = (Ok (counts_dict (classify in_prof_sim_lev scores) in_iter),
                mkStore out (f0 ++ L) inst)).
  { eexists. unfold names_perm_f, get_self. unfold bind at 1.
    cbn [instance].
    (* q_temp_df, a_temp_df *)
    erewrite run_bind.
    2:{ unfold getitem_list.
        erewrite run_bind by (apply run_read_df; apply Hd').
        apply run_new_df. unfold df_getitem_list. cbn [mapM].
        unfold position_or. rewrite Pq, Ppq. reflexivity. }
    erewrite run_bind.
    2:{ unfold getitem_list.
        erewrite run_bind by (apply run_read_df; apply Hd').
        apply run_new_df. unfold df_getitem_list. cbn [mapM].
        unfold position_or. rewrite Pa, Ppa. reflexivity. }
    cbn [length app Nat.add rbind map]. fold rows. fold qrows. fold arows.
    (* the two samples *)
    erewrite run_bind.
    2:{ unfold sample.
        erewrite run_bind
          by (apply run_read_df; rewrite lookup_fresh; reflexivity).
        apply run_new_df. unfold df_sample. cbn [data index columns].
        rewrite Lq, Tiq, TQ. reflexivity. }
    erewrite run_bind.
    2:{ unfold sample.
        erewrite run_bind
          by (apply run_read_df; rewrite lookup_fresh; reflexivity).
        apply run_new_df. unfold df_sample. cbn [data index columns].
        rewrite La, Tia, TA. reflexivity. }
    cbn [length app Nat.add rbind].
    erewrite run_bind.
    2:{ unfold set_index_range. eapply run_update_df; [reflexivity|].
        unfold set_index, len. cbn [data columns index].
        rewrite length_range_0, Nat.eqb_refl. reflexivity. }
    erewrite run_bind.
    2:{ unfold set_index_range. eapply run_update_df; [reflexivity|].
        unfold set_index, len. cbn [data columns index].
        rewrite length_range_0, Nat.eqb_refl. reflexivity. }
    cbn [set_nth length app Nat.add columns index data]. rewrite LQ, LA.
    (* qa_temp_perm_df *)
    erewrite run_bind.
    2:{ unfold concat_axis1.
        erewrite run_bind
          by (apply run_read_df; rewrite lookup_fresh; reflexivity).
        erewrite run_bind
          by (apply run_read_df; rewrite lookup_fresh; reflexivity).
        apply run_new_df. unfold hcat. cbn [index columns data].
        rewrite index_eqb_refl. reflexivity. }
    cbn [length app Nat.add].
    erewrite run_bind
      by (apply run_read_df; rewrite lookup_fresh; reflexivity).
    erewrite run_bind by (apply run_read_list; apply Hc').
    cbn [columns data index app].
    (* the scores *)
    erewrite run_bind.
    2:{ apply run_lift.
        rewrite (zip_rows_names
                   (fun ns => df_qa_names_2_prof_score ns catalogue)
                   Qs As FQ).
        exact Hs. }
    erewrite run_bind.
    2:{ apply run_new_df. apply DataFrame_of_column.
        now rewrite length_range_0. }
    erewrite run_bind.
    2:{ unfold concat_axis1.
        erewrite run_bind
          by (apply run_read_df; rewrite lookup_fresh; reflexivity).
        erewrite run_bind
          by (apply run_read_df; rewrite lookup_fresh; reflexivity).
        apply run_new_df. unfold hcat. cbn [index columns data].
        rewrite index_eqb_refl. reflexivity. }
    cbn [length app Nat.add].
    erewrite run_bind.
    2:{ unfold count_profiles.
        erewrite run_bind
          by (apply run_read_df; rewrite lookup_fresh; reflexivity).
        unfold column_values. cbn [columns data app].
        change (position (LStr "PSS")
                  [LStr "GENE_Q"; LStr "PROF_Q"; LStr "GENE_A";
                   LStr "PROF_A"; LStr "PSS"]) with (Some 4%nat).
        pose proof (col_zip_rows_last 4 (zip_rows Qs As) scores
                      ltac:(congruence) FZ) as E.
        unfold col in E. unfold lift, bind, ret. rewrite E.
        reflexivity. }
    reflexivity. }
  destruct Run as [L Run]. rewrite app_nil_r in Run. exists L.
  split; [exact Run|].
  exists gq, ga, (col 0 Qs), (col 0 As), scores. auto 10.
Qed.

Lemma names_pool_run (iters : list Z) (out f0 : list obj)
  (inst : Ortho_Stats) :
  lookup (inter_df inst) (mkStore out f0 inst) = Some (ODataFrame d) ->
  lookup (gene_profiles inst) (mkStore out f0 inst)
  = Some (OList catalogue) ->
  exists cs L,
    mapM_M (names_perm_f df_qa_names_2_prof_score in_prof_sim_lev rng)
           iters (mkStore out f0 inst)
    = (Ok (numbered_counts cs iters), mkStore out (f0 ++ L) inst) /\
    length cs = length iters /\
    Forall (names_trial df_qa_names_2_prof_score in_prof_sim_lev d
                        catalogue) cs.
Proof.
  revert f0. induction iters as [|i iters IH]; intros f0 Hd Hc.
  - exists [], []. rewrite app_nil_r. repeat split. constructor.
  - destruct (names_trial_run i out f0 inst Hd Hc) as (c & L1 & Run & T).
    destruct (IH (f0 ++ L1)) as (cs & L2 & Runs & Len & Ts).
    { now apply lookup_app. }
    { now apply lookup_app. }
    exists (c :: cs), (L1 ++ L2). cbn [mapM_M].
    erewrite run_bind by exact Run. erewrite run_bind by exact Runs.
    rewrite app_assoc. split; [reflexivity|].
    split; [cbn [length]; now rewrite Len|]. now constructor.
Qed.

(** X26.  [names_perm] returns for every [e_value] on a table with the
    columns [GENE_Q], [PROF_Q], [GENE_A] and [PROF_A] whose pairs of genes
    the scorer can score.  It only allocates objects and sets
    [perm_results], one row per trial, numbered from 1; the counts of a
    trial are those of the scores, on the catalogue, of the pairs made of a
    permutation of the [GENE_Q] column and a permutation of the [GENE_A]
    column. *)
Theorem names_perm_completes (e_value : Z) (s : store) :
  lookup (inter_df (instance s)) s = Some (ODataFrame d) ->
  lookup (gene_profiles (instance s)) s = Some (OList catalogue) ->
  exists cs L,
    names_perm df_qa_names_2_prof_score e_value in_prof_sim_lev rng s
    = (Ok tt,
       mkStore (outer s) (fresh s ++ L)
         (mkOrtho (query_species (instance s)) (inter_df (instance s))
            (gene_profiles (instance s))
            (Some (DataFrame_of_dicts
                     (numbered_counts cs (range 0 e_value))))
            (prof_arr_perm_results (instance s))
            (prof_arr_perm_res_avg (instance s))
            (prof_KO_perm_results (instance s))
            (prof_KO_perm_res_avg (instance s)))) /\
    length cs = Z.to_nat e_value /\
    Forall (names_trial df_qa_names_2_prof_score in_prof_sim_lev d
                        catalogue) cs.
Proof.
  destruct s as [out f0 inst]. cbn [instance outer fresh]. intros Hd Hc.
  destruct (names_pool_run (range 0 e_value) out f0 inst Hd Hc)
    as (cs & L & Run & Len & Ts).
  exists cs, L. unfold names_perm, pool_map.
  erewrite run_bind by exact Run.
  split; [reflexivity|]. split; [|exact Ts].
  rewrite Len, length_range. f_equal. lia.
Qed.

End Names_run.

Lemma names_perm_completes_witness :
  exists cs L,
    names_perm example_names_scorer 2 1 example_rng example_store
    = (Ok tt,
       mkStore (outer example_store) (fresh example_store ++ L)
         (mkOrtho (query_species (instance example_store))
            (inter_df (instance example_store))
            (gene_profiles (instance example_store))
            (Some (DataFrame_of_dicts (numbered_counts cs (range 0 2))))
            (prof_arr_perm_results (instance example_store))
            (prof_arr_perm_res_avg (instance example_store))
            (prof_KO_perm_results (instance example_store))
            (prof_KO_perm_res_avg (instance example_store)))) /\
    length cs = Z.to_nat 2 /\
    Forall (names_trial example_names_scorer 1 example_inter_df
                        example_gene_profiles) cs.
Proof.
  apply (names_perm_completes example_names_scorer 1 example_rng
           example_inter_df example_gene_profiles
           [VStr "ga"; VStr "gb"; VStr "ga"]
           [VStr "gb"; VStr "gc"; VStr "gc"]).
  - exact example_well_formed.
  - reflexivity.
  - reflexivity.
  - cbn. auto 10.
  - cbn. auto 10.
  - intros q a _ _. eexists. reflexivity.
  - intros i c n. apply example_rng_permutes.
  - reflexivity.
  - reflexivity.
Defined.

(** ** A complete run of [prof_cols_perm] *)

Lemma mapM_ext_in {A B : Type} (f g : A -> result B) (l : list A) :
  (forall x, In x l -> f x = g x) -> mapM f l = mapM g l.
Proof.
  induction l as [|x l IH]; intros H; [reflexivity|]. cbn [mapM].
  rewrite (H x (or_introl eq_refl)), IH; [reflexivity|].
  intros y Hy. apply H. now right.
Qed.

Lemma mapM_singletons {A : Type} (h : A -> result cell) (l : list A) :
  mapM (fun x => let! v := h x in Ok [v]) l
  = let! vs := mapM h l in Ok (map (fun v => [v]) vs).
Proof.
  induction l as [|x l IH]; [reflexivity|]. cbn [mapM]. rewrite IH.
  destruct (h x) as [v|e]; [|reflexivity]. cbn [rbind].
  destruct (mapM h l) as [vs|e]; reflexivity.
Qed.

Lemma zip_rows_profiles {B : Type} (h : cell * cell -> result B)
  (k : nat) (D : list (list cell)) (P A : list cell) :
  Forall (fun r => length r = k) D ->
  length D = length P ->
  length P = length A ->
  mapM (fun ii => h (nth (k + 0) ii VNaN, nth (k + 1) ii VNaN))
       (zip_rows D (zip_rows (map (fun v => [v]) P)
                             (map (fun v => [v]) A)))
  = mapM h (combine P A).
Proof.
  intros H. revert P A. induction H as [|r D Hr H IH];
    intros [|p P] [|a A] H1 H2; try discriminate; [reflexivity|].
  cbn [map zip_rows combine mapM].
  rewrite IH by (cbn in H1, H2; lia). f_equal. subst k.
  rewrite !(app_nth2 r) by lia.
  replace (length r + 0 - length r)%nat with O by lia.
  replace (length r + 1 - length r)%nat with 1%nat by lia. reflexivity.
Qed.

Lemma dropped_label (l : label) (ls cols : list label) :
  In l ls -> ~ In l (filter (fun c => negb (label_mem c ls)) cols).
Proof.
  intros H Hin. apply filter_In in Hin as [_ Hin].
  apply (proj2 (label_mem_iff l ls)) in H. rewrite H in Hin. discriminate.
Qed.

Section Prof_cols_run.

Variable simple_profiles_scorer : cell -> cell -> result cell.
Hypothesis scorer_total :
  forall a b, exists v, simple_profiles_scorer a b = Ok v.

Variable in_prof_sim_lev : Q.
Variable rng : generator.
Variable d : DataFrame.
Variables pq pa : list cell.

Hypothesis d_well_formed : well_formed d.
Hypothesis d_PROF_Q : column_values d (LStr "PROF_Q") = Ok pq.
Hypothesis d_PROF_A : column_values d (LStr "PROF_A") = Ok pa.
Hypothesis profiles_Q :
  Forall (fun p => exists a, np_array_list p = Ok a) pq.
Hypothesis profiles_A :
  Forall (fun p => exists a, np_array_list p = Ok a) pa.
Hypothesis rng_permutes :
  forall i c n, Permutation (rng i c n) (seq 0 n).

Lemma prof_cols_trial_run (in_iter : Z) (out f0 : list obj)
  (inst : Ortho_Stats) :
  lookup (inter_df inst) (mkStore out f0 inst) = Some (ODataFrame d) ->
  (forall l, In l (profile_columns inst) -> In l (columns d)) ->
  exists c L,
    prof_cols_perm_f simple_profiles_scorer in_prof_sim_lev rng in_iter
                     (mkStore out f0 inst)
    = (Ok (counts_dict c in_iter), mkStore out (f0 ++ L) inst) /\
    prof_cols_trial simple_profiles_scorer in_prof_sim_lev d c.
Proof.
  intros Hd Hcols. destruct d_well_formed as [Wix Wrows].
  destruct (column_values_position _ _ _ d_PROF_Q) as [jq [Pq Eq]].
  destruct (column_values_position _ _ _ d_PROF_A) as [ja [Pa Ea]].
  set (rows := data d) in *.
  set (n := length rows).
  set (ls := profile_columns inst) in *.
  set (cdr := filter (fun c => negb (label_mem c ls)) (columns d)).
  set (drows := map (drop_cells (columns d) ls) rows).
  assert (Ldrows : Forall (fun r => length r = length cdr) drows).
  { unfold drows. rewrite Forall_forall. intros r Hr.
    apply in_map_iff in Hr. destruct Hr as [r0 [<- Hr0]].
    apply drop_cells_length. rewrite Forall_forall in Wrows. now apply Wrows. }
  assert (Ld : length drows = n) by apply length_map.
  assert (Lq : length pq = n) by (rewrite Eq; apply length_map).
  assert (La : length pa = n) by (rewrite Ea; apply length_map).
  assert (IQ : In (LStr "PROF_Q") ls) by (cbn; auto).
  assert (IA : In (LStr "PROF_A") ls) by (cbn; auto).
  assert (IS : In (LStr "PSS") ls) by (cbn; auto).
  destruct (take_permutation (rng in_iter O n) (index d)) as [iq [Tiq Piq]].
  { rewrite Wix. apply rng_permutes. }
  destruct (take_permutation (rng in_iter 1%nat n) (index d))
    as [ia [Tia Pia]].
  { rewrite Wix. apply rng_permutes. }
  destruct (take_permutation (rng in_iter O n) pq) as [Qs [TQ PQ]].
  { rewrite Lq. apply rng_permutes. }
  destruct (take_permutation (rng in_iter 1%nat n) pa) as [As [TA PA]].
  { rewrite La. apply rng_permutes. }
  assert (LQ : length Qs = n) by (now rewrite (Permutation_length PQ)).
  assert (LA : length As = n) by (now rewrite (Permutation_length PA)).
  destruct (mapM_total (profiles_score simple_profiles_scorer)
              (combine Qs As)) as [scores [Hs Ls]].
  { intros [q a] Hin. unfold profiles_score. cbn [fst snd].
    assert (Hq : In q pq).
    { apply (Permutation_in _ PQ). now apply in_combine_l in Hin. }
    assert (Ha : In a pa).
    { apply (Permutation_in _ PA). now apply in_combine_r in Hin. }
    rewrite Forall_forall in profiles_Q, profiles_A.
    destruct (profiles_Q q Hq) as [aq ->], (profiles_A a Ha) as [aa ->].
    cbn [rbind]. apply scorer_total. }
  assert (Ls' : length scores = n).
  { rewrite Ls, length_combine. lia. }
  set (AB := zip_rows (map (fun v => [v]) Qs) (map (fun v => [v]) As)).
  destruct (col_zip_singletons Qs As) as [_ FAB]; [congruence|].
  fold AB in FAB.
  assert (LAB : length AB = n).
  { destruct (zip_rows_length 1 1 (map (fun v => [v]) Qs)
                (map (fun v => [v]) As)) as [E _].
    - rewrite !length_map. congruence.
    - apply Forall_map. apply Forall_forall. reflexivity.
    - apply Forall_map. apply Forall_forall. reflexivity.
    - fold AB in E. now rewrite E, length_map. }
  destruct (zip_rows_length (length cdr) 2 drows AB) as [LZ FZ];
    [congruence|exact Ldrows|exact FAB|].
  set (cols := cdr ++ [LStr "PROF_Q"; LStr "PROF_A"]).
  assert (PQ' : position (LStr "PROF_Q") cols = Some (length cdr + 0)%nat).
  { unfold cols. rewrite position_app_r by (now apply dropped_label).
    reflexivity. }
  assert (PA' : position (LStr "PROF_A") cols = Some (length cdr + 1)%nat).
  { unfold cols. rewrite position_app_r by (now apply dropped_label).
    reflexivity. }
  assert (PS' : position (LStr "PSS") (cols ++ [LStr "PSS"])
                = Some (length cdr + 2)%nat).
  { rewrite position_app_r.
    - unfold cols. rewrite length_app. cbn [length position label_eqb].
      rewrite String.eqb_refl. cbn [option_map]. f_equal. lia.
    - unfold cols. intros H. apply in_app_or in H as [H|H].
      + revert H. now apply dropped_label.
      + cbn in H. decompose [or] H; discriminate || contradiction. }
  assert (Hd' : forall L, lookup (inter_df inst) (mkStore out (f0 ++ L) inst)
                          = Some (ODataFrame d)).
  { intros L. now apply lookup_app. }
  exists (classify in_prof_sim_lev scores).
  assert (Run : exists L,
             prof_cols_perm_f simple_profiles_scorer in_prof_sim_lev rng
               in_iter (mkStore out (f0 ++ []) inst)
             = (Ok (counts_dict (classify in_prof_sim_lev scores) in_iter),
                mkStore out (f0 ++ L) inst)).
  { eexists. unfold prof_cols_perm_f, get_self. unfold bind at 1.
    cbn [instance].
    (* q_prof_temp_df, a_prof_temp_df, drop_prof_temp_df *)
    erewrite run_bind.
    2:{ unfold getitem.
        erewrite run_bind by (apply run_read_df; apply Hd').
        apply run_new_series. unfold df_getitem. rewrite d_PROF_Q.
        reflexivity. }
    erewrite run_bind.
    2:{ unfold getitem.
        erewrite run_bind by (apply run_read_df; apply Hd').
        apply run_new_series. unfold df_getitem. rewrite d_PROF_A.
        reflexivity. }
    erewrite run_bind.
    2:{ unfold drop. erewrite run_bind by (apply run_read_df; apply Hd').
        apply run_new_df. unfold df_drop. fold ls.
        replace (forallb (fun l => label_mem l (columns d)) ls) with true;
          [reflexivity|].
        symmetry. apply forallb_forall. intros l Hl.
        apply label_mem_iff. now apply Hcols. }
    cbn [length app Nat.add rbind]. fold rows. fold cdr. fold drows.
    (* the two samples *)
    erewrite run_bind.
    2:{ unfold sample_series.
        erewrite run_bind
          by (apply run_read_series; rewrite lookup_fresh; reflexivity).
        apply run_new_series. unfold s_sample.
        cbn [sindex svalues sname]. rewrite Lq, Tiq, TQ. reflexivity. }
    erewrite run_bind.
    2:{ unfold sample_series.
        erewrite run_bind
          by (apply run_read_series; rewrite lookup_fresh; reflexivity).
        apply run_new_series. unfold s_sample.
        cbn [sindex svalues sname]. rewrite La, Tia, TA. reflexivity. }
    cbn [length app Nat.add rbind].
    erewrite run_bind.
    2:{ unfold set_sindex_of.
        erewrite run_bind
          by (apply run_read_df; rewrite lookup_fresh; reflexivity).
        eapply run_update_series; [reflexivity|].
        unfold set_sindex. cbn [svalues sname index].
        rewrite Wix, LQ. fold n. rewrite Nat.eqb_refl. reflexivity. }
    cbn [set_nth length app Nat.add].
    erewrite run_bind.
    2:{ unfold set_sindex_of.
        erewrite run_bind
          by (apply run_read_df; rewrite lookup_fresh; reflexivity).
        eapply run_update_series; [reflexivity|].
        unfold set_sindex. cbn [svalues sname index].
        rewrite Wix, LA. fold n. rewrite Nat.eqb_refl. reflexivity. }
    cbn [set_nth length app Nat.add].
    (* permuted_df *)
    erewrite run_bind.
    2:{ unfold concat_df_series2_axis1.
        erewrite run_bind
          by (apply run_read_df; rewrite lookup_fresh; reflexivity).
        erewrite run_bind
          by (apply run_read_series; rewrite lookup_fresh; reflexivity).
        erewrite run_bind
          by (apply run_read_series; rewrite lookup_fresh; reflexivity).
        apply run_new_df. unfold hcat, to_frame.
        cbn [index sindex sname svalues columns data].
        rewrite index_eqb_refl. cbn [rbind index columns data app].
        rewrite index_eqb_refl. fold AB. fold cols. reflexivity. }
    cbn [length app Nat.add].
    erewrite run_bind
      by (apply run_read_df; rewrite lookup_fresh; reflexivity).
    cbn [columns data index].
    (* the scores *)
    erewrite run_bind.
    2:{ apply run_lift.
        rewrite (mapM_ext_in _
                   (fun ii =>
                      (fun x => let! v := profiles_score
                                            simple_profiles_scorer x in
                                Ok [v])
                        (nth (length cdr + 0) ii VNaN,
                         nth (length cdr + 1) ii VNaN))).
        2:{ intros ii _. unfold tuple_getattr, position_or, profiles_score.
            rewrite PQ', PA'. cbn [rbind fst snd].
            destruct (np_array_list (nth (length cdr + 0) ii VNaN));
              [|reflexivity].
            cbn [rbind].
            destruct (np_array_list (nth (length cdr + 1) ii VNaN));
              reflexivity. }
        unfold AB.
        rewrite (zip_rows_profiles
                   (fun x => let! v := profiles_score
                                         simple_profiles_scorer x in
                             Ok [v])
                   (length cdr) drows Qs As Ldrows)
          by congruence.
        rewrite mapM_singletons, Hs. reflexivity. }
    erewrite run_bind.
    2:{ apply run_new_df. apply DataFrame_of_column.
        now rewrite Wix, Ls'. }
    erewrite run_bind.
    2:{ unfold concat_axis1.
        erewrite run_bind
          by (apply run_read_df; rewrite lookup_fresh; reflexivity).
        erewrite run_bind
          by (apply run_read_df; rewrite lookup_fresh; reflexivity).
        apply run_new_df. unfold hcat. cbn [index columns data].
        rewrite index_eqb_refl. reflexivity. }
    cbn [length app Nat.add].
    erewrite run_bind.
    2:{ unfold count_profiles.
        erewrite run_bind
          by (apply run_read_df; rewrite lookup_fresh; reflexivity).
        unfold column_values. cbn [columns data].
        rewrite PS'.
        pose proof (col_zip_rows_last (length cdr + 2) (zip_rows drows AB)
                      scores ltac:(congruence) FZ) as E.
        unfold col in E. unfold lift, bind, ret. rewrite E.
        reflexivity. }
    reflexivity. }
  destruct Run as [L Run]. rewrite app_nil_r in Run. exists L.
  split; [exact Run|].
  exists pq, pa, Qs, As, scores. auto 10.
Qed.

Lemma prof_cols_pool_run (iters : list Z) (out f0 : list obj)
  (inst : Ortho_Stats) :
  lookup (inter_df inst) (mkStore out f0 inst) = Some (ODataFrame d) ->
  (forall l, In l (profile_columns inst) -> In l (columns d)) ->
  exists cs L,
    mapM_M (prof_cols_perm_f simple_profiles_scorer in_prof_sim_lev rng)
           iters (mkStore out f0 inst)
    = (Ok (numbered_counts cs iters), mkStore out (f0 ++ L) inst) /\
    length cs = length iters /\
    Forall (prof_cols_trial simple_profiles_scorer in_prof_sim_lev d) cs.
Proof.
  intros Hd Hcols. revert f0 Hd.
  induction iters as [|i iters IH]; intros f0 Hd.
  - exists [], []. rewrite app_nil_r. repeat split. constructor.
  - destruct (prof_cols_trial_run i out f0 inst Hd Hcols)
      as (c & L1 & Run & T).
    destruct (IH (f0 ++ L1)) as (cs & L2 & Runs & Len & Ts).
    { now apply lookup_app. }
    exists (c :: cs), (L1 ++ L2). cbn [mapM_M].
    erewrite run_bind by exact Run. erewrite run_bind by exact Runs.
    rewrite app_assoc. split; [reflexivity|].
    split; [cbn [length]; now rewrite Len|]. now constructor.
Qed.

(** X27.  [prof_cols_perm] returns for every [e_value] on a table that has
    the columns it drops ([PROF_Q], [PROF_A], [PSS] and the two columns of
    every query species) and whose profiles are strings or lists.  It only
    allocates objects and sets [perm_results], one row per trial; the counts
    of a trial are those of the scores of the pairs made of a permutation of
    the [PROF_Q] column and a permutation of the [PROF_A] column. *)
Theorem prof_cols_perm_completes (e_value : Z) (s : store) :
  lookup (inter_df (instance s)) s = Some (ODataFrame d) ->
  (forall l, In l (profile_columns (instance s)) -> In l (columns d)) ->
  exists cs L,
    prof_cols_perm simple_profiles_scorer e_value in_prof_sim_lev rng s
    = (Ok tt,
       mkStore (outer s) (fresh s ++ L)
         (mkOrtho (query_species (instance s)) (inter_df (instance s))
            (gene_profiles (instance s))
            (Some (DataFrame_of_dicts
                     (numbered_counts cs (range 0 e_value))))
            (prof_arr_perm_results (instance s))
            (prof_arr_perm_res_avg (instance s))
            (prof_KO_perm_results (instance s))
            (prof_KO_perm_res_avg (instance s)))) /\
    length cs = Z.to_nat e_value /\
    Forall (prof_cols_trial simple_profiles_scorer in_prof_sim_lev d) cs.
Proof.
  destruct s as [out f0 inst]. cbn [instance outer fresh]. intros Hd Hcols.
  destruct (prof_cols_pool_run (range 0 e_value) out f0 inst Hd Hcols)
    as (cs & L & Run & Len & Ts).
  exists cs, L. unfold prof_cols_perm, pool_map.
  erewrite run_bind by exact Run.
  split; [reflexivity|]. split; [|exact Ts].
  rewrite Len, length_range. f_equal. lia.
Qed.

End Prof_cols_run.

Lemma prof_cols_perm_completes_witness :
  exists cs L,
    prof_cols_perm example_scorer 2 1 example_rng example_store
    = (Ok tt,
       mkStore (outer example_store) (fresh example_store ++ L)
         (mkOrtho (query_species (instance example_store))
            (inter_df (instance example_store))
            (gene_profiles (instance example_store))
            (Some (DataFrame_of_dicts (numbered_counts cs (range 0 2))))
            (prof_arr_perm_results (instance example_store))
            (prof_arr_perm_res_avg (instance example_store))
            (prof_KO_perm_results (instance example_store))
            (prof_KO_perm_res_avg (instance example_store)))) /\
    length cs = Z.to_nat 2 /\
    Forall (prof_cols_trial example_scorer 1 example_inter_df) cs.
Proof.
  apply (prof_cols_perm_completes example_scorer
           (fun a b => ex_intro _ _ eq_refl) 1 example_rng
           example_inter_df
           [VStr "++"; VStr "+-"; VStr "++"]
           [VStr "+-"; VStr "--"; VStr "--"]).
  - exact example_well_formed.
  - reflexivity.
  - reflexivity.
  - repeat constructor; eexists; reflexivity.
  - repeat constructor; eexists; reflexivity.
  - intros i c n. apply example_rng_permutes.
  - reflexivity.
  - cbn. intros l H. decompose [or] H; subst; auto 10; contradiction.
Defined.

(** ** A complete run of [prof_arr_perm] *)

Lemma permuted_catalogue_run (draw : nat -> list nat) (out f0 : list obj)
  (inst : Ortho_Stats) (catalogue : list (list cell)) :
  lookup (gene_profiles inst) (mkStore out f0 inst)
  = Some (OList catalogue) ->
  Forall (fun i => i <> []) catalogue ->
  Permutation (draw (length catalogue)) (seq 0 (length catalogue)) ->
  exists permuted L,
    permuted_catalogue draw (mkStore out f0 inst)
    = (Ok permuted, mkStore out (f0 ++ L) inst) /\
    map entry_profile permuted = map entry_profile catalogue /\
    Permutation (map (hd VNaN) permuted) (map (hd VNaN) catalogue).
Proof.
  intros Hcat Hne Hdraw.
  set (names := map (hd VNaN) catalogue).
  set (profs := map entry_profile catalogue).
  assert (Ln : length names = length catalogue) by apply length_map.
  assert (Lp : length profs = length catalogue) by apply length_map.
  destruct (take_permutation (draw (length names)) names) as [pn [Tn Pn]].
  { now rewrite Ln. }
  destruct (take_permutation (draw (length names))
              (range 0 (Z.of_nat (length names)))) as [pi [Ti Pi]].
  { now rewrite length_range_0, Ln. }
  assert (Lpn : length pn = length catalogue).
  { rewrite (Permutation_length Pn). exact Ln. }
  exists (zip_with cons pn profs).
  destruct (zip_with_cons_tl pn profs) as [A B]; [congruence|].
  assert (Run : exists L,
             permuted_catalogue draw (mkStore out (f0 ++ []) inst)
             = (Ok (zip_with cons pn profs), mkStore out (f0 ++ L) inst)).
  { eexists. unfold permuted_catalogue.
    unfold get_self at 1. unfold bind at 1. cbn [instance].
    erewrite run_bind
      by (apply run_read_list; rewrite app_nil_r; exact Hcat).
    erewrite run_bind by (apply run_lift; apply entry_names_ok; exact Hne).
    fold names. fold profs.
    erewrite run_bind by apply run_alloc.
    erewrite run_bind by apply run_alloc.
    erewrite run_bind.
    2:{ unfold sample_series.
        erewrite run_bind
          by (apply run_read_series; rewrite lookup_fresh; reflexivity).
        apply run_new_series. unfold s_sample.
        cbn [sindex svalues sname]. rewrite Ti, Tn. reflexivity. }
    erewrite run_bind.
    2:{ unfold set_sindex_range. eapply run_update_series; [reflexivity|].
        unfold set_sindex. cbn [svalues sname].
        rewrite length_range_0, Nat.eqb_refl. reflexivity. }
    erewrite run_bind.
    2:{ unfold concat_series_axis1.
        erewrite run_bind
          by (apply run_read_series; rewrite lookup_fresh; reflexivity).
        erewrite run_bind
          by (apply run_read_series; rewrite lookup_fresh; reflexivity).
        apply run_new_df. unfold hcat, to_frame.
        cbn [index sindex sname svalues columns data].
        rewrite Lpn, Lp, index_eqb_refl. reflexivity. }
    erewrite run_bind.
    2:{ unfold set_columns_to. eapply run_update_df; [reflexivity|].
        reflexivity. }
    erewrite run_bind
      by (apply run_read_df; rewrite lookup_fresh; reflexivity).
    cbn [columns data app]. unfold lift.
    rewrite rebuild_entries; [reflexivity|reflexivity|congruence]. }
  destruct Run as [L Run]. rewrite app_nil_r in Run. exists L.
  split; [exact Run|]. split; [exact A|]. rewrite B. exact Pn.
Qed.

Lemma mapM_pure {A B : Type} (g : A -> B) (l : list A) :
  mapM (fun x => Ok (g x)) l = Ok (map g l).
Proof.
  induction l as [|x l IH]; [reflexivity|]. cbn [mapM map rbind].
  now rewrite IH.
Qed.

Lemma zip_rows_assoc (a b c : list (list cell)) :
  zip_rows a (zip_rows b c) = zip_rows (zip_rows a b) c.
Proof.
  revert b c. induction a as [|x a IH]; intros [|y b] [|z c];
    try reflexivity.
  cbn [zip_rows]. now rewrite IH, app_assoc.
Qed.

Lemma zip_rows_extends (a b : list (list cell)) :
  length a = length b -> Forall2 extends a (zip_rows a b).
Proof.
  revert b. induction a as [|x a IH]; intros [|y b] H; try discriminate;
    [constructor|].
  cbn [zip_rows]. constructor; [now exists y|]. apply IH. cbn in H. lia.
Qed.

Section Arr_run.

Variable df_qa_names_2_prof_score :
  list cell -> list (list cell) -> result cell.
Variable gene_profile_finder_by_name :
  cell -> list (list cell) -> bool -> result cell.
Hypothesis scorer_total :
  forall names c, exists v, df_qa_names_2_prof_score names c = Ok v.
Hypothesis finder_total :
  forall name c b, exists v, gene_profile_finder_by_name name c b = Ok v.

Variable in_prof_sim_lev : Q.
Variable rng : generator.
Variable d : DataFrame.
Variable ls : list label.
Variable catalogue : list (list cell).
Variables gq ga : list cell.

Hypothesis d_well_formed : well_formed d.
Hypothesis d_GENE_Q : column_values d (LStr "GENE_Q") = Ok gq.
Hypothesis d_GENE_A : column_values d (LStr "GENE_A") = Ok ga.
Hypothesis ls_profiles :
  In (LStr "PROF_Q") ls /\ In (LStr "PROF_A") ls /\ In (LStr "PSS") ls.
Hypothesis ls_not_GENE_Q : ~ In (LStr "GENE_Q") ls.
Hypothesis ls_not_GENE_A : ~ In (LStr "GENE_A") ls.
Hypothesis catalogue_names : Forall (fun i => i <> []) catalogue.
Hypothesis rng_permutes :
  forall i c n, Permutation (rng i c n) (seq 0 n).

Lemma arr_trial_run (dropped : loc) (in_iter : Z) (out f0 : list obj)
  (inst : Ortho_Stats) :
  lookup dropped (mkStore out f0 inst)
  = Some (ODataFrame
            (mkDF (filter (fun c => negb (label_mem c ls)) (columns d))
                  (index d) (map (drop_cells (columns d) ls) (data d)))) ->
  lookup (gene_profiles inst) (mkStore out f0 inst)
  = Some (OList catalogue) ->
  exists c l L,
    prof_arr_perm_f df_qa_names_2_prof_score gene_profile_finder_by_name
                    dropped in_prof_sim_lev rng in_iter
                    (mkStore out f0 inst)
    = (Ok (trial_of (c, in_iter, l)), mkStore out (f0 ++ L) inst) /\
    arr_trial_stored df_qa_names_2_prof_score in_prof_sim_lev d ls
                     catalogue (combine gq ga)
                     (mkStore out (f0 ++ L) inst) (c, in_iter, l).
Proof.
  intros Hdd Hc. destruct d_well_formed as [Wix Wrows].
  destruct ls_profiles as (IQ & IA & IS).
  destruct (column_values_position _ _ _ d_GENE_Q) as [jq [Pq Eq]].
  destruct (column_values_position _ _ _ d_GENE_A) as [ja [Pa Ea]].
  set (rows := data d) in *.
  set (n := length rows).
  set (cdr := filter (fun c => negb (label_mem c ls)) (columns d)) in *.
  set (drows := map (drop_cells (columns d) ls) rows) in *.
  destruct (drop_cells_position _ ls _ _ Pq ls_not_GENE_Q)
    as [jq' [Pq' Nq']].
  destruct (drop_cells_position _ ls _ _ Pa ls_not_GENE_A)
    as [ja' [Pa' Na']].
  fold cdr in Pq', Pa'.
  assert (Ldrows : Forall (fun r => length r = length cdr) drows).
  { unfold drows. rewrite Forall_forall. intros r Hr.
    apply in_map_iff in Hr. destruct Hr as [r0 [<- Hr0]].
    apply drop_cells_length. rewrite Forall_forall in Wrows. now apply Wrows. }
  assert (Ld : length drows = n) by apply length_map.
  assert (Egenes : map (fun r => (nth jq' r VNaN, nth ja' r VNaN)) drows
                   = combine gq ga).
  { rewrite Eq, Ea. unfold col. rewrite combine_map_same.
    unfold drows. rewrite map_map. apply map_ext_in. intros r Hr.
    rewrite Forall_forall in Wrows.
    now rewrite Nq', Na' by (now apply Wrows). }
  destruct (permuted_catalogue_run (rng in_iter O) out f0 inst catalogue
              Hc catalogue_names (rng_permutes _ _ _))
    as (permuted & L1 & RunC & Cprofs & Cnames).
  destruct (mapM_total
              (fun i =>
                 let! v := df_qa_names_2_prof_score [fst i; snd i]
                             permuted in
                 let! pq := gene_profile_finder_by_name
                              (fst i) permuted true in
                 let! pa := gene_profile_finder_by_name
                              (snd i) permuted true in
                 Ok (v, [pq; pa]))
              (combine gq ga)) as [scored [Hsc Lsc]].
  { intros i _.
    destruct (scorer_total [fst i; snd i] permuted) as [v ->].
    destruct (finder_total (fst i) permuted true) as [pq ->].
    destruct (finder_total (snd i) permuted true) as [pa ->].
    cbn [rbind]. eauto. }
  assert (Lg : length (combine gq ga) = n).
  { rewrite <- Egenes. now rewrite length_map. }
  assert (Lsc' : length scored = n) by congruence.
  set (scores := map fst scored).
  assert (Hs : mapM (fun g => df_qa_names_2_prof_score [fst g; snd g]
                                permuted) (combine gq ga) = Ok scores).
  { apply mapM_Forall2. apply mapM_Forall2 in Hsc. unfold scores.
    clear - Hsc. induction Hsc as [|g x gs xs H F IH]; cbn [map];
      constructor; [|exact IH].
    destruct (df_qa_names_2_prof_score [fst g; snd g] permuted) as [v|];
      [|discriminate].
    cbn [rbind] in H.
    destruct (gene_profile_finder_by_name (fst g) permuted true);
      [|discriminate].
    destruct (gene_profile_finder_by_name (snd g) permuted true);
      [|discriminate].
    cbn [rbind] in H. injection H as <-. reflexivity. }
  assert (Fp : Forall (fun r => length r = 2%nat) (map snd scored)).
  { apply mapM_Forall2 in Hsc. apply Forall_map. clear - Hsc.
    induction Hsc as [|g x gs xs H F IH]; constructor; [|exact IH].
    destruct (df_qa_names_2_prof_score [fst g; snd g] permuted);
      [|discriminate].
    cbn [rbind] in H.
    destruct (gene_profile_finder_by_name (fst g) permuted true);
      [|discriminate].
    destruct (gene_profile_finder_by_name (snd g) permuted true);
      [|discriminate].
    cbn [rbind] in H. injection H as <-. reflexivity. }
  assert (Ls : length scores = n) by (unfold scores; now rewrite length_map).
  assert (Lp : length (map snd scored) = n) by (now rewrite length_map).
  destruct (zip_rows_length (length cdr) 2 drows (map snd scored))
    as [LZ FZ]; [congruence|exact Ldrows|exact Fp|].
  set (final := zip_rows (zip_rows drows (map snd scored))
                         (map (fun v => [v]) scores)).
  assert (PS' : position (LStr "PSS")
                  (cdr ++ [LStr "PROF_Q"; LStr "PROF_A"; LStr "PSS"])
                = Some (length cdr + 2)%nat).
  { rewrite position_app_r by (now apply dropped_label). reflexivity. }
  assert (Hdd' : forall L, lookup dropped
                             (mkStore out ((f0 ++ L1) ++ L) inst)
                           = Some (ODataFrame (mkDF cdr (index d) drows))).
  { intros L. apply lookup_app. now apply lookup_app. }
  exists (classify in_prof_sim_lev scores).
  assert (Run : exists L2,
             prof_arr_perm_f df_qa_names_2_prof_score
               gene_profile_finder_by_name dropped in_prof_sim_lev rng
               in_iter (mkStore out f0 inst)
             = (Ok (trial_of (classify in_prof_sim_lev scores, in_iter,
                              Fresh (length f0 + length L1 + 2))),
                mkStore out (f0 ++ (L1 ++ L2)) inst) /\
             nth_error L2 2
             = Some (ODataFrame
                       (mkDF (cdr ++ [LStr "PROF_Q"; LStr "PROF_A";
                                      LStr "PSS"])
                             (index d) final))).
  { eexists. unfold prof_arr_perm_f.
    erewrite run_bind by exact RunC.
    erewrite run_bind
      by (apply run_read_df; rewrite <- (app_nil_r (f0 ++ L1));
          apply Hdd').
    cbn [columns data index].
    erewrite run_bind.
    2:{ apply run_lift.
        rewrite (mapM_ext_in _
                   (fun r => Ok (nth jq' r VNaN, nth ja' r VNaN))).
        2:{ intros r _. unfold tuple_getattr, position_or.
            rewrite Pq', Pa'. reflexivity. }
        rewrite mapM_pure, Egenes. reflexivity. }
    erewrite run_bind by (apply run_lift; exact Hsc).
    rewrite <- (app_nil_r L1) at 1.
    rewrite (app_assoc f0 L1 []).
    erewrite run_bind.
    2:{ apply run_new_df. rewrite <- (map_map fst (fun v => [v])).
        fold scores. apply DataFrame_of_column. now rewrite Wix, Ls. }
    erewrite run_bind.
    2:{ apply run_new_df. unfold DataFrame_of_rows.
        rewrite Wix, Lp. fold n. rewrite Nat.eqb_refl. cbn [andb].
        replace (forallb _ _) with true; [reflexivity|].
        symmetry. apply forallb_forall. intros r Hr.
        rewrite Forall_forall in Fp. rewrite (Fp r Hr). reflexivity. }
    erewrite run_bind.
    2:{ unfold concat3_axis1.
        erewrite run_bind by (apply run_read_df; apply Hdd').
        erewrite run_bind
          by (apply run_read_df; rewrite lookup_fresh; reflexivity).
        erewrite run_bind
          by (apply run_read_df; rewrite lookup_fresh; reflexivity).
        apply run_new_df. unfold hcat. cbn [index columns data].
        rewrite index_eqb_refl. cbn [rbind index columns data app].
        rewrite index_eqb_refl. rewrite zip_rows_assoc. fold final.
        reflexivity. }
    cbn [length app Nat.add].
    erewrite run_bind.
    2:{ unfold count_profiles.
        erewrite run_bind
          by (apply run_read_df; rewrite lookup_fresh; reflexivity).
        unfold column_values. cbn [columns data]. rewrite PS'.
        pose proof (col_zip_rows_last (length cdr + 2)
                      (zip_rows drows (map snd scored)) scores
                      ltac:(congruence) FZ) as E.
        unfold col in E. fold final in E. unfold lift, bind, ret.
        rewrite E. reflexivity. }
    rewrite length_app, <- !app_assoc. cbn [length app].
    split; reflexivity. }
  destruct Run as (L2 & Run & HL).
  exists (Fresh (length f0 + length L1 + 2)), (L1 ++ L2).
  split; [exact Run|].
  exists (mkDF (cdr ++ [LStr "PROF_Q"; LStr "PROF_A"; LStr "PSS"])
               (index d) final), permuted, scores.
  cbn [fst snd index columns data].
  split.
  { rewrite <- Nat.add_assoc, lookup_fresh, nth_error_app2 by lia.
    now replace (length L1 + 2 - length L1)%nat with 2%nat by lia. }
  split; [reflexivity|]. split; [reflexivity|].
  split.
  { unfold final. rewrite <- zip_rows_assoc. apply zip_rows_extends.
    destruct (zip_rows_length 2 1 (map snd scored)
                (map (fun v => [v]) scores)) as [E _].
    - rewrite !length_map. unfold scores. now rewrite length_map.
    - exact Fp.
    - apply Forall_map. apply Forall_forall. reflexivity.
    - rewrite E. congruence. }
  split; [exact Cprofs|]. split; [exact Cnames|].
  split.
  { unfold column_values. cbn [columns data]. rewrite PS'.
    pose proof (col_zip_rows_last (length cdr + 2)
                  (zip_rows drows (map snd scored)) scores
                  ltac:(congruence) FZ) as E.
    unfold col in E. fold final in E. now rewrite E. }
  split; [exact Hs|reflexivity].
Qed.

Lemma arr_pool_run (dropped : loc) (iters : list Z) (out f0 : list obj)
  (inst : Ortho_Stats) :
  lookup dropped (mkStore out f0 inst)
  = Some (ODataFrame
            (mkDF (filter (fun c => negb (label_mem c ls)) (columns d))
                  (index d) (map (drop_cells (columns d) ls) (data d)))) ->
  lookup (gene_profiles inst) (mkStore out f0 inst)
  = Some (OList catalogue) ->
  exists xs L,
    mapM_M (prof_arr_perm_f df_qa_names_2_prof_score
              gene_profile_finder_by_name dropped in_prof_sim_lev rng)
           iters (mkStore out f0 inst)
    = (Ok (map trial_of xs), mkStore out (f0 ++ L) inst) /\
    map (fun x => snd (fst x)) xs = iters /\
    Forall (arr_trial_stored df_qa_names_2_prof_score in_prof_sim_lev d ls
              catalogue (combine gq ga) (mkStore out (f0 ++ L) inst)) xs.
Proof.
  revert f0. induction iters as [|i iters IH]; intros f0 Hdd Hc.
  - exists [], []. rewrite app_nil_r. repeat split. constructor.
  - destruct (arr_trial_run dropped i out f0 inst Hdd Hc)
      as (c & l & L1 & Run & T).
    destruct (IH (f0 ++ L1)) as (xs & L2 & Runs & Is & Ts).
    { now apply lookup_app. }
    { now apply lookup_app. }
    exists ((c, i, l) :: xs), (L1 ++ L2). cbn [mapM_M map fst snd].
    erewrite run_bind by exact Run. erewrite run_bind by exact Runs.
    rewrite app_assoc. split; [reflexivity|].
    split; [now rewrite Is|]. constructor; [|exact Ts].
    destruct T as (d' & permuted & scores & Hl & R).
    exists d', permuted, scores. split; [|exact R].
    now apply lookup_app.
Qed.

End Arr_run.

(** X28.  [prof_arr_perm] with at least one trial returns on a table that
    has the columns it drops and keeps [GENE_Q] and [GENE_A], for a
    catalogue whose entries have a name.  It sets [prof_arr_perm_results],
    one row per trial, and [prof_arr_perm_res_avg], the means of the three
    counts.  The table a trial stores has the labels and the rows of the
    table without the dropped columns, each row extended by two profiles and
    a score; the scores are those of the pairs of genes of the rows on the
    catalogue with its names permuted, and the counts are the counts of
    these scores. *)
Theorem prof_arr_perm_completes
  (df_qa_names_2_prof_score : list cell -> list (list cell) -> result cell)
  (gene_profile_finder_by_name :
     cell -> list (list cell) -> bool -> result cell)
  (in_prof_sim_lev : Q) (rng : generator) (d : DataFrame)
  (catalogue : list (list cell)) (gq ga : list cell) (e_value : Z)
  (s : store) :
  (forall names c, exists v, df_qa_names_2_prof_score names c = Ok v) ->
  (forall name c b, exists v,
      gene_profile_finder_by_name name c b = Ok v) ->
  (forall i c n, Permutation (rng i c n) (seq 0 n)) ->
  lookup (inter_df (instance s)) s = Some (ODataFrame d) ->
  lookup (gene_profiles (instance s)) s = Some (OList catalogue) ->
  well_formed d ->
  column_values d (LStr "GENE_Q") = Ok gq ->
  column_values d (LStr "GENE_A") = Ok ga ->
  (forall l, In l (profile_columns (instance s)) -> In l (columns d)) ->
  ~ In (LStr "GENE_Q") (profile_columns (instance s)) ->
  ~ In (LStr "GENE_A") (profile_columns (instance s)) ->
  Forall (fun i => i <> []) catalogue ->
  1 <= e_value ->
  exists xs L,
    prof_arr_perm df_qa_names_2_prof_score gene_profile_finder_by_name
                  e_value in_prof_sim_lev rng s
    = (Ok tt,
       mkStore (outer s) (fresh s ++ L)
         (mkOrtho (query_species (instance s)) (inter_df (instance s))
            (gene_profiles (instance s)) (perm_results (instance s))
            (Some (DataFrame_of_dicts (map trial_of xs)))
            (Some [("mirror_profiles", mean_of mir_prof_perm_num xs);
                   ("similar_profiles", mean_of sim_prof_perm_num xs);
                   ("unsimilar", mean_of unsim_prof_perm_num xs)])
            (prof_KO_perm_results (instance s))
            (prof_KO_perm_res_avg (instance s)))) /\
    map (fun x => snd (fst x)) xs = range 0 e_value /\
    Forall (arr_trial_stored df_qa_names_2_prof_score in_prof_sim_lev d
              (profile_columns (instance s)) catalogue (combine gq ga)
              (mkStore (outer s) (fresh s ++ L) (instance s))) xs.
Proof.
  intros Hscore Hfind Hrng Hd Hc Hwf Hgq Hga Hcols Hnq Hna Hne He.
  destruct s as [out f0 inst]. cbn [instance outer fresh] in *.
  set (ls := profile_columns inst) in *.
  set (dd := mkDF (filter (fun c => negb (label_mem c ls)) (columns d))
                  (index d) (map (drop_cells (columns d) ls) (data d))).
  assert (Hdd : lookup (Fresh (length f0)) (mkStore out (f0 ++ [ODataFrame dd])
                                              inst)
                = Some (ODataFrame dd)).
  { cbn [lookup fresh]. rewrite nth_error_app2 by lia.
    now rewrite Nat.sub_diag. }
  destruct (arr_pool_run df_qa_names_2_prof_score
              gene_profile_finder_by_name Hscore Hfind in_prof_sim_lev rng
              d ls catalogue gq ga Hwf Hgq Hga
              ltac:(unfold ls, profile_columns; cbn; auto 10)
              Hnq Hna Hne Hrng
              (Fresh (length f0)) (range 0 e_value) out
              (f0 ++ [ODataFrame dd]) inst Hdd
              ltac:(now apply lookup_app))
    as (xs & L & Run & Is & Ts).
  assert (Hx : xs <> []).
  { intros ->. rewrite range_cons in Is by lia. discriminate. }
  pose proof (np_mean_of_trials xs Hx) as (E1 & E2 & E3).
  exists xs, ([ODataFrame dd] ++ L). rewrite app_assoc.
  split; [|split; [exact Is|exact Ts]].
  assert (RunD : drop (inter_df inst) ls (mkStore out f0 inst)
                 = (Ok (Fresh (length f0)),
                    mkStore out (f0 ++ [ODataFrame dd]) inst)).
  { unfold drop. erewrite run_bind by (apply run_read_df; exact Hd).
    unfold new_df, df_drop.
    replace (forallb (fun l => label_mem l (columns d)) ls) with true.
    - reflexivity.
    - symmetry. apply forallb_forall. intros l Hl.
      apply label_mem_iff. now apply Hcols. }
  unfold prof_arr_perm, get_self. unfold bind at 1. cbn [instance].
  fold ls. erewrite run_bind by exact RunD. unfold pool_map.
  erewrite run_bind by exact Run.
  unfold averages. rewrite E1, E2, E3. cbn [rbind].
  unfold set_self, lift, bind. cbn [fst snd instance outer fresh].
  reflexivity.
Qed.

Lemma prof_arr_perm_completes_witness :
  exists xs L,
    prof_arr_perm example_names_scorer example_finder 2 1 example_rng
                  example_store
    = (Ok tt,
       mkStore (outer example_store) (fresh example_store ++ L)
         (mkOrtho (query_species (instance example_store))
            (inter_df (instance example_store))
            (gene_profiles (instance example_store))
            (perm_results (instance example_store))
            (Some (DataFrame_of_dicts (map trial_of xs)))
            (Some [("mirror_profiles", mean_of mir_prof_perm_num xs);
                   ("similar_profiles", mean_of sim_prof_perm_num xs);
                   ("unsimilar", mean_of unsim_prof_perm_num xs)])
            (prof_KO_perm_results (instance example_store))
            (prof_KO_perm_res_avg (instance example_store)))) /\
    map (fun x => snd (fst x)) xs = range 0 2 /\
    Forall (arr_trial_stored example_names_scorer 1 example_inter_df
              (profile_columns (instance example_store))
              example_gene_profiles
              (combine [VStr "ga"; VStr "gb"; VStr "ga"]
                       [VStr "gb"; VStr "gc"; VStr "gc"])
              (mkStore (outer example_store) (fresh example_store ++ L)
                       (instance example_store))) xs.
Proof.
  apply (prof_arr_perm_completes example_names_scorer example_finder 1
           example_rng example_inter_df example_gene_profiles).
  - intros names c. eexists. reflexivity.
  - intros name c b. eexists. reflexivity.
  - intros i c n. apply example_rng_permutes.
  - reflexivity.
  - reflexivity.
  - exact example_well_formed.
  - reflexivity.
  - reflexivity.
  - cbn. intros l H. decompose [or] H; subst; auto 10; contradiction.
  - cbn. intros H. decompose [or] H; discriminate || contradiction.
  - cbn. intros H. decompose [or] H; discriminate || contradiction.
  - repeat constructor; discriminate.
  - lia.
Defined.

(** ** [groupby(...)[col].apply(list)] *)

Lemma gather_fst (k v : cell) (groups : list (cell * list cell)) :
  map fst (gather k v groups)
  = map fst (bump k (map (fun g => (fst g, 0)) groups)).
Proof.
  induction groups as [|[k' vs] groups IH]; [reflexivity|].
  cbn [gather bump map fst]. destruct (cell_cmp k k'); cbn [map fst].
  - now rewrite map_map.
  - now rewrite map_map.
  - now rewrite IH.
Qed.

Lemma ranked_keys (r : Z) (groups : list (cell * list cell)) :
  Forall (fun g => cell_rank (fst g) = r) groups ->
  Forall (fun b : cell * Z => cell_rank (fst b) = r)
         (map (fun g => (fst g, 0)) groups).
Proof. intros H. apply Forall_map. exact H. Qed.

Lemma gather_keys (k v : cell) (groups : list (cell * list cell)) (r : Z) :
  r = 1 \/ r = 2 \/ r = 3 -> cell_rank k = r ->
  Forall (fun g => cell_rank (fst g) = r) groups ->
  forall x, In x (map fst (gather k v groups))
            <-> x = k \/ In x (map fst groups).
Proof.
  intros Hr Hk F x. rewrite gather_fst.
  rewrite (bump_keys k _ r Hr Hk (ranked_keys r groups F)).
  now rewrite map_map.
Qed.

Lemma gather_rank (k v : cell) (groups : list (cell * list cell)) (r : Z) :
  cell_rank k = r ->
  Forall (fun g => cell_rank (fst g) = r) groups ->
  Forall (fun g => cell_rank (fst g) = r) (gather k v groups).
Proof.
  intros Hk. induction 1 as [|[k' c] groups Fk' F' IH]; cbn [gather].
  - constructor; auto.
  - destruct (cell_cmp k k'); repeat constructor; auto.
Qed.

Lemma gather_sorted (k v : cell) (groups : list (cell * list cell))
  (r : Z) :
  r = 1 \/ r = 2 \/ r = 3 -> cell_rank k = r ->
  Forall (fun g => cell_rank (fst g) = r) groups ->
  StronglySorted cell_lt (map fst groups) ->
  StronglySorted cell_lt (map fst (gather k v groups)).
Proof.
  intros Hr Hk F S. rewrite gather_fst.
  apply (bump_sorted k _ r Hr Hk (ranked_keys r groups F)).
  now rewrite map_map.
Qed.

Lemma group_values_cons (k k' : cell) (vs : list cell)
  (groups : list (cell * list cell)) :
  group_values k ((k', vs) :: groups)
  = if cell_eqb k k' then vs else group_values k groups.
Proof. unfold group_values. cbn. destruct (cell_eqb k k'); reflexivity. Qed.

Lemma group_values_absent (k : cell) (groups : list (cell * list cell)) :
  ~ In k (map fst groups) -> group_values k groups = [].
Proof.
  induction groups as [|[k' c] groups IH]; intros H; [reflexivity|].
  rewrite group_values_cons. destruct (cell_eqb k k') eqn:E.
  - apply cell_eqb_eq in E. subst. cbn in H. tauto.
  - apply IH. cbn in H. tauto.
Qed.

Lemma gather_values (k v x : cell) (groups : list (cell * list cell))
  (r : Z) :
  r = 1 \/ r = 2 \/ r = 3 -> cell_rank k = r ->
  Forall (fun g => cell_rank (fst g) = r) groups ->
  StronglySorted cell_lt (map fst groups) ->
  group_values x (gather k v groups)
  = group_values x groups ++ (if cell_eqb x k then [v] else []).
Proof.
  intros Hr Hk. induction groups as [|[k' c] groups IH]; intros F S.
  - cbn [gather]. rewrite group_values_cons. unfold group_values. cbn.
    destruct (cell_eqb x k); reflexivity.
  - apply Forall_cons_iff in F as [Fk' F']. cbn [fst] in Fk'.
    cbn [map fst] in S. apply StronglySorted_inv in S as [S' L].
    cbn [gather]. destruct (cell_cmp k k') eqn:E.
    + apply (cell_cmp_eq r _ _ Hr Hk Fk') in E. subst k'.
      rewrite !group_values_cons.
      destruct (cell_eqb x k); [reflexivity|now rewrite app_nil_r].
    + rewrite !group_values_cons. destruct (cell_eqb x k) eqn:Exk;
        [|now rewrite app_nil_r].
      apply cell_eqb_eq in Exk. subst x.
      destruct (cell_eqb k k') eqn:Ekk'.
      { apply cell_eqb_eq in Ekk'. subst k'.
        destruct (cell_cmp_irrefl _ E). }
      rewrite group_values_absent; [reflexivity|].
      apply sorted_lt_not_in. eapply Forall_impl; [|exact L].
      intros y Hy. exact (cell_cmp_lt_trans _ _ _ E Hy).
    + rewrite !group_values_cons. destruct (cell_eqb x k') eqn:Exk'.
      * apply cell_eqb_eq in Exk'. subst x.
        destruct (cell_eqb k' k) eqn:Ek'k; [|now rewrite app_nil_r].
        apply cell_eqb_eq in Ek'k. subst k'.
        pose proof (cell_cmp_antisym k k) as A. rewrite E in A. cbn in A.
        congruence.
      * now apply IH.
Qed.

Lemma values_of_app (k : cell) (l : list (cell * cell)) (x : cell * cell) :
  values_of k (l ++ [x])
  = values_of k l ++ (if cell_eqb k (fst x) then [snd x] else []).
Proof.
  unfold values_of. rewrite filter_app, map_app. cbn [filter].
  destruct (cell_eqb k (fst x)); reflexivity.
Qed.

(** What the loop of [groupby_apply_list] keeps, [seen] being the rows so
    far. *)
Lemma gather_fold (r : Z) (rows seen : list (cell * cell))
  (groups : list (cell * list cell)) :
  r = 1 \/ r = 2 \/ r = 3 ->
  Forall (fun c => is_nan c = true \/ cell_rank c = r) (map fst rows) ->
  Forall (fun g => cell_rank (fst g) = r) groups ->
  StronglySorted cell_lt (map fst groups) ->
  (forall x, In x (map fst groups)
             <-> In x (map fst seen) /\ is_nan x = false) ->
  (forall x, is_nan x = false -> group_values x groups = values_of x seen) ->
  let out := fold_left (fun groups kv =>
                          if is_nan (fst kv) then groups
                          else gather (fst kv) (snd kv) groups)
                       rows groups in
  StronglySorted cell_lt (map fst out) /\
  (forall x, In x (map fst out)
             <-> In x (map fst (seen ++ rows)) /\ is_nan x = false) /\
  (forall x, is_nan x = false ->
             group_values x out = values_of x (seen ++ rows)).
Proof.
  intros Hr. revert seen groups.
  induction rows as [|[k v] rows IH]; intros seen groups K F S I C.
  - cbn. rewrite app_nil_r. auto.
  - cbn [map fst] in K. apply Forall_cons_iff in K as [Kk K'].
    cbn [fold_left fst snd].
    replace (seen ++ (k, v) :: rows) with ((seen ++ [(k, v)]) ++ rows)
      by (rewrite <- app_assoc; reflexivity).
    destruct (is_nan k) eqn:N.
    + apply IH; auto.
      * intros x. rewrite I, map_app, in_app_iff. cbn. split; [tauto|].
        intros [[H|[H|[]]] Hx]; [tauto|]. subst. congruence.
      * intros x Nx. rewrite (C x Nx), values_of_app. cbn [fst snd].
        destruct (cell_eqb x k) eqn:E; [|now rewrite app_nil_r].
        apply cell_eqb_eq in E. subst. congruence.
    + destruct Kk as [Kk|Kk]; [congruence|].
      apply IH; auto.
      * now apply gather_rank.
      * now apply (gather_sorted k v groups r).
      * intros x.
        rewrite (gather_keys k v groups r Hr Kk F), I, map_app, in_app_iff.
        cbn. split.
        -- intros [->|[H1 H2]]; auto.
        -- intros [[H|[H|[]]] Hx]; auto.
      * intros x Nx.
        rewrite (gather_values k v x groups r Hr Kk F S), (C x Nx),
          values_of_app.
        reflexivity.
Qed.

Lemma group_values_of_member (g : cell * list cell)
  (groups : list (cell * list cell)) :
  StronglySorted cell_lt (map fst groups) ->
  In g groups -> group_values (fst g) groups = snd g.
Proof.
  induction groups as [|[k' vs] groups IH]; intros S H; [destruct H|].
  cbn [map fst] in S. apply StronglySorted_inv in S as [S' L].
  rewrite group_values_cons. destruct H as [<-|H].
  - cbn [fst snd]. now rewrite cell_eqb_refl.
  - destruct (cell_eqb (fst g) k') eqn:E; [|now apply IH].
    apply cell_eqb_eq in E. subst k'. exfalso.
    apply (sorted_lt_not_in _ _ L). apply in_map_iff. now exists g.
Qed.

(** X29.  With [squeeze], [get_KOs_db_X_ref] leaves one row per [KEGG_ID] of
    the table read, the identifiers in ascending order and each once; the
    list of a row is not empty and holds the [ORG_GENE_ID] of the rows with
    that identifier, all of them and in the order of the rows.  Rows without
    an identifier are left out. *)
Theorem get_KOs_db_X_ref_squeezed (d : DataFrame) (ks vs : list cell) :
  column_values d (LStr "KEGG_ID") = Ok ks ->
  column_values d (LStr "ORG_GENE_ID") = Ok vs ->
  uniform_keys ks ->
  exists groups,
    get_KOs_db_X_ref_squeeze true d
    = Ok (mkDF [LStr "KEGG_ID"; LStr "ORG_GENE_ID"]
               (range 0 (Z.of_nat (length groups)))
               (map (fun g => [fst g; VList (snd g)]) groups)) /\
    StronglySorted cell_lt (map fst groups) /\
    (forall k, In k (map fst groups) <-> In k ks /\ is_nan k = false) /\
    (forall g, In g groups ->
               snd g <> [] /\ snd g = values_of (fst g) (combine ks vs)).
Proof.
  intros Hk Hv [r [Hr K]].
  assert (L : length ks = length vs).
  { destruct (column_values_position _ _ _ Hk) as [j [_ ->]].
    destruct (column_values_position _ _ _ Hv) as [j' [_ ->]].
    unfold col. now rewrite !length_map. }
  assert (Ek : map fst (combine ks vs) = ks) by (now apply map_fst_combine).
  destruct (gather_fold r (combine ks vs) [] [] Hr) as (S & I & C).
  - now rewrite Ek.
  - constructor.
  - constructor.
  - cbn. tauto.
  - reflexivity.
  - cbn [app] in I, C. fold (groupby_apply_list (combine ks vs)) in S, I, C.
    exists (groupby_apply_list (combine ks vs)).
    unfold get_KOs_db_X_ref_squeeze. rewrite Hk, Hv. cbn [rbind].
    split; [reflexivity|]. split; [exact S|]. split.
    + intros k. rewrite I, Ek. tauto.
    + intros g Hg.
      assert (Ig : In (fst g) (map fst (groupby_apply_list (combine ks vs)))).
      { apply in_map_iff. now exists g. }
      apply I in Ig. destruct Ig as [Ig Ng].
      assert (E : snd g = values_of (fst g) (combine ks vs)).
      { rewrite <- (C (fst g) Ng). symmetry.
        now apply group_values_of_member. }
      split; [|exact E]. rewrite E. unfold values_of.
      apply in_map_iff in Ig. destruct Ig as [[k v] [Ekv Hin]].
      cbn [fst] in Ekv.
      assert (In (k, v) (filter (fun kv => cell_eqb (fst g) (fst kv))
                                (combine ks vs))).
      { apply filter_In. split; [exact Hin|]. cbn [fst]. rewrite Ekv.
        apply cell_eqb_refl. }
      intros Hnil. apply (f_equal (@length cell)) in Hnil.
      rewrite length_map in Hnil.
      destruct (filter _ (combine ks vs)); [contradiction|discriminate].
Qed.

Lemma get_KOs_db_X_ref_squeezed_witness :
  exists groups,
    get_KOs_db_X_ref_squeeze true example_KOs
    = Ok (mkDF [LStr "KEGG_ID"; LStr "ORG_GENE_ID"]
               (range 0 (Z.of_nat (length groups)))
               (map (fun g => [fst g; VList (snd g)]) groups)) /\
    StronglySorted cell_lt (map fst groups) /\
    (forall k, In k (map fst groups)
               <-> In k [VStr "K2"; VStr "K1"; VStr "K2"; VStr "K1"]
                   /\ is_nan k = false) /\
    (forall g, In g groups ->
               snd g <> [] /\
               snd g = values_of (fst g)
                         (combine [VStr "K2"; VStr "K1"; VStr "K2"; VStr "K1"]
                                  [VStr "sce"; VStr "eco"; VStr "hsa";
                                   VStr "sce"])).
Proof.
  apply (get_KOs_db_X_ref_squeezed example_KOs).
  - reflexivity.
  - reflexivity.
  - exists 3. split; [auto|]. repeat constructor; right; reflexivity.
Defined.

(** ** The columns the permutations drop *)

Lemma run_bind_raise {A B : Type} (m : M A) (f : A -> M B) (s s' : store)
  (e : pyerror) :
  m s = (Raise e, s') -> bind m f s = (Raise e, s').
Proof. intros H. unfold bind. now rewrite H. Qed.

Lemma df_drop_missing (d : DataFrame) (ls : list label) (l : label) :
  In l ls -> ~ In l (columns d) -> df_drop d ls = Raise KeyError.
Proof.
  intros Hl Hn. unfold df_drop.
  replace (forallb (fun l0 => label_mem l0 (columns d)) ls) with false;
    [reflexivity|].
  symmetry. apply not_true_is_false. intros H.
  rewrite forallb_forall in H. apply Hn. apply label_mem_iff. now apply H.
Qed.

Lemma drop_missing_raises (df : loc) (d : DataFrame) (ls : list label)
  (l : label) (s : store) :
  lookup df s = Some (ODataFrame d) ->
  In l ls -> ~ In l (columns d) ->
  drop df ls s = (Raise KeyError, s).
Proof.
  intros Hd Hl Hn. unfold drop.
  erewrite run_bind by (apply run_read_df; exact Hd).
  unfold new_df. rewrite (df_drop_missing d ls l Hl Hn). reflexivity.
Qed.

Section Missing_columns.

Variable simple_profiles_scorer : cell -> cell -> result cell.
Variable df_qa_names_2_prof_score :
  list cell -> list (list cell) -> result cell.
Variable gene_profile_finder_by_name :
  cell -> list (list cell) -> bool -> result cell.

Lemma getitem_outcome (df : loc) (d : DataFrame) (l : label)
  (out f0 L : list obj) (inst : Ortho_Stats) :
  lookup df (mkStore out (f0 ++ L) inst) = Some (ODataFrame d) ->
  (exists e, getitem df l (mkStore out (f0 ++ L) inst)
             = (Raise e, mkStore out (f0 ++ L) inst)) \/
  (exists x o, getitem df l (mkStore out (f0 ++ L) inst)
               = (Ok x, mkStore out (f0 ++ (L ++ [o])) inst)).
Proof.
  intros Hd. unfold getitem.
  erewrite run_bind by (apply run_read_df; exact Hd).
  destruct (df_getitem d l) as [x|e] eqn:E.
  - right. eexists _, _. now apply run_new_series.
  - left. exists e. reflexivity.
Qed.

Lemma prof_cols_trial_raises (in_prof_sim_lev : Q) (rng : generator)
  (in_iter : Z) (d : DataFrame) (l : label) (out f0 : list obj)
  (inst : Ortho_Stats) :
  lookup (inter_df inst) (mkStore out f0 inst) = Some (ODataFrame d) ->
  In l (profile_columns inst) -> ~ In l (columns d) ->
  exists e L,
    prof_cols_perm_f simple_profiles_scorer in_prof_sim_lev rng in_iter
                     (mkStore out f0 inst)
    = (Raise e, mkStore out (f0 ++ L) inst).
Proof.
  intros Hd Hl Hn.
  assert (Hd' : forall L, lookup (inter_df inst) (mkStore out (f0 ++ L) inst)
                          = Some (ODataFrame d)).
  { intros L. now apply lookup_app. }
  assert (Run : exists e L,
             prof_cols_perm_f simple_profiles_scorer in_prof_sim_lev rng
               in_iter (mkStore out (f0 ++ []) inst)
             = (Raise e, mkStore out (f0 ++ L) inst)).
  { unfold prof_cols_perm_f, get_self. unfold bind at 1. cbn [instance].
    destruct (getitem_outcome (inter_df inst) d (LStr "PROF_Q") out f0 []
                inst (Hd' [])) as [[e E]|(x & o & E)].
    { exists e, []. now apply run_bind_raise. }
    erewrite run_bind by exact E.
    destruct (getitem_outcome (inter_df inst) d (LStr "PROF_A") out f0
                ([] ++ [o]) inst (Hd' _)) as [[e E']|(x' & o' & E')].
    { exists e, ([] ++ [o]). now apply run_bind_raise. }
    erewrite run_bind by exact E'.
    exists KeyError, (([] ++ [o]) ++ [o']). apply run_bind_raise.
    apply (drop_missing_raises _ d _ l); auto. }
  rewrite app_nil_r in Run. exact Run.
Qed.

(** X30.  When the interaction table lacks one of the columns that
    [prof_arr_perm] and [prof_cols_perm] drop ([PROF_Q], [PROF_A], [PSS] or
    a column of a query species): [prof_arr_perm] raises for every
    [e_value], also without a trial, and changes nothing; [prof_cols_perm]
    raises in its first trial and sets no attribute, but returns when there
    is no trial. *)
Theorem permutations_need_the_dropped_columns (in_prof_sim_lev : Q)
  (rng : generator) (s : store) (d : DataFrame) (l : label) :
  lookup (inter_df (instance s)) s = Some (ODataFrame d) ->
  In l (profile_columns (instance s)) ->
  ~ In l (columns d) ->
  (forall e_value,
      exists e,
        prof_arr_perm df_qa_names_2_prof_score gene_profile_finder_by_name
                      e_value in_prof_sim_lev rng s = (Raise e, s)) /\
  (forall e_value, 1 <= e_value ->
      exists e s',
        prof_cols_perm simple_profiles_scorer e_value in_prof_sim_lev rng s
        = (Raise e, s') /\
        instance s' = instance s /\ outer s' = outer s) /\
  (forall e_value, e_value <= 0 ->
      fst (prof_cols_perm simple_profiles_scorer e_value in_prof_sim_lev
                          rng s) = Ok tt).
Proof.
  intros Hd Hl Hn. split; [|split].
  - intros e_value. exists KeyError.
    unfold prof_arr_perm, get_self. unfold bind at 1.
    apply run_bind_raise. now apply (drop_missing_raises _ d _ l).
  - intros e_value He. destruct s as [out f0 inst].
    cbn [instance outer] in *.
    destruct (prof_cols_trial_raises in_prof_sim_lev rng 0 d l out f0 inst
                Hd Hl Hn) as (e & L & E).
    exists e, (mkStore out (f0 ++ L) inst).
    split; [|split; reflexivity].
    unfold prof_cols_perm, pool_map. rewrite range_cons by lia.
    apply run_bind_raise. cbn [mapM_M]. now apply run_bind_raise.
  - intros e_value He. unfold prof_cols_perm, pool_map.
    rewrite range_empty by lia. reflexivity.
Qed.

End Missing_columns.

Lemma permutations_need_the_dropped_columns_witness :
  (forall e_value,
      exists e,
        prof_arr_perm example_names_scorer example_finder e_value 1
                      example_rng example_species_store
        = (Raise e, example_species_store)) /\
  (forall e_value, 1 <= e_value ->
      exists e s',
        prof_cols_perm example_scorer e_value 1 example_rng
                       example_species_store
        = (Raise e, s') /\
        instance s' = instance example_species_store /\
        outer s' = outer example_species_store) /\
  (forall e_value, e_value <= 0 ->
      fst (prof_cols_perm example_scorer e_value 1 example_rng
                          example_species_store) = Ok tt).
Proof.
  apply (permutations_need_the_dropped_columns example_scorer
           example_names_scorer example_finder 1 example_rng
           example_species_store example_inter_df (LStr "hsa_Q")).
  - reflexivity.
  - cbn. auto 10.
  - cbn. intros H. decompose [or] H; discriminate || contradiction.
Defined.
